(** * Visual_Policy: the validation and policy-assembly engine of
    [policy-generator.js], embedded in Rocq.

    Strings are JavaScript strings: finite sequences of UTF-16 code units,
    here [list N].  Regular-expression literals of the source are kept as
    data ([regex]) and run by a derivative matcher.  Validators that push
    onto [errors]/[warnings] arrays are written as transformers of a log
    holding both arrays. *)

From Stdlib Require Import String Ascii DecimalString DecimalN DecimalFacts.
From Stdlib Require Import Bool Arith NArith ZArith QArith Qround Lia List.
Import ListNotations.

Set Implicit Arguments.
Close Scope Q_scope.
Local Open Scope nat_scope.
Local Open Scope list_scope.

(* ================================================================== *)
(** * JavaScript strings *)
(* ================================================================== *)

Definition char := N.
Definition jsstring := list char.

(** [ch "a"] is the code unit of an ASCII character. *)
Definition ch (a : ascii) : char := N_of_ascii a.

(** [lit "text"] is the JavaScript string with the same ASCII characters. *)
Definition lit (s : string) : jsstring := List.map ch (list_ascii_of_string s).

(** The double quote, written apart inside message templates. *)
Definition dq : jsstring := [34%N].

Module JS.

Fixpoint eqb (s t : jsstring) : bool :=
  match s, t with
  | [], [] => true
  | c :: s', d :: t' => N.eqb c d && eqb s' t'
  | _, _ => false
  end.

(** [s.startsWith(p)] *)
Fixpoint startsWith (s p : jsstring) {struct p} : bool :=
  match p, s with
  | [], _ => true
  | d :: p', c :: s' => N.eqb c d && startsWith s' p'
  | _ :: _, [] => false
  end.

(** [s.endsWith(p)] *)
Definition endsWith (s p : jsstring) : bool :=
  startsWith (rev s) (rev p).

(** [s.includes(sub)] *)
Fixpoint includes (s sub : jsstring) : bool :=
  startsWith s sub ||
  match s with
  | [] => false
  | _ :: s' => includes s' sub
  end.

(** [s.split(sep)] for a one-character separator. *)
Fixpoint split (sep : char) (s : jsstring) : list jsstring :=
  match s with
  | [] => [[]]
  | c :: s' =>
      if N.eqb c sep then [] :: split sep s'
      else match split sep s' with
           | [] => [[c]]
           | p :: ps => (c :: p) :: ps
           end
  end.

(** [parts.join(sep)] *)
Fixpoint join (sep : jsstring) (parts : list jsstring) : jsstring :=
  match parts with
  | [] => []
  | [p] => p
  | p :: ps => p ++ sep ++ join sep ps
  end.

(** [s.substring(n)] and [parts.slice(n)] with one argument. *)
Definition substring (n : nat) (s : jsstring) : jsstring := skipn n s.
Definition slice {A} (n : nat) (l : list A) : list A := skipn n l.

(** White space and line terminators removed by [String.prototype.trim]. *)
Definition isWhiteSpace (c : char) : bool :=
  ((9 <=? c) && (c <=? 13) || (c =? 32) || (c =? 160) || (c =? 5760)
   || (8192 <=? c) && (c <=? 8202) || (c =? 8232) || (c =? 8233)
   || (c =? 8239) || (c =? 8287) || (c =? 12288) || (c =? 65279))%N.

Fixpoint trimStart (s : jsstring) : jsstring :=
  match s with
  | c :: s' => if isWhiteSpace c then trimStart s' else s
  | [] => []
  end.

Definition trimEnd (s : jsstring) : jsstring := rev (trimStart (rev s)).

(** [s.trim()] *)
Definition trim (s : jsstring) : jsstring := trimEnd (trimStart s).

(** [list.includes(x)] for an array of strings. *)
Definition arrayIncludes (l : list jsstring) (x : jsstring) : bool :=
  existsb (eqb x) l.

(** Decimal rendering of a non-negative integer below 1e21, as
    [Number.prototype.toString] and template literals print it. *)
Definition ofNat (n : N) : jsstring :=
  lit (NilZero.string_of_uint (N.to_uint n)).

End JS.

(* ================================================================== *)
(** * Regular expressions *)
(* ================================================================== *)

Inductive regex : Type :=
| Never
| Eps
| Class (p : char -> bool)
| Cat (r1 r2 : regex)
| Alt (r1 r2 : regex)
| Star (r : regex).

Module RegExp.

Fixpoint nullable (r : regex) : bool :=
  match r with
  | Never => false
  | Eps => true
  | Class _ => false
  | Cat r1 r2 => nullable r1 && nullable r2
  | Alt r1 r2 => nullable r1 || nullable r2
  | Star _ => true
  end.

Fixpoint deriv (c : char) (r : regex) : regex :=
  match r with
  | Never => Never
  | Eps => Never
  | Class p => if p c then Eps else Never
  | Cat r1 r2 =>
      if nullable r1
      then Alt (Cat (deriv c r1) r2) (deriv c r2)
      else Cat (deriv c r1) r2
  | Alt r1 r2 => Alt (deriv c r1) (deriv c r2)
  | Star r1 => Cat (deriv c r1) (Star r1)
  end.

(** The whole of [s] is a word of [r]. *)
Fixpoint matches (r : regex) (s : jsstring) : bool :=
  match s with
  | [] => nullable r
  | c :: s' => matches (deriv c r) s'
  end.

(** Character classes. *)
Definition range (lo hi : ascii) (c : char) : bool :=
  (ch lo <=? c)%N && (c <=? ch hi)%N.
Definition one (a : ascii) (c : char) : bool := (c =? ch a)%N.
Definition anyChar (c : char) : bool := true.
(** [.] without the [s] flag: anything but a line terminator. *)
Definition dot (c : char) : bool :=
  negb ((c =? 10) || (c =? 13) || (c =? 8232) || (c =? 8233))%N.
(** [\d] *)
Definition digit : char -> bool := range "0" "9".
Definition orC (p q : char -> bool) (c : char) : bool := p c || q c.

(** Derived forms. *)
Definition plus (r : regex) : regex := Cat r (Star r).
Definition opt (r : regex) : regex := Alt r Eps.
Fixpoint rep (n : nat) (r : regex) : regex :=
  match n with
  | O => Eps
  | S n' => Cat r (rep n' r)
  end.
(** [r{lo,lo+extra}] *)
Fixpoint repUpTo (extra : nat) (r : regex) : regex :=
  match extra with
  | O => Eps
  | S n' => opt (Cat r (repUpTo n' r))
  end.
Definition repRange (lo extra : nat) (r : regex) : regex :=
  Cat (rep lo r) (repUpTo extra r).
(** A literal word. *)
Fixpoint word (s : jsstring) : regex :=
  match s with
  | [] => Eps
  | c :: s' => Cat (Class (N.eqb c)) (word s')
  end.

(** A regular-expression literal: its body and whether it opens with [^]
    and closes with [$] (no flags are used by the source). *)
Record t := mk { anchoredStart : bool; body : regex; anchoredEnd : bool }.

Definition anywhere : regex := Star (Class anyChar).

(** [re.test(s)]: some substring of [s] is a word of the body, reaching
    the start (the end) of [s] when the literal is anchored there. *)
Definition test (re : t) (s : jsstring) : bool :=
  matches
    (Cat (if anchoredStart re then Eps else anywhere)
         (Cat (body re) (if anchoredEnd re then Eps else anywhere)))
    s.

End RegExp.

Import RegExp.

(* ================================================================== *)
(** * Bucket name validation ([validateBucketName], lines 33-98) *)
(* ================================================================== *)

Record BucketVerdict := mkBucketVerdict {
  bucket_isValid : bool;
  bucket_errors : list jsstring
}.

(** [a-z0-9] and [a-z0-9.-] *)
Definition lowerAlnum : char -> bool := orC (range "a" "z") (range "0" "9").
Definition bucketChar : char -> bool :=
  orC lowerAlnum (orC (one ".") (one "-")).

(** [/^[a-z0-9.-]+$/] *)
Definition re_bucket_charset : RegExp.t :=
  RegExp.mk true (plus (Class bucketChar)) true.
(** [/^[a-z0-9]/] *)
Definition re_bucket_first : RegExp.t :=
  RegExp.mk true (Class lowerAlnum) false.
(** [/[a-z0-9]$/] *)
Definition re_bucket_last : RegExp.t :=
  RegExp.mk false (Class lowerAlnum) true.
(** [/^(\d{1,3}\.){3}\d{1,3}$/] *)
Definition re_ip_address : RegExp.t :=
  RegExp.mk true
    (Cat (rep 3 (Cat (repRange 1 2 (Class digit)) (Class (one "."))))
         (repRange 1 2 (Class digit)))
    true.
(** [/[A-Z]/] *)
Definition re_uppercase : RegExp.t :=
  RegExp.mk false (Class (range "A" "Z")) false.

Definition push (msgs : list jsstring) (m : jsstring) : list jsstring :=
  msgs ++ [m].

Definition validateBucketName (bucketName : jsstring) : BucketVerdict :=
  let errors := [] in
  (* Rule 1 *)
  let errors :=
    if length bucketName <? 3
    then push errors (lit "Bucket name must be at least 3 characters long")
    else errors in
  let errors :=
    if 63 <? length bucketName
    then push errors (lit "Bucket name cannot exceed 63 characters")
    else errors in
  (* Rule 2 *)
  let errors :=
    if negb (test re_bucket_charset bucketName)
    then push errors (lit "Bucket name can only contain lowercase letters, numbers, dots (.), and hyphens (-)")
    else errors in
  (* Rule 3 *)
  let errors :=
    if negb (test re_bucket_first bucketName)
    then push errors (lit "Bucket name must begin with a lowercase letter or number")
    else errors in
  let errors :=
    if negb (test re_bucket_last bucketName)
    then push errors (lit "Bucket name must end with a lowercase letter or number")
    else errors in
  (* Rule 4 *)
  let errors :=
    if test re_ip_address bucketName
    then push errors (lit "Bucket name cannot be formatted as an IP address (e.g., 192.168.1.1)")
    else errors in
  (* Rule 5 *)
  let errors :=
    if JS.startsWith bucketName (lit "xn--")
    then push errors (lit "Bucket name cannot start with " ++ dq ++ lit "xn--" ++ dq)
    else errors in
  (* Rule 6 *)
  let errors :=
    if JS.endsWith bucketName (lit "-s3alias")
    then push errors (lit "Bucket name cannot end with " ++ dq ++ lit "-s3alias" ++ dq)
    else errors in
  (* Rule 7 *)
  let errors :=
    if JS.includes bucketName (lit "..")
    then push errors (lit "Bucket name cannot contain two adjacent periods (..)")
    else errors in
  (* Rule 8 *)
  let errors :=
    if JS.includes bucketName (lit ".-") || JS.includes bucketName (lit "-.")
    then push errors (lit "Bucket name cannot have a period adjacent to a hyphen")
    else errors in
  (* Rule 9 *)
  let errors :=
    if test re_uppercase bucketName
    then push errors (lit "Bucket name cannot contain uppercase letters")
    else errors in
  (* Rule 10 *)
  let errors :=
    if JS.includes bucketName (lit "_")
    then push errors (lit "Bucket name cannot contain underscores (_)")
    else errors in
  {| bucket_isValid := length errors =? 0; bucket_errors := errors |}.


(* ================================================================== *)
(** * Verdicts and the message log *)
(* ================================================================== *)

(** [{ isValid, errors, warnings }] *)
Record Verdict := mkVerdict {
  isValid : bool;
  errors : list jsstring;
  warnings : list jsstring
}.

(** The two arrays a validator pushes onto. *)
Record Log := mkLog {
  log_errors : list jsstring;
  log_warnings : list jsstring
}.

Definition emptyLog : Log := mkLog [] [].

(** [errors.push(m)] and [warnings.push(m)] *)
Definition pushError (m : jsstring) (l : Log) : Log :=
  mkLog (push (log_errors l) m) (log_warnings l).
Definition pushWarning (m : jsstring) (l : Log) : Log :=
  mkLog (log_errors l) (push (log_warnings l) m).

(** A block of statements either executes [return v] or falls through to
    the next statement with the arrays as it left them. *)
Inductive Step :=
| Return (v : Verdict)
| Continue (l : Log).

Definition andThen (s : Step) (k : Log -> Step) : Step :=
  match s with
  | Return v => Return v
  | Continue l => k l
  end.

Notation "s >>> k" := (andThen s k) (at level 61, left associativity).

(** [return { isValid: errors.length === 0, errors: errors, warnings: warnings }] *)
Definition returnLog (l : Log) : Verdict :=
  mkVerdict (length (log_errors l) =? 0) (log_errors l) (log_warnings l).

(* ================================================================== *)
(** * Values that may be [undefined] ([parts[i]]) *)
(* ================================================================== *)

Module Opt.
(** [x === s] for [x] a string or [undefined]. *)
Definition strictEq (x : option jsstring) (s : jsstring) : bool :=
  match x with
  | Some t => JS.eqb t s
  | None => false
  end.
(** Truthiness: [undefined] and the empty string are falsy. *)
Definition truthy (x : option jsstring) : bool :=
  match x with
  | Some (_ :: _) => true
  | _ => false
  end.
(** [x.length === 0], reached only for a string. *)
Definition isEmpty (x : option jsstring) : bool :=
  match x with
  | Some t => length t =? 0
  | None => false
  end.
(** [`${x}`] *)
Definition toString (x : option jsstring) : jsstring :=
  match x with
  | Some t => t
  | None => lit "undefined"
  end.
(** [list.includes(x)] *)
Definition memberOf (l : list jsstring) (x : option jsstring) : bool :=
  match x with
  | Some t => JS.arrayIncludes l t
  | None => false
  end.
(** [re.test(x)]: [undefined] is converted to the string "undefined". *)
Definition test (re : RegExp.t) (x : option jsstring) : bool :=
  RegExp.test re (toString x).
End Opt.

(** Truthiness of a string. *)
Definition truthyString (s : jsstring) : bool :=
  match s with
  | [] => false
  | _ :: _ => true
  end.

(* ================================================================== *)
(** * Principal validation ([validatePrincipalARN], lines 131-314) *)
(* ================================================================== *)

Definition hexLower : char -> bool := orC (range "a" "f") (range "0" "9").
Definition serviceChar : char -> bool := orC lowerAlnum (one "-").

(** [/^[a-f0-9]{64}$/] *)
Definition re_canonical_id : RegExp.t :=
  RegExp.mk true (rep 64 (Class hexLower)) true.

(** [/^[a-z0-9-]+\.(amazonaws\.com|amazon\.com)$/] *)
Definition re_service_principal : RegExp.t :=
  RegExp.mk true
    (Cat (plus (Class serviceChar))
         (Cat (Class (one "."))
              (Alt (word (lit "amazonaws.com")) (word (lit "amazon.com")))))
    true.

(** [/^arn:(aws|aws-cn|aws-us-gov):([a-z0-9-]+):(R):([0-9]{12}|):(.+)$/]
    where the third group [R] is [[a-z0-9-]*]. *)
Definition arnRegex : RegExp.t :=
  RegExp.mk true
    (Cat (word (lit "arn:"))
    (Cat (Alt (word (lit "aws")) (Alt (word (lit "aws-cn")) (word (lit "aws-us-gov"))))
    (Cat (Class (one ":"))
    (Cat (plus (Class serviceChar))
    (Cat (Class (one ":"))
    (Cat (Star (Class serviceChar))
    (Cat (Class (one ":"))
    (Cat (Alt (rep 12 (Class (range "0" "9"))) Eps)
    (Cat (Class (one ":"))
         (plus (Class dot)))))))))))
    true.

(** [/^\d{12}$/] *)
Definition re_twelve_digits : RegExp.t :=
  RegExp.mk true (rep 12 (Class digit)) true.

Definition msg_wildcard : jsstring :=
  lit "Using " ++ dq ++ lit "*" ++ dq
  ++ lit " grants public access - ensure this is intentional for security".
Definition msg_canonical : jsstring :=
  lit "Using canonical user ID - ensure this is an Impossible Cloud canonical ID".
Definition msg_service_format : jsstring :=
  lit "Service principal format should be: service-name.amazonaws.com".
(** The message opens with the warning sign U+26A0. *)
Definition msg_service_unsupported : jsstring :=
  [9888%N] ++ lit " AWS service principals (*.amazonaws.com) may not be supported by Impossible Cloud. Use IAM user/role ARNs instead.".
Definition msg_account_only : jsstring :=
  lit "Using just an account ID. Consider using full ARN format: arn:aws:iam::123456789012:root".
Definition msg_fallback : jsstring :=
  lit "Principal must be " ++ dq ++ lit "*" ++ dq
  ++ lit ", a valid ARN (arn:aws:... or arn:ipcld:...), canonical user ID (64-char hex), service principal (service.amazonaws.com), or 12-digit account ID".
Definition msg_invalid_arn : jsstring :=
  lit "Invalid ARN format. Expected: arn:aws:service:region:account-id:resource or arn:ipcld:iam::CanonicalID:resource".

(** Lines 135-139. *)
Definition wildcardBlock (principal : jsstring) (l : Log) : Step :=
  if JS.eqb principal (lit "*") then
    let l := pushWarning msg_wildcard l in
    Return (mkVerdict true [] (log_warnings l))
  else Continue l.

(** Lines 141-144. *)
Definition emptyBlock (principal : jsstring) (l : Log) : Step :=
  if negb (truthyString principal) || JS.eqb (JS.trim principal) (lit "") then
    Return (mkVerdict true [] [])
  else Continue l.

(** Lines 146-153. *)
Definition canonicalIdBlock (principal : jsstring) (l : Log) : Step :=
  if test re_canonical_id principal then
    Return (mkVerdict true [] [msg_canonical])
  else Continue l.

(** Lines 155-165. *)
Definition servicePrincipalBlock (principal : jsstring) (l : Log) : Step :=
  if JS.includes principal (lit ".amazonaws.com")
     || JS.includes principal (lit ".amazon.com") then
    if negb (test re_service_principal principal) then
      Continue (pushError msg_service_format l)
    else
      let l := pushWarning msg_service_unsupported l in
      Return (mkVerdict true [] (log_warnings l))
  else Continue l.

(** Lines 173-205: the [ipcld] partition. *)
Definition ipcldBlock (parts : list jsstring) (l : Log) : Step :=
  let service := nth_error parts 2 in
  let canonicalId := nth_error parts 4 in
  let resource := JS.join (lit ":") (JS.slice 5 parts) in
  let l :=
    if negb (Opt.strictEq service (lit "iam"))
    then pushError (lit "Impossible Cloud ARNs currently only support IAM service (arn:ipcld:iam::...)") l
    else l in
  let l :=
    if negb (Opt.truthy canonicalId) || Opt.isEmpty canonicalId
    then pushError (lit "Impossible Cloud ARN requires a canonical ID (arn:ipcld:iam::YourCanonicalID:...)") l
    else l in
  let l :=
    if negb (truthyString resource) || (length resource =? 0)
    then pushError (lit "Impossible Cloud ARN requires a resource (e.g., user/username, policy/policyname)") l
    else if negb (JS.includes resource (lit "/"))
    then pushError (lit "Impossible Cloud resource must include type/name (e.g., user/username, policy/policyname)") l
    else l in
  Return (returnLog l).

Definition validServices : list jsstring := [lit "iam"; lit "s3"; lit "sts"].
Definition awsOnlyServices : list jsstring :=
  [lit "ec2"; lit "lambda"; lit "cloudfront"; lit "elasticloadbalancing";
   lit "rds"; lit "dynamodb"].
Definition validResourceTypes : list jsstring :=
  [lit "user"; lit "role"; lit "group"; lit "instance-profile"; lit "root";
   lit "federated-user"; lit "assumed-role"].

(** Lines 248-284: [service === 'iam']. *)
Definition iamChecks (region accountId : option jsstring) (resource : jsstring)
    (l : Log) : Log :=
  let l :=
    if negb (Opt.truthy accountId)
    then pushError (lit "IAM ARN requires a 12-digit account ID") l
    else if negb (Opt.test re_twelve_digits accountId)
    then pushError (lit "Account ID must be exactly 12 digits, got: " ++ Opt.toString accountId) l
    else l in
  let l :=
    if negb (truthyString resource)
    then pushError (lit "IAM ARN requires a resource (e.g., user/username, role/rolename, or root)") l
    else
      let resourceType := nth_error (JS.split (ch "/") resource) 0 in
      if negb (JS.eqb resource (lit "root")) && negb (JS.includes resource (lit "/"))
      then pushError (lit "IAM resource must be " ++ dq ++ lit "root" ++ dq
                        ++ lit " or include type/name (e.g., user/username)") l
      else if negb (JS.eqb resource (lit "root"))
              && negb (Opt.memberOf validResourceTypes resourceType)
      then pushWarning (lit "Resource type " ++ dq ++ Opt.toString resourceType ++ dq
                          ++ lit " may not be valid. Common types: user, role, root") l
      else l in
  if Opt.truthy region && negb (Opt.strictEq region (lit ""))
  then pushWarning (lit "IAM ARNs typically do not specify a region") l
  else l.

(** Lines 286-294: [service === 's3']. *)
Definition s3Checks (region accountId : option jsstring) (l : Log) : Log :=
  let l :=
    if Opt.truthy accountId && negb (Opt.strictEq accountId (lit ""))
    then pushWarning (lit "S3 ARNs typically do not include account ID") l
    else l in
  if Opt.truthy region && negb (Opt.strictEq region (lit ""))
  then pushWarning (lit "S3 ARNs typically do not specify a region") l
  else l.

(** Lines 207-295: every other partition. *)
Definition awsBlock (principal : jsstring) (parts : list jsstring)
    (partition : option jsstring) (l : Log) : Log :=
  if negb (test arnRegex principal) then pushError msg_invalid_arn l
  else
    let service := nth_error parts 2 in
    let region := nth_error parts 3 in
    let accountId := nth_error parts 4 in
    let resource := JS.join (lit ":") (JS.slice 5 parts) in
    let l :=
      if negb (Opt.memberOf [lit "aws"; lit "aws-cn"; lit "aws-us-gov"] partition)
      then pushError (lit "Invalid partition " ++ dq ++ Opt.toString partition ++ dq
                        ++ lit ". Must be: aws, aws-cn, aws-us-gov, or ipcld (Impossible Cloud)") l
      else l in
    let l :=
      if negb (Opt.memberOf validServices service)
         && negb (Opt.memberOf awsOnlyServices service)
      then pushWarning (lit "Service " ++ dq ++ Opt.toString service ++ dq
                          ++ lit " is unusual for S3 bucket policies. Common services: iam, s3, sts") l
      else if Opt.memberOf awsOnlyServices service
      then pushWarning ([9888%N] ++ lit " Service " ++ dq ++ Opt.toString service ++ dq
                          ++ lit " is AWS-specific and not supported by Impossible Cloud. Use iam, s3, or sts instead.") l
      else l in
    let l :=
      if Opt.strictEq service (lit "iam")
      then iamChecks region accountId resource l
      else l in
    if Opt.strictEq service (lit "s3")
    then s3Checks region accountId l
    else l.

(** Lines 168-295: [principal.startsWith('arn:')]. *)
Definition arnBlock (principal : jsstring) (l : Log) : Step :=
  let parts := JS.split (ch ":") principal in
  let partition := nth_error parts 1 in
  if Opt.strictEq partition (lit "ipcld") then ipcldBlock parts l
  else Continue (awsBlock principal parts partition l).

(** Lines 296-307: neither an ARN nor dotted. *)
Definition accountIdBlock (principal : jsstring) (l : Log) : Log :=
  if test re_twelve_digits principal
  then pushWarning msg_account_only l
  else pushError msg_fallback l.

(** Lines 167-307: the [if ... else if] that closes the function body. *)
Definition arnOrAccountBlock (principal : jsstring) (l : Log) : Step :=
  if JS.startsWith principal (lit "arn:") then arnBlock principal l
  else if negb (JS.includes principal (lit "."))
  then Continue (accountIdBlock principal l)
  else Continue l.

(** The verdict of a run: the one it returned early, or the final
    [return] of lines 309-313. *)
Definition finish (s : Step) : Verdict :=
  match s with
  | Return v => v
  | Continue l => returnLog l
  end.

Definition validatePrincipalARN (principal : jsstring) : Verdict :=
  finish
    (Continue emptyLog
     >>> wildcardBlock principal
     >>> emptyBlock principal
     >>> canonicalIdBlock principal
     >>> servicePrincipalBlock principal
     >>> arnOrAccountBlock principal).


(* ================================================================== *)
(** * JSON values *)
(* ================================================================== *)

(** A value as [JSON.parse] returns it.  A Number is identified by its
    canonical rendering ([Number.prototype.toString]: 0, 1.5, 1e+21,
    Infinity), which is one-to-one on Numbers up to the sign of zero.  An
    object lists its own properties in [Object.keys] order. *)
#[warnings="-register-all"]
Inductive json : Type :=
| JNull
| JBool (b : bool)
| JNumber (repr : jsstring)
| JString (s : jsstring)
| JArray (items : list json)
| JObject (props : list (jsstring * json)).

Inductive jstype := TUndefined | TObject | TBoolean | TNumber | TString.

Module Val.

Definition jstype_eqb (a b : jstype) : bool :=
  match a, b with
  | TUndefined, TUndefined | TObject, TObject | TBoolean, TBoolean
  | TNumber, TNumber | TString, TString => true
  | _, _ => false
  end.

(** [typeof x], for [x] a JSON value or [undefined]. *)
Definition typeOf (x : option json) : jstype :=
  match x with
  | None => TUndefined
  | Some JNull | Some (JArray _) | Some (JObject _) => TObject
  | Some (JBool _) => TBoolean
  | Some (JNumber _) => TNumber
  | Some (JString _) => TString
  end.

(** Truthiness: [undefined], [null], [false], zero, NaN and the empty
    string are falsy. *)
Definition truthy (x : option json) : bool :=
  match x with
  | None | Some JNull => false
  | Some (JBool b) => b
  | Some (JNumber r) => negb (JS.eqb r (lit "0") || JS.eqb r (lit "NaN"))
  | Some (JString s) => truthyString s
  | Some (JArray _) | Some (JObject _) => true
  end.

(** [x === null] *)
Definition isNull (x : option json) : bool :=
  match x with
  | Some JNull => true
  | _ => false
  end.

(** [Array.isArray(x)] *)
Definition isArray (x : option json) : bool :=
  match x with
  | Some (JArray _) => true
  | _ => false
  end.

(** [x === s] for a string literal [s]. *)
Definition strictEq (x : option json) (s : jsstring) : bool :=
  match x with
  | Some (JString t) => JS.eqb t s
  | _ => false
  end.

Fixpoint assoc (name : jsstring) (props : list (jsstring * json)) : option json :=
  match props with
  | [] => None
  | (k, v) :: rest => if JS.eqb k name then Some v else assoc name rest
  end.

(** [x.name] and [x[name]] for a non-null [x].  On a value that is not an
    object the result is [undefined]: the source reads only the policy
    and statement field names, which no String, Number, Boolean or Array
    defines, and the own keys of an object. *)
Definition get (x : json) (name : jsstring) : option json :=
  match x with
  | JObject props => assoc name props
  | _ => None
  end.

(** The index keys "0", "1", ... of an array or a string. *)
Definition indices (n : nat) : list jsstring :=
  List.map (fun i => JS.ofNat (N.of_nat i)) (seq 0 n).

(** [Object.keys(x)] for a non-null [x]. *)
Definition keys (x : json) : list jsstring :=
  match x with
  | JObject props => List.map fst props
  | JArray items => indices (length items)
  | JString s => indices (length s)
  | _ => []
  end.

(** [`${x}`]: the string conversion of a template literal.  [None] is the
    TypeError raised for an object whose own [toString] property hides
    [Object.prototype.toString]. *)
Fixpoint toString (x : json) : option jsstring :=
  match x with
  | JNull => Some (lit "null")
  | JBool true => Some (lit "true")
  | JBool false => Some (lit "false")
  | JNumber r => Some r
  | JString s => Some s
  | JArray items =>
      option_map (JS.join (lit ","))
        ((fix each (l : list json) : option (list jsstring) :=
            match l with
            | [] => Some []
            | e :: l' =>
                match (match e with JNull => Some [] | _ => toString e end),
                      each l' with
                | Some t, Some ts => Some (t :: ts)
                | _, _ => None
                end
            end) items)
  | JObject props =>
      match assoc (lit "toString") props with
      | Some _ => None
      | None => Some (lit "[object Object]")
      end
  end.

(** [obj.name = v] *)
Fixpoint set (name : jsstring) (v : json) (props : list (jsstring * json))
    : list (jsstring * json) :=
  match props with
  | [] => [(name, v)]
  | (k, w) :: rest =>
      if JS.eqb k name then (k, v) :: rest else (k, w) :: set name v rest
  end.

(** The properties left by [delete obj.name]. *)
Definition remove (name : jsstring) (props : list (jsstring * json))
    : list (jsstring * json) :=
  filter (fun kv => negb (JS.eqb (fst kv) name)) props.

End Val.

(* ================================================================== *)
(** * Checks: statements that push messages and may throw *)
(* ================================================================== *)

(** A run of statements over the [errors] and [warnings] arrays; [None] is
    an uncaught TypeError. *)
Definition Check := Log -> option Log.

Definition done : Check := fun l => Some l.
Definition throwTypeError : Check := fun _ => None.
Definition error (m : jsstring) : Check := fun l => Some (pushError m l).
Definition warning (m : jsstring) : Check := fun l => Some (pushWarning m l).
Definition seqCheck (c1 c2 : Check) : Check :=
  fun l => match c1 l with
           | Some l' => c2 l'
           | None => None
           end.
Notation "c1 ;; c2" := (seqCheck c1 c2) (at level 62, right associativity).

(** [if (b) c] *)
Definition when (b : bool) (c : Check) : Check := if b then c else done.

(** [list.forEach((x, idx) => body)] *)
Fixpoint forEachFrom {A} (idx : nat) (body : A -> nat -> Check) (l : list A) : Check :=
  match l with
  | [] => done
  | x :: l' => body x idx ;; forEachFrom (S idx) body l'
  end.
Definition forEach {A} (body : A -> nat -> Check) (l : list A) : Check :=
  forEachFrom 0 body l.

(** [`${idx}`] *)
Definition showIndex (idx : nat) : jsstring := JS.ofNat (N.of_nat idx).

(* ================================================================== *)
(** * Policy structure validation (lines 1026-1471) *)
(* ================================================================== *)

Definition validS3Actions : list jsstring :=
  List.map lit
  [ "s3:*"; "s3:GetObject"; "s3:PutObject"; "s3:DeleteObject";
    "s3:GetObjectVersion"; "s3:DeleteObjectVersion"; "s3:GetObjectAcl";
    "s3:PutObjectAcl"; "s3:GetObjectVersionAcl"; "s3:PutObjectVersionAcl";
    "s3:GetObjectAttributes"; "s3:GetObjectVersionAttributes";
    "s3:GetObjectTagging"; "s3:PutObjectTagging"; "s3:DeleteObjectTagging";
    "s3:GetObjectVersionTagging"; "s3:PutObjectVersionTagging";
    "s3:DeleteObjectVersionTagging"; "s3:GetObjectTorrent";
    "s3:GetObjectVersionTorrent"; "s3:GetObjectAttributes";
    "s3:GetObjectVersionAttributes"; "s3:ListBucket"; "s3:ListBucketVersions";
    "s3:ListBucketMultipartUploads"; "s3:GetBucketLocation";
    "s3:GetBucketVersioning"; "s3:PutBucketVersioning"; "s3:GetBucketAcl";
    "s3:PutBucketAcl"; "s3:GetBucketCORS"; "s3:PutBucketCORS";
    "s3:DeleteBucketCORS"; "s3:GetBucketWebsite"; "s3:PutBucketWebsite";
    "s3:DeleteBucketWebsite"; "s3:GetBucketLogging"; "s3:PutBucketLogging";
    "s3:GetBucketNotification"; "s3:PutBucketNotification";
    "s3:GetBucketPolicy"; "s3:PutBucketPolicy"; "s3:DeleteBucketPolicy";
    "s3:GetBucketRequestPayment"; "s3:PutBucketRequestPayment";
    "s3:GetBucketTagging"; "s3:PutBucketTagging"; "s3:DeleteBucketTagging";
    "s3:GetReplicationConfiguration"; "s3:PutReplicationConfiguration";
    "s3:GetAccelerateConfiguration"; "s3:PutAccelerateConfiguration";
    "s3:GetEncryptionConfiguration"; "s3:PutEncryptionConfiguration";
    "s3:GetBucketObjectLockConfiguration"; "s3:PutBucketObjectLockConfiguration";
    "s3:GetObjectLockConfiguration"; "s3:PutObjectLockConfiguration";
    "s3:GetBucketPublicAccessBlock"; "s3:PutBucketPublicAccessBlock";
    "s3:GetObjectLegalHold"; "s3:PutObjectLegalHold"; "s3:GetObjectRetention";
    "s3:PutObjectRetention"; "s3:BypassGovernanceRetention";
    "s3:AbortMultipartUpload"; "s3:ListMultipartUploadParts";
    "s3:RestoreObject" ]%string.

Definition validConditionOperators : list jsstring :=
  List.map lit
  [ "StringEquals"; "StringNotEquals"; "StringLike"; "StringNotLike";
    "StringEqualsIgnoreCase"; "StringNotEqualsIgnoreCase";
    "StringEqualsIfExists"; "StringNotEqualsIfExists"; "StringLikeIfExists";
    "StringNotLikeIfExists"; "StringEqualsIgnoreCaseIfExists";
    "StringNotEqualsIgnoreCaseIfExists";
    "NumericEquals"; "NumericNotEquals"; "NumericLessThan";
    "NumericLessThanEquals"; "NumericGreaterThan"; "NumericGreaterThanEquals";
    "NumericEqualsIfExists"; "NumericNotEqualsIfExists";
    "NumericLessThanIfExists"; "NumericLessThanEqualsIfExists";
    "NumericGreaterThanIfExists"; "NumericGreaterThanEqualsIfExists";
    "DateEquals"; "DateNotEquals"; "DateLessThan"; "DateLessThanEquals";
    "DateGreaterThan"; "DateGreaterThanEquals";
    "DateEqualsIfExists"; "DateNotEqualsIfExists"; "DateLessThanIfExists";
    "DateLessThanEqualsIfExists"; "DateGreaterThanIfExists";
    "DateGreaterThanEqualsIfExists";
    "Bool"; "BinaryEquals"; "BoolIfExists"; "BinaryEqualsIfExists";
    "IpAddress"; "NotIpAddress"; "IpAddressIfExists"; "NotIpAddressIfExists";
    "ArnEquals"; "ArnLike"; "ArnNotEquals"; "ArnNotLike"; "ArnEqualsIfExists";
    "ArnLikeIfExists"; "ArnNotEqualsIfExists"; "ArnNotLikeIfExists";
    "Null" ]%string.

Definition alnum : char -> bool :=
  orC (range "a" "z") (orC (range "A" "Z") (range "0" "9")).

(** [/^[a-zA-Z0-9]+$/] *)
Definition re_sid : RegExp.t := RegExp.mk true (plus (Class alnum)) true.

(** [/^[a-z0-9][a-z0-9.-]*[a-z0-9]$/] *)
Definition re_resource_bucket : RegExp.t :=
  RegExp.mk true
    (Cat (Class lowerAlnum) (Cat (Star (Class bucketChar)) (Class lowerAlnum)))
    true.

(** [Array.isArray(x) ? x : [x]] *)
Definition asList (x : json) : list json :=
  match x with
  | JArray items => items
  | _ => [x]
  end.

(** [typeof x !== 'object' || x === null || Array.isArray(x)] *)
Definition notPlainObject (x : option json) : bool :=
  negb (Val.jstype_eqb (Val.typeOf x) TObject) || Val.isNull x || Val.isArray x.

(** Lines 1325-1343: the callback of [actionList.forEach]. *)
Definition validateAction (prefix : jsstring) (action : json) (idx : nat) : Check :=
  match action with
  | JString action =>
      if negb (JS.includes action (lit ":")) then
        error (prefix ++ lit "[" ++ showIndex idx ++ lit "]: Invalid format "
                 ++ dq ++ action ++ dq ++ lit ". Must be "
                 ++ dq ++ lit "service:action" ++ dq)
      else
        let parts := JS.split (ch ":") action in
        let service := nth_error parts 0 in
        let actionName := nth_error parts 1 in
        if negb (Opt.strictEq service (lit "s3")) && negb (JS.eqb action (lit "*")) then
          warning (prefix ++ lit "[" ++ showIndex idx ++ lit "]: "
                     ++ dq ++ action ++ dq ++ lit " is not an S3 action")
        else if Opt.strictEq service (lit "s3")
                && negb (Opt.strictEq actionName (lit "*"))
                && negb (JS.arrayIncludes validS3Actions action)
                && negb (JS.includes (Opt.toString actionName) (lit "*")) then
          warning (prefix ++ lit "[" ++ showIndex idx ++ lit "]: "
                     ++ dq ++ action ++ dq ++ lit " may not be a valid S3 action")
        else done
  | _ => error (prefix ++ lit "[" ++ showIndex idx ++ lit "]: Must be a string")
  end.

(** Lines 1246-1344. *)
Definition validateActions (actions : json) (prefix : jsstring) : Check :=
  let actionList := asList actions in
  if length actionList =? 0 then error (prefix ++ lit ": Cannot be empty")
  else forEach (validateAction prefix) actionList.

(** Lines 1354-1376: the callback of [resourceList.forEach]. *)
Definition validateResource (prefix : jsstring) (resource : json) (idx : nat) : Check :=
  match resource with
  | JString resource =>
      if negb (JS.startsWith resource (lit "arn:aws:s3:::"))
         && negb (JS.eqb resource (lit "*")) then
        error (prefix ++ lit "[" ++ showIndex idx
                 ++ lit "]: Must be a valid S3 ARN (arn:aws:s3:::...) or "
                 ++ dq ++ lit "*" ++ dq)
      else if JS.startsWith resource (lit "arn:aws:s3:::") then
        let bucketPart := JS.substring 13 resource in
        (if JS.eqb bucketPart (lit "") then
           error (prefix ++ lit "[" ++ showIndex idx ++ lit "]: Missing bucket name in ARN")
         else if JS.includes bucketPart (lit "//") then
           error (prefix ++ lit "[" ++ showIndex idx
                    ++ lit "]: Invalid path - contains double slashes")
         else done) ;;
        let hasPath := JS.includes bucketPart (lit "/") in
        when (negb hasPath && (63 <? length bucketPart))
          (error (prefix ++ lit "[" ++ showIndex idx
                    ++ lit "]: Bucket name too long (max 63 characters)")) ;;
        when (negb hasPath && negb (test re_resource_bucket bucketPart))
          (warning (prefix ++ lit "[" ++ showIndex idx
                      ++ lit "]: Bucket name may not follow S3 naming rules"))
      else done
  | _ => error (prefix ++ lit "[" ++ showIndex idx ++ lit "]: Must be a string")
  end.

(** Lines 1346-1377. *)
Definition validateResources (resources : json) (prefix : jsstring) : Check :=
  let resourceList := asList resources in
  if length resourceList =? 0 then error (prefix ++ lit ": Cannot be empty")
  else forEach (validateResource prefix) resourceList.

(** Lines 1452-1456: the operator name looked up in the vocabulary. *)
Definition operatorToCheck (operator : jsstring) : option jsstring :=
  if JS.startsWith operator (lit "ForAllValues:")
     || JS.startsWith operator (lit "ForAnyValue:")
  then nth_error (JS.split (ch ":") operator) 1
  else Some operator.

(** Lines 1451-1470: the callback of [Object.keys(condition).forEach]. *)
Definition validateOperator (condition : json) (prefix operator : jsstring)
    (_ : nat) : Check :=
  when (negb (Opt.memberOf validConditionOperators (operatorToCheck operator)))
    (error (prefix ++ lit ": Unknown condition operator " ++ dq ++ operator ++ dq)) ;;
  let conditionBlock := Val.get condition operator in
  when (notPlainObject conditionBlock)
    (error (prefix ++ lit "." ++ operator ++ lit ": Must be an object")).

(** Lines 1379-1471. *)
Definition validateCondition (condition : json) (prefix : jsstring) : Check :=
  if notPlainObject (Some condition) then error (prefix ++ lit ": Must be an object")
  else forEach (validateOperator condition prefix) (Val.keys condition).

Definition validStmtFields : list jsstring :=
  List.map lit
  [ "Sid"; "Effect"; "Principal"; "NotPrincipal"; "Action"; "NotAction";
    "Resource"; "NotResource"; "Condition" ]%string.

(** [if (stmt.field) validate(stmt.field, prefix + suffix, errors, warnings)] *)
Definition whenPresent (x : option json) (validate : json -> Check) : Check :=
  match x with
  | Some v => when (Val.truthy x) (validate v)
  | None => done
  end.

(** Lines 1104-1111: Sid (optional). *)
Definition checkSid (stmt : json) (prefix : jsstring) : Check :=
  match Val.get stmt (lit "Sid") with
  | None => done
  | Some (JString sid) =>
      when (negb (test re_sid sid))
        (error (prefix ++ lit ": Sid must contain only alphanumeric characters"))
  | Some _ => error (prefix ++ lit ": Sid must be a string")
  end.

(** Lines 1113-1118: Effect (required). *)
Definition checkEffect (stmt : json) (prefix : jsstring) : Check :=
  match Val.get stmt (lit "Effect") with
  | None => error (prefix ++ lit ": Missing required field " ++ dq ++ lit "Effect" ++ dq)
  | Some effect =>
      if negb (Val.truthy (Some effect)) then
        error (prefix ++ lit ": Missing required field " ++ dq ++ lit "Effect" ++ dq)
      else if negb (Val.strictEq (Some effect) (lit "Allow"))
              && negb (Val.strictEq (Some effect) (lit "Deny")) then
        match Val.toString effect with
        | Some shown =>
            error (prefix ++ lit ": Effect must be " ++ dq ++ lit "Allow" ++ dq
                     ++ lit " or " ++ dq ++ lit "Deny" ++ dq ++ lit ", got "
                     ++ dq ++ shown ++ dq)
        | None => throwTypeError
        end
      else done
  end.

Definition msg_principal_ignored (prefix : jsstring) : jsstring :=
  prefix ++ lit ": Principal field is not supported by Impossible Cloud and will be ignored".
Definition msg_notprincipal_ignored (prefix : jsstring) : jsstring :=
  prefix ++ lit ": NotPrincipal field is not supported by Impossible Cloud and will be ignored".

(** Lines 1120-1132: Principal and NotPrincipal are only reported. *)
Definition checkPrincipal (stmt : json) (prefix : jsstring) : Check :=
  when (Val.truthy (Val.get stmt (lit "Principal")))
    (warning (msg_principal_ignored prefix)).
Definition checkNotPrincipal (stmt : json) (prefix : jsstring) : Check :=
  when (Val.truthy (Val.get stmt (lit "NotPrincipal")))
    (warning (msg_notprincipal_ignored prefix)).

(** Lines 1134-1146: Action / NotAction (one required). *)
Definition checkActions (stmt : json) (prefix : jsstring) : Check :=
  when (negb (Val.truthy (Val.get stmt (lit "Action")))
        && negb (Val.truthy (Val.get stmt (lit "NotAction"))))
    (error (prefix ++ lit ": Missing " ++ dq ++ lit "Action" ++ dq ++ lit " or "
              ++ dq ++ lit "NotAction" ++ dq)) ;;
  when (Val.truthy (Val.get stmt (lit "Action"))
        && Val.truthy (Val.get stmt (lit "NotAction")))
    (error (prefix ++ lit ": Cannot have both " ++ dq ++ lit "Action" ++ dq
              ++ lit " and " ++ dq ++ lit "NotAction" ++ dq)) ;;
  whenPresent (Val.get stmt (lit "Action"))
    (fun v => validateActions v (prefix ++ lit ".Action")) ;;
  whenPresent (Val.get stmt (lit "NotAction"))
    (fun v => validateActions v (prefix ++ lit ".NotAction")).

(** Lines 1148-1160: Resource / NotResource (one required). *)
Definition checkResources (stmt : json) (prefix : jsstring) : Check :=
  when (negb (Val.truthy (Val.get stmt (lit "Resource")))
        && negb (Val.truthy (Val.get stmt (lit "NotResource"))))
    (error (prefix ++ lit ": Missing " ++ dq ++ lit "Resource" ++ dq ++ lit " or "
              ++ dq ++ lit "NotResource" ++ dq)) ;;
  when (Val.truthy (Val.get stmt (lit "Resource"))
        && Val.truthy (Val.get stmt (lit "NotResource")))
    (error (prefix ++ lit ": Cannot have both " ++ dq ++ lit "Resource" ++ dq
              ++ lit " and " ++ dq ++ lit "NotResource" ++ dq)) ;;
  whenPresent (Val.get stmt (lit "Resource"))
    (fun v => validateResources v (prefix ++ lit ".Resource")) ;;
  whenPresent (Val.get stmt (lit "NotResource"))
    (fun v => validateResources v (prefix ++ lit ".NotResource")).

(** Lines 1162-1165: Condition (optional). *)
Definition checkCondition (stmt : json) (prefix : jsstring) : Check :=
  whenPresent (Val.get stmt (lit "Condition"))
    (fun v => validateCondition v (prefix ++ lit ".Condition")).

(** Lines 1167-1183: unknown statement fields. *)
Definition checkUnknownField (prefix key : jsstring) (_ : nat) : Check :=
  when (negb (JS.arrayIncludes validStmtFields key))
    (warning (prefix ++ lit ": Unknown field " ++ dq ++ key ++ dq)).
Definition checkUnknownFields (stmt : json) (prefix : jsstring) : Check :=
  forEach (checkUnknownField prefix) (Val.keys stmt).

(** Lines 1095-1184. *)
Definition validateStatement (stmt : json) (idx : nat) : Check :=
  let prefix := lit "Statement[" ++ showIndex idx ++ lit "]" in
  if negb (Val.jstype_eqb (Val.typeOf (Some stmt)) TObject) || Val.isNull (Some stmt)
  then error (prefix ++ lit ": Must be an object")
  else
    checkSid stmt prefix ;;
    checkEffect stmt prefix ;;
    checkPrincipal stmt prefix ;;
    checkNotPrincipal stmt prefix ;;
    checkActions stmt prefix ;;
    checkResources stmt prefix ;;
    checkCondition stmt prefix ;;
    checkUnknownFields stmt prefix.

(** Lines 1040-1081 of [validatePolicy]: steps 2 to 6, on the value that
    [JSON.parse] returned in step 1.  The result is the pair of arrays the
    notification is built from, or [None] for an uncaught TypeError. *)
Definition validatePolicy (policy : json) : option Log :=
  ( (* Step 2 *)
    when (negb (Val.jstype_eqb (Val.typeOf (Some policy)) TObject)
          || Val.isNull (Some policy))
      (error (lit "Policy must be a JSON object")) ;;
    (* [policy.Version] on [null] throws *)
    when (Val.isNull (Some policy)) throwTypeError ;;
    (* Step 3 *)
    match Val.get policy (lit "Version") with
    | Some (JString version) =>
        if negb (truthyString version) then
          error (lit "Missing required field: Version")
        else if negb (JS.eqb version (lit "2012-10-17"))
                && negb (JS.eqb version (lit "2008-10-17")) then
          error (lit "Invalid Version: " ++ dq ++ version ++ dq ++ lit ". Must be "
                   ++ dq ++ lit "2012-10-17" ++ dq ++ lit " or "
                   ++ dq ++ lit "2008-10-17" ++ dq)
        else
          when (JS.eqb version (lit "2008-10-17"))
            (warning (lit "Version " ++ dq ++ lit "2008-10-17" ++ dq
                        ++ lit " is deprecated. Use " ++ dq ++ lit "2012-10-17" ++ dq))
    | other =>
        if negb (Val.truthy other) then error (lit "Missing required field: Version")
        else error (lit "Version must be a string")
    end ;;
    (* Step 4 *)
    match Val.get policy (lit "Statement") with
    | Some (JArray statements) =>
        if length statements =? 0 then error (lit "Statement array cannot be empty")
        else forEach validateStatement statements
    | other =>
        if negb (Val.truthy other) then error (lit "Missing required field: Statement")
        else error (lit "Statement must be an array")
    end ;;
    (* Step 5 *)
    forEach (fun key (_ : nat) =>
      when (negb (JS.arrayIncludes [lit "Version"; lit "Id"; lit "Statement"] key))
        (warning (lit "Unknown root-level field: " ++ dq ++ key ++ dq)))
      (Val.keys policy) ;;
    (* Step 6 *)
    when (Val.truthy (Val.get policy (lit "Id"))
          && negb (Val.jstype_eqb (Val.typeOf (Val.get policy (lit "Id"))) TString))
      (error (lit "Id field must be a string"))
  ) emptyLog.

(* ================================================================== *)
(** * [JSON.parse] *)
(* ================================================================== *)

(** The canonical rendering of the Number a decimal literal denotes: the
    literal is rounded to the nearest binary64 value (ties to even) and
    printed with the fewest digits that read back as that value. *)
Module Num.
Local Open Scope Q_scope.

Definition pow2 (x : Z) : Q := Qpower 2 x.
Definition pow10 (x : Z) : Q := Qpower 10 x.

(** The least [n] from [n] on with [d < base^n], searched upwards. *)
Fixpoint upperExp (fuel : nat) (base : Q) (n : Z) (d : Q) : Z :=
  match fuel with
  | O => n
  | S fuel' =>
      if Qle_bool (Qpower base n) d then upperExp fuel' base (n + 1)%Z d else n
  end.

(** Lower bounds from which that search is short: [2^(log2Below q) <= q]
    and [10^(log10Below e) <= 2^e]. *)
Definition log2Below (q : Q) : Z :=
  (Z.log2 (Qnum q) - Z.log2 (Zpos (Qden q)) - 1)%Z.
Definition log10Below (e : Z) : Z :=
  ((if (0 <=? e)%Z then e * 30102 / 100000 else e * 30103 / 100000) - 1)%Z.

(** Nearest integer, ties to even. *)
Definition roundHalfEven (q : Q) : Z :=
  let f := Qfloor q in
  let r := q - inject_Z f in
  if Qle_bool r (1 # 2) then
    if Qle_bool (1 # 2) r then (if Z.even f then f else f + 1)%Z else f
  else (f + 1)%Z.

(** A positive binary64 value [mant * 2^x], or overflow. *)
Inductive double := Finite (mant x : Z) | Overflow.

Definition toDouble (q : Q) : double :=
  (* 2^(b-1) <= q < 2^b *)
  let b := upperExp 8 2 (log2Below q) q in
  let x := Z.max (b - 53) (-1074) in
  let mant := roundHalfEven (q / pow2 x) in
  let '(mant, x) :=
    if (mant =? 2 ^ 53)%Z then ((2 ^ 52)%Z, (x + 1)%Z) else (mant, x) in
  if (972 <=? x)%Z then Overflow else Finite mant x.

(** Does the decimal [v] read back as [mant * 2^x]? *)
Definition readsBack (mant x : Z) (v : Q) : bool :=
  let d := inject_Z mant * pow2 x in
  let up := pow2 (x - 1) in
  let down :=
    if (mant =? 2 ^ 52)%Z && (-1074 <? x)%Z then pow2 (x - 2) else pow2 (x - 1) in
  if Z.even mant
  then Qle_bool (d - down) v && Qle_bool v (d + up)
  else negb (Qle_bool v (d - down)) && negb (Qle_bool (d + up) v).

(** The shortest digit string [s] (of [k] digits, tried from [k] on) and
    exponent [n] with [s * 10^(n-k)] reading back as the value. *)
Fixpoint shortest (fuel : nat) (k : Z) (mant x n : Z) : Z * Z :=
  let d := inject_Z mant * pow2 x in
  let scale := pow10 (n - k) in
  let s0 := Qfloor (d / scale) in
  let s1 := (s0 + 1)%Z in
  let ok0 := readsBack mant x (inject_Z s0 * scale) && (0 <? s0)%Z in
  let ok1 := readsBack mant x (inject_Z s1 * scale) in
  let below := d - inject_Z s0 * scale in
  let above := inject_Z s1 * scale - d in
  let pick0 :=
    ok0 && (negb ok1 || negb (Qle_bool above below)
            || (Qle_bool below above && Z.even s0)) in
  match fuel with
  | O => (s0, n)
  | S fuel' =>
      if pick0 then (s0, n)
      else if ok1 then
        (if Qle_bool (pow10 k) (inject_Z s1) then (1%Z, (n + 1)%Z) else (s1, n))
      else shortest fuel' (k + 1)%Z mant x n
  end.

Definition digitsOf (s : Z) : jsstring := JS.ofNat (Z.to_N s).
Definition zeros (n : Z) : jsstring := repeat (ch "0") (Z.to_nat n).

(** [Number::toString] of the positive value with digits [s] and
    exponent [n] (the value is [0.s * 10^n]). *)
Definition format (s n : Z) : jsstring :=
  let ds := digitsOf s in
  let k := Z.of_nat (length ds) in
  if (k <=? n)%Z && (n <=? 21)%Z then ds ++ zeros (n - k)
  else if (0 <? n)%Z && (n <=? 21)%Z then
    firstn (Z.to_nat n) ds ++ lit "." ++ skipn (Z.to_nat n) ds
  else if (-6 <? n)%Z && (n <=? 0)%Z then lit "0." ++ zeros (- n) ++ ds
  else
    let e := (n - 1)%Z in
    let sign := if (0 <=? e)%Z then lit "+" else lit "-" in
    let mantissa :=
      match ds with
      | [d] => [d]
      | d :: rest => d :: lit "." ++ rest
      | [] => []
      end in
    mantissa ++ lit "e" ++ sign ++ digitsOf (Z.abs e).

(** The Number denoted by the literal [-? m * 10^e]. *)
Definition canonical (negative : bool) (m : N) (e : Z) : jsstring :=
  if (m =? 0)%N then lit "0"
  else
    match toDouble (inject_Z (Z.of_N m) * pow10 e) with
    | Overflow => (if negative then lit "-" else []) ++ lit "Infinity"
    | Finite mant x =>
        if (mant =? 0)%Z then lit "0"
        else
          let d := inject_Z mant * pow2 x in
          let n := upperExp 8 10 (log10Below (Z.log2 mant + x)) d in
          let '(s, n) := shortest 17 1 mant x n in
          (if negative then lit "-" else []) ++ format s n
    end.
End Num.

Module JSON.

Definition isWs (c : char) : bool :=
  ((c =? 32) || (c =? 9) || (c =? 10) || (c =? 13))%N.

Fixpoint skipWs (s : jsstring) : jsstring :=
  match s with
  | c :: s' => if isWs c then skipWs s' else s
  | [] => []
  end.

Definition hexValue (c : char) : option N :=
  if range "0" "9" c then Some (c - 48)%N
  else if range "a" "f" c then Some (c - 87)%N
  else if range "A" "F" c then Some (c - 55)%N
  else None.

Definition hex4 (a b c d : char) : option char :=
  match hexValue a, hexValue b, hexValue c, hexValue d with
  | Some x, Some y, Some z, Some w => Some (((x * 16 + y) * 16 + z) * 16 + w)%N
  | _, _, _, _ => None
  end.

Definition escape (c : char) : option char :=
  if (c =? 34)%N then Some 34%N
  else if (c =? 92)%N then Some 92%N
  else if one "/" c then Some 47%N
  else if one "b" c then Some 8%N
  else if one "f" c then Some 12%N
  else if one "n" c then Some 10%N
  else if one "r" c then Some 13%N
  else if one "t" c then Some 9%N
  else None.

Definition consChar (c : char) (r : option (jsstring * jsstring))
    : option (jsstring * jsstring) :=
  match r with
  | Some (t, rest) => Some (c :: t, rest)
  | None => None
  end.

(** The characters of a string literal after its opening quote. *)
Fixpoint parseChars (s : jsstring) : option (jsstring * jsstring) :=
  match s with
  | [] => None
  | c :: s' =>
      if (c =? 34)%N then Some ([], s')
      else if (c =? 92)%N then
        match s' with
        | e :: s'' =>
            if one "u" e then
              match s'' with
              | h1 :: h2 :: h3 :: h4 :: s3 =>
                  match hex4 h1 h2 h3 h4 with
                  | Some u => consChar u (parseChars s3)
                  | None => None
                  end
              | _ => None
              end
            else
              match escape e with
              | Some d => consChar d (parseChars s'')
              | None => None
              end
        | [] => None
        end
      else if (c <? 32)%N then None
      else consChar c (parseChars s')
  end.

(** The longest run of digits at the head of [s]. *)
Fixpoint spanDigits (s : jsstring) : jsstring * jsstring :=
  match s with
  | c :: s' =>
      if digit c then let '(ds, rest) := spanDigits s' in (c :: ds, rest)
      else ([], s)
  | [] => ([], [])
  end.

Definition digitsValue (ds : jsstring) : N :=
  fold_left (fun acc c => (acc * 10 + (c - 48))%N) ds 0%N.

(** A number literal: an optional minus sign, an integer part without
    leading zeros, an optional fraction, an optional exponent. *)
Definition parseNumber (s : jsstring) : option (json * jsstring) :=
  let '(negative, s) :=
    match s with
    | c :: s' => if one "-" c then (true, s') else (false, s)
    | [] => (false, s)
    end in
  let '(int, s) := spanDigits s in
  match int with
  | [] => None
  | lead :: more =>
      if one "0" lead && negb (length more =? 0) then None
      else
        let fracPart :=
          match s with
          | c :: s' =>
              if one "." c then
                let '(frac, rest) := spanDigits s' in
                match frac with
                | [] => None
                | _ => Some (frac, rest)
                end
              else Some ([], s)
          | [] => Some ([], s)
          end in
        match fracPart with
        | None => None
        | Some (frac, s) =>
            let expPart :=
              match s with
              | c :: s' =>
                  if one "e" c || one "E" c then
                    let '(expNegative, s'') :=
                      match s' with
                      | g :: t =>
                          if one "-" g then (true, t)
                          else if one "+" g then (false, t)
                          else (false, s')
                      | [] => (false, s')
                      end in
                    let '(ds, rest) := spanDigits s'' in
                    match ds with
                    | [] => None
                    | _ =>
                        let e := Z.of_N (digitsValue ds) in
                        Some ((if expNegative then - e else e)%Z, rest)
                    end
                  else Some (0%Z, s)
              | [] => Some (0%Z, s)
              end in
            match expPart with
            | None => None
            | Some (e, rest) =>
                let m := digitsValue (int ++ frac) in
                let e := (e - Z.of_nat (length frac))%Z in
                Some (JNumber (Num.canonical negative m e), rest)
            end
        end
  end.

(** Is [k] an array index ("0", "1", ..., "4294967294")?  Such keys come
    first, in ascending order, among the own keys of an object. *)
Definition arrayIndex (k : jsstring) : option N :=
  match k with
  | [] => None
  | lead :: more =>
      if forallb digit k && negb (one "0" lead && negb (length more =? 0))
         && (length k <=? 10)%nat && (digitsValue k <=? 4294967294)%N
      then Some (digitsValue k)
      else None
  end.

(** Defining the own property [k] of the object under construction,
    keys kept in [Object.keys] order: a repeated key keeps its place and
    takes the later value; a new index key goes among the index keys; any
    other new key goes last. *)
Fixpoint define (k : jsstring) (v : json) (props : list (jsstring * json))
    : list (jsstring * json) :=
  match props with
  | [] => [(k, v)]
  | (k', v') :: rest =>
      if JS.eqb k' k then (k', v) :: rest
      else
        match arrayIndex k, arrayIndex k' with
        | Some i, Some i' =>
            if (i <? i')%N then (k, v) :: props
            else (k', v') :: define k v rest
        | Some _, None => (k, v) :: props
        | None, _ => (k', v') :: define k v rest
        end
  end.

Fixpoint parseValue (fuel : nat) (s : jsstring) : option (json * jsstring) :=
  match fuel with
  | O => None
  | S fuel' =>
      match skipWs s with
      | [] => None
      | c :: s' =>
          if one "{" c then
            match skipWs s' with
            | d :: s'' =>
                if one "}" d then Some (JObject [], s'')
                else parseMembers fuel' [] s'
            | [] => None
            end
          else if one "[" c then
            match skipWs s' with
            | d :: s'' =>
                if one "]" d then Some (JArray [], s'')
                else parseElements fuel' [] s'
            | [] => None
            end
          else if (c =? 34)%N then
            match parseChars s' with
            | Some (t, rest) => Some (JString t, rest)
            | None => None
            end
          else if JS.startsWith (c :: s') (lit "true") then
            Some (JBool true, skipn 4 (c :: s'))
          else if JS.startsWith (c :: s') (lit "false") then
            Some (JBool false, skipn 5 (c :: s'))
          else if JS.startsWith (c :: s') (lit "null") then
            Some (JNull, skipn 4 (c :: s'))
          else parseNumber (c :: s')
      end
  end

with parseElements (fuel : nat) (acc : list json) (s : jsstring)
    : option (json * jsstring) :=
  match fuel with
  | O => None
  | S fuel' =>
      match parseValue fuel' s with
      | Some (v, rest) =>
          match skipWs rest with
          | c :: rest' =>
              if one "," c then parseElements fuel' (acc ++ [v]) rest'
              else if one "]" c then Some (JArray (acc ++ [v]), rest')
              else None
          | [] => None
          end
      | None => None
      end
  end

with parseMembers (fuel : nat) (acc : list (jsstring * json)) (s : jsstring)
    : option (json * jsstring) :=
  match fuel with
  | O => None
  | S fuel' =>
      match skipWs s with
      | q :: s1 =>
          if (q =? 34)%N then
            match parseChars s1 with
            | Some (k, rest) =>
                match skipWs rest with
                | c :: rest1 =>
                    if one ":" c then
                      match parseValue fuel' rest1 with
                      | Some (v, rest2) =>
                          match skipWs rest2 with
                          | d :: rest3 =>
                              if one "," d then parseMembers fuel' (define k v acc) rest3
                              else if one "}" d then Some (JObject (define k v acc), rest3)
                              else None
                          | [] => None
                          end
                      | None => None
                      end
                    else None
                | [] => None
                end
            | None => None
            end
          else None
      | [] => None
      end
  end.

(** [JSON.parse(text)]; [None] is the SyntaxError it throws.  Every
    nested call consumes a character, so twice the length of the text is
    enough fuel. *)
Definition parse (text : jsstring) : option json :=
  match parseValue (2 * length text + 2) text with
  | Some (v, rest) =>
      match skipWs rest with
      | [] => Some v
      | _ :: _ => None
      end
  | None => None
  end.

End JSON.


(* ================================================================== *)
(** * Policy assembly ([generatePolicy], lines 883-972) *)
(* ================================================================== *)

(** What the function reads from the page: the values of the inputs
    [bucketName], [policyEffect], [resourcePath], [customActions] and
    [condition], and the values of the checked checkboxes in document
    order. *)
Record Form := mkForm {
  bucketNameInput : jsstring;
  policyEffect : jsstring;
  resourcePathInput : jsstring;
  checkedActions : list jsstring;
  customActionsInput : jsstring;
  conditionInput : jsstring
}.

(** What a call leaves behind: the error notification shown before a bare
    [return], or the object assigned to [currentPolicy] (whose
    [JSON.stringify] becomes the text of [policyOutput]). *)
Inductive Outcome :=
| Rejected (notification : jsstring)
| Generated (policy : json).

Definition msg_no_bucket : jsstring := lit "Please enter a bucket name".
Definition msg_bad_bucket : jsstring :=
  lit "Invalid bucket name. Please fix the errors shown below the bucket name field.".
Definition msg_no_action : jsstring := lit "Please select at least one action".
Definition msg_bad_condition : jsstring := lit "Invalid JSON in Condition field".

(** Lines 909-921: the checked actions, then the non-blank lines of the
    custom actions, trimmed. *)
Definition collectActions (checked : list jsstring) (customActions : jsstring)
    : list jsstring :=
  let actions := checked in
  if truthyString customActions then
    fold_left
      (fun actions action =>
         let trimmedAction := JS.trim action in
         if truthyString trimmedAction then push actions trimmedAction else actions)
      (JS.split 10%N customActions) actions
  else actions.

(** Lines 928-943. *)
Definition needsBucketResource (actions : list jsstring) : bool :=
  existsb (fun a => JS.eqb a (lit "s3:ListBucket")
                    || JS.startsWith a (lit "s3:GetBucket")
                    || JS.startsWith a (lit "s3:PutBucket")) actions.
Definition needsObjectResource (actions : list jsstring) : bool :=
  existsb (fun a => JS.includes a (lit "Object")) actions.

Definition buildResources (bucketName resourcePath : jsstring)
    (actions : list jsstring) : list jsstring :=
  let resources := [] in
  let resources :=
    if needsBucketResource actions
    then push resources (lit "arn:aws:s3:::" ++ bucketName)
    else resources in
  let resources :=
    if needsObjectResource actions
    then push resources (lit "arn:aws:s3:::" ++ bucketName ++ lit "/" ++ resourcePath)
    else resources in
  if length resources =? 0
  then push resources (lit "arn:aws:s3:::" ++ bucketName ++ lit "/*")
  else resources.

(** [list.length === 1 ? list[0] : list] *)
Definition collapse (l : list jsstring) : json :=
  match l with
  | [x] => JString x
  | _ => JArray (List.map JString l)
  end.

(** [now] is the value of [Date.now()] at the call. *)
Definition generatePolicy (form : Form) (now : N) : Outcome :=
  let bucketName := JS.trim (bucketNameInput form) in
  if negb (truthyString bucketName) then Rejected msg_no_bucket
  else
    let bucketValidation := validateBucketName bucketName in
    if negb (bucket_isValid bucketValidation) then Rejected msg_bad_bucket
    else
      let effect := policyEffect form in
      let resourcePath :=
        if truthyString (JS.trim (resourcePathInput form))
        then JS.trim (resourcePathInput form) else lit "*" in
      let customActions := JS.trim (customActionsInput form) in
      let conditionText := JS.trim (conditionInput form) in
      let actions := collectActions (checkedActions form) customActions in
      if length actions =? 0 then Rejected msg_no_action
      else
        let resources := buildResources bucketName resourcePath actions in
        let statement :=
          [ (lit "Sid", JString (lit "GeneratedPolicy" ++ JS.ofNat now));
            (lit "Effect", JString effect);
            (lit "Action", collapse actions);
            (lit "Resource", collapse resources) ] in
        let build statement :=
          Generated
            (JObject [ (lit "Version", JString (lit "2012-10-17"));
                       (lit "Statement", JArray [JObject statement]) ]) in
        if truthyString conditionText then
          match JSON.parse conditionText with
          | Some condition => build (Val.set (lit "Condition") condition statement)
          | None => Rejected msg_bad_condition
          end
        else build statement.


(* ================================================================== *)
(** * Specification-side definitions *)
(* ================================================================== *)

(** The language of a regular expression, as a relation. *)
Inductive Matches : regex -> jsstring -> Prop :=
| MEps : Matches Eps []
| MClass p c : p c = true -> Matches (Class p) [c]
| MCat r1 r2 s1 s2 :
    Matches r1 s1 -> Matches r2 s2 -> Matches (Cat r1 r2) (s1 ++ s2)
| MAltL r1 r2 s : Matches r1 s -> Matches (Alt r1 r2) s
| MAltR r1 r2 s : Matches r2 s -> Matches (Alt r1 r2) s
| MStarNil r : Matches (Star r) []
| MStarCons r s1 s2 :
    Matches r s1 -> Matches (Star r) s2 -> Matches (Star r) (s1 ++ s2).

(** A verdict is consistent when it is valid exactly if it has no error. *)
Definition Consistent (v : Verdict) : Prop :=
  isValid v = true <-> errors v = [].

Definition StepConsistent (s : Step) : Prop :=
  match s with
  | Return v => Consistent v
  | Continue _ => True
  end.

(** The dispatch of the principal validator as the specification words it
    (section 4.2, last paragraph): six branches, mutually exclusive, tried
    in a fixed order, the verdict being that of the one branch that
    matched.  Each branch runs the source block of the same name on empty
    arrays. *)
Inductive Branch :=
| WildcardOrEmpty
| CanonicalId
| ServicePrincipal
| Arn
| BareDigits
| FallbackError.

Definition looksLikeServicePrincipal (principal : jsstring) : bool :=
  JS.includes principal (lit ".amazonaws.com")
  || JS.includes principal (lit ".amazon.com").

Definition spec_branch (principal : jsstring) : Branch :=
  if JS.eqb principal (lit "*")
     || negb (truthyString principal) || JS.eqb (JS.trim principal) (lit "")
  then WildcardOrEmpty
  else if test re_canonical_id principal then CanonicalId
  else if looksLikeServicePrincipal principal then ServicePrincipal
  else if JS.startsWith principal (lit "arn:") then Arn
  else if forallb digit principal then BareDigits
  else FallbackError.

Definition spec_branchVerdict (b : Branch) (principal : jsstring) : Verdict :=
  match b with
  | WildcardOrEmpty =>
      finish (Continue emptyLog >>> wildcardBlock principal >>> emptyBlock principal)
  | CanonicalId => finish (canonicalIdBlock principal emptyLog)
  | ServicePrincipal => finish (servicePrincipalBlock principal emptyLog)
  | Arn => finish (arnBlock principal emptyLog)
  | BareDigits | FallbackError =>
      finish (Continue (accountIdBlock principal emptyLog))
  end.

Definition spec_validatePrincipal (principal : jsstring) : Verdict :=
  spec_branchVerdict (spec_branch principal) principal.

(** The [ipcld] checks alone, before their [return]. *)
Definition ipcldLog (parts : list jsstring) (l : Log) : Log :=
  match ipcldBlock parts l with
  | Return v => mkLog (errors v) (warnings v)
  | Continue l' => l'
  end.

(** [l0] followed by what [l] holds. *)
Definition prependLog (l0 l : Log) : Log :=
  mkLog (log_errors l0 ++ log_errors l) (log_warnings l0 ++ log_warnings l).

(** A check appends: on arrays that already hold messages it leaves them
    in front of what it pushes, and it throws or not regardless of them. *)
Definition Appends (c : Check) : Prop :=
  forall l0 l, c (prependLog l0 l) = option_map (prependLog l0) (c l).

(** What a field contributes to a run: [with_] differs from [without] by
    the warnings [added], inserted in place, and by nothing else. *)
Definition Contributes (without with_ : option Log) (added : list jsstring) : Prop :=
  match without, with_ with
  | Some l0, Some l1 =>
      log_errors l1 = log_errors l0
      /\ exists w1 w2,
           log_warnings l0 = w1 ++ w2 /\ log_warnings l1 = w1 ++ added ++ w2
  | None, None => True
  | _, _ => False
  end.

(** [warnings.push] of each message of a list. *)
Definition warnAll (ms : list jsstring) : Check :=
  fun l => Some (mkLog (log_errors l) (log_warnings l ++ ms)).

(** [`Statement[${idx}]`] *)
Definition statementPrefix (idx : nat) : jsstring :=
  lit "Statement[" ++ showIndex idx ++ lit "]".

(** A well-formed statement with room for further fields. *)
Definition sampleStatement (extra : list (jsstring * json)) : list (jsstring * json) :=
  [ (lit "Effect", JString (lit "Allow")) ] ++ extra ++
  [ (lit "Action", JString (lit "s3:GetObject"));
    (lit "Resource", JString (lit "arn:aws:s3:::test-bucket/*")) ].

(** ** The inputs of [generatePolicy], as the function sees them *)

Definition trimmedBucket (form : Form) : jsstring := JS.trim (bucketNameInput form).

Definition bucketAccepted (form : Form) : bool :=
  truthyString (trimmedBucket form)
  && bucket_isValid (validateBucketName (trimmedBucket form)).

Definition mergedActions (form : Form) : list jsstring :=
  collectActions (checkedActions form) (JS.trim (customActionsInput form)).

Definition conditionText (form : Form) : jsstring := JS.trim (conditionInput form).

Definition pathOf (form : Form) : jsstring :=
  if truthyString (JS.trim (resourcePathInput form))
  then JS.trim (resourcePathInput form) else lit "*".

(** ** The shape of a generated document *)

Definition policyDocument (statement : list (jsstring * json)) : json :=
  JObject [ (lit "Version", JString (lit "2012-10-17"));
            (lit "Statement", JArray [JObject statement]) ].

Definition sidAt (now : N) : jsstring := lit "GeneratedPolicy" ++ JS.ofNat now.

Definition baseStatement (form : Form) (now : N) : list (jsstring * json) :=
  [ (lit "Sid", JString (sidAt now));
    (lit "Effect", JString (policyEffect form));
    (lit "Action", collapse (mergedActions form));
    (lit "Resource",
     collapse (buildResources (trimmedBucket form) (pathOf form) (mergedActions form))) ].

(** The single statement of a document, and its Resource. *)
Definition statementOf (policy : json) : option json :=
  match Val.get policy (lit "Statement") with
  | Some (JArray [statement]) => Some statement
  | _ => None
  end.

Definition resourceOf (policy : json) : option json :=
  match statementOf policy with
  | Some statement => Val.get statement (lit "Resource")
  | None => None
  end.

Definition bucketArn (form : Form) : jsstring :=
  lit "arn:aws:s3:::" ++ trimmedBucket form.
Definition objectArn (form : Form) : jsstring :=
  lit "arn:aws:s3:::" ++ trimmedBucket form ++ lit "/" ++ pathOf form.
Definition fallbackArn (form : Form) : jsstring :=
  lit "arn:aws:s3:::" ++ trimmedBucket form ++ lit "/*".

Definition SomeObjectAction (actions : list jsstring) : Prop :=
  exists a, In a actions /\ JS.includes a (lit "Object") = true.

(** Sample forms. *)
Definition sampleForm (bucket : string) (actions : list string) (condition : jsstring)
    : Form :=
  mkForm (lit bucket) (lit "Allow") (lit "") (List.map lit actions) (lit "") condition.


(** One rule of [validateBucketName]: [if (c) errors.push(m)]. *)
Definition stage (c : bool) (m : jsstring) (errors : list jsstring) : list jsstring :=
  if c then push errors m else errors.

(** A check that pushes no error and does not throw. *)
Definition Clean (c : Check) : Prop :=
  forall l, exists l', c l = Some l' /\ log_errors l' = log_errors l.

(** The condition values [validateCondition] reports nothing for. *)
Definition conditionAccepted (condition : json) : bool :=
  negb (notPlainObject (Some condition))
  && forallb
       (fun operator =>
          Opt.memberOf validConditionOperators (operatorToCheck operator)
          && negb (notPlainObject (Val.get condition operator)))
       (Val.keys condition).


(** The text [{"BogusOperator":{}}]. *)
Definition bogusConditionText : jsstring :=
  lit "{" ++ dq ++ lit "BogusOperator" ++ dq ++ lit ":{}}".

(** The text [{"StringLike":{"s3:prefix":["a/*"]}}]. *)
Definition stringLikeConditionText : jsstring :=
  lit "{" ++ dq ++ lit "StringLike" ++ dq ++ lit ":{" ++ dq ++ lit "s3:prefix" ++ dq
  ++ lit ":[" ++ dq ++ lit "a/*" ++ dq ++ lit "]}}".

Definition bogusConditionForm : Form :=
  sampleForm "test-bucket" ["s3:GetObject"%string] bogusConditionText.

Definition stringLikeConditionForm : Form :=
  sampleForm "test-bucket" ["s3:GetObject"%string] stringLikeConditionText.

(** One action that asks for neither ARN, default path. *)
Definition fallbackForm : Form :=
  sampleForm "test-bucket" ["s3:AbortMultipartUpload"%string] (lit "").


(** The verdicts on a list of names, for the unit tests of the repository. *)
Definition bucketVerdicts (names : list string) : list bool :=
  List.map (fun name => bucket_isValid (validateBucketName (lit name))) names.

Definition principalVerdicts (principals : list string) : list (bool * nat * nat) :=
  List.map
    (fun principal =>
       let v := validatePrincipalARN (lit principal) in
       (isValid v, length (errors v), length (warnings v)))
    principals.


(* ================================================================== *)
(** * Live feedback on the principal ([getARNSuggestion], lines 316-727) *)
(* ================================================================== *)

(** The signs that open a message: U+1F4A1 (a surrogate pair), U+2713,
    U+2717, U+26A0; and the arrow U+2192. *)
Definition bulb : jsstring := [55357%N; 56481%N].
Definition checkMark : jsstring := [10003%N].
Definition crossMark : jsstring := [10007%N].
Definition warningSign : jsstring := [9888%N].
Definition arrow : jsstring := [8594%N].

(** The [type] of a suggestion: 'hint', 'success', 'warning' or 'error'. *)
Inductive SuggestionType := AsHint | AsSuccess | AsWarning | AsError.

(** [{ type, message }] *)
Record Suggestion := mkSuggestion {
  suggestionType : SuggestionType;
  suggestionMessage : jsstring
}.

(** A run of statements that may execute [return x]: [Some x] is the value
    returned, [None] falls through to the next statement. *)
Definition orElse {A} (first next : option A) : option A :=
  match first with
  | Some _ => first
  | None => next
  end.
Notation "a <|> b" := (orElse a b) (at level 63, right associativity).

Definition hintOf (m : jsstring) : option Suggestion := Some (mkSuggestion AsHint m).
Definition successOf (m : jsstring) : option Suggestion := Some (mkSuggestion AsSuccess m).
Definition warningOf (m : jsstring) : option Suggestion := Some (mkSuggestion AsWarning m).
Definition errorOf (m : jsstring) : option Suggestion := Some (mkSuggestion AsError m).

(** [if (c) { body }] without [else]. *)
Definition guard {A} (c : bool) (body : option A) : option A :=
  if c then body else None.

(** [x.length] for an element the guard of the stage puts in range. *)
Definition lengthOf (x : option jsstring) : nat := length (Opt.toString x).

(** [/^\d+$/] *)
Definition re_digits : RegExp.t := RegExp.mk true (plus (Class digit)) true.

(** Stage 1, lines 335-343. *)
Definition stageArnPrefix (principal : jsstring) (parts : list jsstring)
    : option Suggestion :=
  guard ((length parts =? 1) && negb (JS.includes principal (lit ":")))
    (guard (JS.startsWith (lit "arn:") principal)
       (hintOf (bulb ++ lit " Continue typing: <code>arn:</code>"))).

(** Stage 2, lines 345-352. *)
Definition stageArnTyped (principal : jsstring) (parts : list jsstring)
    : option Suggestion :=
  guard ((length parts =? 2) && JS.endsWith principal (lit ":"))
    (hintOf (bulb ++ lit " Next: partition " ++ arrow
             ++ lit " <code>arn:aws:</code> for AWS, <code>arn:ipcld:</code> for Impossible Cloud")).

(** Stage 3, lines 354-383. *)
Definition stagePartition (principal : jsstring) (parts : list jsstring)
    : option Suggestion :=
  guard ((length parts =? 2) && negb (JS.endsWith principal (lit ":")))
    (let partition := nth_error parts 1 in
     if Opt.strictEq partition (lit "ipcld") then
       hintOf (bulb ++ lit " Good! Impossible Cloud ARN. Now add service: <code>arn:ipcld:iam:</code>")
     else if JS.startsWith (lit "ipcld") (Opt.toString partition) then
       hintOf (bulb ++ lit " Continue: <code>ipcld</code> for Impossible Cloud or <code>aws</code> for AWS")
     else if Opt.strictEq partition (lit "aws") || Opt.strictEq partition (lit "aws-cn")
             || Opt.strictEq partition (lit "aws-us-gov") then
       hintOf (bulb ++ lit " Good! Now add colon and service: <code>arn:"
               ++ Opt.toString partition ++ lit ":</code>")
     else if JS.startsWith (lit "aws") (Opt.toString partition)
             || JS.startsWith (lit "aws-cn") (Opt.toString partition)
             || JS.startsWith (lit "aws-us-gov") (Opt.toString partition) then
       hintOf (bulb ++ lit " Continue: <code>aws</code>, <code>aws-cn</code>, or <code>aws-us-gov</code>")
     else None).

(** Stage 4, lines 385-401. *)
Definition stageNeedService (principal : jsstring) (parts : list jsstring)
    : option Suggestion :=
  guard ((length parts =? 3) && JS.endsWith principal (lit ":"))
    (let partition := nth_error parts 1 in
     if Opt.strictEq partition (lit "ipcld") then
       hintOf (bulb ++ lit " Next: service " ++ arrow
               ++ lit " <code>iam</code> (Impossible Cloud only supports IAM currently)")
     else
       hintOf (bulb ++ lit " Next: service " ++ arrow
               ++ lit " <code>iam</code>, <code>s3</code>, or <code>sts</code> then <code>:</code>")).

(** Stage 5, lines 403-448. *)
Definition stageService (principal : jsstring) (parts : list jsstring)
    : option Suggestion :=
  guard ((length parts =? 3) && negb (JS.endsWith principal (lit ":")))
    (let partition := nth_error parts 1 in
     let service := nth_error parts 2 in
     if Opt.strictEq partition (lit "ipcld") then
       if Opt.strictEq service (lit "iam") then
         hintOf (bulb ++ lit " Good! Now add <code>:</code> then region (leave empty): <code>arn:ipcld:iam:</code>")
       else if JS.startsWith (lit "iam") (Opt.toString service) then
         hintOf (bulb ++ lit " Continue: <code>iam</code>")
       else
         hintOf (bulb ++ lit " Impossible Cloud only supports <code>iam</code> service")
     else if Opt.memberOf [lit "iam"; lit "s3"; lit "sts"] service then
       hintOf (bulb ++ lit " Good! Now add colon and region: <code>arn:"
               ++ Opt.toString partition ++ lit ":" ++ Opt.toString service
               ++ lit ":</code> (usually empty for IAM/S3)")
     else if Opt.memberOf
               [lit "ec2"; lit "lambda"; lit "cloudfront"; lit "elasticloadbalancing";
                lit "rds"; lit "dynamodb"] service then
       hintOf (warningSign ++ lit " Warning: <code>" ++ Opt.toString service
               ++ lit "</code> is AWS-specific and not supported by Impossible Cloud. Use <code>iam</code>, <code>s3</code>, or <code>sts</code>")
     else if JS.startsWith (lit "iam") (Opt.toString service)
             || JS.startsWith (lit "s3") (Opt.toString service)
             || JS.startsWith (lit "sts") (Opt.toString service) then
       hintOf (bulb ++ lit " Common services: <code>iam</code>, <code>s3</code>, <code>sts</code>")
     else None).

(** Stage 6, lines 450-465. *)
Definition stageNeedRegion (principal : jsstring) (parts : list jsstring)
    : option Suggestion :=
  guard ((length parts =? 4) && JS.endsWith principal (lit ":"))
    (let partition := nth_error parts 1 in
     if Opt.strictEq partition (lit "ipcld") then
       hintOf (bulb ++ lit " Next: region (leave empty for Impossible Cloud) " ++ arrow
               ++ lit " <code>:</code> then canonical ID")
     else
       hintOf (bulb ++ lit " Next: region (usually empty for IAM/S3) " ++ arrow
               ++ lit " <code>:</code> then account ID")).

(** Stage 7, lines 467-482. *)
Definition stageRegion (principal : jsstring) (parts : list jsstring)
    : option Suggestion :=
  guard ((length parts =? 4) && negb (JS.endsWith principal (lit ":")))
    (let partition := nth_error parts 1 in
     if Opt.strictEq partition (lit "ipcld") then
       hintOf (bulb ++ lit " Impossible Cloud ARNs leave region empty. Add <code>:</code> for canonical ID")
     else
       hintOf (bulb ++ lit " Most IAM/S3 ARNs leave region empty. Add <code>:</code> for account ID")).

(** Stage 8, lines 484-499. *)
Definition stageNeedAccount (principal : jsstring) (parts : list jsstring)
    : option Suggestion :=
  guard ((length parts =? 5) && JS.endsWith principal (lit ":"))
    (let partition := nth_error parts 1 in
     if Opt.strictEq partition (lit "ipcld") then
       hintOf (bulb ++ lit " Next: Your Impossible Cloud canonical ID (alphanumeric string) then <code>:</code>")
     else
       hintOf (bulb ++ lit " Next: 12-digit account ID " ++ arrow
               ++ lit " <code>123456789012</code> then <code>:</code>")).

(** [`Account ID: ${n}/12 digits (${12 - n} more needed)`] with the light
    bulb before it. *)
Definition msg_digits_so_far (n : nat) : jsstring :=
  bulb ++ lit " Account ID: " ++ showIndex n ++ lit "/12 digits ("
  ++ showIndex (12 - n) ++ lit " more needed)".

(** Stage 9, lines 501-548. *)
Definition stageAccount (principal : jsstring) (parts : list jsstring)
    : option Suggestion :=
  guard ((length parts =? 5) && negb (JS.endsWith principal (lit ":")))
    (let accountId := nth_error parts 4 in
     let partition := nth_error parts 1 in
     if Opt.strictEq partition (lit "ipcld") then
       if lengthOf accountId =? 0 then
         hintOf (bulb ++ lit " Enter your Impossible Cloud canonical ID")
       else if 0 <? lengthOf accountId then
         hintOf (bulb ++ lit " Continue entering canonical ID, then add <code>:</code> for resource")
       else None
     else
       if lengthOf accountId =? 0 then
         hintOf (bulb ++ lit " Enter your 12-digit AWS account ID")
       else if negb (Opt.test re_digits accountId) then
         errorOf (crossMark ++ lit " Account ID must contain only digits")
       else if lengthOf accountId <? 12 then
         hintOf (msg_digits_so_far (lengthOf accountId))
       else if lengthOf accountId =? 12 then
         hintOf (bulb ++ lit " Perfect! Now add <code>:</code> and resource (e.g., <code>user/username</code> or <code>root</code>)")
       else
         errorOf (crossMark ++ lit " Account ID must be exactly 12 digits")).

(** Stage 10, lines 550-573. *)
Definition stageNeedResource (principal : jsstring) (parts : list jsstring)
    : option Suggestion :=
  guard ((length parts =? 6) && JS.endsWith principal (lit ":"))
    (let partition := nth_error parts 1 in
     let service := nth_error parts 2 in
     if Opt.strictEq partition (lit "ipcld") then
       hintOf (bulb ++ lit " Next: resource " ++ arrow
               ++ lit " Examples: <code>user/alice</code>, <code>user/bob</code>, <code>policy/MyBucketPolicy</code>")
     else if Opt.strictEq service (lit "iam") then
       hintOf (bulb ++ lit " Next: resource " ++ arrow
               ++ lit " Examples: <code>user/alice</code>, <code>role/S3AccessRole</code>, <code>group/Developers</code>, or <code>root</code>")
     else
       hintOf (bulb ++ lit " Next: resource identifier")).

(** [resourceName && resourceName.length > 0] *)
Definition hasName (resourceName : option jsstring) : bool :=
  Opt.truthy resourceName && (0 <? lengthOf resourceName).

(** Lines 634-638: the object literal [examples], read at [resourceType]
    (one of its three keys where it is read). *)
Definition iamExamples (resourceType : option jsstring) : jsstring :=
  if Opt.strictEq resourceType (lit "user") then
    lit "<code>user/alice</code>, <code>user/developers/john</code>"
  else if Opt.strictEq resourceType (lit "role") then
    lit "<code>role/S3AccessRole</code>, <code>role/service-role/MyLambdaRole</code>"
  else if Opt.strictEq resourceType (lit "group") then
    lit "<code>group/Developers</code>, <code>group/Admins</code>"
  else lit "undefined".

(** Stage 11, lines 575-668. *)
Definition stageResource (principal : jsstring) (parts : list jsstring)
    : option Suggestion :=
  guard (6 <=? length parts)
    (let partition := nth_error parts 1 in
     let service := nth_error parts 2 in
     let resource := JS.join (lit ":") (JS.slice 5 parts) in
     if Opt.strictEq partition (lit "ipcld") then
       if JS.includes resource (lit "/") then
         let resourceParts := JS.split (ch "/") resource in
         let resourceType := nth_error resourceParts 0 in
         let resourceName := nth_error resourceParts 1 in
         if Opt.memberOf [lit "user"; lit "policy"] resourceType then
           if hasName resourceName then
             successOf (checkMark ++ lit " Valid Impossible Cloud "
                        ++ Opt.toString resourceType ++ lit " ARN")
           else
             let examples :=
               if Opt.strictEq resourceType (lit "user")
               then lit "<code>user/alice</code> or <code>user/bob</code>"
               else lit "<code>policy/MyBucketPolicy</code> or <code>policy/ReadOnlyAccess</code>" in
             hintOf (bulb ++ lit " Add the " ++ Opt.toString resourceType
                     ++ lit " name. Examples: " ++ examples)
         else if JS.startsWith (lit "user") (Opt.toString resourceType)
                 || JS.startsWith (lit "policy") (Opt.toString resourceType) then
           hintOf (bulb ++ lit " Impossible Cloud supports: <code>user/</code> or <code>policy/</code>")
         else None
       else if JS.startsWith (lit "user") resource
               || JS.startsWith (lit "policy") resource then
         hintOf (bulb ++ lit " Continue typing: <code>user/alice</code>, <code>user/bob</code>, or <code>policy/MyBucketPolicy</code>")
       else None
     else if Opt.strictEq service (lit "iam") then
       if JS.eqb resource (lit "root") then
         successOf (checkMark ++ lit " Complete! This grants access to the entire AWS account")
       else if JS.includes resource (lit "/") then
         let resourceParts := JS.split (ch "/") resource in
         let resourceType := nth_error resourceParts 0 in
         let resourceName := nth_error resourceParts 1 in
         if Opt.memberOf [lit "user"; lit "role"; lit "group"] resourceType then
           if hasName resourceName then
             successOf (checkMark ++ lit " Valid IAM " ++ Opt.toString resourceType
                        ++ lit " ARN")
           else
             hintOf (bulb ++ lit " Add the " ++ Opt.toString resourceType
                     ++ lit " name. Examples: " ++ iamExamples resourceType)
         else if JS.startsWith (lit "user") (Opt.toString resourceType)
                 || JS.startsWith (lit "role") (Opt.toString resourceType)
                 || JS.startsWith (lit "group") (Opt.toString resourceType) then
           hintOf (bulb ++ lit " Common types: <code>user/</code>, <code>role/</code>, <code>group/</code>")
         else None
       else if JS.startsWith (lit "user") resource
               || JS.startsWith (lit "role") resource
               || JS.startsWith (lit "group") resource
               || JS.startsWith (lit "root") resource then
         hintOf (bulb ++ lit " Continue typing: <code>user/alice</code>, <code>role/S3AccessRole</code>, <code>group/Developers</code>, or <code>root</code>")
       else None
     else None).

(** Lines 326-669: the block for a string that starts with [a]. *)
Definition arnStages (principal : jsstring) : option Suggestion :=
  guard (JS.startsWith principal (lit "arn:") || JS.startsWith principal (lit "arn")
         || JS.startsWith principal (lit "ar") || JS.startsWith principal (lit "a"))
    (let parts := JS.split (ch ":") principal in
     stageArnPrefix principal parts
     <|> stageArnTyped principal parts
     <|> stagePartition principal parts
     <|> stageNeedService principal parts
     <|> stageService principal parts
     <|> stageNeedRegion principal parts
     <|> stageRegion principal parts
     <|> stageNeedAccount principal parts
     <|> stageAccount principal parts
     <|> stageNeedResource principal parts
     <|> stageResource principal parts).

(** Lines 671-692. *)
Definition stageServicePrincipal (principal : jsstring) : option Suggestion :=
  guard (JS.includes principal (lit ".") || JS.includes principal (lit "amazonaws"))
    (if JS.endsWith principal (lit ".amazonaws.com")
        || JS.endsWith principal (lit ".amazon.com") then
       successOf (checkMark ++ lit " Valid service principal")
     else if JS.startsWith (lit "s3.amazonaws.com") principal
             || JS.startsWith (lit "ec2.amazonaws.com") principal then
       hintOf (bulb ++ lit " Common: <code>s3.amazonaws.com</code>, <code>ec2.amazonaws.com</code>")
     else if JS.includes principal (lit "amazonaws") then
       hintOf (bulb ++ lit " Service principal format: <code>service-name.amazonaws.com</code>")
     else None).

(** Lines 694-700. *)
Definition stageWildcard (principal : jsstring) : option Suggestion :=
  guard (JS.eqb principal (lit "*"))
    (warningOf (warningSign ++ lit " Wildcard grants public access - ensure this is intentional")).

(** Lines 702-723. *)
Definition stageDigits (principal : jsstring) : option Suggestion :=
  guard (test re_digits principal)
    (if length principal <? 12 then hintOf (msg_digits_so_far (length principal))
     else if length principal =? 12 then
       warningOf (warningSign ++ lit " Valid account ID. Consider using full ARN: <code>arn:aws:iam::"
                  ++ principal ++ lit ":root</code>")
     else errorOf (crossMark ++ lit " Account ID must be exactly 12 digits")).

(** [getARNSuggestion(principal)]; [None] is the [null] it returns when it
    has nothing to say. *)
Definition getARNSuggestion (principal : jsstring) : option Suggestion :=
  if negb (truthyString principal) || (length principal =? 0) then
    hintOf (bulb ++ lit " Start typing: <code>*</code> for public, <code>arn:aws:iam::</code> for AWS IAM, <code>arn:ipcld:iam::</code> for Impossible Cloud, or 64-char hex for canonical ID")
  else
    arnStages principal
    <|> stageServicePrincipal principal
    <|> stageWildcard principal
    <|> stageDigits principal.

(* ================================================================== *)
(** * The two fields with live validation (lines 100-128, 729-798) *)
(* ================================================================== *)

(** What was last assigned to the message element: [textContent] or
    [innerHTML]. *)
Inductive Content :=
| TextContent (text : jsstring)
| InnerHTML (html : jsstring).

(** The inline style of the message element, the four properties the
    source assigns; [None] is a property never assigned. *)
Record InlineStyle := mkInlineStyle {
  styleDisplay : option jsstring;
  styleBackground : option jsstring;
  styleBorderLeft : option jsstring;
  styleColor : option jsstring
}.

(** The part of the page a field's validation touches: whether the input
    carries the classes [valid] and [invalid], and the class name, content
    and inline style of the message element under it. *)
Record FieldView := mkFieldView {
  classValid : bool;
  classInvalid : bool;
  messageClass : jsstring;
  messageContent : Content;
  messageStyle : InlineStyle
}.

(** [input.classList.remove('valid', 'invalid'); div.className =
    'validation-message'; div.textContent = ''] *)
Definition clearView (v : FieldView) : FieldView :=
  mkFieldView false false (lit "validation-message") (TextContent (lit ""))
    (messageStyle v).

Definition addValid (v : FieldView) : FieldView :=
  mkFieldView true (classInvalid v) (messageClass v) (messageContent v) (messageStyle v).
Definition addInvalid (v : FieldView) : FieldView :=
  mkFieldView (classValid v) true (messageClass v) (messageContent v) (messageStyle v).
Definition setClass (c : jsstring) (v : FieldView) : FieldView :=
  mkFieldView (classValid v) (classInvalid v) c (messageContent v) (messageStyle v).
Definition setContent (c : Content) (v : FieldView) : FieldView :=
  mkFieldView (classValid v) (classInvalid v) (messageClass v) c (messageStyle v).

(** Lines 762-765 and 786-789: the four assignments of the warning look. *)
Definition warningStyle : InlineStyle :=
  mkInlineStyle (Some (lit "block")) (Some (lit "#fff8e1"))
    (Some (lit "3px solid #ff9800")) (Some (lit "#f57c00")).
Definition setWarningStyle (v : FieldView) : FieldView :=
  mkFieldView (classValid v) (classInvalid v) (messageClass v) (messageContent v)
    warningStyle.

(** [updateBucketNameValidation()], lines 100-128: [value] is the value of
    the input, the result is what the function returns and the view it
    leaves. *)
Definition updateBucketNameValidation (value : jsstring) (v : FieldView)
    : BucketVerdict * FieldView :=
  let bucketName := JS.trim value in
  let v := clearView v in
  if negb (truthyString bucketName) then
    (mkBucketVerdict false [lit "Bucket name is required"], v)
  else
    let validation := validateBucketName bucketName in
    if bucket_isValid validation then
      (validation,
       setContent (TextContent (checkMark ++ lit " Valid bucket name"))
         (setClass (lit "validation-message success") (addValid v)))
    else
      (validation,
       setContent
         (InnerHTML (crossMark ++ lit " "
                     ++ JS.join (lit "<br>" ++ crossMark ++ lit " ")
                          (bucket_errors validation)))
         (setClass (lit "validation-message error") (addInvalid v))).

(** [updatePrincipalValidation()], lines 729-798. *)
Definition updatePrincipalValidation (value : jsstring) (v : FieldView)
    : Verdict * FieldView :=
  let principal := JS.trim value in
  let v := clearView v in
  if negb (truthyString principal) then
    (mkVerdict true [] [],
     setContent
       (InnerHTML (bulb ++ lit " Optional: Use <code>*</code> for public access, or enter an ARN"))
       (setClass (lit "validation-message hint") v))
  else
    match getARNSuggestion principal with
    | Some suggestion =>
        match suggestionType suggestion with
        | AsSuccess =>
            (mkVerdict true [] [],
             setContent (InnerHTML (suggestionMessage suggestion))
               (setClass (lit "validation-message success") (addValid v)))
        | AsHint =>
            (mkVerdict false [] [],
             setContent (InnerHTML (suggestionMessage suggestion))
               (setClass (lit "validation-message hint") v))
        | AsWarning =>
            (mkVerdict true [] [suggestionMessage suggestion],
             setContent (InnerHTML (suggestionMessage suggestion))
               (setWarningStyle (setClass (lit "validation-message") (addValid v))))
        | AsError =>
            (mkVerdict false [suggestionMessage suggestion] [],
             setContent (InnerHTML (suggestionMessage suggestion))
               (setClass (lit "validation-message error") (addInvalid v)))
        end
    | None =>
        let validation := validatePrincipalARN principal in
        (validation,
         if isValid validation && (length (warnings validation) =? 0) then
           setContent (TextContent (checkMark ++ lit " Valid principal format"))
             (setClass (lit "validation-message success") (addValid v))
         else if isValid validation && (0 <? length (warnings validation)) then
           setContent
             (InnerHTML (warningSign ++ lit " "
                         ++ JS.join (lit "<br>" ++ warningSign ++ lit " ")
                              (warnings validation)))
             (setWarningStyle (setClass (lit "validation-message") (addValid v)))
         else
           setContent
             (InnerHTML (crossMark ++ lit " "
                         ++ JS.join (lit "<br>" ++ crossMark ++ lit " ")
                              (errors validation)))
             (setClass (lit "validation-message error") (addInvalid v)))
    end.

(* ================================================================== *)
(** * [debounce] (lines 14-24) *)
(* ================================================================== *)

(** The debounced function keeps one variable, [timeout], and works
    through the timers of the page.  Time is counted in milliseconds; the
    calls of [func] are kept as a record of what was run and when. *)
Section Debounce.

Variable Args : Type.

(** A timer set by [setTimeout(later, wait)]: its id, the time from which
    it may fire, and the arguments its callback [later] closed over. *)
Record Timer := mkTimer {
  timerId : nat;
  timerDue : nat;
  timerArgs : Args
}.

(** A run of [func]: when, with which arguments, and after how many calls
    of the debounced function. *)
Record Run := mkRun {
  runTime : nat;
  runArgs : Args;
  runAfter : nat
}.

Record World := mkWorld {
  clock : nat;
  timers : list Timer;            (* the timers not yet fired or cleared *)
  freshId : nat;                  (* the id the next [setTimeout] returns *)
  timeout : option nat;           (* the closure's variable, [undefined] at first *)
  calls : list (nat * Args);      (* the calls of the debounced function *)
  runs : list Run                 (* the calls of [func] *)
}.

Definition initialWorld : World := mkWorld 0 [] 1 None [] [].

(** [clearTimeout(id)]: the timer with that id, if it is still waiting, is
    dropped; [undefined] or an id that is not waiting changes nothing. *)
Definition clearTimeout (id : option nat) (waiting : list Timer) : list Timer :=
  match id with
  | Some i => filter (fun t => negb (timerId t =? i)) waiting
  | None => waiting
  end.

(** Lines 16-23: [executedFunction(...args)]. *)
Definition executedFunction (wait : nat) (args : Args) (w : World) : World :=
  let waiting := clearTimeout (timeout w) (timers w) in
  let id := freshId w in
  mkWorld (clock w)
    (waiting ++ [mkTimer id (clock w + wait) args])
    (S id)
    (Some id)
    (calls w ++ [(clock w, args)])
    (runs w).

(** Lines 17-20: [later], the callback of the timer [t], which the event
    loop has just taken out of the waiting timers. *)
Definition later (t : Timer) (w : World) : World :=
  let waiting := clearTimeout (timeout w) (timers w) in
  mkWorld (clock w) waiting (freshId w) (timeout w) (calls w)
    (runs w ++ [mkRun (clock w) (timerArgs t) (length (calls w))]).

(** What can happen: the debounced function is called, a waiting timer
    that is due fires, time passes. *)
Inductive Event :=
| Call (args : Args)
| Fire (id : nat)
| Tick (ms : nat).

Definition step (wait : nat) (w : World) (e : Event) : option World :=
  match e with
  | Call args => Some (executedFunction wait args w)
  | Fire id =>
      match find (fun t => timerId t =? id) (timers w) with
      | Some t =>
          if timerDue t <=? clock w then
            Some (later t
                    (mkWorld (clock w)
                       (filter (fun t' => negb (timerId t' =? id)) (timers w))
                       (freshId w) (timeout w) (calls w) (runs w)))
          else None
      | None => None
      end
  | Tick ms =>
      Some (mkWorld (clock w + ms) (timers w) (freshId w) (timeout w) (calls w) (runs w))
  end.

Fixpoint run (wait : nat) (events : list Event) (w : World) : option World :=
  match events with
  | [] => Some w
  | e :: rest =>
      match step wait w e with
      | Some w' => run wait rest w'
      | None => None
      end
  end.

End Debounce.

Arguments Call {Args} args.
Arguments Fire {Args} id.
Arguments Tick {Args} ms.
(* ================================================================== *)
(** * Further specification-side definitions *)
(* ================================================================== *)

(** What [trim] returns: nothing, or a string that neither starts nor
    ends with white space. *)
Definition Trimmed (s : jsstring) : Prop :=
  (forall c t, s = c :: t -> JS.isWhiteSpace c = false)
  /\ (forall t c, s = t ++ [c] -> JS.isWhiteSpace c = false).

(** ** Bucket names in elementary terms *)

Definition msg_bucket_charset : jsstring :=
  lit "Bucket name can only contain lowercase letters, numbers, dots (.), and hyphens (-)".
Definition msg_bucket_ip : jsstring :=
  lit "Bucket name cannot be formatted as an IP address (e.g., 192.168.1.1)".
Definition msg_bucket_uppercase : jsstring :=
  lit "Bucket name cannot contain uppercase letters".
Definition msg_bucket_underscore : jsstring :=
  lit "Bucket name cannot contain underscores (_)".

(** One to three digits; four such groups joined by periods. *)
Definition digitGroup (g : jsstring) : bool :=
  (1 <=? length g) && (length g <=? 3) && forallb digit g.

Definition dottedQuad (a b c d : jsstring) : jsstring :=
  a ++ lit "." ++ b ++ lit "." ++ c ++ lit "." ++ d.

Definition IsDottedQuad (s : jsstring) : Prop :=
  exists a b c d,
    digitGroup a = true /\ digitGroup b = true /\ digitGroup c = true
    /\ digitGroup d = true /\ s = dottedQuad a b c d.

(** The naming rules without regular expressions. *)
Definition BucketNameRules (s : jsstring) : Prop :=
  3 <= length s <= 63
  /\ forallb bucketChar s = true
  /\ (exists c, hd_error s = Some c /\ lowerAlnum c = true)
  /\ (exists c, hd_error (rev s) = Some c /\ lowerAlnum c = true)
  /\ ~ IsDottedQuad s
  /\ JS.startsWith s (lit "xn--") = false
  /\ JS.endsWith s (lit "-s3alias") = false
  /\ JS.includes s (lit "..") = false
  /\ JS.includes s (lit ".-") = false
  /\ JS.includes s (lit "-.") = false.

(** The characters of a dotted quad. *)
Definition quadChar : char -> bool := orC digit (one ".").

(** ** The anatomy of an ARN *)

(** [arn:partition:service:region:account:resource] *)
Definition arnOf (partition service region account resource : jsstring) : jsstring :=
  lit "arn:" ++ partition ++ lit ":" ++ service ++ lit ":" ++ region
  ++ lit ":" ++ account ++ lit ":" ++ resource.

Definition awsPartitions : list jsstring := [lit "aws"; lit "aws-cn"; lit "aws-us-gov"].

(** The strings [arnRegex] describes, field by field. *)
Definition ArnShape (partition service region account resource : jsstring) : Prop :=
  In partition awsPartitions
  /\ service <> [] /\ forallb serviceChar service = true
  /\ forallb serviceChar region = true
  /\ (account = [] \/ (length account = 12 /\ forallb digit account = true))
  /\ resource <> [] /\ forallb dot resource = true.

Definition noColon (s : jsstring) : bool :=
  forallb (fun c => negb (N.eqb c (ch ":"))) s.

(** ** Predicates on checks *)

(** A check that pushes nothing and does not throw. *)
Definition Silent (c : Check) : Prop := forall l, c l = Some l.

(** Every message the check pushes satisfies [P], and what the arrays held
    before stays in front. *)
Definition Pushes (P : jsstring -> Prop) (c : Check) : Prop :=
  forall l l', c l = Some l' ->
    exists added,
      l' = prependLog l added
      /\ Forall P (log_errors added) /\ Forall P (log_warnings added).

(** The report on each statement of a list, taken alone: what
    [validateStatement] pushes onto empty arrays for the statement at its
    index. *)
Definition statementReports (statements : list json) : list (option Log) :=
  List.map (fun '(idx, stmt) => validateStatement stmt idx emptyLog)
    (combine (seq 0 (length statements)) statements).

(** One report after another; a TypeError ends the run. *)
Definition joinLogs (a b : option Log) : option Log :=
  match a, b with
  | Some x, Some y => Some (prependLog x y)
  | _, _ => None
  end.

(** Values whose conversion to a string throws: an object with an own
    [toString] property (never callable in parsed JSON), or an array that
    holds such a value. *)
Fixpoint hidesToString (x : json) : bool :=
  match x with
  | JArray items => existsb hidesToString items
  | JObject props =>
      match Val.assoc (lit "toString") props with
      | Some _ => true
      | None => false
      end
  | _ => false
  end.

(** A statement whose Effect cannot be shown in the error message. *)
Definition EffectThrows (stmt : json) : Prop :=
  exists effect,
    Val.get stmt (lit "Effect") = Some effect /\ hidesToString effect = true.

(** A check that does not throw. *)
Definition Completes (c : Check) : Prop := forall l, c l <> None.

(** An action with the [s3] service before its colon. *)
Definition s3Action (a : jsstring) : bool :=
  JS.includes a (lit ":") && Opt.strictEq (nth_error (JS.split (ch ":") a) 0) (lit "s3").

(** The actions taken from the text area: the lines of the trimmed text,
    each trimmed, blank ones left out. *)
Definition customActionsOf (form : Form) : list jsstring :=
  filter truthyString
    (List.map JS.trim (JS.split 10%N (JS.trim (customActionsInput form)))).

(** A form whose four text inputs are those of [form] with white space
    around them. *)
Definition paddedForm (form : Form) (b1 b2 p1 p2 c1 c2 k1 k2 : jsstring) : Form :=
  mkForm (b1 ++ bucketNameInput form ++ b2) (policyEffect form)
    (p1 ++ resourcePathInput form ++ p2) (checkedActions form)
    (c1 ++ customActionsInput form ++ c2) (k1 ++ conditionInput form ++ k2).

(** What every world reached from the initial one satisfies. *)
Record Settled (Args : Type) (wait : nat) (w : World Args) : Prop := {
  settled_timers :
    timers w = [] \/
    exists id t a before,
      timers w = [mkTimer id (t + wait) a] /\
      timeout w = Some id /\
      calls w = before ++ [(t, a)] /\
      Forall (fun r => runAfter r < length (calls w)) (runs w);
  settled_calls : Forall (fun c => fst c <= clock w) (calls w);
  settled_runs :
    Forall (fun r =>
      runTime r <= clock w /\
      runAfter r <= length (calls w) /\
      (exists t, nth_error (calls w) (pred (runAfter r)) = Some (t, runArgs r) /\
                 1 <= runAfter r /\ t + wait <= runTime r) /\
      (forall j c, runAfter r <= j -> nth_error (calls w) j = Some c ->
                   runTime r <= fst c)) (runs w);
  settled_once : NoDup (map (@runAfter Args) (runs w))
}.

Arguments Settled : clear implicits.


(* ================================================================== *)
(** * [JSON.stringify(policy, null, 2)] (line 970) *)
(* ================================================================== *)

(** The text written to [policyOutput]: the serialization of a value that
    holds no function, no [undefined] and no [toJSON] method, with a gap of
    two spaces. *)
Module Stringify.

Definition hexDigit (n : N) : char := (if n <? 10 then 48 + n else 87 + n)%N.

(** [UnicodeEscape]: a backslash, [u] and four lowercase hexadecimal digits. *)
Definition unicodeEscape (c : char) : jsstring :=
  [92; 117; hexDigit (c / 4096); hexDigit ((c / 256) mod 16);
   hexDigit ((c / 16) mod 16); hexDigit (c mod 16)]%N.

Definition isLeadingSurrogate (c : char) : bool :=
  ((55296 <=? c) && (c <=? 56319))%N.
Definition isTrailingSurrogate (c : char) : bool :=
  ((56320 <=? c) && (c <=? 57343))%N.

(** The two-character escapes of [QuoteJSONString]. *)
Definition shortEscape (c : char) : option char :=
  if (c =? 8)%N then Some (ch "b")
  else if (c =? 9)%N then Some (ch "t")
  else if (c =? 10)%N then Some (ch "n")
  else if (c =? 12)%N then Some (ch "f")
  else if (c =? 13)%N then Some (ch "r")
  else if (c =? 34)%N then Some 34%N
  else if (c =? 92)%N then Some 92%N
  else None.

(** The characters between the quotes: control characters and surrogates
    without their partner are escaped, a surrogate pair is kept. *)
Fixpoint quoteChars (s : jsstring) : jsstring :=
  match s with
  | [] => []
  | c :: s' =>
      match shortEscape c with
      | Some e => 92%N :: e :: quoteChars s'
      | None =>
          if (c <? 32)%N then unicodeEscape c ++ quoteChars s'
          else if isLeadingSurrogate c then
            match s' with
            | d :: s'' =>
                if isTrailingSurrogate d then c :: d :: quoteChars s''
                else unicodeEscape c ++ quoteChars s'
            | [] => unicodeEscape c
            end
          else if isTrailingSurrogate c then unicodeEscape c ++ quoteChars s'
          else c :: quoteChars s'
      end
  end.

Definition quote (s : jsstring) : jsstring := dq ++ quoteChars s ++ dq.

(** A Number that is not finite is written [null]. *)
Definition isFinite (repr : jsstring) : bool :=
  negb (JS.eqb repr (lit "Infinity") || JS.eqb repr (lit "-Infinity")
        || JS.eqb repr (lit "NaN")).

Definition gap : jsstring := lit "  ".
Definition lineFeed : jsstring := [10%N].

(** [SerializeJSONProperty] with [SerializeJSONArray] and
    [SerializeJSONObject], at the indentation [indent]. *)
Fixpoint serialize (indent : jsstring) (v : json) : jsstring :=
  match v with
  | JNull => lit "null"
  | JBool true => lit "true"
  | JBool false => lit "false"
  | JNumber repr => if isFinite repr then repr else lit "null"
  | JString s => quote s
  | JArray items =>
      let stepback := indent in
      let indent := indent ++ gap in
      let partial := List.map (serialize indent) items in
      match partial with
      | [] => lit "[]"
      | _ :: _ =>
          let separator := lit "," ++ lineFeed ++ indent in
          lit "[" ++ lineFeed ++ indent ++ JS.join separator partial
          ++ lineFeed ++ stepback ++ lit "]"
      end
  | JObject props =>
      let stepback := indent in
      let indent := indent ++ gap in
      let partial :=
        List.map (fun kv => let '(k, x) := kv in
                            quote k ++ lit ": " ++ serialize indent x) props in
      match partial with
      | [] => lit "{}"
      | _ :: _ =>
          let separator := lit "," ++ lineFeed ++ indent in
          lit "{" ++ lineFeed ++ indent ++ JS.join separator partial
          ++ lineFeed ++ stepback ++ lit "}"
      end
  end.

Definition stringify (v : json) : jsstring := serialize [] v.

End Stringify.

(** Line 970: the text of [policyOutput] after a call of [generatePolicy];
    a rejected call leaves the text as it was. *)
Definition policyOutput (before : jsstring) (o : Outcome) : jsstring :=
  match o with
  | Generated policy => Stringify.stringify policy
  | Rejected _ => before
  end.

(* ================================================================== *)
(** * [showNotification] (lines 1473-1493) and the Validate button *)
(* ================================================================== *)

Record Notification := mkNotification {
  notificationText : jsstring;
  notificationBackground : jsstring;
  notificationTimeout : N          (* the delay after which [show] is removed *)
}.

Definition showNotification (message type : jsstring) : Notification :=
  let background :=
    if JS.eqb type (lit "error") then lit "#dc3545"
    else if JS.eqb type (lit "warning") then lit "#ff9800"
    else lit "#28a745" in
  let timeout :=
    if JS.eqb type (lit "error") || JS.eqb type (lit "warning")
    then 8000%N else 3000%N in
  mkNotification message background timeout.

Definition crossBox : jsstring := [10060%N].
Definition bullet : jsstring := [8226%N].
Definition warningEmoji : jsstring := [9888%N; 65039%N].
Definition checkBox : jsstring := [9989%N].

(** Lines 1083-1092: what [validatePolicy] shows for the two arrays. *)
Definition displayResults (l : Log) : Notification :=
  if 0 <? length (log_errors l) then
    let errorMsg :=
      crossBox ++ lit " Validation failed:" ++ [10%N] ++ bullet ++ lit " "
      ++ JS.join ([10%N] ++ bullet ++ lit " ") (log_errors l) in
    showNotification errorMsg (lit "error")
  else if 0 <? length (log_warnings l) then
    let warnMsg :=
      warningEmoji ++ lit " Policy is valid but has warnings:" ++ [10%N] ++ bullet ++ lit " "
      ++ JS.join ([10%N] ++ bullet ++ lit " ") (log_warnings l) in
    showNotification warnMsg (lit "warning")
  else
    showNotification
      (checkBox ++ lit " Policy is valid and follows AWS best practices!")
      (lit "success").

(** Lines 1026-1093, from the text of [policyOutput]: the notification
    shown, or [None] for the TypeError that ends the call without one.
    [syntaxMessage] is the engine's [e.message] for a text that does not
    parse. *)
Definition validatePolicyText (syntaxMessage : jsstring) (policyText : jsstring)
    : option Notification :=
  match JSON.parse policyText with
  | None =>
      Some (showNotification
              (crossBox ++ lit " Invalid JSON syntax: " ++ syntaxMessage) (lit "error"))
  | Some policy =>
      match validatePolicy policy with
      | Some l => Some (displayResults l)
      | None => None
      end
  end.

(** ** Values that are written the way they are read *)

(** Keys in [Object.keys] order: no key twice, the array indices first and
    ascending, the other keys after them. *)
Fixpoint keysOrdered (ks : list jsstring) : bool :=
  match ks with
  | [] => true
  | k :: rest =>
      negb (existsb (JS.eqb k) rest)
      && match JSON.arrayIndex k with
         | Some i =>
             forallb (fun k' => match JSON.arrayIndex k' with
                                | Some i' => (i <? i')%N
                                | None => true
                                end) rest
         | None =>
             forallb (fun k' => match JSON.arrayIndex k' with
                                | Some _ => false
                                | None => true
                                end) rest
         end
      && keysOrdered rest
  end.

(** A Number whose rendering, read as a literal, denotes that Number. *)
Definition stableNumber (repr : jsstring) : bool :=
  match JSON.parseNumber repr with
  | Some (JNumber r, []) => JS.eqb r repr
  | _ => false
  end.

(** Objects with their keys in order at every depth. *)
Fixpoint keysInOrder (v : json) : bool :=
  match v with
  | JArray items => forallb keysInOrder items
  | JObject props =>
      keysOrdered (List.map fst props)
      && forallb (fun kv => keysInOrder (snd kv)) props
  | _ => true
  end.

(** Numbers that read back, at every depth. *)
Fixpoint numbersStable (v : json) : bool :=
  match v with
  | JNumber repr => stableNumber repr
  | JArray items => forallb numbersStable items
  | JObject props =>
      forallb (fun kv => numbersStable (snd kv)) props
  | _ => true
  end.

(** The parts of [JSON.parseNumber], named: the fraction and the exponent
    of a literal, and what follows the integer part. *)
Definition fractionPart (s : jsstring) : option (jsstring * jsstring) :=
  match s with
  | c :: s' =>
      if one "." c then
        let '(frac, rest) := JSON.spanDigits s' in
        match frac with
        | [] => None
        | _ => Some (frac, rest)
        end
      else Some ([], s)
  | [] => Some ([], s)
  end.

Definition exponentPart (s : jsstring) : option (Z * jsstring) :=
  match s with
  | c :: s' =>
      if one "e" c || one "E" c then
        let '(expNegative, s'') :=
          match s' with
          | g :: t =>
              if one "-" g then (true, t)
              else if one "+" g then (false, t)
              else (false, s')
          | [] => (false, s')
          end in
        let '(ds, rest) := JSON.spanDigits s'' in
        match ds with
        | [] => None
        | _ =>
            let e := Z.of_N (JSON.digitsValue ds) in
            Some ((if expNegative then - e else e)%Z, rest)
        end
      else Some (0%Z, s)
  | [] => Some (0%Z, s)
  end.

Definition afterInteger (negative : bool) (int s : jsstring) : option (json * jsstring) :=
  match int with
  | [] => None
  | lead :: more =>
      if one "0" lead && negb (length more =? 0) then None
      else
        match fractionPart s with
        | None => None
        | Some (frac, s) =>
            match exponentPart s with
            | None => None
            | Some (e, rest) =>
                let m := JSON.digitsValue (int ++ frac) in
                let e := (e - Z.of_nat (length frac))%Z in
                Some (JNumber (Num.canonical negative m e), rest)
            end
        end
  end.

(** What may follow a number literal without changing how it reads. *)
Definition delimited (rest : jsstring) : bool :=
  match rest with
  | [] => true
  | c :: _ => negb (digit c || one "." c || one "e" c || one "E" c)
  end.

(** The fuel [JSON.parseValue] needs for the text of a value: one unit for
    the value and one more for each element or member. *)
Fixpoint parseCost (v : json) : nat :=
  match v with
  | JArray items => S (fold_right (fun x n => S (parseCost x + n)) 0 items)
  | JObject props => S (fold_right (fun kv n => S (parseCost (snd kv) + n)) 0 props)
  | _ => 1
  end.

Definition elementsCost (items : list json) : nat :=
  fold_right (fun x n => S (parseCost x + n)) 0 items.
Definition membersCost (props : list (jsstring * json)) : nat :=
  fold_right (fun kv n => S (parseCost (snd kv) + n)) 0 props.

(** What stands between two elements or members, and after the last one. *)
Definition separator (inner : jsstring) : jsstring :=
  lit "," ++ Stringify.lineFeed ++ inner.
Definition closing (stepback rest bracket : jsstring) : jsstring :=
  Stringify.lineFeed ++ stepback ++ bracket ++ rest.

(** The text of [v], at any indentation and before any delimiter, is read
    back as [v]. *)
Definition Reads (v : json) : Prop :=
  forall indent rest fuel,
    forallb JSON.isWs indent = true -> delimited rest = true ->
    parseCost v <= fuel ->
    JSON.parseValue fuel (Stringify.serialize indent v ++ rest) = Some (v, rest).

(** A value with index keys, numbers, escapes and nesting. *)
Definition sampleValue : json :=
  JObject [ (lit "1", JNumber (lit "1.5"));
            (lit "10", JArray [JString (lit "a" ++ dq ++ [10%N; 7%N; 55357%N] ++ lit "b" ++ [92%N]);
                               JNull; JBool true; JArray []; JNumber (lit "1e+21")]);
            (lit "b", JObject [(lit "k", JNumber (lit "-0.000001")); (lit "", JObject [])]) ].

(** The text [{"NumericLessThan":{"s3:max-keys":10}}]. *)
Definition numericConditionText : jsstring :=
  lit "{" ++ dq ++ lit "NumericLessThan" ++ dq ++ lit ":{" ++ dq ++ lit "s3:max-keys" ++ dq
  ++ lit ":10}}".

Definition numericConditionForm : Form :=
  sampleForm "test-bucket" ["s3:GetObject"%string] numericConditionText.


(* ================================================================== *)
(** * The page *)
(* ================================================================== *)

(** The elements the script reads and writes, with the properties it
    uses.  The markup is not part of the script; what follows holds for
    any page. *)

(** An [input] element. *)
Record Input := mkInput {
  isCheckbox : bool;                  (* matches [input[type="checkbox"]] *)
  valueAttribute : option jsstring;   (* its [value] attribute *)
  inputChecked : bool;
  isS3Action : bool;                  (* has the class [s3-action] *)
  actionCategory : option nat         (* its closest [.action-category], by number *)
}.

(** [cb.value] of a checkbox: the attribute, or [on] without one. *)
Definition inputValue (i : Input) : jsstring :=
  match valueAttribute i with
  | Some v => v
  | None => lit "on"
  end.

Definition setChecked (b : bool) (i : Input) : Input :=
  mkInput (isCheckbox i) (valueAttribute i) b (isS3Action i) (actionCategory i).

Record Page := mkPage {
  pageBucketName : jsstring;          (* the value of [#bucketName] *)
  effectOptions : list jsstring;      (* the option values of the select [#policyEffect] *)
  pagePolicyEffect : jsstring;        (* its value *)
  pagePrincipal : jsstring;
  pageResourcePath : jsstring;
  pageCustomActions : jsstring;
  pageCondition : jsstring;
  pageInputs : list Input;            (* the [input] elements, in document order *)
  pageCollapsed : list bool;          (* the [.action-category] elements: collapsed? *)
  bucketNameValidation : FieldView;
  principalValidation : FieldView;
  pagePolicyOutput : jsstring;        (* the text of [#policyOutput], which the
                                         script writes and the user can edit *)
  currentPolicy : option json;        (* the variable of line 6; [None] is [null] *)
  pageNotification : option Notification; (* the notification shown last *)
  pageDownloads : list (jsstring * jsstring); (* the files saved: name and content *)
  pageClipboard : list jsstring       (* the texts handed to [clipboard.writeText] *)
}.

(** What [generatePolicy] reads from the page. *)
Definition formOf (page : Page) : Form :=
  mkForm (pageBucketName page) (pagePolicyEffect page) (pageResourcePath page)
    (List.map inputValue
       (filter (fun i => isCheckbox i && inputChecked i) (pageInputs page)))
    (pageCustomActions page) (pageCondition page).

(** [select.value = v]: the first option with that value becomes the
    selected one; without such an option none is selected and the value is
    the empty string. *)
Definition selectValue (options : list jsstring) (v : jsstring) : jsstring :=
  if JS.arrayIncludes options v then v else lit "".

(** Assignments to the parts of the page. *)
Definition withFields (bucketName effect principal resourcePath customActions
    condition : jsstring) (page : Page) : Page :=
  mkPage bucketName (effectOptions page) effect principal resourcePath customActions
    condition (pageInputs page) (pageCollapsed page)
    (bucketNameValidation page) (principalValidation page)
    (pagePolicyOutput page) (currentPolicy page) (pageNotification page)
    (pageDownloads page) (pageClipboard page).

Definition withInputs (inputs : list Input) (page : Page) : Page :=
  mkPage (pageBucketName page) (effectOptions page) (pagePolicyEffect page)
    (pagePrincipal page) (pageResourcePath page) (pageCustomActions page)
    (pageCondition page) inputs (pageCollapsed page)
    (bucketNameValidation page) (principalValidation page)
    (pagePolicyOutput page) (currentPolicy page) (pageNotification page)
    (pageDownloads page) (pageClipboard page).

Definition withCollapsed (collapsed : list bool) (page : Page) : Page :=
  mkPage (pageBucketName page) (effectOptions page) (pagePolicyEffect page)
    (pagePrincipal page) (pageResourcePath page) (pageCustomActions page)
    (pageCondition page) (pageInputs page) collapsed
    (bucketNameValidation page) (principalValidation page)
    (pagePolicyOutput page) (currentPolicy page) (pageNotification page)
    (pageDownloads page) (pageClipboard page).

Definition withValidation (bucketNameView principalView : FieldView) (page : Page)
    : Page :=
  mkPage (pageBucketName page) (effectOptions page) (pagePolicyEffect page)
    (pagePrincipal page) (pageResourcePath page) (pageCustomActions page)
    (pageCondition page) (pageInputs page) (pageCollapsed page)
    bucketNameView principalView
    (pagePolicyOutput page) (currentPolicy page) (pageNotification page)
    (pageDownloads page) (pageClipboard page).

Definition withPolicy (output : jsstring) (policy : option json) (page : Page) : Page :=
  mkPage (pageBucketName page) (effectOptions page) (pagePolicyEffect page)
    (pagePrincipal page) (pageResourcePath page) (pageCustomActions page)
    (pageCondition page) (pageInputs page) (pageCollapsed page)
    (bucketNameValidation page) (principalValidation page)
    output policy (pageNotification page)
    (pageDownloads page) (pageClipboard page).

Definition withNotification (n : Notification) (page : Page) : Page :=
  mkPage (pageBucketName page) (effectOptions page) (pagePolicyEffect page)
    (pagePrincipal page) (pageResourcePath page) (pageCustomActions page)
    (pageCondition page) (pageInputs page) (pageCollapsed page)
    (bucketNameValidation page) (principalValidation page)
    (pagePolicyOutput page) (currentPolicy page) (Some n)
    (pageDownloads page) (pageClipboard page).

Definition withSaved (downloads : list (jsstring * jsstring)) (clipboard : list jsstring)
    (page : Page) : Page :=
  mkPage (pageBucketName page) (effectOptions page) (pagePolicyEffect page)
    (pagePrincipal page) (pageResourcePath page) (pageCustomActions page)
    (pageCondition page) (pageInputs page) (pageCollapsed page)
    (bucketNameValidation page) (principalValidation page)
    (pagePolicyOutput page) (currentPolicy page) (pageNotification page)
    downloads clipboard.

(** [showNotification(message, type)] on the page. *)
Definition notify (message type : jsstring) (page : Page) : Page :=
  withNotification (showNotification message type) page.

(** The calls [updateBucketNameValidation()] and
    [updatePrincipalValidation()], for what they do to the page. *)
Definition refreshBucketName (page : Page) : Page :=
  withValidation
    (snd (updateBucketNameValidation (pageBucketName page) (bucketNameValidation page)))
    (principalValidation page) page.

Definition refreshPrincipal (page : Page) : Page :=
  withValidation (bucketNameValidation page)
    (snd (updatePrincipalValidation (pagePrincipal page) (principalValidation page)))
    page.

(** How a call ends: it returns, or a TypeError ends it early; either way
    with the page as the call left it. *)
Inductive Ran :=
| Returned (page : Page)
| Threw (page : Page).

(* ================================================================== *)
(** * [toggleCategory] (lines 27-30) *)
(* ================================================================== *)

Fixpoint setNth {A : Type} (n : nat) (x : A) (l : list A) : list A :=
  match l, n with
  | [], _ => []
  | _ :: rest, O => x :: rest
  | y :: rest, S n' => y :: setNth n' x rest
  end.

(** [category] is the closest [.action-category] of the header clicked;
    [None], for a header outside of any, is the TypeError of
    [null.classList]. *)
Definition toggleCategory (category : option nat) (page : Page) : option Page :=
  match category with
  | Some c =>
      match nth_error (pageCollapsed page) c with
      | Some b => Some (withCollapsed (setNth c (negb b) (pageCollapsed page)) page)
      | None => None
      end
  | None => None
  end.

(* ================================================================== *)
(** * [loadTemplate] (lines 800-881) *)
(* ================================================================== *)

Record Template := mkTemplate {
  templateEffect : jsstring;
  templateActions : list jsstring;
  templateResourcePath : jsstring;
  templateDescription : jsstring
}.

Definition templates : list (jsstring * Template) :=
  [ (lit "publicRead",
     mkTemplate (lit "Allow") [lit "s3:GetObject"] (lit "*")
       (lit "Public read access for all objects"));
    (lit "privateReadWrite",
     mkTemplate (lit "Allow")
       [lit "s3:GetObject"; lit "s3:PutObject"; lit "s3:DeleteObject"; lit "s3:ListBucket"]
       (lit "*") (lit "Private read/write access for specific IAM user"));
    (lit "crossAccount",
     mkTemplate (lit "Allow") [lit "s3:GetObject"; lit "s3:ListBucket"] (lit "*")
       (lit "Cross-account access"));
    (lit "objectLockVersioning",
     mkTemplate (lit "Allow")
       [ lit "s3:GetObject"; lit "s3:PutObject"; lit "s3:DeleteObject";
         lit "s3:ListBucket"; lit "s3:GetObjectAttributes";
         lit "s3:GetObjectLockConfiguration"; lit "s3:PutObjectLockConfiguration";
         lit "s3:BypassGovernanceRetention";
         lit "s3:GetBucketVersioning"; lit "s3:PutBucketVersioning";
         lit "s3:ListBucketVersions"; lit "s3:GetObjectVersion";
         lit "s3:DeleteObjectVersion"; lit "s3:GetObjectVersionAttributes" ]
       (lit "*") (lit "Enable object lock and versioning with read/write access")) ].

(** The names every object inherits from [Object.prototype]; each is a
    function or an object, so truthy, and has none of the properties of a
    template. *)
Definition objectPrototypeNames : list jsstring :=
  [ lit "constructor"; lit "hasOwnProperty"; lit "isPrototypeOf";
    lit "propertyIsEnumerable"; lit "toLocaleString"; lit "toString"; lit "valueOf";
    lit "__proto__"; lit "__defineGetter__"; lit "__defineSetter__";
    lit "__lookupGetter__"; lit "__lookupSetter__" ].

(** [templates[templateName]] *)
Inductive TemplateLookup :=
| OwnTemplate (template : Template)
| Inherited
| Undefined.

Fixpoint ownTemplate (name : jsstring) (l : list (jsstring * Template)) : option Template :=
  match l with
  | [] => None
  | (k, t) :: rest => if JS.eqb k name then Some t else ownTemplate name rest
  end.

Definition lookupTemplate (templateName : jsstring) : TemplateLookup :=
  match ownTemplate templateName templates with
  | Some t => OwnTemplate t
  | None =>
      if JS.arrayIncludes objectPrototypeNames templateName then Inherited else Undefined
  end.

(** Line 852: every checkbox is unchecked. *)
Definition uncheckAll (inputs : list Input) : list Input :=
  List.map (fun i => if isCheckbox i then setChecked false i else i) inputs.

(** Lines 856-857: [document.querySelector(`input[value="${action}"]`)]
    is the first [input] with that [value] attribute, of whatever type;
    it is checked if there is one. *)
Fixpoint checkFirst (action : jsstring) (inputs : list Input) : list Input :=
  match inputs with
  | [] => []
  | i :: rest =>
      if Opt.strictEq (valueAttribute i) action then setChecked true i :: rest
      else i :: checkFirst action rest
  end.

(** Lines 861-871: the collapsed categories of the checked [s3-action]
    checkboxes are expanded. *)
Definition categoriesToExpand (inputs : list Input) (collapsed : list bool) : list nat :=
  flat_map
    (fun i =>
       if isCheckbox i && inputChecked i && isS3Action i then
         match actionCategory i with
         | Some c =>
             match nth_error collapsed c with
             | Some true => [c]
             | _ => []
             end
         | None => []
         end
       else [])
    inputs.

Definition expandAll (categories : list nat) (collapsed : list bool) : list bool :=
  fold_left (fun collapsed c => setNth c false collapsed) categories collapsed.

Definition loadTemplate (templateName : jsstring) (page : Page) : Ran :=
  match lookupTemplate templateName with
  | Undefined => Returned page
  | Inherited =>
      (* [template.effect] and [template.resourcePath] are [undefined];
         [template.actions.forEach] throws *)
      Threw
        (withInputs (uncheckAll (pageInputs page))
           (withFields (pageBucketName page)
              (selectValue (effectOptions page) (lit "undefined"))
              (pagePrincipal page) (lit "undefined") (pageCustomActions page)
              (pageCondition page) page))
  | OwnTemplate template =>
      let page :=
        withFields (pageBucketName page)
          (selectValue (effectOptions page) (templateEffect template))
          (pagePrincipal page) (templateResourcePath template)
          (pageCustomActions page) (pageCondition page) page in
      let page := withInputs (uncheckAll (pageInputs page)) page in
      let page :=
        withInputs
          (fold_left (fun inputs action => checkFirst action inputs)
             (templateActions template) (pageInputs page)) page in
      let page :=
        withCollapsed
          (expandAll (categoriesToExpand (pageInputs page) (pageCollapsed page))
             (pageCollapsed page)) page in
      let page := refreshBucketName page in
      let page := refreshPrincipal page in
      Returned (notify (lit "Template loaded: " ++ templateName) (lit "success") page)
  end.

(* ================================================================== *)
(** * [generatePolicy], [validatePolicy] and [clearForm] on the page *)
(* ================================================================== *)

(** Lines 883-972 with what they write: the notification, the validation
    of the bucket name shown for an invalid one, [currentPolicy] and the
    text of [policyOutput]. *)
Definition generatePolicyOn (now : N) (page : Page) : Page :=
  let bucketName := JS.trim (pageBucketName page) in
  if negb (truthyString bucketName) then notify msg_no_bucket (lit "error") page
  else if negb (bucket_isValid (validateBucketName bucketName)) then
    notify msg_bad_bucket (lit "error") (refreshBucketName page)
  else
    match generatePolicy (formOf page) now with
    | Rejected message => notify message (lit "error") page
    | Generated policy =>
        notify (lit "Policy generated successfully!") (lit "success")
          (withPolicy (Stringify.stringify policy) (Some policy) page)
    end.

(** Lines 1026-1093 on the page; a TypeError leaves it as it was. *)
Definition validatePolicyOn (syntaxMessage : jsstring) (page : Page) : Ran :=
  match validatePolicyText syntaxMessage (pagePolicyOutput page) with
  | Some n => Returned (withNotification n page)
  | None => Threw page
  end.

Definition clearedOutput : jsstring :=
  lit "{" ++ [10%N] ++ lit "  " ++ dq ++ lit "Version" ++ dq ++ lit ": " ++ dq
  ++ lit "2012-10-17" ++ dq ++ lit "," ++ [10%N] ++ lit "  " ++ dq ++ lit "Statement"
  ++ dq ++ lit ": []" ++ [10%N] ++ lit "}" ++ [10%N; 10%N] ++ lit "Click " ++ dq
  ++ lit "Generate Policy" ++ dq ++ lit " to create your bucket policy...".

(** Lines 1001-1024; [confirmed] is the answer to [confirm(...)]. *)
Definition clearForm (confirmed : bool) (page : Page) : Page :=
  if confirmed then
    let page :=
      withFields (lit "") (selectValue (effectOptions page) (lit "Allow"))
        (lit "") (lit "") (lit "") (lit "") page in
    let page := withInputs (uncheckAll (pageInputs page)) page in
    let page := withPolicy clearedOutput None page in
    let page :=
      withValidation (clearView (bucketNameValidation page))
        (clearView (principalValidation page)) page in
    notify (lit "Form cleared") (lit "success") page
  else page.

(* ================================================================== *)
(** * [copyPolicy] and [downloadPolicy] (lines 974-999) *)
(* ================================================================== *)

(** The text goes to the clipboard; the notification follows when the
    promise settles. *)
Definition copyPolicy (page : Page) : Page :=
  withSaved (pageDownloads page) (pageClipboard page ++ [pagePolicyOutput page]) page.

Definition copySettled (fulfilled : bool) (page : Page) : Page :=
  if fulfilled then notify (lit "Policy copied to clipboard!") (lit "success") page
  else notify (lit "Failed to copy policy") (lit "error") page.

Definition downloadPolicy (page : Page) : Page :=
  let policyText := pagePolicyOutput page in
  let bucketName :=
    if truthyString (JS.trim (pageBucketName page))
    then JS.trim (pageBucketName page) else lit "bucket" in
  notify (lit "Policy downloaded!") (lit "success")
    (withSaved (pageDownloads page ++ [(bucketName ++ lit "-policy.json", policyText)])
       (pageClipboard page) page).

(* ================================================================== *)
(** * The keyboard shortcuts (lines 1541-1605) *)
(* ================================================================== *)

Record KeyEvent := mkKeyEvent {
  ctrlKey : bool;
  metaKey : bool;
  eventKey : jsstring;
  targetTagName : jsstring
}.

(** A statement of the handler: run on the page a returned call left. *)
Definition thenRun (r : Ran) (f : Page -> Ran) : Ran :=
  match r with
  | Returned page => f page
  | Threw page => Threw page
  end.

Definition shortcut (event : KeyEvent) (k : string) : bool :=
  (ctrlKey event || metaKey event) && JS.eqb (eventKey event) (lit k).

Definition shortcutsHelp : jsstring :=
  lit "Keyboard Shortcuts:" ++ [10%N]
  ++ bullet ++ lit " Ctrl/Cmd + G: Generate Policy" ++ [10%N]
  ++ bullet ++ lit " Ctrl/Cmd + S: Download Policy" ++ [10%N]
  ++ bullet ++ lit " Ctrl/Cmd + C: Copy Policy" ++ [10%N]
  ++ bullet ++ lit " Ctrl/Cmd + V: Validate Policy" ++ [10%N]
  ++ bullet ++ lit " Ctrl/Cmd + K: Clear Form" ++ [10%N]
  ++ bullet ++ lit " Ctrl/Cmd + /: Show This Help".

(** The [keydown] listener.  [now], [confirmed] and [syntaxMessage] are
    what [Date.now()], [confirm(...)] and a SyntaxError's message would
    give during the call. *)
Definition onKeyDown (event : KeyEvent) (now : N) (confirmed : bool)
    (syntaxMessage : jsstring) (page : Page) : Ran :=
  thenRun
    (if shortcut event "s" then
       match currentPolicy page with
       | Some _ =>
           Returned (notify (lit "Policy downloaded! (Ctrl/Cmd+S)") (lit "success")
                       (downloadPolicy page))
       | None =>
           Returned (notify (lit "Generate a policy first before downloading (Ctrl/Cmd+S)")
                       (lit "warning") page)
       end
     else Returned page) (fun page =>
  thenRun
    (if shortcut event "v" then
       match currentPolicy page with
       | Some _ => validatePolicyOn syntaxMessage page
       | None =>
           Returned (notify (lit "Generate a policy first before validating (Ctrl/Cmd+V)")
                       (lit "warning") page)
       end
     else Returned page) (fun page =>
  thenRun
    (if shortcut event "c"
        && negb (JS.arrayIncludes [lit "INPUT"; lit "TEXTAREA"] (targetTagName event))
     then
       match currentPolicy page with
       | Some _ => Returned (copyPolicy page)
       | None => Returned page
       end
     else Returned page) (fun page =>
  thenRun
    (if shortcut event "g" then Returned (generatePolicyOn now page) else Returned page)
    (fun page =>
  thenRun
    (if shortcut event "k" then Returned (clearForm confirmed page) else Returned page)
    (fun page =>
  if shortcut event "/" then Returned (notify shortcutsHelp (lit "success") page)
  else Returned page))))).

(** [event.preventDefault()] is called for every shortcut but copying. *)
Definition defaultPrevented (event : KeyEvent) : bool :=
  shortcut event "s" || shortcut event "v" || shortcut event "g"
  || shortcut event "k" || shortcut event "/".

(** ** The page, for the statements *)

(** The element [document.querySelector(`input[value="${action}"]`)]
    returns. *)
Definition firstWithValue (action : jsstring) (inputs : list Input) : option Input :=
  find (fun i => Opt.strictEq (valueAttribute i) action) inputs.

(** The template has a checkbox of its own on the page. *)
Definition hasCheckbox (inputs : list Input) (action : jsstring) : Prop :=
  exists i, firstWithValue action inputs = Some i /\ isCheckbox i = true.

(** What [checkFirst] and [uncheckAll] leave as it is. *)
Definition shape (i : Input) : bool * option jsstring := (isCheckbox i, valueAttribute i).

Definition checkedBox (i : Input) : bool := isCheckbox i && inputChecked i.

(** The page a call left, however it ended. *)
Definition pageAfter (r : Ran) : Page :=
  match r with
  | Returned page => page
  | Threw page => page
  end.

(** What the user and the browser do to the page: typing and ticking,
    which change the fields and the inputs; editing the text of
    [#policyOutput] by hand, which changes its [textContent] and nothing
    else; and the calls of the script's functions. *)
Inductive Happening :=
| Edits (bucketName effect principal resourcePath customActions condition : jsstring)
        (inputs : list Input)
| EditsOutput (text : jsstring)
| TogglesCategory (category : option nat)
| LoadsTemplate (templateName : jsstring)
| Generates (now : N)
| Validates (syntaxMessage : jsstring)
| Clears (confirmed : bool)
| Copies
| CopySettles (fulfilled : bool)
| Downloads
| RefreshesBucketName
| RefreshesPrincipal
| PressesKey (event : KeyEvent) (now : N) (confirmed : bool) (syntaxMessage : jsstring).

Definition happen (page : Page) (h : Happening) : Page :=
  match h with
  | Edits bucketName effect principal resourcePath customActions condition inputs =>
      withInputs inputs
        (withFields bucketName effect principal resourcePath customActions condition page)
  | EditsOutput text => withPolicy text (currentPolicy page) page
  | TogglesCategory category =>
      match toggleCategory category page with
      | Some page' => page'
      | None => page
      end
  | LoadsTemplate templateName => pageAfter (loadTemplate templateName page)
  | Generates now => generatePolicyOn now page
  | Validates syntaxMessage => pageAfter (validatePolicyOn syntaxMessage page)
  | Clears confirmed => clearForm confirmed page
  | Copies => copyPolicy page
  | CopySettles fulfilled => copySettled fulfilled page
  | Downloads => downloadPolicy page
  | RefreshesBucketName => refreshBucketName page
  | RefreshesPrincipal => refreshPrincipal page
  | PressesKey event now confirmed syntaxMessage =>
      pageAfter (onKeyDown event now confirmed syntaxMessage page)
  end.

(** The happenings that change the text of [#policyOutput] by hand. *)
Definition editsOutput (h : Happening) : bool :=
  match h with
  | EditsOutput _ => true
  | _ => false
  end.

(** [currentPolicy], when set, is a document [generatePolicy] built, and
    [policyOutput] shows its text. *)
Definition ShowsCurrentPolicy (page : Page) : Prop :=
  forall policy,
    currentPolicy page = Some policy ->
    pagePolicyOutput page = Stringify.stringify policy
    /\ exists form now, generatePolicy form now = Generated policy.

(** A sample page: the text inputs, three action checkboxes in two
    collapsed categories, and a checkbox that is no action. *)
Definition samplePage : Page :=
  mkPage (lit " my-bucket ") [lit "Allow"; lit "Deny"] (lit "Deny") (lit "") (lit "logs/*")
    (lit "") (lit "")
    [ mkInput false None false false None;
      mkInput true (Some (lit "s3:ListBucket")) false true (Some 0);
      mkInput true (Some (lit "s3:GetObject")) false true (Some 1);
      mkInput true (Some (lit "s3:DeleteBucket")) true true (Some 0);
      mkInput true None true false None ]
    [true; true]
    (mkFieldView false false (lit "validation-message") (TextContent (lit ""))
       (mkInlineStyle None None None None))
    (mkFieldView false false (lit "validation-message") (TextContent (lit ""))
       (mkInlineStyle None None None None))
    (lit "{}") None None [] [].

(** A session on the sample page: a template, a policy, an edit, a failed
    generation, a key press. *)
Definition sampleSession : list Happening :=
  [ LoadsTemplate (lit "crossAccount");
    Generates 42;
    Edits (lit "Bad_Bucket") (lit "Allow") (lit "") (lit "*") (lit "") (lit "") [];
    Generates 43;
    PressesKey (mkKeyEvent false true (lit "c") (lit "BODY")) 44 false (lit "") ].


(** A session in which the output is edited by hand after a policy has been
    generated. *)
Definition editedSession : list Happening :=
  [ LoadsTemplate (lit "crossAccount");
    Generates 42;
    EditsOutput (lit "{}") ].

(** A field that has not been validated yet. *)
Definition sampleView : FieldView :=
  mkFieldView false false (lit "validation-message") (TextContent (lit ""))
    (mkInlineStyle None None None None).


(* ================================================================== *)
(** * [showNotification] and its timers (lines 1473-1493) *)
(* ================================================================== *)

(** The notification element over time: what it shows, whether it has the
    class [show], and the timers set to remove that class, each with the
    time from which it may fire.  Time is counted in milliseconds. *)
Record Banner := mkBanner {
  bannerClock : N;
  bannerContent : option Notification;
  bannerShown : bool;
  hideTimers : list N
}.

(** Lines 1473-1493 at the time of the banner's clock. *)
Definition showNotificationAt (message type : jsstring) (b : Banner) : Banner :=
  let n := showNotification message type in
  mkBanner (bannerClock b) (Some n) true
    (hideTimers b ++ [(bannerClock b + notificationTimeout n)%N]).

(** The timers left when the one at position [k] has fired. *)
Fixpoint removeNth {A : Type} (k : nat) (l : list A) : list A :=
  match l with
  | [] => []
  | x :: rest =>
      match k with
      | O => rest
      | S k' => x :: removeNth k' rest
      end
  end.

(** Lines 1490-1492: the callback of the timer at position [k], which the
    event loop runs once the timer is due. *)
Definition hideTimerFires (k : nat) (b : Banner) : option Banner :=
  match nth_error (hideTimers b) k with
  | Some due =>
      if (due <=? bannerClock b)%N then
        Some (mkBanner (bannerClock b) (bannerContent b) false
                (removeNth k (hideTimers b)))
      else None
  | None => None
  end.

Definition timePasses (ms : N) (b : Banner) : Banner :=
  mkBanner (bannerClock b + ms)%N (bannerContent b) (bannerShown b) (hideTimers b).

Inductive BannerEvent :=
| Shows (message type : jsstring)
| HideTimer (k : nat)
| Passes (ms : N).

Definition bannerStep (b : Banner) (e : BannerEvent) : option Banner :=
  match e with
  | Shows message type => Some (showNotificationAt message type b)
  | HideTimer k => hideTimerFires k b
  | Passes ms => Some (timePasses ms b)
  end.

Fixpoint bannerRun (events : list BannerEvent) (b : Banner) : option Banner :=
  match events with
  | [] => Some b
  | e :: rest =>
      match bannerStep b e with
      | Some b' => bannerRun rest b'
      | None => None
      end
  end.

Definition initialBanner : Banner := mkBanner 0 None false [].

(** ** The banner, for the statements *)

(** The calls of [showNotification] among the events, and the timers that
    fired. *)
Definition showsIn (events : list BannerEvent) : nat :=
  length (filter (fun e => match e with Shows _ _ => true | _ => false end) events).
Definition firedIn (events : list BannerEvent) : nat :=
  length (filter (fun e => match e with HideTimer _ => true | _ => false end) events).


(* ================================================================== *)
(** * The listeners of the two text fields (lines 1496-1540) *)
(* ================================================================== *)

(** The delay handed to [debounce], lines 1509 and 1533. *)
Definition validationDelay : nat := 300.

(** The function debounced for the bucket name, lines 1501-1509. *)
Definition bucketNameTimerRuns (page : Page) : Page :=
  if 0 <? length (JS.trim (pageBucketName page)) then refreshBucketName page
  else
    withValidation (clearView (bucketNameValidation page)) (principalValidation page)
      page.

(** The [blur] listener of the bucket name, lines 1515-1519. *)
Definition bucketNameBlur (page : Page) : Page :=
  if 0 <? length (JS.trim (pageBucketName page)) then refreshBucketName page
  else page.

(** The function debounced for the principal, lines 1525-1533. *)
Definition principalTimerRuns (page : Page) : Page :=
  if 0 <? length (JS.trim (pagePrincipal page)) then refreshPrincipal page
  else
    withValidation (bucketNameValidation page) (clearView (principalValidation page))
      page.

(** The [blur] listener of the principal, lines 1539-1543. *)
Definition principalBlur (page : Page) : Page :=
  if 0 <? length (JS.trim (pagePrincipal page)) then refreshPrincipal page
  else page.

(** The page with the timers of the two debounced functions; each closure
    has a [timeout] variable of its own. *)
Record App := mkApp {
  appPage : Page;
  bucketNameTimers : World unit;
  principalTimers : World unit
}.

(** What happens to the page with its listeners: the user types in one of
    the two fields (the [input] event, after the value has changed), leaves
    it (the [blur] event), a timer of a debounced function fires, time
    passes, or something of [Happening] is done. *)
Inductive AppEvent :=
| TypesBucketName (value : jsstring)
| LeavesBucketName
| BucketNameTimerFires (id : nat)
| TypesPrincipal (value : jsstring)
| LeavesPrincipal
| PrincipalTimerFires (id : nat)
| TimePasses (ms : nat)
| Does (h : Happening).

(** Typing in the two fields is [TypesBucketName] and [TypesPrincipal]: an
    edit done through [Does] leaves their values as they are. *)
Definition elsewhere (page : Page) (h : Happening) : Happening :=
  match h with
  | Edits _ effect _ resourcePath customActions condition inputs =>
      Edits (pageBucketName page) effect (pagePrincipal page) resourcePath
        customActions condition inputs
  | _ => h
  end.

Definition appStep (app : App) (e : AppEvent) : option App :=
  let page := appPage app in
  match e with
  | TypesBucketName value =>
      Some (mkApp
              (withFields value (pagePolicyEffect page) (pagePrincipal page)
                 (pageResourcePath page) (pageCustomActions page) (pageCondition page)
                 page)
              (executedFunction validationDelay tt (bucketNameTimers app))
              (principalTimers app))
  | LeavesBucketName =>
      Some (mkApp (bucketNameBlur page) (bucketNameTimers app) (principalTimers app))
  | BucketNameTimerFires id =>
      match step validationDelay (bucketNameTimers app) (Fire id) with
      | Some w => Some (mkApp (bucketNameTimerRuns page) w (principalTimers app))
      | None => None
      end
  | TypesPrincipal value =>
      Some (mkApp
              (withFields (pageBucketName page) (pagePolicyEffect page) value
                 (pageResourcePath page) (pageCustomActions page) (pageCondition page)
                 page)
              (bucketNameTimers app)
              (executedFunction validationDelay tt (principalTimers app)))
  | LeavesPrincipal =>
      Some (mkApp (principalBlur page) (bucketNameTimers app) (principalTimers app))
  | PrincipalTimerFires id =>
      match step validationDelay (principalTimers app) (Fire id) with
      | Some w => Some (mkApp (principalTimerRuns page) (bucketNameTimers app) w)
      | None => None
      end
  | TimePasses ms =>
      match step validationDelay (bucketNameTimers app) (Tick ms),
            step validationDelay (principalTimers app) (Tick ms) with
      | Some b, Some p => Some (mkApp page b p)
      | _, _ => None
      end
  | Does h =>
      Some (mkApp (happen page (elsewhere page h)) (bucketNameTimers app)
              (principalTimers app))
  end.

Fixpoint appRun (events : list AppEvent) (app : App) : option App :=
  match events with
  | [] => Some app
  | e :: rest =>
      match appStep app e with
      | Some app' => appRun rest app'
      | None => None
      end
  end.

(** The marks of the bucket name are the ones [updateBucketNameValidation]
    leaves for the value the field has now. *)
Definition BucketNameChecked (page : Page) : Prop :=
  bucketNameValidation page
  = snd (updateBucketNameValidation (pageBucketName page) (bucketNameValidation page)).

(** The marks of the principal are the ones [updatePrincipalValidation]
    leaves for the value the field has now, or the field is blank and has
    no marks. *)
Definition PrincipalChecked (page : Page) : Prop :=
  principalValidation page
  = snd (updatePrincipalValidation (pagePrincipal page) (principalValidation page))
  \/ (JS.trim (pagePrincipal page) = []
      /\ principalValidation page = clearView (principalValidation page)).

(** The page as it is loaded: blank fields without marks. *)
Definition loadedPage : Page :=
  withFields (lit "") (lit "Allow") (lit "") (lit "") (lit "") (lit "") samplePage.

Definition sampleTyping : list AppEvent :=
  [ TypesBucketName (lit "Bad_Name");
    TimePasses 120;
    TypesBucketName (lit "good-name");
    TypesPrincipal (lit "123456789012");
    LeavesPrincipal;
    TimePasses 300;
    BucketNameTimerFires 2;
    Does (Generates 7);
    TypesPrincipal (lit "");
    TimePasses 300;
    PrincipalTimerFires 2;
    Does (LoadsTemplate (lit "publicRead")) ].

(* ================================================================== *)
(** * Strings: facts about the built-in operations *)
(* ================================================================== *)

Unset Implicit Arguments.

Ltac inv H := inversion H; subst; clear H.

Section StringFacts.

Lemma eqb_spec (s t : jsstring) : JS.eqb s t = true <-> s = t.
Proof.
  revert t; induction s as [|c s IH]; intros [|d t]; simpl.
  - split; reflexivity.
  - split; discriminate.
  - split; discriminate.
  - rewrite andb_true_iff, N.eqb_eq, IH. split.
    + intros [-> ->]; reflexivity.
    + intros H; injection H; auto.
Qed.

Lemma eqb_refl (s : jsstring) : JS.eqb s s = true.
Proof. apply eqb_spec; reflexivity. Qed.

Lemma eqb_neq (s t : jsstring) : JS.eqb s t = false <-> s <> t.
Proof.
  rewrite <- eqb_spec. destruct (JS.eqb s t); split; congruence.
Qed.

Lemma startsWith_spec (s p : jsstring) :
  JS.startsWith s p = true <-> exists t, s = p ++ t.
Proof.
  revert s; induction p as [|d p IH]; intros s; simpl.
  - split; [intros _; exists s; reflexivity | reflexivity].
  - destruct s as [|c s].
    + split; [discriminate | intros [t H]; discriminate].
    + rewrite andb_true_iff, N.eqb_eq, IH. split.
      * intros [-> [t ->]]; eauto.
      * intros [t H]; injection H as -> ->; eauto.
Qed.

Lemma includes_spec (s sub : jsstring) :
  JS.includes s sub = true <-> exists a b, s = a ++ sub ++ b.
Proof.
  induction s as [|c s IH]; simpl.
  - rewrite orb_false_r, startsWith_spec. split.
    + intros [t H]; exists [], t; exact H.
    + intros [a [b H]]. destruct a; simpl in H.
      * eauto.
      * discriminate.
  - rewrite orb_true_iff, startsWith_spec, IH. split.
    + intros [[t H] | [a [b H]]].
      * exists [], t; exact H.
      * exists (c :: a), b; simpl; congruence.
    + intros [[|c' a] [b H]]; simpl in H.
      * left; eauto.
      * right; injection H as -> ->; eauto.
Qed.

Lemma endsWith_spec (s p : jsstring) :
  JS.endsWith s p = true <-> exists t, s = t ++ p.
Proof.
  unfold JS.endsWith. rewrite startsWith_spec. split.
  - intros [t H]. exists (rev t).
    rewrite <- (rev_involutive s), H, rev_app_distr, rev_involutive.
    reflexivity.
  - intros [t ->]. exists (rev t). apply rev_app_distr.
Qed.

(** A string whose characters all satisfy [P] has no substring with a
    character outside [P]. *)
Lemma includes_false_by_class (P : char -> bool) (s sub : jsstring) :
  forallb P s = true -> forallb P sub = false -> JS.includes s sub = false.
Proof.
  intros Hs Hsub. destruct (JS.includes s sub) eqn:E; [|reflexivity].
  apply includes_spec in E as [a [b ->]].
  rewrite !forallb_app in Hs.
  apply andb_true_iff in Hs as [_ Hs]. apply andb_true_iff in Hs as [Hs _].
  congruence.
Qed.

Lemma startsWith_false_by_class (P : char -> bool) (s p : jsstring) :
  forallb P s = true -> forallb P p = false -> JS.startsWith s p = false.
Proof.
  intros Hs Hp. destruct (JS.startsWith s p) eqn:E; [|reflexivity].
  apply startsWith_spec in E as [t ->].
  rewrite forallb_app in Hs. apply andb_true_iff in Hs as [Hs _]. congruence.
Qed.

Lemma endsWith_false_by_class (P : char -> bool) (s p : jsstring) :
  forallb P s = true -> forallb P p = false -> JS.endsWith s p = false.
Proof.
  intros Hs Hp. destruct (JS.endsWith s p) eqn:E; [|reflexivity].
  apply endsWith_spec in E as [t ->].
  rewrite forallb_app in Hs. apply andb_true_iff in Hs as [_ Hs]. congruence.
Qed.

End StringFacts.

(* ================================================================== *)
(** * Regular expressions: the matcher computes the language *)
(* ================================================================== *)

Section RegexFacts.

Lemma Matches_Cat_inv (r1 r2 : regex) (s : jsstring) :
  Matches (Cat r1 r2) s ->
  exists s1 s2, s = s1 ++ s2 /\ Matches r1 s1 /\ Matches r2 s2.
Proof. inversion 1; subst; eauto. Qed.

Lemma nullable_Matches (r : regex) : nullable r = true <-> Matches r [].
Proof.
  induction r; simpl.
  - split; [discriminate | intros H; inv H].
  - split; [constructor | reflexivity].
  - split; [discriminate | intros H; inv H].
  - rewrite andb_true_iff, IHr1, IHr2. split.
    + intros [H1 H2]. change (@nil char) with (@nil char ++ []).
      constructor; assumption.
    + intros H; inv H.
      match goal with E : _ ++ _ = [] |- _ =>
        apply app_eq_nil in E as [-> ->] end.
      auto.
  - rewrite orb_true_iff, IHr1, IHr2. split.
    + intros [H | H]; [apply MAltL | apply MAltR]; assumption.
    + intros H; inv H; auto.
  - split; [constructor | reflexivity].
Qed.

Lemma Matches_Star_cons (r : regex) (c : char) (s : jsstring) :
  Matches (Star r) (c :: s) ->
  exists s1 s2, s = s1 ++ s2 /\ Matches r (c :: s1) /\ Matches (Star r) s2.
Proof.
  intros H. remember (Star r) as r' eqn:Er. remember (c :: s) as w eqn:Ew.
  revert s Ew.
  induction H as [| | | | | r0 | r0 s1 s2 H1 _ H2 IH2]; try discriminate.
  injection Er as ->. intros s Ew. destruct s1 as [|c1 s1]; simpl in Ew.
  - apply IH2; auto.
  - injection Ew as -> <-. eauto.
Qed.

Lemma Matches_cons_app (r1 r2 : regex) (c : char) (s1 s2 : jsstring) :
  Matches r1 (c :: s1) -> Matches r2 s2 -> Matches (Cat r1 r2) (c :: s1 ++ s2).
Proof.
  intros H1 H2. change (c :: s1 ++ s2) with ((c :: s1) ++ s2).
  constructor; assumption.
Qed.

Lemma deriv_Matches (r : regex) (c : char) (s : jsstring) :
  Matches (deriv c r) s <-> Matches r (c :: s).
Proof.
  revert s; induction r; intros s; simpl.
  - split; intros H; inv H.
  - split; intros H; inv H.
  - destruct (p c) eqn:E; split; intros H; inv H.
    + constructor; assumption.
    + constructor.
    + congruence.
  - split.
    + destruct (nullable r1) eqn:N; intros H.
      * inv H.
        -- match goal with H : Matches (Cat _ _) _ |- _ => inv H end.
           apply Matches_cons_app; [apply IHr1|]; assumption.
        -- change (c :: s) with ([] ++ c :: s).
           constructor; [apply nullable_Matches | apply IHr2]; assumption.
      * inv H. apply Matches_cons_app; [apply IHr1|]; assumption.
    + intros H. apply Matches_Cat_inv in H as [s1 [s2 [E [Ha Hb]]]].
      destruct s1 as [|c1 s1]; simpl in E.
      * subst s2. apply nullable_Matches in Ha. rewrite Ha.
        apply MAltR, IHr2; assumption.
      * injection E as <- ->.
        assert (Matches (Cat (deriv c r1) r2) (s1 ++ s2))
          by (constructor; [apply IHr1|]; assumption).
        destruct (nullable r1); [apply MAltL|]; assumption.
  - split; intros H; inv H;
      solve [apply MAltL, IHr1; assumption | apply MAltR, IHr2; assumption].
  - split.
    + intros H; inv H. change (c :: s1 ++ s2) with ((c :: s1) ++ s2).
      constructor; [apply IHr|]; assumption.
    + intros H. apply Matches_Star_cons in H as [s1 [s2 [-> [Ha Hb]]]].
      constructor; [apply IHr|]; assumption.
Qed.

Theorem matches_spec (r : regex) (s : jsstring) :
  matches r s = true <-> Matches r s.
Proof.
  revert r; induction s as [|c s IH]; intros r; simpl.
  - apply nullable_Matches.
  - rewrite IH. apply deriv_Matches.
Qed.

Lemma matches_false (r : regex) (s : jsstring) :
  matches r s = false <-> ~ Matches r s.
Proof.
  rewrite <- matches_spec. destruct (matches r s); split; congruence.
Qed.

(** ** Classes and repetitions *)

Lemma Matches_Class (p : char -> bool) (s : jsstring) :
  Matches (Class p) s <-> exists c, s = [c] /\ p c = true.
Proof.
  split.
  - inversion 1; eauto.
  - intros [c [-> H]]; constructor; assumption.
Qed.

Lemma Matches_Eps (s : jsstring) : Matches Eps s <-> s = [].
Proof. split; [inversion 1; reflexivity | intros ->; constructor]. Qed.

Lemma Matches_Cat (r1 r2 : regex) (s : jsstring) :
  Matches (Cat r1 r2) s <->
  exists s1 s2, s = s1 ++ s2 /\ Matches r1 s1 /\ Matches r2 s2.
Proof.
  split.
  - inversion 1; subst; eauto.
  - intros [s1 [s2 [-> [H1 H2]]]]; constructor; assumption.
Qed.

Lemma Matches_Alt (r1 r2 : regex) (s : jsstring) :
  Matches (Alt r1 r2) s <-> Matches r1 s \/ Matches r2 s.
Proof.
  split.
  - inversion 1; subst; auto.
  - intros [H | H]; [apply MAltL | apply MAltR]; assumption.
Qed.

Lemma Matches_Star_Class (p : char -> bool) (s : jsstring) :
  Matches (Star (Class p)) s <-> forallb p s = true.
Proof.
  split.
  - intros H. remember (Star (Class p)) as r eqn:Er.
    induction H as [| | | | | r0 | r0 s1 s2 H1 _ H2 IH2]; try discriminate.
    + reflexivity.
    + injection Er as ->. inversion H1; subst. simpl.
      rewrite IH2 by reflexivity. rewrite andb_true_r. assumption.
  - induction s as [|c s IH]; simpl; intros H.
    + constructor.
    + apply andb_true_iff in H as [Hc Hs].
      change (c :: s) with ([c] ++ s).
      constructor; [constructor |]; auto.
Qed.

Lemma Matches_anywhere (s : jsstring) : Matches anywhere s.
Proof.
  apply Matches_Star_Class. induction s; simpl; auto.
Qed.

Lemma Matches_plus_Class (p : char -> bool) (s : jsstring) :
  Matches (plus (Class p)) s <-> s <> [] /\ forallb p s = true.
Proof.
  unfold plus. rewrite Matches_Cat. split.
  - intros [s1 [s2 [-> [H1 H2]]]]. apply Matches_Class in H1 as [c [-> Hc]].
    apply Matches_Star_Class in H2. simpl. rewrite Hc, H2.
    split; [discriminate | reflexivity].
  - intros [Hne H]. destruct s as [|c s]; [congruence|].
    simpl in H. apply andb_true_iff in H as [Hc Hs].
    exists [c], s. repeat split.
    + constructor; assumption.
    + apply Matches_Star_Class; assumption.
Qed.

Lemma Matches_rep_Class (n : nat) (p : char -> bool) (s : jsstring) :
  Matches (rep n (Class p)) s <-> length s = n /\ forallb p s = true.
Proof.
  revert s; induction n as [|n IH]; intros s; simpl.
  - rewrite Matches_Eps. split.
    + intros ->; auto.
    + intros [H _]. destruct s; [reflexivity | discriminate].
  - rewrite Matches_Cat. split.
    + intros [s1 [s2 [-> [H1 H2]]]]. apply Matches_Class in H1 as [c [-> Hc]].
      apply IH in H2 as [Hl Hs]. simpl. rewrite Hc, Hs, Hl. auto.
    + intros [Hl H]. destruct s as [|c s]; [discriminate|].
      simpl in H. apply andb_true_iff in H as [Hc Hs].
      exists [c], s. repeat split.
      * constructor; assumption.
      * apply IH. simpl in Hl. auto.
Qed.

(** ** [test] on the four anchorings *)

Lemma test_anchored (r : regex) (s : jsstring) :
  test (RegExp.mk true r true) s = true <-> Matches r s.
Proof.
  unfold test; simpl. rewrite matches_spec, Matches_Cat. split.
  - intros [s1 [s2 [-> [H1 H2]]]]. apply Matches_Eps in H1 as ->.
    apply Matches_Cat in H2 as [s3 [s4 [-> [H3 H4]]]].
    apply Matches_Eps in H4 as ->. simpl. rewrite app_nil_r. assumption.
  - intros H. exists [], s. repeat split; [constructor|].
    rewrite <- (app_nil_r s). constructor; [assumption | constructor].
Qed.

Lemma test_prefix (r : regex) (s : jsstring) :
  test (RegExp.mk true r false) s = true <->
  exists s1 s2, s = s1 ++ s2 /\ Matches r s1.
Proof.
  unfold test; simpl. rewrite matches_spec, Matches_Cat. split.
  - intros [s1 [s2 [-> [H1 H2]]]]. apply Matches_Eps in H1 as ->.
    apply Matches_Cat in H2 as [s3 [s4 [-> [H3 H4]]]]. simpl. eauto.
  - intros [s1 [s2 [-> H]]]. exists [], (s1 ++ s2).
    repeat split; [constructor|].
    constructor; [assumption | apply Matches_anywhere].
Qed.

Lemma test_suffix (r : regex) (s : jsstring) :
  test (RegExp.mk false r true) s = true <->
  exists s1 s2, s = s1 ++ s2 /\ Matches r s2.
Proof.
  unfold test; simpl. rewrite matches_spec, Matches_Cat. split.
  - intros [s1 [s2 [-> [H1 H2]]]].
    apply Matches_Cat in H2 as [s3 [s4 [-> [H3 H4]]]].
    apply Matches_Eps in H4 as ->. rewrite app_nil_r. eauto.
  - intros [s1 [s2 [-> H]]]. exists s1, s2.
    repeat split; [apply Matches_anywhere|].
    rewrite <- (app_nil_r s2). constructor; [assumption | constructor].
Qed.

Lemma test_search (r : regex) (s : jsstring) :
  test (RegExp.mk false r false) s = true <->
  exists s1 s2 s3, s = s1 ++ s2 ++ s3 /\ Matches r s2.
Proof.
  unfold test; simpl. rewrite matches_spec, Matches_Cat. split.
  - intros [s1 [s2 [-> [H1 H2]]]].
    apply Matches_Cat in H2 as [s3 [s4 [-> [H3 H4]]]]. eauto.
  - intros [s1 [s2 [s3 [-> H]]]]. exists s1, (s2 ++ s3).
    repeat split; [apply Matches_anywhere|].
    constructor; [assumption | apply Matches_anywhere].
Qed.

End RegexFacts.


(* ================================================================== *)
(** * Bucket names *)
(* ================================================================== *)

Lemma stage_nil (c : bool) (m : jsstring) (errors : list jsstring) :
  stage c m errors = [] -> c = false /\ errors = [].
Proof.
  unfold stage, push. destruct c; [|auto].
  intros H. apply app_eq_nil in H as [_ H]. discriminate.
Qed.

Lemma validateBucketName_stages (bucketName : jsstring) :
  bucket_errors (validateBucketName bucketName)
  = stage (JS.includes bucketName (lit "_"))
      (lit "Bucket name cannot contain underscores (_)")
   (stage (test re_uppercase bucketName)
      (lit "Bucket name cannot contain uppercase letters")
   (stage (JS.includes bucketName (lit ".-") || JS.includes bucketName (lit "-."))
      (lit "Bucket name cannot have a period adjacent to a hyphen")
   (stage (JS.includes bucketName (lit ".."))
      (lit "Bucket name cannot contain two adjacent periods (..)")
   (stage (JS.endsWith bucketName (lit "-s3alias"))
      (lit "Bucket name cannot end with " ++ dq ++ lit "-s3alias" ++ dq)
   (stage (JS.startsWith bucketName (lit "xn--"))
      (lit "Bucket name cannot start with " ++ dq ++ lit "xn--" ++ dq)
   (stage (test re_ip_address bucketName)
      (lit "Bucket name cannot be formatted as an IP address (e.g., 192.168.1.1)")
   (stage (negb (test re_bucket_last bucketName))
      (lit "Bucket name must end with a lowercase letter or number")
   (stage (negb (test re_bucket_first bucketName))
      (lit "Bucket name must begin with a lowercase letter or number")
   (stage (negb (test re_bucket_charset bucketName))
      (lit "Bucket name can only contain lowercase letters, numbers, dots (.), and hyphens (-)")
   (stage (63 <? length bucketName)
      (lit "Bucket name cannot exceed 63 characters")
   (stage (length bucketName <? 3)
      (lit "Bucket name must be at least 3 characters long")
      []))))))))))).
Proof. reflexivity. Qed.

Lemma length_zero {A} (l : list A) : (length l =? 0) = true <-> l = [].
Proof. destruct l; simpl; split; congruence. Qed.

Lemma validateBucketName_valid_inv (bucketName : jsstring) :
  bucket_isValid (validateBucketName bucketName) = true ->
  (63 <? length bucketName) = false /\ test re_bucket_charset bucketName = true.
Proof.
  intros H.
  assert (E : bucket_errors (validateBucketName bucketName) = [])
    by (apply length_zero; exact H).
  clear H. rewrite validateBucketName_stages in E.
  repeat match type of E with
         | stage _ _ _ = [] =>
             apply stage_nil in E; let Hc := fresh "Hc" in destruct E as [Hc E]
         end.
  split; [assumption|]. apply negb_false_iff. assumption.
Qed.

Lemma forallb_weaken (P Q : char -> bool) (s : jsstring) :
  (forall c, P c = true -> Q c = true) ->
  forallb P s = true -> forallb Q s = true.
Proof.
  intros HPQ. induction s as [|c s IH]; simpl; [reflexivity|].
  rewrite !andb_true_iff. intros [Hc Hs]. auto.
Qed.

Lemma lowerAlnum_spec (c : char) :
  lowerAlnum c = true <-> ((97 <= c <= 122) \/ (48 <= c <= 57))%N.
Proof.
  unfold lowerAlnum, orC, range, ch. simpl N_of_ascii.
  rewrite orb_true_iff, !andb_true_iff, !N.leb_le. tauto.
Qed.

Lemma lowerAlnum_bucketChar (c : char) :
  lowerAlnum c = true -> bucketChar c = true.
Proof. unfold bucketChar, orC. intros ->. reflexivity. Qed.

Lemma lowerAlnum_not_dot (c : char) :
  lowerAlnum c = true -> one "." c = false.
Proof.
  rewrite lowerAlnum_spec. unfold one, ch. simpl N_of_ascii.
  intros H. apply N.eqb_neq. lia.
Qed.

Lemma lowerAlnum_not_upper (c : char) :
  lowerAlnum c = true -> range "A" "Z" c = false.
Proof.
  rewrite lowerAlnum_spec. unfold range, ch. simpl N_of_ascii.
  intros H. apply andb_false_iff. rewrite !N.leb_gt. lia.
Qed.

Lemma forallb_In (P : char -> bool) (s : jsstring) (c : char) :
  forallb P s = true -> In c s -> P c = true.
Proof. intros H Hin. rewrite forallb_forall in H. auto. Qed.

(** A word of the IP-address pattern contains a period. *)
Lemma ip_address_has_dot (s : jsstring) :
  Matches (body re_ip_address) s -> exists c, In c s /\ one "." c = true.
Proof.
  simpl. intros H.
  apply Matches_Cat_inv in H as [s1 [s2 [-> [H _]]]].
  apply Matches_Cat_inv in H as [s3 [s4 [-> [H _]]]].
  apply Matches_Cat_inv in H as [s5 [s6 [-> [_ H]]]].
  apply Matches_Class in H as [c [-> Hc]].
  exists c. split; [|assumption].
  rewrite !in_app_iff. left; left; right. left. reflexivity.
Qed.

Section LowerAlnumNames.

Variable bucketName : jsstring.
Hypothesis Hlen : 3 <= length bucketName <= 63.
Hypothesis Hchars : forallb lowerAlnum bucketName = true.

Lemma lower_charset : test re_bucket_charset bucketName = true.
Proof.
  apply test_anchored, Matches_plus_Class. split.
  - destruct bucketName; [simpl in Hlen; lia | discriminate].
  - apply forallb_weaken with (P := lowerAlnum);
      [apply lowerAlnum_bucketChar | assumption].
Qed.

Lemma lower_first : test re_bucket_first bucketName = true.
Proof.
  apply test_prefix. destruct bucketName as [|c s]; [simpl in Hlen; lia|].
  simpl in Hchars. apply andb_true_iff in Hchars as [Hc _].
  exists [c], s. split; [reflexivity | constructor; assumption].
Qed.

Lemma lower_last : test re_bucket_last bucketName = true.
Proof.
  apply test_suffix.
  destruct (@exists_last _ bucketName) as [s [c E]].
  - destruct bucketName; [simpl in Hlen; lia | discriminate].
  - exists s, [c]. split; [assumption|]. constructor.
    apply forallb_In with (s := bucketName); [assumption|].
    rewrite E, in_app_iff. right; left; reflexivity.
Qed.

Lemma lower_not_ip : test re_ip_address bucketName = false.
Proof.
  destruct (test re_ip_address bucketName) eqn:E; [|reflexivity].
  apply test_anchored in E. apply ip_address_has_dot in E as [c [Hin Hdot]].
  apply forallb_In with (c := c) in Hchars; [|assumption].
  apply lowerAlnum_not_dot in Hchars. congruence.
Qed.

Lemma lower_not_upper : test re_uppercase bucketName = false.
Proof.
  destruct (test re_uppercase bucketName) eqn:E; [|reflexivity].
  apply test_search in E as [s1 [s2 [s3 [E H]]]].
  apply Matches_Class in H as [c [-> Hc]].
  assert (Hin : In c bucketName)
    by (rewrite E, !in_app_iff; right; left; left; reflexivity).
  apply forallb_In with (c := c) in Hchars; [|assumption].
  apply lowerAlnum_not_upper in Hchars. congruence.
Qed.

Lemma lower_alnum_valid :
  validateBucketName bucketName
  = {| bucket_isValid := true; bucket_errors := [] |}.
Proof.
  assert (E : bucket_errors (validateBucketName bucketName) = []).
  { rewrite validateBucketName_stages.
    replace (length bucketName <? 3) with false
      by (symmetry; apply Nat.ltb_ge; lia).
    replace (63 <? length bucketName) with false
      by (symmetry; apply Nat.ltb_ge; lia).
    rewrite lower_charset, lower_first, lower_last, lower_not_ip, lower_not_upper.
    rewrite (startsWith_false_by_class lowerAlnum _ _ Hchars) by reflexivity.
    rewrite (endsWith_false_by_class lowerAlnum _ _ Hchars) by reflexivity.
    rewrite !(includes_false_by_class lowerAlnum _ _ Hchars) by reflexivity.
    reflexivity. }
  change (validateBucketName bucketName)
    with {| bucket_isValid := length (bucket_errors (validateBucketName bucketName)) =? 0;
            bucket_errors := bucket_errors (validateBucketName bucketName) |}.
  rewrite E. reflexivity.
Qed.

End LowerAlnumNames.

(** C9.  A name of 3 to 63 characters, each a lowercase letter [a-z] or a
    digit [0-9], is accepted by [validateBucketName]: [isValid] is true and
    the list of errors is empty. *)
Theorem validateBucketName_accepts_lower_alnum (bucketName : jsstring) :
  3 <= length bucketName <= 63 ->
  Forall (fun c => (97 <= c <= 122)%N \/ (48 <= c <= 57)%N) bucketName ->
  validateBucketName bucketName
  = {| bucket_isValid := true; bucket_errors := [] |}.
Proof.
  intros Hlen Hchars. apply lower_alnum_valid; [assumption|].
  apply forallb_forall. rewrite Forall_forall in Hchars.
  intros c Hin. apply lowerAlnum_spec. auto.
Qed.

Lemma validateBucketName_accepts_lower_alnum_witness :
  validateBucketName (lit "bucket2024")
  = {| bucket_isValid := true; bucket_errors := [] |}.
Proof.
  apply validateBucketName_accepts_lower_alnum.
  - simpl; lia.
  - repeat constructor; simpl; lia.
Defined.

(* ================================================================== *)
(** * Principals: validity and the error list *)
(* ================================================================== *)

Lemma returnLog_consistent (l : Log) : Consistent (returnLog l).
Proof.
  unfold Consistent, returnLog; simpl. rewrite Nat.eqb_eq.
  destruct (log_errors l); simpl; split; congruence.
Qed.

Lemma andThen_consistent (s : Step) (k : Log -> Step) :
  StepConsistent s -> (forall l, StepConsistent (k l)) ->
  StepConsistent (s >>> k).
Proof. destruct s; simpl; auto. Qed.

Lemma literal_consistent (ws : list jsstring) : Consistent (mkVerdict true [] ws).
Proof. unfold Consistent; simpl; tauto. Qed.

Lemma wildcardBlock_consistent p l : StepConsistent (wildcardBlock p l).
Proof.
  unfold wildcardBlock. destruct (JS.eqb p (lit "*")); simpl;
    [apply literal_consistent | exact I].
Qed.

Lemma emptyBlock_consistent p l : StepConsistent (emptyBlock p l).
Proof.
  unfold emptyBlock.
  destruct (negb (truthyString p) || JS.eqb (JS.trim p) (lit "")); simpl;
    [apply literal_consistent | exact I].
Qed.

Lemma canonicalIdBlock_consistent p l : StepConsistent (canonicalIdBlock p l).
Proof.
  unfold canonicalIdBlock. destruct (test re_canonical_id p); simpl;
    [apply literal_consistent | exact I].
Qed.

Lemma servicePrincipalBlock_consistent p l :
  StepConsistent (servicePrincipalBlock p l).
Proof.
  unfold servicePrincipalBlock.
  destruct (JS.includes p (lit ".amazonaws.com") || JS.includes p (lit ".amazon.com"));
    [|exact I].
  destruct (negb (test re_service_principal p)); simpl;
    [exact I | apply literal_consistent].
Qed.

Lemma arnOrAccountBlock_consistent p l :
  StepConsistent (arnOrAccountBlock p l).
Proof.
  unfold arnOrAccountBlock, arnBlock, ipcldBlock.
  destruct (JS.startsWith p (lit "arn:")).
  - destruct (Opt.strictEq _ _); simpl; [apply returnLog_consistent | exact I].
  - destruct (negb (JS.includes p (lit "."))); exact I.
Qed.

(** C10.  On every return path of [validatePrincipalARN], early or final,
    [isValid] is true exactly when the list of errors is empty; warnings
    play no part. *)
Theorem validatePrincipalARN_valid_iff_no_errors (principal : jsstring) :
  isValid (validatePrincipalARN principal) = true
  <-> errors (validatePrincipalARN principal) = [].
Proof.
  unfold validatePrincipalARN.
  assert (H : StepConsistent
                (Continue emptyLog
                 >>> wildcardBlock principal
                 >>> emptyBlock principal
                 >>> canonicalIdBlock principal
                 >>> servicePrincipalBlock principal
                 >>> arnOrAccountBlock principal)).
  { repeat apply andThen_consistent; try exact I; intros l.
    - apply wildcardBlock_consistent.
    - apply emptyBlock_consistent.
    - apply canonicalIdBlock_consistent.
    - apply servicePrincipalBlock_consistent.
    - apply arnOrAccountBlock_consistent. }
  destruct (Continue emptyLog >>> _ >>> _ >>> _ >>> _ >>> _) as [v | l]; simpl.
  - exact H.
  - apply returnLog_consistent.
Qed.

(* ================================================================== *)
(** * Principals: which block decides *)
(* ================================================================== *)

Lemma pushError_prepend (m : jsstring) (l0 l : Log) :
  pushError m (prependLog l0 l) = prependLog l0 (pushError m l).
Proof. unfold pushError, prependLog, push; simpl. rewrite app_assoc. reflexivity. Qed.

Lemma pushWarning_prepend (m : jsstring) (l0 l : Log) :
  pushWarning m (prependLog l0 l) = prependLog l0 (pushWarning m l).
Proof. unfold pushWarning, prependLog, push; simpl. rewrite app_assoc. reflexivity. Qed.

Lemma prependLog_empty (l0 : Log) : prependLog l0 emptyLog = l0.
Proof. destruct l0; unfold prependLog; simpl. rewrite !app_nil_r. reflexivity. Qed.

(** Lifting the two lemmas above through the conditionals of a block. *)
Ltac prepend_through :=
  repeat match goal with
         | |- context [if ?b then _ else _] => destruct b
         end;
  rewrite ?pushError_prepend, ?pushWarning_prepend; reflexivity.

Lemma iamChecks_prepend region accountId resource (l0 l : Log) :
  iamChecks region accountId resource (prependLog l0 l)
  = prependLog l0 (iamChecks region accountId resource l).
Proof. unfold iamChecks. prepend_through. Qed.

Lemma s3Checks_prepend region accountId (l0 l : Log) :
  s3Checks region accountId (prependLog l0 l)
  = prependLog l0 (s3Checks region accountId l).
Proof. unfold s3Checks. prepend_through. Qed.

Lemma awsBlock_prepend principal parts partition (l0 l : Log) :
  awsBlock principal parts partition (prependLog l0 l)
  = prependLog l0 (awsBlock principal parts partition l).
Proof.
  unfold awsBlock.
  repeat match goal with
         | |- context [if ?b then _ else _] => destruct b
         end;
  rewrite ?pushError_prepend, ?pushWarning_prepend,
          ?iamChecks_prepend, ?s3Checks_prepend; reflexivity.
Qed.

Lemma ipcldBlock_returns parts l :
  ipcldBlock parts l = Return (returnLog (ipcldLog parts l)).
Proof. unfold ipcldLog, ipcldBlock. reflexivity. Qed.

Lemma ipcldLog_prepend parts (l0 l : Log) :
  ipcldLog parts (prependLog l0 l) = prependLog l0 (ipcldLog parts l).
Proof.
  unfold ipcldLog, ipcldBlock, returnLog; simpl.
  repeat match goal with
         | |- context [if ?b then _ else _] => destruct b
         end;
  rewrite ?pushError_prepend, ?pushWarning_prepend; reflexivity.
Qed.

(** The ARN block only appends: run after an error [m], it yields [m]
    followed by what it yields on empty arrays. *)
Lemma arnBlock_after_error (principal m : jsstring) :
  errors (finish (arnBlock principal (pushError m emptyLog)))
  = m :: errors (finish (arnBlock principal emptyLog))
  /\ warnings (finish (arnBlock principal (pushError m emptyLog)))
     = warnings (finish (arnBlock principal emptyLog))
  /\ isValid (finish (arnBlock principal (pushError m emptyLog))) = false.
Proof.
  assert (E : pushError m emptyLog = prependLog (pushError m emptyLog) emptyLog)
    by (rewrite prependLog_empty; reflexivity).
  unfold arnBlock. destruct (Opt.strictEq _ _).
  - rewrite !ipcldBlock_returns. rewrite E. rewrite ipcldLog_prepend.
    generalize (ipcldLog (JS.split (ch ":") principal) emptyLog) as l'.
    intros l'. cbn. auto.
  - rewrite E. rewrite awsBlock_prepend.
    generalize (awsBlock principal (JS.split (ch ":") principal)
                  (nth_error (JS.split (ch ":") principal) 1) emptyLog) as l'.
    intros l'. cbn. auto.
Qed.

Lemma includes_prefix_of_sub (s a b : jsstring) :
  JS.includes s (a ++ b) = true -> JS.includes s a = true.
Proof.
  rewrite !includes_spec. intros [x [y ->]].
  exists x, (b ++ y). rewrite <- app_assoc. reflexivity.
Qed.

Lemma service_principal_has_dot (principal : jsstring) :
  looksLikeServicePrincipal principal = true ->
  JS.includes principal (lit ".") = true.
Proof.
  unfold looksLikeServicePrincipal. rewrite orb_true_iff. intros [H | H].
  - apply includes_prefix_of_sub with (b := lit "amazonaws.com"). exact H.
  - apply includes_prefix_of_sub with (b := lit "amazon.com"). exact H.
Qed.

Lemma digits_have_no_dot (principal : jsstring) :
  forallb digit principal = true -> JS.includes principal (lit ".") = false.
Proof.
  intros H. apply includes_false_by_class with (P := digit);
    [assumption | reflexivity].
Qed.

(** The source function, one case per guard of its blocks. *)
Lemma validatePrincipalARN_cases (principal : jsstring) :
  validatePrincipalARN principal =
  if JS.eqb principal (lit "*") then mkVerdict true [] [msg_wildcard]
  else if negb (truthyString principal) || JS.eqb (JS.trim principal) (lit "")
  then mkVerdict true [] []
  else if test re_canonical_id principal then mkVerdict true [] [msg_canonical]
  else if looksLikeServicePrincipal principal then
    if test re_service_principal principal
    then mkVerdict true [] [msg_service_unsupported]
    else finish (arnOrAccountBlock principal (pushError msg_service_format emptyLog))
  else finish (arnOrAccountBlock principal emptyLog).
Proof.
  unfold validatePrincipalARN, looksLikeServicePrincipal.
  unfold wildcardBlock, emptyBlock, canonicalIdBlock, servicePrincipalBlock.
  cbn [andThen].
  destruct (JS.eqb principal (lit "*")); [reflexivity|]. cbn [andThen].
  destruct (negb (truthyString principal) || JS.eqb (JS.trim principal) (lit ""));
    [reflexivity|]. cbn [andThen].
  destruct (test re_canonical_id principal); [reflexivity|]. cbn [andThen].
  destruct (JS.includes principal (lit ".amazonaws.com")
            || JS.includes principal (lit ".amazon.com")); [|reflexivity].
  destruct (test re_service_principal principal); reflexivity.
Qed.

(** C3, as the code has it.  The blocks are tried in the fixed order
    wildcard/empty, canonical id, service principal, [arn:], bare digits or
    fallback error, and the verdict is that of the single block that
    matched, with one exception: a string containing [.amazonaws.com] or
    [.amazon.com] that fails the service-principal pattern keeps that
    block's error and goes on, so that when it also starts with [arn:] the
    errors and warnings of the ARN block follow it.  (Strings with a period
    that reach the last block are left aside here.) *)
Theorem validatePrincipalARN_dispatch (principal : jsstring) :
  (spec_branch principal = ServicePrincipal ->
   test re_service_principal principal = false ->
   JS.startsWith principal (lit "arn:") = true ->
   errors (validatePrincipalARN principal)
   = msg_service_format :: errors (spec_branchVerdict Arn principal)
   /\ warnings (validatePrincipalARN principal)
      = warnings (spec_branchVerdict Arn principal)
   /\ isValid (validatePrincipalARN principal) = false)
  /\
  (~ (spec_branch principal = ServicePrincipal
      /\ test re_service_principal principal = false
      /\ JS.startsWith principal (lit "arn:") = true) ->
   ~ (spec_branch principal = FallbackError
      /\ JS.includes principal (lit ".") = true) ->
   validatePrincipalARN principal = spec_validatePrincipal principal).
Proof.
  rewrite validatePrincipalARN_cases.
  unfold spec_validatePrincipal, spec_branch.
  destruct (JS.eqb principal (lit "*")) eqn:Ewild.
  { split; [discriminate|]. intros _ _. cbn [orb spec_branchVerdict].
    unfold wildcardBlock. rewrite Ewild. reflexivity. }
  cbn [orb].
  destruct (negb (truthyString principal) || JS.eqb (JS.trim principal) (lit ""))
    eqn:Eempty.
  { split; [discriminate|]. intros _ _. cbn [spec_branchVerdict].
    unfold wildcardBlock, emptyBlock. rewrite Ewild. cbn [andThen].
    rewrite Eempty. reflexivity. }
  destruct (test re_canonical_id principal) eqn:Ecanon.
  { split; [discriminate|]. intros _ _. cbn [spec_branchVerdict].
    unfold canonicalIdBlock. rewrite Ecanon. reflexivity. }
  destruct (looksLikeServicePrincipal principal) eqn:Esp.
  - pose proof (service_principal_has_dot _ Esp) as Hdot.
    unfold looksLikeServicePrincipal in Esp.
    destruct (test re_service_principal principal) eqn:Ematch.
    + split; [discriminate|]. intros _ _. cbn [spec_branchVerdict].
      unfold servicePrincipalBlock. rewrite Esp, Ematch. reflexivity.
    + unfold arnOrAccountBlock.
      destruct (JS.startsWith principal (lit "arn:")) eqn:Earn.
      * split.
        -- intros _ _ _. cbn [spec_branchVerdict].
           apply arnBlock_after_error.
        -- intros H. exfalso. apply H. auto.
      * split; [discriminate|]. intros _ _. cbn [spec_branchVerdict].
        unfold servicePrincipalBlock. rewrite Esp, Ematch, Hdot. reflexivity.
  - unfold arnOrAccountBlock.
    destruct (JS.startsWith principal (lit "arn:")) eqn:Earn.
    { split; [discriminate|]. intros _ _. reflexivity. }
    destruct (forallb digit principal) eqn:Edigits.
    + split; [discriminate|]. intros _ _. cbn [spec_branchVerdict].
      rewrite (digits_have_no_dot _ Edigits). reflexivity.
    + split; [discriminate|]. intros _ H. cbn [spec_branchVerdict].
      destruct (JS.includes principal (lit ".")) eqn:Edot.
      * exfalso. apply H. auto.
      * reflexivity.
Qed.

Lemma validatePrincipalARN_dispatch_witness :
  errors (validatePrincipalARN (lit "arn:aws:ec2:::x.amazonaws.com"))
  = msg_service_format
    :: errors (spec_branchVerdict Arn (lit "arn:aws:ec2:::x.amazonaws.com"))
  /\ validatePrincipalARN (lit "123456789012")
     = spec_validatePrincipal (lit "123456789012").
Proof.
  split.
  - apply (proj1 (validatePrincipalARN_dispatch
                    (lit "arn:aws:ec2:::x.amazonaws.com"))); reflexivity.
  - apply (proj2 (validatePrincipalARN_dispatch (lit "123456789012")));
      intros [H _]; vm_compute in H; discriminate.
Defined.

(** C3 as stated fails: [arn:x.amazonaws.com] contains [.amazonaws.com]
    and starts with [arn:]; the specification's dispatch gives it to the
    service-principal branch alone, with one error, but the source returns
    that error followed by the ARN block's "Invalid ARN format" error. *)
Lemma validatePrincipalARN_two_blocks_counterexample :
  spec_branch (lit "arn:x.amazonaws.com") = ServicePrincipal
  /\ errors (spec_validatePrincipal (lit "arn:x.amazonaws.com"))
     = [msg_service_format]
  /\ errors (validatePrincipalARN (lit "arn:x.amazonaws.com"))
     = [msg_service_format; msg_invalid_arn]
  /\ validatePrincipalARN (lit "arn:x.amazonaws.com")
     <> spec_validatePrincipal (lit "arn:x.amazonaws.com").
Proof.
  repeat split; try (vm_compute; reflexivity).
  intros H. apply (f_equal (fun v => length (errors v))) in H.
  vm_compute in H. discriminate.
Qed.

(** C2 at the failing input: [service.example.com] is not the wildcard, not
    a canonical id, contains neither [.amazonaws.com] nor [.amazon.com],
    does not start with [arn:] and is not made of digits, yet the verdict
    is valid with no error and no warning. *)
Theorem validatePrincipalARN_dotted_name_accepted :
  validatePrincipalARN (lit "service.example.com") = mkVerdict true [] [].
Proof. vm_compute. reflexivity. Qed.

(* ================================================================== *)
(** * Checks only append *)
(* ================================================================== *)

Lemma prependLog_assoc (a b c : Log) :
  prependLog a (prependLog b c) = prependLog (prependLog a b) c.
Proof. unfold prependLog; simpl. rewrite !app_assoc. reflexivity. Qed.

Lemma prependLog_empty_l (l : Log) : prependLog emptyLog l = l.
Proof. destruct l; reflexivity. Qed.

Lemma Appends_done : Appends done.
Proof. intros l0 l; reflexivity. Qed.

Lemma Appends_throw : Appends throwTypeError.
Proof. intros l0 l; reflexivity. Qed.

Lemma Appends_error (m : jsstring) : Appends (error m).
Proof. intros l0 l; unfold error; simpl. rewrite pushError_prepend. reflexivity. Qed.

Lemma Appends_warning (m : jsstring) : Appends (warning m).
Proof. intros l0 l; unfold warning; simpl. rewrite pushWarning_prepend. reflexivity. Qed.

Lemma Appends_seq (c1 c2 : Check) : Appends c1 -> Appends c2 -> Appends (c1 ;; c2).
Proof.
  intros H1 H2 l0 l. unfold seqCheck. rewrite H1.
  destruct (c1 l) as [l'|]; simpl; [apply H2 | reflexivity].
Qed.

Lemma Appends_when (b : bool) (c : Check) : Appends c -> Appends (when b c).
Proof. destruct b; simpl; [auto | intros _; apply Appends_done]. Qed.

Lemma Appends_forEachFrom {A} (body : A -> nat -> Check) (items : list A) :
  (forall x i, Appends (body x i)) -> forall i, Appends (forEachFrom i body items).
Proof.
  intros H. induction items as [|x items IH]; intros i; simpl.
  - apply Appends_done.
  - apply Appends_seq; auto.
Qed.

Lemma Appends_forEach {A} (body : A -> nat -> Check) (items : list A) :
  (forall x i, Appends (body x i)) -> Appends (forEach body items).
Proof. intros H. apply Appends_forEachFrom; assumption. Qed.

Lemma Appends_whenPresent (x : option json) (validate : json -> Check) :
  (forall v, Appends (validate v)) -> Appends (whenPresent x validate).
Proof.
  intros H. destruct x; simpl; [apply Appends_when; auto | apply Appends_done].
Qed.

Ltac appends :=
  repeat first
    [ apply Appends_done | apply Appends_throw | apply Appends_error
    | apply Appends_warning | apply Appends_seq | apply Appends_when
    | apply Appends_whenPresent; intros
    | apply Appends_forEach; intros
    | match goal with
      | |- Appends (if ?b then _ else _) => destruct b
      | |- Appends (match ?x with _ => _ end) => destruct x
      end ].

Lemma Appends_validateActions actions prefix : Appends (validateActions actions prefix).
Proof. unfold validateActions, validateAction. appends. Qed.

Lemma Appends_validateResources resources prefix :
  Appends (validateResources resources prefix).
Proof. unfold validateResources, validateResource. appends. Qed.

Lemma Appends_validateCondition condition prefix :
  Appends (validateCondition condition prefix).
Proof. unfold validateCondition, validateOperator. appends. Qed.

Lemma Appends_checkActions stmt prefix : Appends (checkActions stmt prefix).
Proof.
  unfold checkActions. appends; apply Appends_validateActions.
Qed.

Lemma Appends_checkResources stmt prefix : Appends (checkResources stmt prefix).
Proof.
  unfold checkResources. appends; apply Appends_validateResources.
Qed.

Lemma Appends_checkCondition stmt prefix : Appends (checkCondition stmt prefix).
Proof.
  unfold checkCondition. appends; apply Appends_validateCondition.
Qed.

Lemma Appends_checkUnknownFields stmt prefix :
  Appends (checkUnknownFields stmt prefix).
Proof. unfold checkUnknownFields, checkUnknownField. appends. Qed.

Lemma Appends_checkPrincipal stmt prefix : Appends (checkPrincipal stmt prefix).
Proof. unfold checkPrincipal. appends. Qed.

Lemma Appends_checkNotPrincipal stmt prefix : Appends (checkNotPrincipal stmt prefix).
Proof. unfold checkNotPrincipal. appends. Qed.

Lemma Appends_run (c : Check) (l : Log) :
  Appends c -> c l = option_map (prependLog l) (c emptyLog).
Proof. intros H. rewrite <- H, prependLog_empty. reflexivity. Qed.

(** Inserting warnings between two runs of statements. *)
Lemma insert_contributes (A B : Check) (ms : list jsstring) :
  Appends B ->
  Contributes ((A ;; B) emptyLog) ((A ;; warnAll ms ;; B) emptyLog) ms.
Proof.
  intros HB. unfold seqCheck. destruct (A emptyLog) as [a|]; [|exact I].
  unfold warnAll.
  rewrite (Appends_run B a HB), (Appends_run B (mkLog _ _) HB).
  destruct (B emptyLog) as [b|]; simpl; [|exact I].
  split; [reflexivity|]. exists (log_warnings a), (log_warnings b).
  rewrite <- app_assoc. auto.
Qed.

(* ================================================================== *)
(** * Statements: what Principal and NotPrincipal contribute *)
(* ================================================================== *)

Lemma assoc_remove (name field : jsstring) (props : list (jsstring * json)) :
  Val.assoc name (Val.remove field props)
  = if JS.eqb name field then None else Val.assoc name props.
Proof.
  induction props as [|[k v] props IH]; simpl.
  - destruct (JS.eqb name field); reflexivity.
  - destruct (JS.eqb k field) eqn:Ek; simpl.
    + rewrite IH. destruct (JS.eqb name field) eqn:En; [reflexivity|].
      destruct (JS.eqb k name) eqn:Ekn; [|reflexivity].
      apply eqb_spec in Ek, Ekn. subst.
      rewrite eqb_refl in En. discriminate.
    + rewrite IH. destruct (JS.eqb k name) eqn:Ekn; [|reflexivity].
      apply eqb_spec in Ekn. subst. rewrite Ek. reflexivity.
Qed.

Lemma get_remove (name field : jsstring) (props : list (jsstring * json)) :
  JS.eqb name field = false ->
  Val.get (JObject (Val.remove field props)) name = Val.get (JObject props) name.
Proof. intros H. simpl. rewrite assoc_remove, H. reflexivity. Qed.

Lemma forEachFrom_shift {A} (body : A -> nat -> Check) (items : list A) :
  (forall x i j, body x i = body x j) ->
  forall i j l, forEachFrom i body items l = forEachFrom j body items l.
Proof.
  intros H. induction items as [|x items IH]; intros i j l; simpl.
  - reflexivity.
  - unfold seqCheck. rewrite (H x i j). destruct (body x j l); [apply IH | reflexivity].
Qed.

(** A key the loop does nothing for can be left out of the keys. *)
Lemma unknownFields_remove_from (field prefix : jsstring)
    (props : list (jsstring * json)) :
  JS.arrayIncludes validStmtFields field = true ->
  forall i j l,
    forEachFrom i (checkUnknownField prefix) (List.map fst props) l
    = forEachFrom j (checkUnknownField prefix)
        (List.map fst (Val.remove field props)) l.
Proof.
  intros Hvalid.
  induction props as [|[k v] props IH]; intros i j l; simpl.
  - reflexivity.
  - destruct (JS.eqb k field) eqn:Ek; simpl.
    + apply eqb_spec in Ek. subst k.
      unfold seqCheck at 1. unfold checkUnknownField at 1.
      rewrite Hvalid. simpl. apply IH.
    + unfold seqCheck.
      replace (checkUnknownField prefix k j) with (checkUnknownField prefix k i)
        by reflexivity.
      destruct (checkUnknownField prefix k i l); [apply IH | reflexivity].
Qed.

Lemma unknownFields_remove (field prefix : jsstring) (props : list (jsstring * json))
    (l : Log) :
  JS.arrayIncludes validStmtFields field = true ->
  checkUnknownFields (JObject props) prefix l
  = checkUnknownFields (JObject (Val.remove field props)) prefix l.
Proof.
  intros Hvalid. unfold checkUnknownFields, forEach. simpl Val.keys.
  apply unknownFields_remove_from. exact Hvalid.
Qed.

Section RemoveField.

Variable field : jsstring.
Variable props : list (jsstring * json).
Variable prefix : jsstring.

Let stmt := JObject props.
Let stmt' := JObject (Val.remove field props).

Lemma checkSid_remove :
  JS.eqb (lit "Sid") field = false -> checkSid stmt' prefix = checkSid stmt prefix.
Proof. intros H. unfold checkSid, stmt', stmt. rewrite get_remove by exact H. reflexivity. Qed.

Lemma checkEffect_remove :
  JS.eqb (lit "Effect") field = false ->
  checkEffect stmt' prefix = checkEffect stmt prefix.
Proof. intros H. unfold checkEffect, stmt', stmt. rewrite get_remove by exact H. reflexivity. Qed.

Lemma checkPrincipal_remove :
  JS.eqb (lit "Principal") field = false ->
  checkPrincipal stmt' prefix = checkPrincipal stmt prefix.
Proof. intros H. unfold checkPrincipal, stmt', stmt. rewrite get_remove by exact H. reflexivity. Qed.

Lemma checkNotPrincipal_remove :
  JS.eqb (lit "NotPrincipal") field = false ->
  checkNotPrincipal stmt' prefix = checkNotPrincipal stmt prefix.
Proof. intros H. unfold checkNotPrincipal, stmt', stmt. rewrite get_remove by exact H. reflexivity. Qed.

Lemma checkActions_remove :
  JS.eqb (lit "Action") field = false -> JS.eqb (lit "NotAction") field = false ->
  checkActions stmt' prefix = checkActions stmt prefix.
Proof.
  intros H1 H2. unfold checkActions, stmt', stmt.
  rewrite !get_remove by assumption. reflexivity.
Qed.

Lemma checkResources_remove :
  JS.eqb (lit "Resource") field = false -> JS.eqb (lit "NotResource") field = false ->
  checkResources stmt' prefix = checkResources stmt prefix.
Proof.
  intros H1 H2. unfold checkResources, stmt', stmt.
  rewrite !get_remove by assumption. reflexivity.
Qed.

Lemma checkCondition_remove :
  JS.eqb (lit "Condition") field = false ->
  checkCondition stmt' prefix = checkCondition stmt prefix.
Proof. intros H. unfold checkCondition, stmt', stmt. rewrite get_remove by exact H. reflexivity. Qed.

End RemoveField.

Lemma when_warning (b : bool) (m : jsstring) (l : Log) :
  when b (warning m) l = warnAll (if b then [m] else []) l.
Proof.
  destruct b; simpl.
  - reflexivity.
  - unfold done, warnAll. rewrite app_nil_r. destruct l; reflexivity.
Qed.

Lemma seq_ext (c1 c1' c2 c2' : Check) (l : Log) :
  (forall l, c1 l = c1' l) -> (forall l, c2 l = c2' l) ->
  (c1 ;; c2) l = (c1' ;; c2') l.
Proof.
  intros H1 H2. unfold seqCheck. rewrite H1. destruct (c1' l); auto.
Qed.

Lemma seq_assoc (c1 c2 c3 : Check) (l : Log) :
  (c1 ;; c2 ;; c3) l = ((c1 ;; c2) ;; c3) l.
Proof. unfold seqCheck. destruct (c1 l); reflexivity. Qed.

Lemma validateStatement_object (props : list (jsstring * json)) (idx : nat) :
  validateStatement (JObject props) idx
  = (checkSid (JObject props) (statementPrefix idx) ;;
     checkEffect (JObject props) (statementPrefix idx) ;;
     checkPrincipal (JObject props) (statementPrefix idx) ;;
     checkNotPrincipal (JObject props) (statementPrefix idx) ;;
     checkActions (JObject props) (statementPrefix idx) ;;
     checkResources (JObject props) (statementPrefix idx) ;;
     checkCondition (JObject props) (statementPrefix idx) ;;
     checkUnknownFields (JObject props) (statementPrefix idx)).
Proof. reflexivity. Qed.

Lemma principal_contributes (props : list (jsstring * json)) (idx : nat) (v : json) :
  Val.assoc (lit "Principal") props = Some v ->
  Contributes
    (validateStatement (JObject (Val.remove (lit "Principal") props)) idx emptyLog)
    (validateStatement (JObject props) idx emptyLog)
    (if Val.truthy (Some v) then [msg_principal_ignored (statementPrefix idx)] else []).
Proof.
  intros Hv. rewrite !validateStatement_object.
  set (p := statementPrefix idx). set (stmt := JObject props).
  set (stmt' := JObject (Val.remove (lit "Principal") props)).
  set (A := checkSid stmt p ;; checkEffect stmt p).
  set (B := checkNotPrincipal stmt p ;; checkActions stmt p ;; checkResources stmt p ;;
            checkCondition stmt p ;; checkUnknownFields stmt p).
  set (ms := if Val.truthy (Some v) then [msg_principal_ignored p] else []).
  assert (HB : Appends B).
  { unfold B.
    apply Appends_seq; [apply Appends_checkNotPrincipal|].
    apply Appends_seq; [apply Appends_checkActions|].
    apply Appends_seq; [apply Appends_checkResources|].
    apply Appends_seq; [apply Appends_checkCondition|].
    apply Appends_checkUnknownFields. }
  assert (Ewith : (checkSid stmt p ;; checkEffect stmt p ;; checkPrincipal stmt p ;; B)
                    emptyLog
                  = (A ;; warnAll ms ;; B) emptyLog).
  { unfold A. rewrite <- seq_assoc. apply seq_ext; [reflexivity|]. intros l.
    apply seq_ext; [reflexivity|]. intros l1. apply seq_ext; [|reflexivity].
    intros l2. unfold checkPrincipal, stmt. simpl Val.get. rewrite Hv.
    apply when_warning. }
  assert (Ewithout :
            (checkSid stmt' p ;; checkEffect stmt' p ;; checkPrincipal stmt' p ;;
             checkNotPrincipal stmt' p ;; checkActions stmt' p ;;
             checkResources stmt' p ;; checkCondition stmt' p ;;
             checkUnknownFields stmt' p) emptyLog
            = (A ;; B) emptyLog).
  { unfold A, B, stmt', stmt.
    rewrite checkSid_remove, checkEffect_remove, checkNotPrincipal_remove,
      checkActions_remove, checkResources_remove, checkCondition_remove
      by reflexivity.
    rewrite <- seq_assoc. apply seq_ext; [reflexivity|]. intros l.
    apply seq_ext; [reflexivity|]. intros l1.
    unfold checkPrincipal at 1. simpl Val.get. rewrite assoc_remove.
    simpl JS.eqb. cbn [Val.truthy when]. unfold seqCheck at 1. unfold done at 1.
    repeat (apply seq_ext; [reflexivity|]; intros ?).
    symmetry. apply unknownFields_remove. reflexivity. }
  fold B. rewrite Ewith. unfold B. rewrite Ewithout.
  apply insert_contributes. exact HB.
Qed.

Lemma notPrincipal_contributes (props : list (jsstring * json)) (idx : nat) (v : json) :
  Val.assoc (lit "NotPrincipal") props = Some v ->
  Contributes
    (validateStatement (JObject (Val.remove (lit "NotPrincipal") props)) idx emptyLog)
    (validateStatement (JObject props) idx emptyLog)
    (if Val.truthy (Some v) then [msg_notprincipal_ignored (statementPrefix idx)] else []).
Proof.
  intros Hv. rewrite !validateStatement_object.
  set (p := statementPrefix idx). set (stmt := JObject props).
  set (stmt' := JObject (Val.remove (lit "NotPrincipal") props)).
  set (A := checkSid stmt p ;; checkEffect stmt p ;; checkPrincipal stmt p).
  set (B := checkActions stmt p ;; checkResources stmt p ;;
            checkCondition stmt p ;; checkUnknownFields stmt p).
  set (ms := if Val.truthy (Some v) then [msg_notprincipal_ignored p] else []).
  assert (HB : Appends B).
  { unfold B.
    apply Appends_seq; [apply Appends_checkActions|].
    apply Appends_seq; [apply Appends_checkResources|].
    apply Appends_seq; [apply Appends_checkCondition|].
    apply Appends_checkUnknownFields. }
  assert (Ewith : (checkSid stmt p ;; checkEffect stmt p ;; checkPrincipal stmt p ;;
                   checkNotPrincipal stmt p ;; B) emptyLog
                  = (A ;; warnAll ms ;; B) emptyLog).
  { unfold A. rewrite <- !seq_assoc. apply seq_ext; [reflexivity|]. intros l.
    rewrite <- !seq_assoc.
    apply seq_ext; [reflexivity|]. intros l1.
    apply seq_ext; [reflexivity|]. intros l2. apply seq_ext; [|reflexivity].
    intros l3. unfold checkNotPrincipal, stmt. simpl Val.get. rewrite Hv.
    apply when_warning. }
  assert (Ewithout :
            (checkSid stmt' p ;; checkEffect stmt' p ;; checkPrincipal stmt' p ;;
             checkNotPrincipal stmt' p ;; checkActions stmt' p ;;
             checkResources stmt' p ;; checkCondition stmt' p ;;
             checkUnknownFields stmt' p) emptyLog
            = (A ;; B) emptyLog).
  { unfold A, B, stmt', stmt.
    rewrite checkSid_remove, checkEffect_remove, checkPrincipal_remove,
      checkActions_remove, checkResources_remove, checkCondition_remove
      by reflexivity.
    rewrite <- !seq_assoc. apply seq_ext; [reflexivity|]. intros l.
    rewrite <- !seq_assoc.
    apply seq_ext; [reflexivity|]. intros l1.
    apply seq_ext; [reflexivity|]. intros l2.
    unfold checkNotPrincipal at 1. simpl Val.get. rewrite assoc_remove.
    simpl JS.eqb. cbn [Val.truthy when]. unfold seqCheck at 1. unfold done at 1.
    repeat (apply seq_ext; [reflexivity|]; intros ?).
    symmetry. apply unknownFields_remove. reflexivity. }
  fold B. rewrite Ewith. unfold B. rewrite Ewithout.
  apply insert_contributes. exact HB.
Qed.

(** C7, as the code has it.  In a statement object, a Principal (likewise
    a NotPrincipal) whose value is truthy contributes exactly one warning,
    saying that the field is ignored, and one whose value is falsy
    ([null], [false], 0, the empty string) contributes none; no value
    contributes an error or changes any other message: compared with the
    statement without the field, the errors are the same and the warnings
    differ by that one message, in place. *)
Theorem principal_fields_only_warn (props : list (jsstring * json)) (idx : nat) :
  (forall v,
      Val.assoc (lit "Principal") props = Some v ->
      Contributes
        (validateStatement (JObject (Val.remove (lit "Principal") props)) idx emptyLog)
        (validateStatement (JObject props) idx emptyLog)
        (if Val.truthy (Some v)
         then [msg_principal_ignored (statementPrefix idx)] else []))
  /\
  (forall v,
      Val.assoc (lit "NotPrincipal") props = Some v ->
      Contributes
        (validateStatement (JObject (Val.remove (lit "NotPrincipal") props)) idx emptyLog)
        (validateStatement (JObject props) idx emptyLog)
        (if Val.truthy (Some v)
         then [msg_notprincipal_ignored (statementPrefix idx)] else [])).
Proof.
  split; intros v Hv.
  - apply principal_contributes; assumption.
  - apply notPrincipal_contributes; assumption.
Qed.

Lemma principal_fields_only_warn_witness :
  Contributes
    (validateStatement
       (JObject (Val.remove (lit "Principal")
                   (sampleStatement [(lit "Principal", JString (lit "*"))]))) 0 emptyLog)
    (validateStatement
       (JObject (sampleStatement [(lit "Principal", JString (lit "*"))])) 0 emptyLog)
    [msg_principal_ignored (statementPrefix 0)].
Proof.
  apply (proj1 (principal_fields_only_warn
                  (sampleStatement [(lit "Principal", JString (lit "*"))]) 0)
           (JString (lit "*"))).
  reflexivity.
Defined.

(** C7 as stated fails: a statement whose Principal key is present with the
    empty string as value gets no warning about the field (and no error). *)
Lemma principal_empty_string_counterexample :
  Val.get (JObject (sampleStatement [(lit "Principal", JString (lit ""))]))
    (lit "Principal") = Some (JString (lit ""))
  /\ validateStatement
       (JObject (sampleStatement [(lit "Principal", JString (lit ""))])) 0 emptyLog
     = Some emptyLog.
Proof. split; vm_compute; reflexivity. Qed.

(* ================================================================== *)
(** * Conditions *)
(* ================================================================== *)

(** C8 at the failing input.  Stripping the prefix from the operator key
    [ForAllValues:StringEquals:x] leaves [StringEquals:x], which is not in
    the vocabulary; the source looks up the text between the first two
    colons, [StringEquals], and reports nothing. *)
Theorem validateCondition_extra_segment_accepted :
  operatorToCheck (lit "ForAllValues:StringEquals:x") = Some (lit "StringEquals")
  /\ JS.arrayIncludes validConditionOperators (lit "StringEquals:x") = false
  /\ validateCondition
       (JObject [(lit "ForAllValues:StringEquals:x", JObject [])])
       (lit "Statement[0].Condition") emptyLog
     = Some emptyLog.
Proof. repeat split; vm_compute; reflexivity. Qed.

Lemma split_without_separator (sep : char) (s : jsstring) :
  forallb (fun c => negb (N.eqb c sep)) s = true -> JS.split sep s = [s].
Proof.
  induction s as [|c s IH]; simpl; [reflexivity|].
  intros H. apply andb_true_iff in H as [Hc Hs]. apply negb_true_iff in Hc.
  rewrite Hc, (IH Hs). reflexivity.
Qed.

(** Where the operator has a single colon the source does strip the
    prefix: the divergence is confined to keys with a further colon. *)
Lemma operatorToCheck_strips_prefix (rest : jsstring) :
  forallb (fun c => negb (N.eqb c (ch ":"))) rest = true ->
  operatorToCheck (lit "ForAllValues:" ++ rest) = Some rest
  /\ operatorToCheck (lit "ForAnyValue:" ++ rest) = Some rest.
Proof.
  intros H. unfold operatorToCheck.
  change (JS.startsWith (lit "ForAllValues:" ++ rest) (lit "ForAllValues:")) with true.
  change (JS.startsWith (lit "ForAnyValue:" ++ rest) (lit "ForAnyValue:")) with true.
  rewrite orb_true_r. cbn [orb].
  change (JS.split (ch ":") (lit "ForAllValues:" ++ rest))
    with (lit "ForAllValues" :: JS.split (ch ":") rest).
  change (JS.split (ch ":") (lit "ForAnyValue:" ++ rest))
    with (lit "ForAnyValue" :: JS.split (ch ":") rest).
  rewrite (split_without_separator _ _ H). split; reflexivity.
Qed.

(** The two examples of C8: a [StringLike] block is accepted, an unknown
    operator is one error. *)
Example validateCondition_StringLike :
  validateCondition
    (JObject [(lit "StringLike",
               JObject [(lit "s3:prefix", JArray [JString (lit "a/*")])])])
    (lit "Statement[0].Condition") emptyLog
  = Some emptyLog.
Proof. vm_compute. reflexivity. Qed.

Example validateCondition_BogusOperator :
  validateCondition (JObject [(lit "BogusOperator", JObject [])])
    (lit "Statement[0].Condition") emptyLog
  = Some (mkLog [lit "Statement[0].Condition: Unknown condition operator "
                   ++ dq ++ lit "BogusOperator" ++ dq] []).
Proof. vm_compute. reflexivity. Qed.

(* ================================================================== *)
(** * Policy assembly *)
(* ================================================================== *)

Lemma generatePolicy_cases (form : Form) (now : N) :
  generatePolicy form now =
  if negb (truthyString (trimmedBucket form)) then Rejected msg_no_bucket
  else if negb (bucket_isValid (validateBucketName (trimmedBucket form)))
  then Rejected msg_bad_bucket
  else if length (mergedActions form) =? 0 then Rejected msg_no_action
  else if truthyString (conditionText form) then
    match JSON.parse (conditionText form) with
    | Some condition =>
        Generated (policyDocument
                     (Val.set (lit "Condition") condition (baseStatement form now)))
    | None => Rejected msg_bad_condition
    end
  else Generated (policyDocument (baseStatement form now)).
Proof. reflexivity. Qed.

Lemma truthyString_false (s : jsstring) : truthyString s = false <-> s = [].
Proof. destruct s; simpl; split; congruence. Qed.

Lemma truthyString_true (s : jsstring) : truthyString s = true <-> s <> [].
Proof. destruct s; simpl; split; congruence. Qed.


Lemma set_base_condition (form : Form) (now : N) (condition : json) :
  Val.set (lit "Condition") condition (baseStatement form now)
  = baseStatement form now ++ [(lit "Condition", condition)].
Proof. reflexivity. Qed.

(** What a generated document tells about the form. *)
Lemma generated_inv (form : Form) (now : N) (policy : json) :
  generatePolicy form now = Generated policy ->
  bucketAccepted form = true /\ mergedActions form <> []
  /\ ((conditionText form = [] /\ policy = policyDocument (baseStatement form now))
      \/ (exists condition,
             conditionText form <> []
             /\ JSON.parse (conditionText form) = Some condition
             /\ policy = policyDocument
                           (baseStatement form now ++ [(lit "Condition", condition)]))).
Proof.
  rewrite generatePolicy_cases. unfold bucketAccepted.
  destruct (truthyString (trimmedBucket form)); cbn [negb andb]; [|discriminate].
  destruct (bucket_isValid (validateBucketName (trimmedBucket form)));
    cbn [negb andb]; [|discriminate].
  destruct (length (mergedActions form) =? 0) eqn:Ea; [discriminate|].
  assert (Ha : mergedActions form <> [])
    by (intros H; apply length_zero in H; congruence).
  destruct (truthyString (conditionText form)) eqn:Ec.
  - apply truthyString_true in Ec.
    destruct (JSON.parse (conditionText form)) as [condition|]; [|discriminate].
    intros H. repeat split; try assumption.
    right. exists condition. rewrite <- set_base_condition.
    repeat split; congruence.
  - apply truthyString_false in Ec. intros H.
    repeat split; try assumption. left. split; congruence.
Qed.

(** Every outcome of [generatePolicy], the check of the bucket name the
    function starts with (lines 884-901) included: it stops with an error
    notification and assigns no document in four cases, each with its own
    message: the trimmed bucket name is blank; it fails
    [validateBucketName]; the merged action list is empty; the trimmed
    condition text is not blank and [JSON.parse] rejects it.  In every
    other case it produces a complete document: Version 2012-10-17 and one
    statement with Sid, Effect, Action and Resource, to which Condition is
    added exactly when the condition text is not blank. *)
Lemma generatePolicy_every_outcome (form : Form) (now : N) :
  match generatePolicy form now with
  | Rejected m =>
      (m = msg_no_bucket /\ trimmedBucket form = [])
      \/ (m = msg_bad_bucket /\ trimmedBucket form <> []
          /\ bucket_isValid (validateBucketName (trimmedBucket form)) = false)
      \/ (m = msg_no_action /\ bucketAccepted form = true /\ mergedActions form = [])
      \/ (m = msg_bad_condition /\ bucketAccepted form = true
          /\ mergedActions form <> [] /\ conditionText form <> []
          /\ JSON.parse (conditionText form) = None)
  | Generated policy =>
      bucketAccepted form = true /\ mergedActions form <> []
      /\ ((conditionText form = []
           /\ policy = policyDocument (baseStatement form now)
           /\ Val.get (JObject (baseStatement form now)) (lit "Condition") = None)
          \/ (exists condition,
                 conditionText form <> []
                 /\ JSON.parse (conditionText form) = Some condition
                 /\ policy = policyDocument
                               (baseStatement form now ++ [(lit "Condition", condition)])))
  end.
Proof.
  rewrite generatePolicy_cases. unfold bucketAccepted.
  destruct (truthyString (trimmedBucket form)) eqn:Eb; cbn [negb andb].
  2:{ left. apply truthyString_false in Eb. auto. }
  apply truthyString_true in Eb.
  destruct (bucket_isValid (validateBucketName (trimmedBucket form))) eqn:Ev;
    cbn [negb andb].
  2:{ right; left. auto. }
  destruct (length (mergedActions form) =? 0) eqn:Ea.
  { right; right; left. apply length_zero in Ea. auto. }
  assert (Ha : mergedActions form <> [])
    by (intros H; apply length_zero in H; congruence).
  destruct (truthyString (conditionText form)) eqn:Ec.
  - apply truthyString_true in Ec.
    destruct (JSON.parse (conditionText form)) as [condition|] eqn:Ep.
    + repeat split; try assumption. right. exists condition.
      rewrite set_base_condition. auto.
    + right; right; right. auto.
  - apply truthyString_false in Ec. repeat split; try assumption. left. auto.
Qed.

(** C5.  On a bucket name that has been accepted (not blank and passing
    [validateBucketName]), [generatePolicy] fails, with a failure that
    tells which, and without any document, exactly when the merged action
    list is empty or the condition text is not blank and does not parse as
    JSON; in every other case it returns a complete document (Version
    2012-10-17 and one statement with Sid, Effect, Action and Resource),
    and when the condition text is blank the statement has no Condition
    key at all. *)
Theorem generatePolicy_outcomes (form : Form) (now : N) :
  bucketAccepted form = true ->
  ((exists m, generatePolicy form now = Rejected m)
   <-> mergedActions form = []
       \/ (conditionText form <> [] /\ JSON.parse (conditionText form) = None))
  /\ msg_no_action <> msg_bad_condition
  /\ match generatePolicy form now with
     | Rejected m =>
         (m = msg_no_action /\ mergedActions form = [])
         \/ (m = msg_bad_condition /\ mergedActions form <> []
             /\ conditionText form <> []
             /\ JSON.parse (conditionText form) = None)
     | Generated policy =>
         mergedActions form <> []
         /\ ((conditionText form = []
              /\ policy = policyDocument (baseStatement form now)
              /\ Val.get (JObject (baseStatement form now)) (lit "Condition") = None)
             \/ (exists condition,
                    conditionText form <> []
                    /\ JSON.parse (conditionText form) = Some condition
                    /\ policy = policyDocument
                                  (baseStatement form now
                                   ++ [(lit "Condition", condition)])))
     end.
Proof.
  intros Hbucket.
  assert (Hb : trimmedBucket form <> []
               /\ bucket_isValid (validateBucketName (trimmedBucket form)) = true).
  { unfold bucketAccepted in Hbucket. apply andb_true_iff in Hbucket.
    destruct Hbucket as [H1 H2]. apply truthyString_true in H1. auto. }
  destruct Hb as [Hname Hvalid].
  pose proof (generatePolicy_every_outcome form now) as H.
  destruct (generatePolicy form now) as [m | policy].
  2:{ destruct H as (_ & Hactions & Hdoc).
      split; [| split; [discriminate |]].
      + split.
        * intros (m & E). discriminate E.
        * intros [Hempty | (Hne & Hnone)]; [contradiction |].
          destruct Hdoc as [(Hblank & _) | (condition & _ & Hp & _)]; congruence.
      + split; [exact Hactions | exact Hdoc]. }
  - assert (Hm : (m = msg_no_action /\ mergedActions form = [])
                 \/ (m = msg_bad_condition /\ mergedActions form <> []
                     /\ conditionText form <> []
                     /\ JSON.parse (conditionText form) = None)).
    { destruct H as [(_ & Hblank) | [(_ & _ & Hbad) | [(Hm & _ & He) | Hc]]].
      - contradiction.
      - congruence.
      - left. auto.
      - right. tauto. }
    split; [| split; [discriminate | exact Hm]].
    split.
    + intros _. destruct Hm as [(_ & He) | (_ & _ & Hne & Hnone)]; auto.
    + intros _. exists m. reflexivity.
Qed.

Lemma generatePolicy_outcomes_witness :
  bucketAccepted (sampleForm "test-bucket" ["s3:GetObject"%string] (lit "{bad json"))
  = true
  /\ (exists m,
        generatePolicy
          (sampleForm "test-bucket" ["s3:GetObject"%string] (lit "{bad json")) 0
        = Rejected m)
  /\ (exists m,
        generatePolicy (sampleForm "test-bucket" [] (lit "")) 0 = Rejected m).
Proof.
  split; [reflexivity |]. split.
  - apply (proj1 (generatePolicy_outcomes
                    (sampleForm "test-bucket" ["s3:GetObject"%string] (lit "{bad json"))
                    0 eq_refl)).
    right. split; [discriminate | reflexivity].
  - apply (proj1 (generatePolicy_outcomes (sampleForm "test-bucket" [] (lit "")) 0
                    eq_refl)).
    left. reflexivity.
Defined.

(** Before it looks at the actions, [generatePolicy] checks the bucket name
    itself (lines 884-901): with a blank one the call is rejected with the
    message of that check, although an action is selected and the condition
    text is blank. *)
Example generatePolicy_blank_bucket_rejected :
  generatePolicy (sampleForm "   " ["s3:GetObject"%string] (lit "")) 0
  = Rejected msg_no_bucket
  /\ mergedActions (sampleForm "   " ["s3:GetObject"%string] (lit "")) = [lit "s3:GetObject"]
  /\ conditionText (sampleForm "   " ["s3:GetObject"%string] (lit "")) = [].
Proof. repeat split; vm_compute; reflexivity. Qed.

(** The two failures the specification names, and a success. *)
Example generatePolicy_no_action :
  generatePolicy (sampleForm "test-bucket" [] (lit "")) 0 = Rejected msg_no_action.
Proof. vm_compute. reflexivity. Qed.

Example generatePolicy_bad_json :
  generatePolicy (sampleForm "test-bucket" ["s3:GetObject"%string] (lit "{bad json")) 0
  = Rejected msg_bad_condition.
Proof. vm_compute. reflexivity. Qed.

Example generatePolicy_basic :
  generatePolicy (sampleForm "test-bucket" ["s3:GetObject"%string] (lit "")) 1730000000000
  = Generated
      (policyDocument
         [ (lit "Sid", JString (lit "GeneratedPolicy1730000000000"));
           (lit "Effect", JString (lit "Allow"));
           (lit "Action", JString (lit "s3:GetObject"));
           (lit "Resource", JString (lit "arn:aws:s3:::test-bucket/*")) ]).
Proof. vm_compute. reflexivity. Qed.

(** ** The Resource of the statement *)


Lemma needsObjectResource_spec (actions : list jsstring) :
  needsObjectResource actions = true <-> SomeObjectAction actions.
Proof.
  unfold needsObjectResource, SomeObjectAction. rewrite existsb_exists. tauto.
Qed.





Lemma buildResources_cases (form : Form) :
  buildResources (trimmedBucket form) (pathOf form) (mergedActions form) =
  match needsBucketResource (mergedActions form),
        needsObjectResource (mergedActions form) with
  | true, true => [bucketArn form; objectArn form]
  | true, false => [bucketArn form]
  | false, true => [objectArn form]
  | false, false => [fallbackArn form]
  end.
Proof.
  unfold buildResources.
  destruct (needsBucketResource _), (needsObjectResource _); reflexivity.
Qed.



(** The fallback at work: with the default path [*] and the one action
    s3:AbortMultipartUpload, which asks for neither ARN, the Resource is
    the fallback ARN [arn:aws:s3:::test-bucket/*]; for this path it reads
    like the object-level ARN. *)
Example generatePolicy_fallback_default_path :
  generatePolicy fallbackForm 0
  = Generated (policyDocument (baseStatement fallbackForm 0))
  /\ resourceOf (policyDocument (baseStatement fallbackForm 0))
     = Some (JString (objectArn fallbackForm))
  /\ objectArn fallbackForm = lit "arn:aws:s3:::test-bucket/*"
  /\ ~ SomeObjectAction (mergedActions fallbackForm).
Proof.
  repeat split; try (vm_compute; reflexivity).
  rewrite <- needsObjectResource_spec. vm_compute. discriminate.
Qed.

(** ** The Sid and the clock *)

Lemma ch_injective (a b : ascii) : ch a = ch b -> a = b.
Proof.
  unfold ch. intros H.
  rewrite <- (ascii_N_embedding a), <- (ascii_N_embedding b), H. reflexivity.
Qed.

Lemma lit_injective (s t : string) : lit s = lit t -> s = t.
Proof.
  unfold lit. revert t. induction s as [|a s IH]; intros [|b t]; simpl;
    try discriminate; try reflexivity.
  intros H. injection H as Hab Hst. apply ch_injective in Hab.
  apply IH in Hst. congruence.
Qed.

Lemma to_uint_not_Nil (n : N) : N.to_uint n <> Decimal.Nil.
Proof.
  destruct n; simpl; [discriminate | apply DecimalPos.Unsigned.to_uint_nonnil].
Qed.

Lemma ofNat_injective (m n : N) : JS.ofNat m = JS.ofNat n -> m = n.
Proof.
  unfold JS.ofNat. intros H. apply lit_injective in H.
  apply DecimalN.Unsigned.to_uint_inj.
  apply (f_equal NilZero.uint_of_string) in H.
  rewrite !NilZero.usu in H by apply to_uint_not_Nil.
  congruence.
Qed.

Lemma sidAt_injective (m n : N) : sidAt m = sidAt n -> m = n.
Proof. unfold sidAt. intros H. apply app_inv_head in H. apply ofNat_injective, H. Qed.

(** C6, as the code has it.  The form being the same, two calls end alike
    -- the same rejection, or two documents that agree on everything but
    the Sid -- and the Sid is [GeneratedPolicy] followed by the clock
    reading [Date.now()], so that the documents are identical exactly when
    the two readings are. *)
Theorem generatePolicy_same_but_sid (form : Form) (t1 t2 : N) :
  match generatePolicy form t1, generatePolicy form t2 with
  | Rejected m1, Rejected m2 => m1 = m2
  | Generated p1, Generated p2 =>
      (exists rest,
          p1 = policyDocument ((lit "Sid", JString (sidAt t1)) :: rest)
          /\ p2 = policyDocument ((lit "Sid", JString (sidAt t2)) :: rest))
      /\ (p1 = p2 <-> t1 = t2)
  | _, _ => False
  end.
Proof.
  rewrite !generatePolicy_cases.
  destruct (negb (truthyString (trimmedBucket form))); [reflexivity|].
  destruct (negb (bucket_isValid (validateBucketName (trimmedBucket form))));
    [reflexivity|].
  destruct (length (mergedActions form) =? 0); [reflexivity|].
  assert (Hinj : forall rest,
             policyDocument ((lit "Sid", JString (sidAt t1)) :: rest)
             = policyDocument ((lit "Sid", JString (sidAt t2)) :: rest)
             <-> t1 = t2).
  { intros rest. split.
    - unfold policyDocument. intros H. injection H as H. apply ofNat_injective, H.
    - intros ->. reflexivity. }
  destruct (truthyString (conditionText form)).
  - destruct (JSON.parse (conditionText form)) as [condition|]; [|reflexivity].
    rewrite !set_base_condition. split; [|apply Hinj]. eexists. split; reflexivity.
  - split; [|apply Hinj]. eexists. split; reflexivity.
Qed.

(** C6 as stated fails: the same form at two clock readings gives two
    different documents (they differ in the Sid). *)
Lemma generatePolicy_clock_counterexample :
  generatePolicy (sampleForm "test-bucket" ["s3:GetObject"%string] (lit "")) 1
  <> generatePolicy (sampleForm "test-bucket" ["s3:GetObject"%string] (lit "")) 2.
Proof. vm_compute. discriminate. Qed.

(** ** What an accepted bucket name looks like *)


(* ================================================================== *)
(** * Round trip: validating a generated document *)
(* ================================================================== *)

Lemma Clean_done : Clean done.
Proof. intros l; exists l; auto. Qed.

Lemma Clean_warning (m : jsstring) : Clean (warning m).
Proof. intros l; eexists; split; reflexivity. Qed.

Lemma Clean_seq (c1 c2 : Check) : Clean c1 -> Clean c2 -> Clean (c1 ;; c2).
Proof.
  intros H1 H2 l. destruct (H1 l) as [l1 [E1 L1]]. destruct (H2 l1) as [l2 [E2 L2]].
  exists l2. unfold seqCheck. rewrite E1. split; [assumption | congruence].
Qed.

Lemma Clean_when (b : bool) (c : Check) : (b = true -> Clean c) -> Clean (when b c).
Proof. destruct b; simpl; [auto | intros _; apply Clean_done]. Qed.

Lemma Clean_forEachFrom {A} (body : A -> nat -> Check) (items : list A) :
  (forall x i, In x items -> Clean (body x i)) ->
  forall i, Clean (forEachFrom i body items).
Proof.
  induction items as [|x items IH]; intros H i; simpl.
  - apply Clean_done.
  - apply Clean_seq; [apply H; left; reflexivity|].
    apply IH. intros y j Hy. apply H. right; assumption.
Qed.

Lemma Clean_forEach {A} (body : A -> nat -> Check) (items : list A) :
  (forall x i, In x items -> Clean (body x i)) -> Clean (forEach body items).
Proof. intros H. apply Clean_forEachFrom; assumption. Qed.

Lemma Clean_checkUnknownFields stmt prefix : Clean (checkUnknownFields stmt prefix).
Proof.
  unfold checkUnknownFields. apply Clean_forEach. intros key i _.
  unfold checkUnknownField. apply Clean_when. intros _. apply Clean_warning.
Qed.

Lemma asList_collapse (l : list jsstring) : asList (collapse l) = List.map JString l.
Proof. destruct l as [|x [|y l]]; reflexivity. Qed.

Lemma truthy_collapse (l : list jsstring) :
  Forall (fun x => x <> []) l -> l <> [] -> Val.truthy (Some (collapse l)) = true.
Proof.
  intros Hall Hne. destruct l as [|x [|y l]]; [congruence | | reflexivity].
  simpl. inversion Hall; subst. apply truthyString_true. assumption.
Qed.

(** *** Actions *)

Lemma Clean_validateActions (actions : list jsstring) (prefix : jsstring) :
  actions <> [] ->
  Forall (fun a => JS.includes a (lit ":") = true) actions ->
  Clean (validateActions (collapse actions) prefix).
Proof.
  intros Hne Hall. unfold validateActions. rewrite asList_collapse, length_map.
  destruct (length actions =? 0) eqn:E;
    [apply length_zero in E; congruence|].
  apply Clean_forEach. intros x i Hin.
  apply in_map_iff in Hin as [a [<- Hin]].
  unfold validateAction.
  rewrite Forall_forall in Hall. rewrite (Hall a Hin). cbn [negb].
  repeat match goal with
         | |- Clean (if ?b then _ else _) => destruct b
         end;
    first [apply Clean_warning | apply Clean_done].
Qed.

(** *** Resources *)

Lemma includes_skip_prefix (P : char -> bool) (a b : jsstring) (c : char) (sub : jsstring) :
  forallb P a = true -> P c = false ->
  JS.includes (a ++ b) (c :: sub) = JS.includes b (c :: sub).
Proof.
  intros Ha Hc. induction a as [|x a IH]; [reflexivity|].
  simpl in Ha. apply andb_true_iff in Ha as [Hx Ha].
  change ((x :: a) ++ b) with (x :: (a ++ b)).
  change (JS.includes (x :: a ++ b) (c :: sub))
    with (JS.startsWith (x :: a ++ b) (c :: sub) || JS.includes (a ++ b) (c :: sub)).
  rewrite (IH Ha). simpl JS.startsWith.
  destruct (N.eqb x c) eqn:E; [|reflexivity].
  apply N.eqb_eq in E. congruence.
Qed.

Lemma bucketChar_not_slash : bucketChar (ch "/") = false.
Proof. reflexivity. Qed.

Section GeneratedResources.

Variable bucket : jsstring.
Hypothesis Hvalid : bucket_isValid (validateBucketName bucket) = true.

Lemma bucket_chars : forallb bucketChar bucket = true.
Proof.
  apply validateBucketName_valid_inv in Hvalid as [_ H].
  apply test_anchored, Matches_plus_Class in H. apply H.
Qed.

Lemma bucket_not_empty : bucket <> [].
Proof.
  apply validateBucketName_valid_inv in Hvalid as [_ H].
  apply test_anchored, Matches_plus_Class in H. apply H.
Qed.

Lemma bucket_short : (63 <? length bucket) = false.
Proof. apply validateBucketName_valid_inv in Hvalid as [H _]. exact H. Qed.

Lemma bucket_no_slash : JS.includes bucket (lit "/") = false.
Proof.
  apply includes_false_by_class with (P := bucketChar);
    [apply bucket_chars | reflexivity].
Qed.

Lemma bucket_no_double_slash : JS.includes bucket (lit "//") = false.
Proof.
  apply includes_false_by_class with (P := bucketChar);
    [apply bucket_chars | reflexivity].
Qed.

(** [validateResources] on the ARN of the bucket itself. *)
Lemma Clean_bucket_resource (prefix : jsstring) (idx : nat) :
  Clean (validateResource prefix (JString (lit "arn:aws:s3:::" ++ bucket)) idx).
Proof.
  unfold validateResource.
  change (JS.startsWith (lit "arn:aws:s3:::" ++ bucket) (lit "arn:aws:s3:::")) with true.
  cbn [negb andb].
  change (JS.substring 13 (lit "arn:aws:s3:::" ++ bucket)) with bucket.
  cbv zeta.
  rewrite (proj2 (eqb_neq bucket (lit "")) bucket_not_empty).
  rewrite bucket_no_double_slash, bucket_no_slash, bucket_short. cbn [negb andb].
  apply Clean_seq; [apply Clean_done|].
  apply Clean_seq; [apply Clean_done|].
  apply Clean_when. intros _. apply Clean_warning.
Qed.

(** ... and on the ARN of objects under a path without [//]. *)
Lemma Clean_object_resource (prefix path : jsstring) (idx : nat) :
  JS.includes (lit "/" ++ path) (lit "//") = false ->
  Clean (validateResource prefix
           (JString (lit "arn:aws:s3:::" ++ bucket ++ lit "/" ++ path)) idx).
Proof.
  intros Hpath. unfold validateResource.
  change (JS.startsWith (lit "arn:aws:s3:::" ++ bucket ++ lit "/" ++ path)
            (lit "arn:aws:s3:::")) with true.
  cbn [negb andb].
  change (JS.substring 13 (lit "arn:aws:s3:::" ++ bucket ++ lit "/" ++ path))
    with (bucket ++ lit "/" ++ path).
  cbv zeta.
  assert (Hne : bucket ++ lit "/" ++ path <> [])
    by (intros E; apply app_eq_nil in E as [E _]; exact (bucket_not_empty E)).
  rewrite (proj2 (eqb_neq _ (lit "")) Hne).
  assert (Hdouble : JS.includes (bucket ++ lit "/" ++ path) (lit "//") = false).
  { change (lit "//") with (ch "/" :: lit "/").
    rewrite (includes_skip_prefix bucketChar _ _ _ _ bucket_chars bucketChar_not_slash).
    exact Hpath. }
  assert (Hslash : JS.includes (bucket ++ lit "/" ++ path) (lit "/") = true)
    by (apply includes_spec; exists bucket, path; reflexivity).
  rewrite Hdouble, Hslash. cbn [negb andb].
  apply Clean_seq; [apply Clean_done|].
  apply Clean_seq; apply Clean_done.
Qed.

End GeneratedResources.

Lemma Clean_validateResources (form : Form) (prefix : jsstring) :
  bucketAccepted form = true ->
  JS.includes (lit "/" ++ pathOf form) (lit "//") = false ->
  Clean (validateResources
           (collapse (buildResources (trimmedBucket form) (pathOf form)
                        (mergedActions form))) prefix).
Proof.
  intros Hb Hpath. unfold bucketAccepted in Hb.
  apply andb_true_iff in Hb as [_ Hvalid].
  unfold validateResources. rewrite asList_collapse, length_map.
  rewrite buildResources_cases.
  pose proof (Clean_bucket_resource _ Hvalid prefix) as Hbucket.
  pose proof (fun i => Clean_object_resource _ Hvalid prefix _ i Hpath) as Hobject.
  pose proof (fun i => Clean_object_resource _ Hvalid prefix (lit "*") i eq_refl)
    as Hfallback.
  destruct (needsBucketResource _), (needsObjectResource _);
    cbn [length Nat.eqb List.map]; apply Clean_forEach; intros x i Hin;
    repeat match type of Hin with
           | In _ (_ :: _) => destruct Hin as [<- | Hin]
           | In _ [] => destruct Hin
           end;
    first [apply Hbucket | apply Hobject | apply Hfallback].
Qed.

Lemma resources_truthy (form : Form) :
  Val.truthy
    (Some (collapse (buildResources (trimmedBucket form) (pathOf form)
                       (mergedActions form)))) = true.
Proof.
  rewrite buildResources_cases.
  destruct (needsBucketResource _), (needsObjectResource _); reflexivity.
Qed.

(** *** Sid *)

Lemma digits_of_uint (d : Decimal.uint) :
  forallb digit (lit (NilEmpty.string_of_uint d)) = true.
Proof. induction d; simpl; auto. Qed.

Lemma ofNat_digits (n : N) : forallb digit (JS.ofNat n) = true.
Proof.
  unfold JS.ofNat, NilZero.string_of_uint.
  destruct (N.to_uint n); try apply digits_of_uint. reflexivity.
Qed.

Lemma digit_alnum (c : char) : digit c = true -> alnum c = true.
Proof. unfold alnum, orC, digit. intros ->. rewrite !orb_true_r. reflexivity. Qed.

Lemma sid_accepted (now : N) : test re_sid (sidAt now) = true.
Proof.
  apply test_anchored, Matches_plus_Class. split; [discriminate|].
  unfold sidAt. rewrite forallb_app. apply andb_true_iff. split; [reflexivity|].
  apply forallb_weaken with (P := digit); [apply digit_alnum | apply ofNat_digits].
Qed.

(** *** Condition *)

Lemma Clean_validateCondition (condition : json) (prefix : jsstring) :
  conditionAccepted condition = true -> Clean (validateCondition condition prefix).
Proof.
  unfold conditionAccepted, validateCondition. intros H.
  apply andb_true_iff in H as [Hobj Hkeys]. apply negb_true_iff in Hobj.
  rewrite Hobj. apply Clean_forEach. intros operator i Hin.
  rewrite forallb_forall in Hkeys. specialize (Hkeys operator Hin).
  apply andb_true_iff in Hkeys as [Hop Hblock]. apply negb_true_iff in Hblock.
  unfold validateOperator. rewrite Hop, Hblock. cbn [negb when].
  apply Clean_seq; apply Clean_done.
Qed.

(** The converse: a condition [validateCondition] reports nothing for is
    accepted. *)
Lemma forEachFrom_error_free {A} (body : A -> nat -> Check) (items : list A) :
  (forall x i, Appends (body x i)) ->
  forall i l l',
    forEachFrom i body items l = Some l' -> log_errors l' = log_errors l ->
    forall x, In x items -> exists j l0 l1, body x j l0 = Some l1
                                            /\ log_errors l1 = log_errors l0.
Proof.
  intros Happ. induction items as [|y items IH]; intros i l l' E Herr x Hin.
  - destruct Hin.
  - simpl in E. unfold seqCheck in E.
    destruct (body y i l) as [l1|] eqn:E1; [|discriminate].
    assert (Hmono : forall (c : Check) a b, Appends c -> c a = Some b ->
                      exists d, log_errors b = log_errors a ++ d).
    { intros c a b Hc Hab. rewrite (Appends_run c a Hc) in Hab.
      destruct (c emptyLog) as [e|]; [|discriminate].
      injection Hab as <-. exists (log_errors e). reflexivity. }
    destruct (Hmono _ _ _ (Happ y i) E1) as [d1 Hd1].
    destruct (Hmono _ _ _ (Appends_forEachFrom body items Happ (S i)) E) as [d2 Hd2].
    assert (d1 = [] /\ d2 = []) as [-> ->].
    { rewrite Hd2, Hd1, <- app_assoc in Herr.
      rewrite <- (app_nil_r (log_errors l)) in Herr at 2.
      apply app_inv_head in Herr. apply app_eq_nil in Herr. exact Herr. }
    rewrite app_nil_r in Hd1, Hd2.
    destruct Hin as [-> | Hin].
    + exists i, l, l1. auto.
    + apply (IH (S i) l1 l' E Hd2 x Hin).
Qed.

(** *** The statement and the document *)

Lemma get_base (form : Form) (now : N) (extra : list (jsstring * json)) :
  let stmt := JObject (baseStatement form now ++ extra) in
  Val.get stmt (lit "Sid") = Some (JString (sidAt now))
  /\ Val.get stmt (lit "Effect") = Some (JString (policyEffect form))
  /\ Val.get stmt (lit "Action") = Some (collapse (mergedActions form))
  /\ Val.get stmt (lit "Resource")
     = Some (collapse (buildResources (trimmedBucket form) (pathOf form)
                         (mergedActions form)))
  /\ Val.get stmt (lit "Principal") = Val.assoc (lit "Principal") extra
  /\ Val.get stmt (lit "NotPrincipal") = Val.assoc (lit "NotPrincipal") extra
  /\ Val.get stmt (lit "NotAction") = Val.assoc (lit "NotAction") extra
  /\ Val.get stmt (lit "NotResource") = Val.assoc (lit "NotResource") extra
  /\ Val.get stmt (lit "Condition") = Val.assoc (lit "Condition") extra.
Proof. repeat split; reflexivity. Qed.

Lemma validatePolicy_document (props : list (jsstring * json)) :
  validatePolicy (policyDocument props) = validateStatement (JObject props) 0 emptyLog.
Proof.
  unfold validatePolicy.
  change (Val.get (policyDocument props) (lit "Version"))
    with (Some (JString (lit "2012-10-17"))).
  change (Val.get (policyDocument props) (lit "Statement"))
    with (Some (JArray [JObject props])).
  change (Val.get (policyDocument props) (lit "Id")) with (@None json).
  change (Val.keys (policyDocument props)) with [lit "Version"; lit "Statement"].
  change (Val.typeOf (Some (policyDocument props))) with TObject.
  change (Val.isNull (Some (policyDocument props))) with false.
  cbn [Val.jstype_eqb negb orb andb when Val.truthy].
  change (truthyString (lit "2012-10-17")) with true.
  change (JS.eqb (lit "2012-10-17") (lit "2012-10-17")) with true.
  change (JS.eqb (lit "2012-10-17") (lit "2008-10-17")) with false.
  cbn [negb andb when length Nat.eqb].
  unfold forEach. cbn [forEachFrom].
  change (JS.arrayIncludes [lit "Version"; lit "Id"; lit "Statement"] (lit "Version"))
    with true.
  change (JS.arrayIncludes [lit "Version"; lit "Id"; lit "Statement"] (lit "Statement"))
    with true.
  cbn [negb when].
  unfold seqCheck, done.
  destruct (validateStatement (JObject props) 0 emptyLog); reflexivity.
Qed.

Section GeneratedStatement.

Variable form : Form.
Variable now : N.
Variable extra : list (jsstring * json).

Hypothesis Hbucket : bucketAccepted form = true.
Hypothesis Heffect : policyEffect form = lit "Allow" \/ policyEffect form = lit "Deny".
Hypothesis Hactions : mergedActions form <> [].
Hypothesis Hcolon :
  Forall (fun a => JS.includes a (lit ":") = true) (mergedActions form).
Hypothesis Hpath : JS.includes (lit "/" ++ pathOf form) (lit "//") = false.
Hypothesis Hextra :
  extra = []
  \/ exists condition,
       extra = [(lit "Condition", condition)]
       /\ (Val.truthy (Some condition) = false \/ conditionAccepted condition = true).

Let stmt := JObject (baseStatement form now ++ extra).
Let prefix := statementPrefix 0.

Lemma extra_other (name : jsstring) :
  JS.eqb (lit "Condition") name = false -> Val.assoc name extra = None.
Proof.
  intros H. destruct Hextra as [-> | [condition [-> _]]]; cbn [Val.assoc];
    [reflexivity|].
  rewrite H. reflexivity.
Qed.

Lemma actions_not_blank : Forall (fun a : jsstring => a <> []) (mergedActions form).
Proof.
  apply Forall_impl with (2 := Hcolon). intros a Ha ->. discriminate.
Qed.

Lemma Clean_checkSid : Clean (checkSid stmt prefix).
Proof.
  unfold checkSid, stmt. destruct (get_base form now extra) as [-> _].
  rewrite sid_accepted. apply Clean_done.
Qed.

Lemma Clean_checkEffect : Clean (checkEffect stmt prefix).
Proof.
  unfold checkEffect, stmt. destruct (get_base form now extra) as [_ [-> _]].
  destruct Heffect as [-> | ->]; apply Clean_done.
Qed.

Lemma Clean_checkPrincipal : Clean (checkPrincipal stmt prefix).
Proof.
  unfold checkPrincipal, stmt.
  destruct (get_base form now extra) as (_ & _ & _ & _ & -> & _).
  rewrite extra_other by reflexivity. apply Clean_done.
Qed.

Lemma Clean_checkNotPrincipal : Clean (checkNotPrincipal stmt prefix).
Proof.
  unfold checkNotPrincipal, stmt.
  destruct (get_base form now extra) as (_ & _ & _ & _ & _ & -> & _).
  rewrite extra_other by reflexivity. apply Clean_done.
Qed.

Lemma Clean_checkActions : Clean (checkActions stmt prefix).
Proof.
  unfold checkActions, stmt.
  destruct (get_base form now extra) as (_ & _ & -> & _ & _ & _ & -> & _).
  rewrite extra_other by reflexivity.
  change (Val.truthy None) with false. cbn [whenPresent].
  rewrite !(truthy_collapse _ actions_not_blank Hactions).
  cbn [negb andb when].
  apply Clean_seq; [apply Clean_done|].
  apply Clean_seq; [apply Clean_done|].
  apply Clean_seq; [|apply Clean_done].
  apply Clean_validateActions; assumption.
Qed.

Lemma Clean_checkResources : Clean (checkResources stmt prefix).
Proof.
  unfold checkResources, stmt.
  destruct (get_base form now extra) as (_ & _ & _ & -> & _ & _ & _ & -> & _).
  rewrite extra_other by reflexivity.
  change (Val.truthy None) with false. cbn [whenPresent].
  rewrite !resources_truthy.
  cbn [negb andb when].
  apply Clean_seq; [apply Clean_done|].
  apply Clean_seq; [apply Clean_done|].
  apply Clean_seq; [|apply Clean_done].
  apply Clean_validateResources; assumption.
Qed.

Lemma Clean_checkCondition : Clean (checkCondition stmt prefix).
Proof.
  unfold checkCondition, stmt.
  destruct (get_base form now extra) as (_ & _ & _ & _ & _ & _ & _ & _ & ->).
  destruct Hextra as [-> | [condition [-> Hc]]]; simpl Val.assoc.
  - apply Clean_done.
  - cbn [whenPresent]. apply Clean_when. intros Ht.
    destruct Hc as [Hc | Hc]; [congruence|].
    apply Clean_validateCondition. assumption.
Qed.

Lemma Clean_generated_statement : Clean (validateStatement stmt 0).
Proof.
  unfold stmt. rewrite validateStatement_object.
  apply Clean_seq; [apply Clean_checkSid|].
  apply Clean_seq; [apply Clean_checkEffect|].
  apply Clean_seq; [apply Clean_checkPrincipal|].
  apply Clean_seq; [apply Clean_checkNotPrincipal|].
  apply Clean_seq; [apply Clean_checkActions|].
  apply Clean_seq; [apply Clean_checkResources|].
  apply Clean_seq; [apply Clean_checkCondition|].
  apply Clean_checkUnknownFields.
Qed.

End GeneratedStatement.

(** C1, as the code has it.  A document [generatePolicy] produced passes
    [validatePolicy] without error (and without a TypeError) whenever the
    effect is Allow or Deny, every action contains a colon, the resource
    path neither starts with [/] nor contains [//], and the condition text
    is blank or parses to a value that is falsy or that
    [validateCondition] accepts: an object whose keys are recognised
    operators with an object as value.  The assembler itself checks none of
    this. *)
Theorem generated_policy_validates (form : Form) (now : N) (policy : json) :
  generatePolicy form now = Generated policy ->
  (policyEffect form = lit "Allow" \/ policyEffect form = lit "Deny") ->
  Forall (fun a => JS.includes a (lit ":") = true) (mergedActions form) ->
  JS.includes (lit "/" ++ pathOf form) (lit "//") = false ->
  (forall condition,
      conditionText form <> [] ->
      JSON.parse (conditionText form) = Some condition ->
      Val.truthy (Some condition) = false \/ conditionAccepted condition = true) ->
  exists l, validatePolicy policy = Some l /\ log_errors l = [].
Proof.
  intros Hgen Heffect Hcolon Hpath Hcond.
  destruct (generated_inv form now policy Hgen) as [Hbucket [Hactions H]].
  assert (Hextra : exists extra,
             policy = policyDocument (baseStatement form now ++ extra)
             /\ (extra = []
                 \/ exists condition,
                      extra = [(lit "Condition", condition)]
                      /\ (Val.truthy (Some condition) = false
                          \/ conditionAccepted condition = true))).
  { destruct H as [[_ ->] | [condition [Hne [Hparse ->]]]].
    - exists []. rewrite app_nil_r. auto.
    - exists [(lit "Condition", condition)]. split; [reflexivity|].
      right. exists condition. auto. }
  destruct Hextra as [extra [-> Hextra]].
  rewrite validatePolicy_document.
  destruct (Clean_generated_statement form now extra
              Hbucket Heffect Hactions Hcolon Hpath Hextra emptyLog)
    as [l [E L]].
  exists l. auto.
Qed.

Lemma generated_policy_validates_witness :
  exists l,
    validatePolicy
      (policyDocument
         (baseStatement stringLikeConditionForm 42
          ++ [(lit "Condition",
               JObject [(lit "StringLike",
                         JObject [(lit "s3:prefix", JArray [JString (lit "a/*")])])])]))
    = Some l
    /\ log_errors l = [].
Proof.
  apply (generated_policy_validates stringLikeConditionForm 42).
  - vm_compute. reflexivity.
  - left. reflexivity.
  - repeat constructor.
  - reflexivity.
  - intros condition _ Hparse. vm_compute in Hparse.
    injection Hparse as <-. right. vm_compute. reflexivity.
Defined.

(** C1 as stated fails: the condition text [{"BogusOperator":{}}] parses,
    the assembler succeeds, and the validator reports one error on the
    document. *)
Lemma generated_policy_bogus_condition_counterexample :
  generatePolicy bogusConditionForm 0
  = Generated
      (policyDocument
         (baseStatement bogusConditionForm 0
          ++ [(lit "Condition", JObject [(lit "BogusOperator", JObject [])])]))
  /\ validatePolicy
       (policyDocument
          (baseStatement bogusConditionForm 0
           ++ [(lit "Condition", JObject [(lit "BogusOperator", JObject [])])]))
     = Some (mkLog
               [lit "Statement[0].Condition: Unknown condition operator "
                  ++ dq ++ lit "BogusOperator" ++ dq]
               []).
Proof. split; vm_compute; reflexivity. Qed.

(** Two more documents the validator faults: an action without a colon,
    and a path that starts with a slash. *)
Example generated_policy_action_without_colon :
  option_map (fun l => length (log_errors l))
    (match generatePolicy (sampleForm "test-bucket" ["GetObject"%string] (lit "")) 0 with
     | Generated policy => validatePolicy policy
     | Rejected _ => None
     end)
  = Some 1.
Proof. vm_compute. reflexivity. Qed.

Example generated_policy_path_with_slash :
  option_map (fun l => length (log_errors l))
    (match generatePolicy
             (mkForm (lit "test-bucket") (lit "Allow") (lit "/logs")
                [lit "s3:GetObject"] (lit "") (lit "")) 0 with
     | Generated policy => validatePolicy policy
     | Rejected _ => None
     end)
  = Some 1.
Proof. vm_compute. reflexivity. Qed.

(* ================================================================== *)
(** * Principals: the closing branch *)
(* ================================================================== *)

Lemma twelve_digits_spec (s : jsstring) :
  test re_twelve_digits s = (length s =? 12) && forallb digit s.
Proof.
  destruct (test re_twelve_digits s) eqn:E.
  - apply test_anchored, Matches_rep_Class in E as [-> ->]. reflexivity.
  - destruct ((length s =? 12) && forallb digit s) eqn:F; [|reflexivity].
    apply andb_true_iff in F as [Hl Hd]. apply Nat.eqb_eq in Hl.
    assert (H : test re_twelve_digits s = true)
      by (apply test_anchored, Matches_rep_Class; auto).
    congruence.
Qed.

(** For strings without a period the last branch does what C2 says: a
    string of twelve digits is valid with the one warning that suggests the
    ARN form, any other string is invalid with the one generic error. *)
Lemma validatePrincipalARN_undotted_fallback (principal : jsstring) :
  principal <> lit "*" ->
  JS.trim principal <> [] ->
  test re_canonical_id principal = false ->
  JS.includes principal (lit ".") = false ->
  JS.startsWith principal (lit "arn:") = false ->
  validatePrincipalARN principal
  = if (length principal =? 12) && forallb digit principal
    then mkVerdict true [] [msg_account_only]
    else mkVerdict false [msg_fallback] [].
Proof.
  intros Hwild Hblank Hcanon Hdot Harn.
  rewrite validatePrincipalARN_cases.
  rewrite (proj2 (eqb_neq principal (lit "*")) Hwild).
  assert (Hne : truthyString principal = true)
    by (destruct principal; [exfalso; apply Hblank; reflexivity | reflexivity]).
  rewrite Hne, (proj2 (eqb_neq (JS.trim principal) (lit "")) Hblank), Hcanon.
  cbn [negb orb].
  destruct (looksLikeServicePrincipal principal) eqn:Esp.
  { apply service_principal_has_dot in Esp. congruence. }
  unfold arnOrAccountBlock, accountIdBlock. rewrite Harn, Hdot. cbn [negb].
  rewrite twelve_digits_spec.
  destruct ((length principal =? 12) && forallb digit principal); reflexivity.
Qed.

(* ================================================================== *)
(** * The repository's unit tests and the examples of the specification *)
(* ================================================================== *)

Example bucket_names_accepted :
  bucketVerdicts
    ["mybucket"; "my-bucket-123"; "my.bucket.name"; "my-bucket-name"; "abc";
     "aaaaaaaaaaaaaaaaaaaaaaaaaaaaaaaaaaaaaaaaaaaaaaaaaaaaaaaaaaaaaaa"]%string
  = [true; true; true; true; true; true].
Proof. vm_compute. reflexivity. Qed.

Example bucket_names_rejected :
  bucketVerdicts
    ["ab"; "aaaaaaaaaaaaaaaaaaaaaaaaaaaaaaaaaaaaaaaaaaaaaaaaaaaaaaaaaaaaaaaa";
     "MyBucket"; "my_bucket"; "my@bucket"; "-mybucket"; "mybucket-"; ".mybucket";
     "mybucket."; "192.168.1.1"; "xn--mybucket"; "mybucket-s3alias"; "my..bucket";
     "my.-bucket"; "my-.bucket"]%string
  = [false; false; false; false; false; false; false; false; false; false;
     false; false; false; false; false].
Proof. vm_compute. reflexivity. Qed.

Example bucket_uppercase_errors :
  bucket_errors (validateBucketName (lit "MyBucket"))
  = [ lit "Bucket name can only contain lowercase letters, numbers, dots (.), and hyphens (-)";
      lit "Bucket name must begin with a lowercase letter or number";
      lit "Bucket name cannot contain uppercase letters" ].
Proof. vm_compute. reflexivity. Qed.

Example bucket_ip_address_error :
  bucket_errors (validateBucketName (lit "192.168.1.1"))
  = [ lit "Bucket name cannot be formatted as an IP address (e.g., 192.168.1.1)" ].
Proof. vm_compute. reflexivity. Qed.

Example principals_accepted :
  principalVerdicts
    ["*"; ""; "arn:aws:iam::123456789012:user/alice";
     "arn:aws:iam::123456789012:role/S3AccessRole";
     "arn:aws:iam::123456789012:root"; "s3.amazonaws.com"; "ec2.amazonaws.com";
     "aaaaaaaaaaaaaaaaaaaaaaaaaaaaaaaaaaaaaaaaaaaaaaaaaaaaaaaaaaaaaaaa";
     "arn:ipcld:iam::MyCanonicalID:user/alice";
     "arn:ipcld:iam::MyCanonicalID:policy/MyPolicy";
     "arn:ipcld:iam::abc123:user/bob"; "123456789012"]%string
  = [ (true, 0, 1); (true, 0, 0); (true, 0, 0); (true, 0, 0); (true, 0, 0);
      (true, 0, 1); (true, 0, 1); (true, 0, 1); (true, 0, 0); (true, 0, 0);
      (true, 0, 0); (true, 0, 1) ].
Proof. vm_compute. reflexivity. Qed.

Example principals_rejected :
  principalVerdicts
    ["arn:invalid"; "arn:aws:iam::123:user/alice";
     "arn:aws:iam::abcdefghijkl:user/alice"; "arn:aws:iam::123456789012:";
     "arn:aws:iam::123456789012:alice"; "arn:invalid:iam::123456789012:user/alice";
     "arn:ipcld:s3::MyCanonicalID:bucket/mybucket"; "arn:ipcld:s3::abc123:bucket/x";
     "arn:ipcld:iam:::user/alice"; "arn:ipcld:iam::MyCanonicalID:";
     "not-a-valid-principal"; "not-a-valid-arn-or-principal"]%string
  = [ (false, 1, 0); (false, 1, 0); (false, 1, 0); (false, 1, 0); (false, 1, 0);
      (false, 1, 0); (false, 1, 0); (false, 1, 0); (false, 1, 0); (false, 1, 0);
      (false, 1, 0); (false, 1, 0) ].
Proof. vm_compute. reflexivity. Qed.

Example principal_invalid_account :
  errors (validatePrincipalARN (lit "arn:aws:iam::123:user/alice")) = [msg_invalid_arn].
Proof. vm_compute. reflexivity. Qed.

Example principal_resource_without_type :
  errors (validatePrincipalARN (lit "arn:aws:iam::123456789012:alice"))
  = [ lit "IAM resource must be " ++ dq ++ lit "root" ++ dq
        ++ lit " or include type/name (e.g., user/username)" ].
Proof. vm_compute. reflexivity. Qed.

Example principal_s3_with_region_and_account :
  warnings (validatePrincipalARN (lit "arn:aws:s3:us-east-1:123456789012:bucket"))
  = [ lit "S3 ARNs typically do not include account ID";
      lit "S3 ARNs typically do not specify a region" ].
Proof. vm_compute. reflexivity. Qed.

Example policy_empty_statement_array :
  validatePolicy
    (JObject [ (lit "Version", JString (lit "2012-10-17"));
               (lit "Statement", JArray []) ])
  = Some (mkLog [lit "Statement array cannot be empty"] []).
Proof. vm_compute. reflexivity. Qed.

Example policy_null_throws : validatePolicy JNull = None.
Proof. vm_compute. reflexivity. Qed.

Example statement_action_and_notaction :
  option_map log_errors
    (validateStatement
       (JObject (sampleStatement [(lit "NotAction", JString (lit "s3:PutObject"))]))
       0 emptyLog)
  = Some [ lit "Statement[0]: Cannot have both " ++ dq ++ lit "Action" ++ dq
             ++ lit " and " ++ dq ++ lit "NotAction" ++ dq ].
Proof. vm_compute. reflexivity. Qed.

Example statement_principal_wildcard :
  validateStatement
    (JObject (sampleStatement [(lit "Principal", JString (lit "*"))])) 0 emptyLog
  = Some (mkLog [] [msg_principal_ignored (lit "Statement[0]")]).
Proof. vm_compute. reflexivity. Qed.

Example statement_effect_echo :
  option_map log_errors
    (validateStatement
       (JObject [ (lit "Effect", JArray [JNumber (lit "1"); JNull; JBool true]);
                  (lit "Action", JString (lit "s3:GetObject"));
                  (lit "Resource", JString (lit "*")) ])
       3 emptyLog)
  = Some [ lit "Statement[3]: Effect must be " ++ dq ++ lit "Allow" ++ dq
             ++ lit " or " ++ dq ++ lit "Deny" ++ dq ++ lit ", got "
             ++ dq ++ lit "1,,true" ++ dq ].
Proof. vm_compute. reflexivity. Qed.

Example generate_two_actions :
  generatePolicy
    (sampleForm "test-bucket" ["s3:GetObject"; "s3:PutObject"]%string (lit "")) 5
  = Generated
      (policyDocument
         [ (lit "Sid", JString (lit "GeneratedPolicy5"));
           (lit "Effect", JString (lit "Allow"));
           (lit "Action", JArray [JString (lit "s3:GetObject"); JString (lit "s3:PutObject")]);
           (lit "Resource", JString (lit "arn:aws:s3:::test-bucket/*")) ]).
Proof. vm_compute. reflexivity. Qed.

Example generate_custom_actions_and_path :
  generatePolicy
    (mkForm (lit "  test-bucket ") (lit "Deny") (lit " logs/* ")
       [lit "s3:ListBucket"]
       (lit "s3:GetObject" ++ [10%N; 32%N; 10%N] ++ lit "  s3:PutObject ")
       (lit "")) 5
  = Generated
      (policyDocument
         [ (lit "Sid", JString (lit "GeneratedPolicy5"));
           (lit "Effect", JString (lit "Deny"));
           (lit "Action",
            JArray [ JString (lit "s3:ListBucket"); JString (lit "s3:GetObject");
                     JString (lit "s3:PutObject") ]);
           (lit "Resource",
            JArray [ JString (lit "arn:aws:s3:::test-bucket");
                     JString (lit "arn:aws:s3:::test-bucket/logs/*") ]) ]).
Proof. vm_compute. reflexivity. Qed.

(** [JSON.parse] on the two condition texts, and the order of keys. *)
Example parse_string_like :
  JSON.parse stringLikeConditionText
  = Some (JObject [(lit "StringLike",
                    JObject [(lit "s3:prefix", JArray [JString (lit "a/*")])])]).
Proof. vm_compute. reflexivity. Qed.

Example parse_rejects :
  List.map (fun text => JSON.parse (lit text))
    ["{bad json"; ""; "01"; "1."; "[1,]"; "{'a':1}"; "[] x"; "nul"]%string
  = [None; None; None; None; None; None; None; None].
Proof. vm_compute. reflexivity. Qed.

Example parse_key_order :
  option_map Val.keys
    (JSON.parse (lit "{" ++ dq ++ lit "b" ++ dq ++ lit ":1," ++ dq ++ lit "10" ++ dq
                   ++ lit ":2," ++ dq ++ lit "2" ++ dq ++ lit ":3," ++ dq ++ lit "b"
                   ++ dq ++ lit ":4}"))
  = Some [lit "2"; lit "10"; lit "b"].
Proof. vm_compute. reflexivity. Qed.

Example parse_numbers :
  List.map (fun text => JSON.parse (lit text))
    ["0"; "-0"; "100"; "1.50"; "0.1"; "1e21"; "1e-7"; "0.000001"; "1E+2";
     "9007199254740993"; "5e-324"; "2e-324"; "1e400"]%string
  = List.map (fun shown => Some (JNumber (lit shown)))
      ["0"; "0"; "100"; "1.5"; "0.1"; "1e+21"; "1e-7"; "0.000001"; "100";
       "9007199254740992"; "5e-324"; "0"; "Infinity"]%string.
Proof. vm_compute. reflexivity. Qed.
(* ================================================================== *)
(** * Strings: trimming, splitting and joining *)
(* ================================================================== *)

Lemma trimStart_app_ws (w s : jsstring) :
  forallb JS.isWhiteSpace w = true -> JS.trimStart (w ++ s) = JS.trimStart s.
Proof.
  induction w as [|c w IH]; simpl; [reflexivity|].
  intros H. apply andb_true_iff in H as [Hc Hw]. rewrite Hc. auto.
Qed.

Lemma trimStart_keeps (c : char) (s : jsstring) :
  JS.isWhiteSpace c = false -> JS.trimStart (c :: s) = c :: s.
Proof. intros H. simpl. rewrite H. reflexivity. Qed.

Lemma trimStart_split (s : jsstring) :
  exists w, s = w ++ JS.trimStart s /\ forallb JS.isWhiteSpace w = true.
Proof.
  induction s as [|c s [w [E Hw]]]; simpl.
  - exists []. auto.
  - destruct (JS.isWhiteSpace c) eqn:Hc.
    + exists (c :: w). simpl. rewrite Hc, Hw.
      split; [f_equal; exact E | reflexivity].
    + exists []. auto.
Qed.

Lemma trimStart_head (s : jsstring) (c : char) (t : jsstring) :
  JS.trimStart s = c :: t -> JS.isWhiteSpace c = false.
Proof.
  induction s as [|d s IH]; simpl; [discriminate|].
  destruct (JS.isWhiteSpace d) eqn:Hd; [assumption|].
  intros H. injection H as -> _. assumption.
Qed.

Lemma trimStart_idem (s : jsstring) : JS.trimStart (JS.trimStart s) = JS.trimStart s.
Proof.
  destruct (JS.trimStart s) as [|c t] eqn:E; [reflexivity|].
  apply trimStart_keeps. eapply trimStart_head; eassumption.
Qed.

Lemma trimStart_all_ws (s : jsstring) :
  JS.trimStart s = [] <-> forallb JS.isWhiteSpace s = true.
Proof.
  induction s as [|c s IH]; simpl; [tauto|].
  destruct (JS.isWhiteSpace c); simpl; [assumption|].
  split; discriminate.
Qed.

(** [trimStart] leaves the end of the string alone. *)
Lemma trimStart_app_keeps (s t : jsstring) (c : char) :
  JS.isWhiteSpace c = false ->
  JS.trimStart (s ++ c :: t) = JS.trimStart (s ++ [c]) ++ t.
Proof.
  intros Hc. induction s as [|d s IH]; simpl.
  - rewrite Hc. reflexivity.
  - destruct (JS.isWhiteSpace d); [assumption|].
    simpl. rewrite <- app_assoc. reflexivity.
Qed.

Lemma trimEnd_app_ws (s w : jsstring) :
  forallb JS.isWhiteSpace w = true -> JS.trimEnd (s ++ w) = JS.trimEnd s.
Proof.
  intros H. unfold JS.trimEnd. rewrite rev_app_distr, trimStart_app_ws; [reflexivity|].
  rewrite forallb_forall in *. intros x Hx. apply H, in_rev. assumption.
Qed.

Lemma trimEnd_keeps (s : jsstring) (c : char) :
  JS.isWhiteSpace c = false -> JS.trimEnd (s ++ [c]) = s ++ [c].
Proof.
  intros H. unfold JS.trimEnd. rewrite rev_app_distr. simpl.
  rewrite H. simpl. rewrite rev_involutive. reflexivity.
Qed.

Lemma trimEnd_split (s : jsstring) :
  exists w, s = JS.trimEnd s ++ w /\ forallb JS.isWhiteSpace w = true.
Proof.
  destruct (trimStart_split (rev s)) as [w [E Hw]].
  exists (rev w). split.
  - unfold JS.trimEnd. rewrite <- rev_app_distr, <- E, rev_involutive. reflexivity.
  - rewrite forallb_forall in *. intros x Hx. apply Hw, in_rev. assumption.
Qed.

Lemma trimEnd_last (s t : jsstring) (c : char) :
  JS.trimEnd s = t ++ [c] -> JS.isWhiteSpace c = false.
Proof.
  unfold JS.trimEnd. intros H.
  apply (f_equal (@rev char)) in H. rewrite rev_involutive, rev_app_distr in H.
  simpl in H. eapply trimStart_head; eassumption.
Qed.

Lemma trimEnd_nil (s : jsstring) :
  JS.trimEnd s = [] <-> forallb JS.isWhiteSpace s = true.
Proof.
  unfold JS.trimEnd. split.
  - intros H. apply (f_equal (@rev char)) in H. rewrite rev_involutive in H.
    simpl in H. apply trimStart_all_ws in H.
    rewrite forallb_forall in *. intros x Hx. apply H, in_rev.
    rewrite rev_involutive. assumption.
  - intros H. replace (JS.trimStart (rev s)) with (@nil char); [reflexivity|].
    symmetry. apply trimStart_all_ws.
    rewrite forallb_forall in *. intros x Hx. apply H, in_rev. assumption.
Qed.

(** [trimEnd] leaves the start of the string alone. *)
Lemma trimEnd_cons_keeps (c : char) (s : jsstring) :
  JS.isWhiteSpace c = false -> JS.trimEnd (c :: s) = c :: JS.trimEnd s.
Proof.
  intros Hc. unfold JS.trimEnd. simpl. generalize (rev s) as r. intros r.
  destruct (trimStart_split r) as [w [Ew Hw]].
  rewrite Ew at 1. rewrite <- app_assoc, trimStart_app_ws by assumption.
  destruct (JS.trimStart r) as [|e u] eqn:Eu.
  - simpl. rewrite Hc. reflexivity.
  - assert (He : JS.isWhiteSpace e = false) by (eapply trimStart_head; eassumption).
    simpl. rewrite He. simpl. rewrite rev_app_distr. reflexivity.
Qed.

Lemma trimEnd_head (s : jsstring) (c : char) (t : jsstring) :
  JS.isWhiteSpace c = false -> s = c :: t -> exists u, JS.trimEnd s = c :: u.
Proof. intros Hc ->. rewrite trimEnd_cons_keeps by assumption. eauto. Qed.

Lemma trim_Trimmed (s : jsstring) : Trimmed (JS.trim s).
Proof.
  unfold JS.trim. split.
  - intros c t E.
    destruct (JS.trimStart s) as [|d u] eqn:Es.
    + discriminate.
    + assert (Hd : JS.isWhiteSpace d = false) by (eapply trimStart_head; eassumption).
      rewrite trimEnd_cons_keeps in E by assumption. injection E as -> _. assumption.
  - intros t c E. eapply trimEnd_last; eassumption.
Qed.

Lemma Trimmed_trim (s : jsstring) : Trimmed s -> JS.trim s = s.
Proof.
  intros [Hhead Hlast]. unfold JS.trim.
  destruct s as [|c t]; [reflexivity|].
  rewrite trimStart_keeps by (eapply Hhead; reflexivity).
  destruct (@exists_last _ (c :: t)) as [u [d E]]; [discriminate|].
  rewrite E. apply trimEnd_keeps. eapply Hlast; eassumption.
Qed.

Lemma trim_idem (s : jsstring) : JS.trim (JS.trim s) = JS.trim s.
Proof. apply Trimmed_trim, trim_Trimmed. Qed.

Lemma trim_blank (s : jsstring) :
  JS.trim s = [] <-> forallb JS.isWhiteSpace s = true.
Proof.
  unfold JS.trim. rewrite trimEnd_nil. split.
  - intros H. destruct (trimStart_split s) as [w [E Hw]].
    rewrite E, forallb_app, Hw, H. reflexivity.
  - intros H. apply trimStart_all_ws in H. rewrite H. reflexivity.
Qed.

(** White space around a string does not change its [trim]. *)
Lemma trim_padding (w1 s w2 : jsstring) :
  forallb JS.isWhiteSpace w1 = true -> forallb JS.isWhiteSpace w2 = true ->
  JS.trim (w1 ++ s ++ w2) = JS.trim s.
Proof.
  intros H1 H2. unfold JS.trim. rewrite trimStart_app_ws by assumption.
  destruct (JS.trimStart s) as [|c t] eqn:E.
  - apply trimStart_all_ws in E.
    assert (Hall : forallb JS.isWhiteSpace (s ++ w2) = true)
      by (rewrite forallb_app, E, H2; reflexivity).
    apply trimStart_all_ws in Hall. rewrite Hall. reflexivity.
  - destruct (trimStart_split s) as [w [Es Hw]]. rewrite E in Es.
    assert (Hc : JS.isWhiteSpace c = false) by (eapply trimStart_head; eassumption).
    rewrite Es at 1. rewrite <- app_assoc, trimStart_app_ws by assumption.
    simpl. rewrite Hc. change (c :: t ++ w2) with ((c :: t) ++ w2).
    apply trimEnd_app_ws. assumption.
Qed.

(** ** [split] and [join] *)

Lemma split_not_nil (sep : char) (s : jsstring) : JS.split sep s <> [].
Proof.
  induction s as [|c s IH]; simpl; [discriminate|].
  destruct (N.eqb c sep); [discriminate|].
  destruct (JS.split sep s); [congruence | discriminate].
Qed.

Lemma split_cons_other (sep c : char) (s : jsstring) :
  N.eqb c sep = false ->
  exists p ps, JS.split sep s = p :: ps /\ JS.split sep (c :: s) = (c :: p) :: ps.
Proof.
  intros H. simpl. rewrite H.
  destruct (JS.split sep s) as [|p ps] eqn:E.
  - exfalso. eapply split_not_nil; eassumption.
  - eauto.
Qed.

(** A piece without the separator, then the separator. *)
Lemma split_app (sep : char) (a b : jsstring) :
  forallb (fun c => negb (N.eqb c sep)) a = true ->
  JS.split sep (a ++ sep :: b) = a :: JS.split sep b.
Proof.
  induction a as [|c a IH]; simpl.
  - rewrite N.eqb_refl. reflexivity.
  - intros H. apply andb_true_iff in H as [Hc Ha].
    apply negb_true_iff in Hc. rewrite Hc, IH by assumption. reflexivity.
Qed.

Lemma split_no_sep (sep : char) (a : jsstring) :
  forallb (fun c => negb (N.eqb c sep)) a = true -> JS.split sep a = [a].
Proof.
  induction a as [|c a IH]; simpl; [reflexivity|].
  intros H. apply andb_true_iff in H as [Hc Ha].
  apply negb_true_iff in Hc. rewrite Hc, IH by assumption. reflexivity.
Qed.

Lemma join_cons (sep p : jsstring) (ps : list jsstring) :
  ps <> [] -> JS.join sep (p :: ps) = p ++ sep ++ JS.join sep ps.
Proof. destruct ps; [congruence | reflexivity]. Qed.

(** [s.split(c).join(c)] is [s]. *)
Lemma join_split (sep : char) (s : jsstring) :
  JS.join [sep] (JS.split sep s) = s.
Proof.
  induction s as [|c s IH]; [reflexivity|].
  destruct (N.eqb c sep) eqn:E.
  - simpl JS.split. rewrite E. rewrite join_cons by apply split_not_nil.
    rewrite IH. apply N.eqb_eq in E. subst. reflexivity.
  - destruct (split_cons_other sep c s E) as [p [ps [E1 E2]]].
    rewrite E2. rewrite E1 in IH.
    destruct ps as [|q ps].
    + cbn [JS.join] in *. rewrite IH. reflexivity.
    + rewrite join_cons by discriminate. rewrite join_cons in IH by discriminate.
      rewrite <- IH. reflexivity.
Qed.

(** The pieces of a split hold no separator. *)
Lemma split_pieces (sep : char) (s : jsstring) :
  Forall (fun p => forallb (fun c => negb (N.eqb c sep)) p = true) (JS.split sep s).
Proof.
  induction s as [|c s IH]; simpl.
  - repeat constructor.
  - destruct (N.eqb c sep) eqn:E.
    + constructor; [reflexivity | assumption].
    + destruct (JS.split sep s) as [|p ps].
      * repeat constructor. simpl. rewrite E. reflexivity.
      * inversion IH; subst. constructor; [|assumption].
        simpl. rewrite E. assumption.
Qed.

(* ================================================================== *)
(** * Bucket names: the rules in elementary terms *)
(* ================================================================== *)

Lemma In_stage (m m' : jsstring) (c : bool) (errors : list jsstring) :
  In m (stage c m' errors) <-> (c = true /\ m = m') \/ In m errors.
Proof.
  unfold stage, push. destruct c.
  - rewrite in_app_iff. simpl. split.
    + intros [H | [H | []]]; auto.
    + intros [[_ ->] | H]; auto.
  - split; [auto | intros [[H _] | H]; [discriminate | assumption]].
Qed.

Lemma stage_eq_nil (c : bool) (m : jsstring) (errors : list jsstring) :
  stage c m errors = [] <-> c = false /\ errors = [].
Proof.
  split; [apply stage_nil | intros [-> ->]; reflexivity].
Qed.

Lemma Matches_repUpTo_Class (n : nat) (p : char -> bool) (s : jsstring) :
  Matches (repUpTo n (Class p)) s <-> length s <= n /\ forallb p s = true.
Proof.
  revert s; induction n as [|n IH]; intros s; simpl.
  - rewrite Matches_Eps. split.
    + intros ->; auto.
    + intros [H _]. destruct s; [reflexivity | simpl in H; lia].
  - unfold opt. rewrite Matches_Alt, Matches_Cat, Matches_Eps. split.
    + intros [[s1 [s2 [-> [H1 H2]]]] | ->].
      * apply Matches_Class in H1 as [c [-> Hc]]. apply IH in H2 as [Hl Hs].
        simpl. rewrite Hc, Hs. split; [lia | reflexivity].
      * simpl. split; [lia | reflexivity].
    + intros [Hl H]. destruct s as [|c s]; [right; reflexivity|].
      simpl in H, Hl. apply andb_true_iff in H as [Hc Hs].
      left. exists [c], s. repeat split.
      * constructor; assumption.
      * apply IH. split; [lia | assumption].
Qed.

Lemma Matches_repRange_Class (lo extra : nat) (p : char -> bool) (s : jsstring) :
  Matches (repRange lo extra (Class p)) s
  <-> lo <= length s <= lo + extra /\ forallb p s = true.
Proof.
  unfold repRange. rewrite Matches_Cat. split.
  - intros [s1 [s2 [-> [H1 H2]]]].
    apply Matches_rep_Class in H1 as [L1 P1].
    apply Matches_repUpTo_Class in H2 as [L2 P2].
    rewrite length_app, forallb_app, P1, P2. split; [lia | reflexivity].
  - intros [Hl H]. exists (firstn lo s), (skipn lo s).
    rewrite <- (firstn_skipn lo s) in H. rewrite forallb_app in H.
    apply andb_true_iff in H as [P1 P2].
    split; [symmetry; apply firstn_skipn|]. split.
    + apply Matches_rep_Class. split; [|assumption].
      rewrite length_firstn. lia.
    + apply Matches_repUpTo_Class. split; [|assumption].
      rewrite length_skipn. lia.
Qed.

Lemma Matches_digitGroup (g : jsstring) :
  Matches (repRange 1 2 (Class digit)) g <-> digitGroup g = true.
Proof.
  rewrite Matches_repRange_Class. unfold digitGroup.
  rewrite !andb_true_iff, !Nat.leb_le. simpl. tauto.
Qed.

(** Rule 4 fires exactly on four digit groups joined by periods. *)
Lemma ip_address_spec (s : jsstring) :
  test re_ip_address s = true <-> IsDottedQuad s.
Proof.
  unfold re_ip_address. rewrite test_anchored. cbn [rep].
  rewrite Matches_Cat. split.
  - intros [s1 [d [-> [H Hd]]]].
    apply Matches_Cat in H as [s2 [s3 [-> [Ha H]]]].
    apply Matches_Cat in H as [s4 [s5 [-> [Hb H]]]].
    apply Matches_Cat in H as [s6 [s7 [-> [Hc H]]]].
    apply Matches_Eps in H as ->.
    apply Matches_Cat in Ha as [a [x [-> [Ha Hx]]]].
    apply Matches_Cat in Hb as [b [y [-> [Hb Hy]]]].
    apply Matches_Cat in Hc as [c [z [-> [Hc Hz]]]].
    apply Matches_Class in Hx as [x' [-> Hx]].
    apply Matches_Class in Hy as [y' [-> Hy]].
    apply Matches_Class in Hz as [z' [-> Hz]].
    apply N.eqb_eq in Hx, Hy, Hz. subst.
    exists a, b, c, d. rewrite <- !Matches_digitGroup.
    repeat split; try assumption.
    unfold dottedQuad. rewrite app_nil_r, <- !app_assoc. reflexivity.
  - intros [a [b [c [d [Ha [Hb [Hc [Hd ->]]]]]]]].
    rewrite <- Matches_digitGroup in Ha, Hb, Hc, Hd.
    exists ((a ++ lit ".") ++ (b ++ lit ".") ++ (c ++ lit ".") ++ []), d.
    split; [unfold dottedQuad; rewrite app_nil_r, <- !app_assoc; reflexivity|].
    split; [|assumption].
    repeat (constructor; [constructor; [assumption | constructor; reflexivity]|]).
    constructor.
Qed.

Lemma charset_spec (s : jsstring) :
  test re_bucket_charset s = true <-> s <> [] /\ forallb bucketChar s = true.
Proof. unfold re_bucket_charset. rewrite test_anchored. apply Matches_plus_Class. Qed.

Lemma first_spec (s : jsstring) :
  test re_bucket_first s = true
  <-> exists c, hd_error s = Some c /\ lowerAlnum c = true.
Proof.
  unfold re_bucket_first. rewrite test_prefix. split.
  - intros [s1 [s2 [-> H]]]. apply Matches_Class in H as [c [-> Hc]].
    exists c. auto.
  - intros [c [E Hc]]. destruct s as [|c' t]; [discriminate|].
    injection E as ->. exists [c], t. split; [reflexivity | constructor; assumption].
Qed.

Lemma last_spec (s : jsstring) :
  test re_bucket_last s = true
  <-> exists c, hd_error (rev s) = Some c /\ lowerAlnum c = true.
Proof.
  unfold re_bucket_last. rewrite test_suffix. split.
  - intros [s1 [s2 [-> H]]]. apply Matches_Class in H as [c [-> Hc]].
    exists c. rewrite rev_app_distr. auto.
  - intros [c [E Hc]]. destruct (rev s) as [|c' t] eqn:Er; [discriminate|].
    injection E as ->. exists (rev t), [c]. split; [|constructor; assumption].
    rewrite <- (rev_involutive s), Er. reflexivity.
Qed.

Lemma uppercase_spec (s : jsstring) :
  test re_uppercase s = true <-> exists c, In c s /\ range "A" "Z" c = true.
Proof.
  unfold re_uppercase. rewrite test_search. split.
  - intros [s1 [s2 [s3 [-> H]]]]. apply Matches_Class in H as [c [-> Hc]].
    exists c. split; [|assumption]. rewrite !in_app_iff. right; left; left; reflexivity.
  - intros [c [Hin Hc]]. apply in_split in Hin as [s1 [s3 ->]].
    exists s1, [c], s3. split; [reflexivity | constructor; assumption].
Qed.

Lemma includes_char (s : jsstring) (c : char) :
  JS.includes s [c] = true <-> In c s.
Proof.
  rewrite includes_spec. split.
  - intros [a [b ->]]. rewrite !in_app_iff. right; left; left; reflexivity.
  - intros H. apply in_split in H as [a [b ->]]. exists a, b. reflexivity.
Qed.

Lemma bucketChar_not_upper (c : char) :
  bucketChar c = true -> range "A" "Z" c = false.
Proof.
  unfold bucketChar, orC, lowerAlnum, orC, range, one, ch. simpl N_of_ascii.
  rewrite !orb_true_iff, !andb_true_iff, !N.leb_le, !N.eqb_eq.
  intros H. apply andb_false_iff. rewrite !N.leb_gt. lia.
Qed.

Lemma bucketChar_not_underscore : bucketChar (ch "_") = false.
Proof. reflexivity. Qed.

(** An uppercase letter or an underscore is outside the character set of
    rule 2. *)
Lemma charset_covers_uppercase (s : jsstring) :
  test re_uppercase s = true -> test re_bucket_charset s = false.
Proof.
  intros H. apply uppercase_spec in H as [c [Hin Hc]].
  destruct (test re_bucket_charset s) eqn:E; [|reflexivity].
  apply charset_spec in E as [_ E].
  apply forallb_In with (c := c) in E; [|assumption].
  apply bucketChar_not_upper in E. congruence.
Qed.

Lemma charset_covers_underscore (s : jsstring) :
  JS.includes s (lit "_") = true -> test re_bucket_charset s = false.
Proof.
  intros H. apply (includes_char s (ch "_")) in H.
  destruct (test re_bucket_charset s) eqn:E; [|reflexivity].
  apply charset_spec in E as [_ E].
  apply forallb_In with (c := ch "_") in E; [|assumption].
  discriminate.
Qed.

(** Two adjacent separators leave an empty piece after the first one. *)
Lemma includes_double_sep (sep : char) (s : jsstring) :
  JS.includes s [sep; sep] = true -> In [] (tl (JS.split sep s)).
Proof.
  induction s as [|c s IH]; [discriminate|].
  cbn [JS.includes JS.split]. destruct (N.eqb c sep) eqn:E.
  - intros H. apply orb_true_iff in H as [H | H].
    + cbn [JS.startsWith] in H. destruct s as [|d s]; [rewrite andb_false_r in H; discriminate|].
      rewrite E in H. cbn [andb] in H.
      apply andb_true_iff in H as [H _]. simpl. rewrite H. left; reflexivity.
    + specialize (IH H). simpl.
      destruct (JS.split sep s); [destruct IH | right; exact IH].
  - cbn [JS.startsWith]. rewrite E. cbn [andb orb]. intros H. specialize (IH H).
    destruct (JS.split sep s) as [|p ps]; [destruct IH | exact IH].
Qed.

Lemma digit_not_dot (c : char) : digit c = true -> N.eqb c (ch ".") = false.
Proof.
  unfold digit, range, ch. simpl N_of_ascii.
  rewrite andb_true_iff, !N.leb_le, N.eqb_neq. lia.
Qed.

Lemma digits_no_dot (g : jsstring) :
  forallb digit g = true ->
  forallb (fun c => negb (N.eqb c (ch "."))) g = true.
Proof.
  apply forallb_weaken. intros c H. rewrite digit_not_dot by assumption. reflexivity.
Qed.

Lemma digitGroup_inv (g : jsstring) :
  digitGroup g = true -> 1 <= length g <= 3 /\ forallb digit g = true.
Proof.
  unfold digitGroup. rewrite !andb_true_iff, !Nat.leb_le. tauto.
Qed.

Lemma split_dottedQuad (a b c d : jsstring) :
  forallb digit a = true -> forallb digit b = true ->
  forallb digit c = true -> forallb digit d = true ->
  JS.split (ch ".") (dottedQuad a b c d) = [a; b; c; d].
Proof.
  intros Ha Hb Hc Hd. unfold dottedQuad.
  change (lit ".") with [ch "."]. cbn [app].
  rewrite !split_app by (apply digits_no_dot; assumption).
  rewrite split_no_sep by (apply digits_no_dot; assumption).
  reflexivity.
Qed.

Lemma digit_quadChar (c : char) : digit c = true -> quadChar c = true.
Proof. unfold quadChar, orC. intros ->. reflexivity. Qed.

Lemma quadChar_bucketChar (c : char) : quadChar c = true -> bucketChar c = true.
Proof.
  unfold quadChar, bucketChar, lowerAlnum, orC, digit.
  destruct (range "0" "9" c), (one "." c), (range "a" "z" c); simpl; congruence.
Qed.

Lemma dottedQuad_chars (a b c d : jsstring) :
  forallb digit a = true -> forallb digit b = true ->
  forallb digit c = true -> forallb digit d = true ->
  forallb quadChar (dottedQuad a b c d) = true.
Proof.
  intros Ha Hb Hc Hd. unfold dottedQuad. rewrite !forallb_app.
  rewrite (forallb_weaken digit quadChar a digit_quadChar Ha).
  rewrite (forallb_weaken digit quadChar b digit_quadChar Hb).
  rewrite (forallb_weaken digit quadChar c digit_quadChar Hc).
  rewrite (forallb_weaken digit quadChar d digit_quadChar Hd).
  reflexivity.
Qed.

Lemma isValid_errors (s : jsstring) :
  bucket_isValid (validateBucketName s) = true
  <-> bucket_errors (validateBucketName s) = [].
Proof.
  change (bucket_isValid (validateBucketName s))
    with (length (bucket_errors (validateBucketName s)) =? 0).
  apply length_zero.
Qed.

(** X1.  [validateBucketName] accepts exactly the names of 3 to 63
    characters from [a-z0-9.-] that start and end with a letter or digit,
    are not four groups of one to three digits joined by periods, do not
    start with xn--, do not end with -s3alias and contain none of "..",
    ".-" and "-.": rules 9 and 10 (uppercase, underscore) reject nothing
    that rule 2 lets through. *)
Theorem validateBucketName_rules (bucketName : jsstring) :
  bucket_isValid (validateBucketName bucketName) = true
  <-> BucketNameRules bucketName.
Proof.
  rewrite isValid_errors, validateBucketName_stages.
  rewrite !stage_eq_nil. unfold BucketNameRules.
  rewrite !negb_false_iff, orb_false_iff, !Nat.ltb_ge.
  rewrite <- ip_address_spec, <- first_spec, <- last_spec.
  split.
  - intros [Hu [Hup [[Hdh Hhd] [Hdd [Hend [Hstart [Hip [Hlast [Hfirst
             [Hcs [Hmax [Hmin _]]]]]]]]]]]].
    apply charset_spec in Hcs as Hcs'. destruct Hcs' as [_ Hchars].
    repeat split; try assumption. congruence.
  - intros [[Hmin Hmax] [Hchars [Hfirst [Hlast [Hip [Hstart [Hend [Hdd [Hdh Hhd]]]]]]]]].
    assert (Hcs : test re_bucket_charset bucketName = true).
    { apply charset_spec. split; [|assumption].
      destruct bucketName; [simpl in Hmin; lia | discriminate]. }
    repeat split; try assumption.
    + destruct (JS.includes bucketName (lit "_")) eqn:E; [|reflexivity].
      apply charset_covers_underscore in E. congruence.
    + destruct (test re_uppercase bucketName) eqn:E; [|reflexivity].
      apply charset_covers_uppercase in E. congruence.
    + destruct (test re_ip_address bucketName); [exfalso; auto | reflexivity].
Qed.

(** Which rule pushed a message. *)
Lemma In_bucket_errors (bucketName m : jsstring) :
  In m (bucket_errors (validateBucketName bucketName))
  <-> (JS.includes bucketName (lit "_") = true /\ m = msg_bucket_underscore)
      \/ (test re_uppercase bucketName = true /\ m = msg_bucket_uppercase)
      \/ ((JS.includes bucketName (lit ".-") || JS.includes bucketName (lit "-.")) = true
          /\ m = lit "Bucket name cannot have a period adjacent to a hyphen")
      \/ (JS.includes bucketName (lit "..") = true
          /\ m = lit "Bucket name cannot contain two adjacent periods (..)")
      \/ (JS.endsWith bucketName (lit "-s3alias") = true
          /\ m = lit "Bucket name cannot end with " ++ dq ++ lit "-s3alias" ++ dq)
      \/ (JS.startsWith bucketName (lit "xn--") = true
          /\ m = lit "Bucket name cannot start with " ++ dq ++ lit "xn--" ++ dq)
      \/ (test re_ip_address bucketName = true /\ m = msg_bucket_ip)
      \/ (negb (test re_bucket_last bucketName) = true
          /\ m = lit "Bucket name must end with a lowercase letter or number")
      \/ (negb (test re_bucket_first bucketName) = true
          /\ m = lit "Bucket name must begin with a lowercase letter or number")
      \/ (negb (test re_bucket_charset bucketName) = true /\ m = msg_bucket_charset)
      \/ ((63 <? length bucketName) = true
          /\ m = lit "Bucket name cannot exceed 63 characters")
      \/ ((length bucketName <? 3) = true
          /\ m = lit "Bucket name must be at least 3 characters long").
Proof.
  rewrite validateBucketName_stages, !In_stage. simpl In. tauto.
Qed.

(** X2.  A name holding an uppercase letter or an underscore is reported
    twice: by the character-set rule and by the rule for that character. *)
Theorem validateBucketName_uppercase_underscore (bucketName : jsstring) (c : char) :
  In c bucketName ->
  range "A" "Z" c = true \/ c = ch "_" ->
  In msg_bucket_charset (bucket_errors (validateBucketName bucketName))
  /\ In (if range "A" "Z" c then msg_bucket_uppercase else msg_bucket_underscore)
        (bucket_errors (validateBucketName bucketName)).
Proof.
  intros Hin Hc. rewrite !In_bucket_errors.
  assert (Hcs : negb (test re_bucket_charset bucketName) = true).
  { apply negb_true_iff. destruct Hc as [Hc | ->].
    - apply charset_covers_uppercase, uppercase_spec. eauto.
    - apply charset_covers_underscore, (includes_char bucketName (ch "_")). assumption. }
  split.
  - do 9 right. left. split; [assumption | reflexivity].
  - destruct Hc as [Hc | ->].
    + rewrite Hc. right; left. split; [|reflexivity].
      apply uppercase_spec. eauto.
    + change (range "A" "Z" (ch "_")) with false. cbv iota.
      left. split; [|reflexivity].
      apply (includes_char bucketName (ch "_")). assumption.
Qed.

Lemma validateBucketName_uppercase_underscore_witness :
  In msg_bucket_charset (bucket_errors (validateBucketName (lit "My_bucket")))
  /\ In msg_bucket_uppercase (bucket_errors (validateBucketName (lit "My_bucket"))).
Proof.
  apply (validateBucketName_uppercase_underscore (lit "My_bucket") (ch "M")).
  - left; reflexivity.
  - left; reflexivity.
Defined.

Ltac distinct_messages :=
  match goal with
  | H : _ = true /\ ?a = ?b |- _ =>
      exfalso; destruct H as [_ H];
      apply (f_equal (fun m => JS.eqb m b)) in H;
      vm_compute in H; discriminate
  end.

(** X3.  The IP-address rule is the only one to fire exactly on the names
    made of four groups of one to three digits joined by periods. *)
Theorem validateBucketName_ip_address (bucketName : jsstring) :
  bucket_errors (validateBucketName bucketName) = [msg_bucket_ip]
  <-> IsDottedQuad bucketName.
Proof.
  split.
  - intros H. apply ip_address_spec.
    assert (Hin : In msg_bucket_ip (bucket_errors (validateBucketName bucketName)))
      by (rewrite H; left; reflexivity).
    clear H. apply In_bucket_errors in Hin.
    repeat match type of Hin with
           | _ \/ _ => destruct Hin as [Hin | Hin]
           end;
      try distinct_messages; destruct Hin as [Hin _]; exact Hin.
  - intros Hq. pose proof Hq as [a [b [c [d [Ha [Hb [Hc [Hd ->]]]]]]]].
    apply ip_address_spec in Hq.
    apply digitGroup_inv in Ha as [La Da], Hb as [Lb Db], Hc as [Lc Dc], Hd as [Ld Dd].
    pose proof (dottedQuad_chars a b c d Da Db Dc Dd) as Hchars.
    assert (Hlen : length (dottedQuad a b c d) = length a + length b + length c + length d + 3).
    { unfold dottedQuad. rewrite !length_app. simpl. lia. }
    rewrite validateBucketName_stages, Hq.
    replace (length (dottedQuad a b c d) <? 3) with false
      by (symmetry; apply Nat.ltb_ge; lia).
    replace (63 <? length (dottedQuad a b c d)) with false
      by (symmetry; apply Nat.ltb_ge; lia).
    replace (test re_bucket_charset (dottedQuad a b c d)) with true.
    2:{ symmetry. apply charset_spec. split.
        - intros E. rewrite E in Hlen. simpl in Hlen. lia.
        - apply forallb_weaken with (P := quadChar);
            [apply quadChar_bucketChar | assumption]. }
    replace (test re_bucket_first (dottedQuad a b c d)) with true.
    2:{ symmetry. apply first_spec. destruct a as [|x a]; [simpl in La; lia|].
        exists x. split; [reflexivity|]. simpl in Da.
        apply andb_true_iff in Da as [Dx _].
        unfold lowerAlnum, orC. fold digit. rewrite Dx. apply orb_true_r. }
    replace (test re_bucket_last (dottedQuad a b c d)) with true.
    2:{ symmetry. apply last_spec.
        destruct (@exists_last _ d) as [d' [x E]];
          [intros E; rewrite E in Ld; simpl in Ld; lia|].
        exists x. unfold dottedQuad. rewrite E, !rev_app_distr. split; [reflexivity|].
        rewrite E, forallb_app in Dd. apply andb_true_iff in Dd as [_ Dx].
        simpl in Dx. rewrite andb_true_r in Dx.
        unfold lowerAlnum, orC. fold digit. rewrite Dx. apply orb_true_r. }
    rewrite (startsWith_false_by_class quadChar _ _ Hchars) by reflexivity.
    rewrite (endsWith_false_by_class quadChar _ _ Hchars) by reflexivity.
    rewrite (includes_false_by_class quadChar _ (lit ".-") Hchars) by reflexivity.
    rewrite (includes_false_by_class quadChar _ (lit "-.") Hchars) by reflexivity.
    rewrite (includes_false_by_class quadChar _ (lit "_") Hchars) by reflexivity.
    replace (test re_uppercase (dottedQuad a b c d)) with false.
    2:{ symmetry. destruct (test re_uppercase (dottedQuad a b c d)) eqn:E; [|reflexivity].
        apply uppercase_spec in E as [x [Hin Hx]].
        apply forallb_In with (c := x) in Hchars; [|assumption].
        apply quadChar_bucketChar, bucketChar_not_upper in Hchars. congruence. }
    replace (JS.includes (dottedQuad a b c d) (lit "..")) with false.
    2:{ symmetry. destruct (JS.includes (dottedQuad a b c d) (lit "..")) eqn:E; [|reflexivity].
        apply (includes_double_sep (ch ".")) in E.
        rewrite split_dottedQuad in E by assumption. simpl in E.
        destruct E as [E | [E | [E | []]]]; subst; simpl in *; lia. }
    reflexivity.
Qed.

(* ================================================================== *)
(** * Principals: the anatomy of an accepted ARN *)
(* ================================================================== *)

Lemma Matches_word (w s : jsstring) : Matches (word w) s <-> s = w.
Proof.
  revert s; induction w as [|c w IH]; intros s; simpl.
  - apply Matches_Eps.
  - rewrite Matches_Cat. split.
    + intros [s1 [s2 [-> [H1 H2]]]]. apply Matches_Class in H1 as [x [-> Hx]].
      apply N.eqb_eq in Hx. apply IH in H2. subst. reflexivity.
    + intros ->. exists [c], w. repeat split.
      * constructor. apply N.eqb_refl.
      * apply IH. reflexivity.
Qed.

Lemma Matches_one (a : ascii) (s : jsstring) :
  Matches (Class (one a)) s <-> s = [ch a].
Proof.
  rewrite Matches_Class. unfold one. split.
  - intros [c [-> H]]. apply N.eqb_eq in H. subst. reflexivity.
  - intros ->. exists (ch a). split; [reflexivity | apply N.eqb_refl].
Qed.

Lemma arnRegex_spec (principal : jsstring) :
  test arnRegex principal = true
  <-> exists partition service region account resource,
        principal = arnOf partition service region account resource
        /\ ArnShape partition service region account resource.
Proof.
  unfold arnRegex. rewrite test_anchored. split.
  - intros H.
    apply Matches_Cat in H as [s0 [t0 [-> [H0 H]]]]. apply Matches_word in H0 as ->.
    apply Matches_Cat in H as [partition [t1 [-> [Hp H]]]].
    apply Matches_Cat in H as [c1 [t2 [-> [H1 H]]]]. apply Matches_one in H1 as ->.
    apply Matches_Cat in H as [service [t3 [-> [Hs H]]]].
    apply Matches_Cat in H as [c2 [t4 [-> [H2 H]]]]. apply Matches_one in H2 as ->.
    apply Matches_Cat in H as [region [t5 [-> [Hr H]]]].
    apply Matches_Cat in H as [c3 [t6 [-> [H3 H]]]]. apply Matches_one in H3 as ->.
    apply Matches_Cat in H as [account [t7 [-> [Ha H]]]].
    apply Matches_Cat in H as [c4 [resource [-> [H4 H]]]]. apply Matches_one in H4 as ->.
    exists partition, service, region, account, resource.
    split; [reflexivity|].
    apply Matches_plus_Class in Hs as [Hs1 Hs2].
    apply Matches_Star_Class in Hr.
    apply Matches_plus_Class in H as [Hres1 Hres2].
    unfold ArnShape. repeat split; try assumption.
    + apply Matches_Alt in Hp as [Hp | Hp]; [|apply Matches_Alt in Hp as [Hp | Hp]];
        apply Matches_word in Hp; subst; simpl; auto.
    + apply Matches_Alt in Ha as [Ha | Ha].
      * right. apply Matches_rep_Class in Ha. exact Ha.
      * left. apply Matches_Eps in Ha. exact Ha.
  - intros [partition [service [region [account [resource [-> H]]]]]].
    destruct H as [Hp [Hs1 [Hs2 [Hr [Ha [Hres1 Hres2]]]]]].
    unfold arnOf.
    constructor; [apply Matches_word; reflexivity|].
    constructor.
    { destruct Hp as [<- | [<- | [<- | []]]].
      - apply MAltL, Matches_word; reflexivity.
      - apply MAltR, MAltL, Matches_word; reflexivity.
      - apply MAltR, MAltR, Matches_word; reflexivity. }
    constructor; [apply Matches_one; reflexivity|].
    constructor; [apply Matches_plus_Class; auto|].
    constructor; [apply Matches_one; reflexivity|].
    constructor; [apply Matches_Star_Class; assumption|].
    constructor; [apply Matches_one; reflexivity|].
    constructor.
    { destruct Ha as [-> | Ha].
      - apply MAltR. constructor.
      - apply MAltL, Matches_rep_Class. exact Ha. }
    constructor; [apply Matches_one; reflexivity|].
    apply Matches_plus_Class; auto.
Qed.

Lemma serviceChar_noColon (s : jsstring) :
  forallb serviceChar s = true -> noColon s = true.
Proof.
  apply forallb_weaken. intros c.
  unfold serviceChar, lowerAlnum, orC, range, one, ch. simpl N_of_ascii.
  rewrite !orb_true_iff, !andb_true_iff, !N.leb_le, N.eqb_eq, negb_true_iff, N.eqb_neq.
  lia.
Qed.

Lemma digits_noColon (s : jsstring) : forallb digit s = true -> noColon s = true.
Proof.
  apply forallb_weaken. intros c.
  unfold digit, range, ch. simpl N_of_ascii.
  rewrite !andb_true_iff, !N.leb_le, negb_true_iff, N.eqb_neq. lia.
Qed.

(** The six fields of an ARN, as [principal.split(':')] finds them. *)
Lemma split_arnOf (partition service region account resource : jsstring) :
  noColon partition = true -> noColon service = true ->
  noColon region = true -> noColon account = true ->
  JS.split (ch ":") (arnOf partition service region account resource)
  = [lit "arn"; partition; service; region; account] ++ JS.split (ch ":") resource.
Proof.
  intros Hp Hs Hr Ha. unfold arnOf.
  change (lit "arn:" ++ partition ++ lit ":" ++ service ++ lit ":" ++ region
          ++ lit ":" ++ account ++ lit ":" ++ resource)
    with (lit "arn" ++ ch ":" :: partition ++ ch ":" :: service ++ ch ":" :: region
          ++ ch ":" :: account ++ ch ":" :: resource).
  rewrite split_app by reflexivity.
  unfold noColon in *. rewrite !split_app by assumption. reflexivity.
Qed.

Lemma ArnShape_noColon (partition service region account resource : jsstring) :
  ArnShape partition service region account resource ->
  noColon partition = true /\ noColon service = true
  /\ noColon region = true /\ noColon account = true.
Proof.
  intros [Hp [_ [Hs [Hr [Ha _]]]]]. repeat split.
  - destruct Hp as [<- | [<- | [<- | []]]]; reflexivity.
  - apply serviceChar_noColon; assumption.
  - apply serviceChar_noColon; assumption.
  - destruct Ha as [-> | [_ Ha]]; [reflexivity | apply digits_noColon; assumption].
Qed.

(** A string that starts with [arn:] is none of the wildcard, the blank
    string and a canonical id. *)
Lemma validatePrincipalARN_arn (principal : jsstring) :
  JS.startsWith principal (lit "arn:") = true ->
  validatePrincipalARN principal
  = if looksLikeServicePrincipal principal then
      if test re_service_principal principal
      then mkVerdict true [] [msg_service_unsupported]
      else finish (arnBlock principal (pushError msg_service_format emptyLog))
    else finish (arnBlock principal emptyLog).
Proof.
  intros H. rewrite validatePrincipalARN_cases. unfold arnOrAccountBlock. rewrite H.
  apply startsWith_spec in H as [t ->].
  change (lit "arn:" ++ t) with (ch "a" :: ch "r" :: ch "n" :: ch ":" :: t).
  cbn [JS.eqb lit List.map list_ascii_of_string].
  change (N.eqb (ch "a") (ch "*")) with false. cbn [andb truthyString negb orb].
  unfold JS.trim. rewrite trimStart_keeps by reflexivity.
  rewrite trimEnd_cons_keeps by reflexivity. cbn [JS.eqb].
  assert (Hc : test re_canonical_id (ch "a" :: ch "r" :: ch "n" :: ch ":" :: t) = false).
  { destruct (test re_canonical_id _) eqn:E; [|reflexivity].
    apply test_anchored, Matches_rep_Class in E as [_ E]. simpl in E. discriminate. }
  rewrite Hc. reflexivity.
Qed.


Lemma service_principal_not_arn (principal : jsstring) :
  JS.startsWith principal (lit "arn:") = true ->
  test re_service_principal principal = false.
Proof.
  intros H. apply startsWith_spec in H as [t ->].
  destruct (test re_service_principal _) eqn:E; [|reflexivity].
  apply test_anchored in E.
  apply Matches_Cat in E as [s1 [s2 [E [H1 H2]]]].
  apply Matches_plus_Class in H1 as [Hne H1].
  apply Matches_Cat in H2 as [s3 [s4 [-> [H3 _]]]].
  apply Matches_one in H3 as ->.
  (* the first three characters are letters, the fourth is a colon *)
  destruct s1 as [|c1 [|c2 [|c3 [|c4 s1]]]]; try congruence;
    simpl in E; injection E; intros; subst; discriminate.
Qed.

Lemma errors_after (f : Log -> Log) (l : Log) :
  (forall l0 l1, f (prependLog l0 l1) = prependLog l0 (f l1)) ->
  log_errors (f l) = log_errors l ++ log_errors (f emptyLog).
Proof.
  intros H. rewrite <- (prependLog_empty l) at 1. rewrite H. reflexivity.
Qed.

Lemma log_errors_pushError (m : jsstring) (l : Log) :
  log_errors (pushError m l) = log_errors l ++ [m].
Proof. reflexivity. Qed.

Lemma log_errors_pushWarning (m : jsstring) (l : Log) :
  log_errors (pushWarning m l) = log_errors l.
Proof. reflexivity. Qed.

Lemma log_warnings_pushError (m : jsstring) (l : Log) :
  log_warnings (pushError m l) = log_warnings l.
Proof. reflexivity. Qed.

Lemma log_warnings_pushWarning (m : jsstring) (l : Log) :
  log_warnings (pushWarning m l) = log_warnings l ++ [m].
Proof. reflexivity. Qed.

Lemma app_one_not_nil {A} (l : list A) (x : A) : l ++ [x] = [] <-> False.
Proof. split; [intros H; apply app_eq_nil in H as [_ H]; discriminate | tauto]. Qed.

Lemma truthyString_length (s : jsstring) : truthyString s = negb (length s =? 0).
Proof. destruct s; reflexivity. Qed.

(** The IAM checks push no error exactly when the account id is there and
    the resource is [root] or has a type. *)
Lemma iamChecks_no_error (region account resource : jsstring) (l : Log) :
  account = [] \/ (length account = 12 /\ forallb digit account = true) ->
  resource <> [] ->
  log_errors (iamChecks (Some region) (Some account) resource l) = []
  <-> log_errors l = []
      /\ length account = 12
      /\ (resource = lit "root" \/ JS.includes resource (lit "/") = true).
Proof.
  intros Ha Hres. unfold iamChecks.
  assert (Hr : truthyString resource = true)
    by (destruct resource; [congruence | reflexivity]).
  rewrite Hr. cbn [negb].
  assert (Hacc : (Opt.truthy (Some account) = false /\ account = [])
                 \/ (Opt.truthy (Some account) = true
                     /\ Opt.test re_twelve_digits (Some account) = true
                     /\ length account = 12)).
  { destruct Ha as [-> | [Hl Hd]]; [left; auto | right].
    repeat split; [destruct account; [discriminate | reflexivity] | | assumption].
    unfold Opt.test, Opt.toString. rewrite twelve_digits_spec, Hl, Hd. reflexivity. }
  pose proof (eqb_spec resource (lit "root")) as Hroot.
  destruct (JS.eqb resource (lit "root")); cbn [negb andb];
    destruct (JS.includes resource (lit "/")); cbn [negb];
    destruct Hacc as [[-> ->] | [-> [-> Hl]]]; cbn [negb];
    repeat match goal with
           | |- context [if ?b then _ else _] => destruct b
           end;
    rewrite ?log_errors_pushWarning, ?log_errors_pushError, ?log_errors_pushWarning,
            ?log_errors_pushError, ?app_one_not_nil;
    simpl length; intuition (try discriminate; try congruence).
Qed.

Lemma s3Checks_errors (region account : option jsstring) (l : Log) :
  log_errors (s3Checks region account l) = log_errors l.
Proof.
  unfold s3Checks.
  destruct (Opt.truthy account && _); destruct (Opt.truthy region && _); reflexivity.
Qed.

(** Lines 227-294 on the six fields of a string that [arnRegex] matches. *)
Lemma awsBlock_fields (partition service region account resource : jsstring) (l : Log) :
  ArnShape partition service region account resource ->
  awsBlock (arnOf partition service region account resource)
    (JS.split (ch ":") (arnOf partition service region account resource))
    (Some partition) l
  = let l :=
      if negb (JS.arrayIncludes validServices service)
         && negb (JS.arrayIncludes awsOnlyServices service)
      then pushWarning (lit "Service " ++ dq ++ service ++ dq
                          ++ lit " is unusual for S3 bucket policies. Common services: iam, s3, sts") l
      else if JS.arrayIncludes awsOnlyServices service
      then pushWarning ([9888%N] ++ lit " Service " ++ dq ++ service ++ dq
                          ++ lit " is AWS-specific and not supported by Impossible Cloud. Use iam, s3, or sts instead.") l
      else l in
    let l :=
      if JS.eqb service (lit "iam")
      then iamChecks (Some region) (Some account) resource l
      else l in
    if JS.eqb service (lit "s3")
    then s3Checks (Some region) (Some account) l
    else l.
Proof.
  intros Hshape.
  assert (Hre : test arnRegex (arnOf partition service region account resource) = true).
  { apply arnRegex_spec. exists partition, service, region, account, resource. auto. }
  destruct (ArnShape_noColon _ _ _ _ _ Hshape) as [Np [Ns [Nr Na]]].
  unfold awsBlock. rewrite Hre, split_arnOf by assumption.
  cbn [negb app nth_error JS.slice skipn].
  change (lit ":") with [ch ":"]. rewrite join_split.
  assert (Hp : Opt.memberOf [lit "aws"; lit "aws-cn"; lit "aws-us-gov"] (Some partition) = true).
  { destruct Hshape as [Hp _]. destruct Hp as [<- | [<- | [<- | []]]]; reflexivity. }
  rewrite Hp. reflexivity.
Qed.

Lemma strictEq_false (x : option jsstring) (s : jsstring) :
  Opt.strictEq x s = false <-> x <> Some s.
Proof.
  destruct x as [t|]; simpl.
  - rewrite eqb_neq. split; congruence.
  - split; [discriminate | reflexivity].
Qed.

Lemma arrayIncludes_In (l : list jsstring) (x : jsstring) :
  JS.arrayIncludes l x = true <-> In x l.
Proof.
  unfold JS.arrayIncludes. rewrite existsb_exists. split.
  - intros [y [Hin H]]. apply eqb_spec in H. subst. assumption.
  - intros H. exists x. split; [assumption | apply eqb_refl].
Qed.

Lemma isValid_returnLog (l : Log) :
  isValid (returnLog l) = true <-> log_errors l = [].
Proof. unfold returnLog. cbn [isValid]. apply length_zero. Qed.

(** On the fields of a string that [arnRegex] matches, only the IAM checks
    can push an error. *)
Lemma awsBlock_fields_errors (partition service region account resource : jsstring) :
  ArnShape partition service region account resource ->
  log_errors
    (awsBlock (arnOf partition service region account resource)
       (JS.split (ch ":") (arnOf partition service region account resource))
       (Some partition) emptyLog) = []
  <-> (service = lit "iam" ->
       length account = 12
       /\ (resource = lit "root" \/ JS.includes resource (lit "/") = true)).
Proof.
  intros Hshape. rewrite awsBlock_fields by assumption. cbv zeta.
  destruct Hshape as [_ [_ [_ [_ [Ha [Hres _]]]]]].
  set (l1 := if negb (JS.arrayIncludes validServices service) && _ then _ else _).
  assert (H1 : log_errors l1 = []).
  { subst l1. destruct (negb (JS.arrayIncludes validServices service) && _);
      [reflexivity|]. destruct (JS.arrayIncludes awsOnlyServices service); reflexivity. }
  pose proof (eqb_spec service (lit "iam")) as Hiam.
  destruct (JS.eqb service (lit "iam")).
  - assert (E : service = lit "iam") by (apply Hiam; reflexivity). subst service.
    change (JS.eqb (lit "iam") (lit "s3")) with false. cbv iota.
    pose proof (iamChecks_no_error region account resource l1 Ha Hres) as Hi.
    tauto.
  - destruct (JS.eqb service (lit "s3")); rewrite ?s3Checks_errors, H1;
      split; auto; intros _ E; apply Hiam in E; discriminate.
Qed.

(** X4.  A string that starts with [arn:] and whose partition is not
    [ipcld] is accepted exactly when it contains neither [.amazonaws.com]
    nor [.amazon.com] and reads [arn:partition:service:region:account:resource]
    with a partition among aws, aws-cn and aws-us-gov, a non-empty service
    and a region in [a-z0-9-], an account id of twelve digits or none, a
    non-empty resource without line terminators and, when the service is
    [iam], twelve digits of account id and a resource that is [root] or
    holds a slash. *)
Theorem validatePrincipalARN_aws_arn (principal : jsstring) :
  JS.startsWith principal (lit "arn:") = true ->
  nth_error (JS.split (ch ":") principal) 1 <> Some (lit "ipcld") ->
  (isValid (validatePrincipalARN principal) = true
   <-> looksLikeServicePrincipal principal = false
       /\ exists partition service region account resource,
            principal = arnOf partition service region account resource
            /\ ArnShape partition service region account resource
            /\ (service = lit "iam" ->
                length account = 12
                /\ (resource = lit "root" \/ JS.includes resource (lit "/") = true))).
Proof.
  intros Harn Hpart. rewrite validatePrincipalARN_arn by assumption.
  destruct (looksLikeServicePrincipal principal).
  { rewrite service_principal_not_arn by assumption.
    destruct (arnBlock_after_error principal msg_service_format) as [_ [_ ->]].
    split; [discriminate | intros [H _]; discriminate]. }
  unfold arnBlock. apply strictEq_false in Hpart. rewrite Hpart.
  cbn [finish]. rewrite isValid_returnLog. split.
  - intros H. split; [reflexivity|].
    destruct (test arnRegex principal) eqn:Ere.
    + apply arnRegex_spec in Ere
        as [partition [service [region [account [resource [-> Hshape]]]]]].
      exists partition, service, region, account, resource.
      split; [reflexivity|]. split; [assumption|].
      apply (proj1 (awsBlock_fields_errors _ _ _ _ _ Hshape)).
      destruct (ArnShape_noColon _ _ _ _ _ Hshape) as [Np [Ns [Nr Na]]].
      replace (Some partition)
        with (nth_error
                (JS.split (ch ":") (arnOf partition service region account resource)) 1)
        by (rewrite split_arnOf by assumption; reflexivity).
      exact H.
    + unfold awsBlock in H. rewrite Ere in H. discriminate.
  - intros [_ [partition [service [region [account [resource [-> [Hshape H]]]]]]]].
    destruct (ArnShape_noColon _ _ _ _ _ Hshape) as [Np [Ns [Nr Na]]].
    replace (nth_error
               (JS.split (ch ":") (arnOf partition service region account resource)) 1)
      with (Some partition)
      by (rewrite split_arnOf by assumption; reflexivity).
    apply (proj2 (awsBlock_fields_errors _ _ _ _ _ Hshape)). assumption.
Qed.

Lemma validatePrincipalARN_aws_arn_witness :
  isValid (validatePrincipalARN (lit "arn:aws:s3:::my-bucket")) = true
  <-> looksLikeServicePrincipal (lit "arn:aws:s3:::my-bucket") = false
      /\ exists partition service region account resource,
           lit "arn:aws:s3:::my-bucket"
           = arnOf partition service region account resource
           /\ ArnShape partition service region account resource
           /\ (service = lit "iam" ->
               length account = 12
               /\ (resource = lit "root" \/ JS.includes resource (lit "/") = true)).
Proof.
  apply (validatePrincipalARN_aws_arn (lit "arn:aws:s3:::my-bucket")).
  - reflexivity.
  - vm_compute. discriminate.
Defined.

(** X5.  An IAM ARN with one of the three AWS partitions, no region, an
    account id of twelve digits and a resource that is [root] or
    [type/name] with a known type is accepted without error or warning
    (the resource holding no line terminator and neither [.amazonaws.com]
    nor [.amazon.com]). *)
Theorem validatePrincipalARN_iam_arn_silent (partition account resource : jsstring) :
  In partition awsPartitions ->
  length account = 12 -> forallb digit account = true ->
  forallb dot resource = true ->
  looksLikeServicePrincipal resource = false ->
  (resource = lit "root"
   \/ exists type name, In type validResourceTypes /\ resource = type ++ lit "/" ++ name) ->
  validatePrincipalARN (arnOf partition (lit "iam") [] account resource)
  = mkVerdict true [] [].
Proof.
  intros Hp Hl Hd Hdot Hsp Hres.
  assert (Hne : resource <> []).
  { destruct Hres as [-> | [type [name [_ ->]]]]; [discriminate|].
    intros E. apply app_eq_nil in E as [_ E]. discriminate. }
  assert (Hshape : ArnShape partition (lit "iam") [] account resource).
  { unfold ArnShape. repeat split; auto. discriminate. }
  destruct (ArnShape_noColon _ _ _ _ _ Hshape) as [Np [Ns [Nr Na]]].
  rewrite validatePrincipalARN_arn by reflexivity.
  assert (Hsp' : looksLikeServicePrincipal
                   (arnOf partition (lit "iam") [] account resource) = false).
  { assert (E : arnOf partition (lit "iam") [] account resource
                = (lit "arn:" ++ partition ++ lit ":iam::" ++ account ++ lit ":") ++ resource)
      by (unfold arnOf; rewrite <- !app_assoc; reflexivity).
    assert (Hpre : forallb (fun c => negb (N.eqb c (ch ".")))
                     (lit "arn:" ++ partition ++ lit ":iam::" ++ account ++ lit ":") = true).
    { rewrite !forallb_app.
      destruct Hp as [<- | [<- | [<- | []]]];
        repeat (apply andb_true_iff; split); try reflexivity;
        apply digits_no_dot; assumption. }
    unfold looksLikeServicePrincipal in *. rewrite E.
    change (lit ".amazonaws.com") with (ch "." :: lit "amazonaws.com").
    change (lit ".amazon.com") with (ch "." :: lit "amazon.com").
    rewrite !(includes_skip_prefix _ _ _ _ _ Hpre) by reflexivity.
    exact Hsp. }
  rewrite Hsp'. unfold arnBlock.
  replace (nth_error
             (JS.split (ch ":") (arnOf partition (lit "iam") [] account resource)) 1)
    with (Some partition)
    by (rewrite split_arnOf by assumption; reflexivity).
  assert (Hipcld : Opt.strictEq (Some partition) (lit "ipcld") = false)
    by (destruct Hp as [<- | [<- | [<- | []]]]; reflexivity).
  rewrite Hipcld.
  rewrite awsBlock_fields by assumption. cbv zeta.
  change (JS.eqb (lit "iam") (lit "iam")) with true.
  change (JS.eqb (lit "iam") (lit "s3")) with false.
  change (JS.arrayIncludes validServices (lit "iam")) with true.
  change (JS.arrayIncludes awsOnlyServices (lit "iam")) with false.
  cbn [negb andb]. cbv iota.
  unfold iamChecks.
  assert (Ht : Opt.truthy (Some account) = true)
    by (destruct account; [discriminate | reflexivity]).
  rewrite Ht. unfold Opt.test, Opt.toString.
  rewrite twelve_digits_spec, Hl, Hd.
  assert (Hr : truthyString resource = true)
    by (destruct resource; [congruence | reflexivity]).
  rewrite Hr. cbn [Nat.eqb andb negb Opt.truthy].
  destruct Hres as [-> | [type [name [Hin ->]]]]; [reflexivity|].
  assert (Hslash : JS.includes (type ++ lit "/" ++ name) (lit "/") = true)
    by (apply includes_spec; exists type, name; reflexivity).
  rewrite Hslash.
  assert (Htype : JS.split (ch "/") (type ++ lit "/" ++ name)
                  = type :: JS.split (ch "/") name).
  { apply (split_app (ch "/") type name).
    unfold validResourceTypes in Hin. simpl in Hin.
    repeat match type of Hin with
           | _ \/ _ => destruct Hin as [<- | Hin]
           end; try reflexivity. destruct Hin. }
  rewrite Htype. cbn [nth_error Opt.memberOf].
  rewrite (proj2 (arrayIncludes_In validResourceTypes type) Hin).
  rewrite andb_false_r. reflexivity.
Qed.

Lemma validatePrincipalARN_iam_arn_silent_witness :
  validatePrincipalARN
    (arnOf (lit "aws-cn") (lit "iam") [] (lit "123456789012") (lit "role/build:deploy"))
  = mkVerdict true [] [].
Proof.
  apply (validatePrincipalARN_iam_arn_silent
           (lit "aws-cn") (lit "123456789012") (lit "role/build:deploy")).
  - right; left; reflexivity.
  - reflexivity.
  - reflexivity.
  - reflexivity.
  - reflexivity.
  - right. exists (lit "role"), (lit "build:deploy"). split; [|reflexivity].
    right; left; reflexivity.
Defined.

(** X6.  An [arn:ipcld:...] string is checked by shape only: it is accepted
    exactly when the service is [iam], the canonical id is not empty and
    the resource holds a slash; the region and the content of the id are
    not looked at, and no warning is issued. *)
Theorem validatePrincipalARN_ipcld_arn (service region canonicalId resource : jsstring) :
  noColon service = true -> noColon region = true -> noColon canonicalId = true ->
  looksLikeServicePrincipal
    (arnOf (lit "ipcld") service region canonicalId resource) = false ->
  warnings (validatePrincipalARN
              (arnOf (lit "ipcld") service region canonicalId resource)) = []
  /\ (isValid (validatePrincipalARN
                 (arnOf (lit "ipcld") service region canonicalId resource)) = true
      <-> service = lit "iam" /\ canonicalId <> []
          /\ JS.includes resource (lit "/") = true).
Proof.
  intros Ns Nr Nc Hsp.
  rewrite validatePrincipalARN_arn by reflexivity. rewrite Hsp.
  unfold arnBlock. rewrite split_arnOf by (assumption || reflexivity).
  cbn [app nth_error]. change (Opt.strictEq (Some (lit "ipcld")) (lit "ipcld")) with true.
  cbv iota. unfold ipcldBlock. cbn [nth_error JS.slice skipn finish].
  change (lit ":") with [ch ":"]. rewrite join_split.
  pose proof (eqb_spec service (lit "iam")) as Hiam.
  cbn [Opt.strictEq Opt.truthy Opt.isEmpty].
  assert (Hres : JS.includes resource (lit "/") = true -> truthyString resource = true)
    by (destruct resource; [discriminate | reflexivity]).
  destruct (JS.eqb service (lit "iam")); cbn [negb];
    destruct canonicalId as [|c0 id]; cbn [negb orb length Nat.eqb];
    destruct resource as [|r0 res]; cbn [truthyString negb orb length Nat.eqb];
    try destruct (JS.includes (r0 :: res) (lit "/")); cbn [negb];
    (split; [reflexivity|]);
    rewrite isValid_returnLog, ?log_errors_pushError, ?app_one_not_nil;
    cbn [log_errors emptyLog];
    intuition (try discriminate; try congruence).
Qed.

Lemma validatePrincipalARN_ipcld_arn_witness :
  warnings (validatePrincipalARN
              (arnOf (lit "ipcld") (lit "iam") (lit "eu") (lit "x") (lit "user/a"))) = []
  /\ (isValid (validatePrincipalARN
                 (arnOf (lit "ipcld") (lit "iam") (lit "eu") (lit "x") (lit "user/a")))
      = true
      <-> lit "iam" = lit "iam" /\ lit "x" <> []
          /\ JS.includes (lit "user/a") (lit "/") = true).
Proof.
  apply (validatePrincipalARN_ipcld_arn (lit "iam") (lit "eu") (lit "x") (lit "user/a"));
    reflexivity.
Defined.

(* ================================================================== *)
(** * The structure validator: what it pushes, and when it throws *)
(* ================================================================== *)

Lemma json_nested_ind (P : json -> Prop) :
  P JNull -> (forall b, P (JBool b)) -> (forall r, P (JNumber r)) ->
  (forall s, P (JString s)) ->
  (forall items, Forall P items -> P (JArray items)) ->
  (forall props, Forall (fun kv => P (snd kv)) props -> P (JObject props)) ->
  forall x, P x.
Proof.
  intros HNull HBool HNum HStr HArr HObj.
  fix IH 1. intros [| b | r | s | items | props].
  - exact HNull.
  - apply HBool.
  - apply HNum.
  - apply HStr.
  - apply HArr. induction items as [|x items IHi]; constructor; [apply IH | exact IHi].
  - apply HObj. induction props as [|[k v] props IHp]; constructor;
      [apply IH | exact IHp].
Qed.

Lemma toString_hides (x : json) :
  Val.toString x = None <-> hidesToString x = true.
Proof.
  induction x as [| b | r | s | items IH | props _] using json_nested_ind.
  - split; discriminate.
  - destruct b; split; discriminate.
  - split; discriminate.
  - split; discriminate.
  - cbn [Val.toString hidesToString].
    match goal with
    | |- option_map _ (?each items) = None <-> _ =>
        assert (Heach : each items = None <-> existsb hidesToString items = true)
    end.
    { induction IH as [|x items Hx _ IHrest]; [split; discriminate|].
      cbn [existsb]. rewrite orb_true_iff, <- IHrest.
      assert (Hx' : match x with JNull => Some [] | _ => Val.toString x end = None
                    <-> hidesToString x = true).
      { destruct x; try exact Hx. split; discriminate. }
      rewrite <- Hx'. cbn -[Val.toString hidesToString existsb].
      destruct (match x with JNull => Some [] | _ => Val.toString x end);
        try match goal with
            | |- context [match ?e with Some _ => _ | None => _ end] => destruct e
            end; intuition (try discriminate; try congruence). }
    rewrite <- Heach.
    match goal with
    | |- option_map _ ?e = None <-> _ => destruct e; simpl; split; congruence
    end.
  - cbn [Val.toString hidesToString].
    destruct (Val.assoc (lit "toString") props); split; congruence.
Qed.

(** ** What a check pushes *)

Lemma Forall_nil_log (P : jsstring -> Prop) :
  Forall P (log_errors emptyLog) /\ Forall P (log_warnings emptyLog).
Proof. split; constructor. Qed.

Lemma Pushes_done (P : jsstring -> Prop) : Pushes P done.
Proof.
  intros l l' E. injection E as <-. exists emptyLog.
  rewrite prependLog_empty. split; [reflexivity | apply Forall_nil_log].
Qed.

Lemma Pushes_throw (P : jsstring -> Prop) : Pushes P throwTypeError.
Proof. intros l l' E. discriminate. Qed.

Lemma Pushes_error (P : jsstring -> Prop) (m : jsstring) : P m -> Pushes P (error m).
Proof.
  intros Hm l l' E. injection E as <-. exists (mkLog [m] []).
  split; [|split; repeat constructor; assumption].
  unfold pushError, prependLog, push. simpl. rewrite app_nil_r. reflexivity.
Qed.

Lemma Pushes_warning (P : jsstring -> Prop) (m : jsstring) : P m -> Pushes P (warning m).
Proof.
  intros Hm l l' E. injection E as <-. exists (mkLog [] [m]).
  split; [|split; repeat constructor; assumption].
  unfold pushWarning, prependLog, push. simpl. rewrite app_nil_r. reflexivity.
Qed.

Lemma Pushes_seq (P : jsstring -> Prop) (c1 c2 : Check) :
  Pushes P c1 -> Pushes P c2 -> Pushes P (c1 ;; c2).
Proof.
  intros H1 H2 l l' E. unfold seqCheck in E.
  destruct (c1 l) as [l1|] eqn:E1; [|discriminate].
  destruct (H1 _ _ E1) as [a1 [-> [He1 Hw1]]].
  destruct (H2 _ _ E) as [a2 [-> [He2 Hw2]]].
  exists (prependLog a1 a2). rewrite prependLog_assoc.
  split; [reflexivity|]. simpl. split; apply Forall_app; auto.
Qed.

Lemma Pushes_when (P : jsstring -> Prop) (b : bool) (c : Check) :
  Pushes P c -> Pushes P (when b c).
Proof. destruct b; simpl; [auto | intros _; apply Pushes_done]. Qed.

Lemma Pushes_forEachFrom {A} (P : jsstring -> Prop) (body : A -> nat -> Check)
    (items : list A) :
  (forall x i, Pushes P (body x i)) -> forall i, Pushes P (forEachFrom i body items).
Proof.
  intros H. induction items as [|x items IH]; intros i; simpl.
  - apply Pushes_done.
  - apply Pushes_seq; auto.
Qed.

Lemma Pushes_forEach {A} (P : jsstring -> Prop) (body : A -> nat -> Check)
    (items : list A) :
  (forall x i, Pushes P (body x i)) -> Pushes P (forEach body items).
Proof. intros H. apply Pushes_forEachFrom; assumption. Qed.

Lemma Pushes_whenPresent (P : jsstring -> Prop) (x : option json)
    (validate : json -> Check) :
  (forall v, Pushes P (validate v)) -> Pushes P (whenPresent x validate).
Proof.
  intros H. destruct x; simpl; [apply Pushes_when; auto | apply Pushes_done].
Qed.

Lemma Pushes_weaken (P Q : jsstring -> Prop) (c : Check) :
  (forall m, P m -> Q m) -> Pushes P c -> Pushes Q c.
Proof.
  intros HPQ H l l' E. destruct (H _ _ E) as [a [-> [He Hw]]].
  exists a. split; [reflexivity|].
  split; eapply Forall_impl; eauto.
Qed.

Lemma startsWith_app (p t : jsstring) : JS.startsWith (p ++ t) p = true.
Proof. apply startsWith_spec. exists t. reflexivity. Qed.

Lemma startsWith_longer (m p q : jsstring) :
  JS.startsWith m (p ++ q) = true -> JS.startsWith m p = true.
Proof.
  rewrite !startsWith_spec. intros [t ->]. exists (q ++ t).
  rewrite <- app_assoc. reflexivity.
Qed.

Ltac pushes :=
  repeat first
    [ apply Pushes_done | apply Pushes_throw
    | apply Pushes_error; apply startsWith_app
    | apply Pushes_warning; apply startsWith_app
    | apply Pushes_seq | apply Pushes_when
    | apply Pushes_whenPresent; intros
    | apply Pushes_forEach; intros
    | match goal with
      | |- Pushes _ (if ?b then _ else _) => destruct b
      | |- Pushes _ (match ?x with _ => _ end) => destruct x
      end ].

Lemma Pushes_validateActions (actions : json) (prefix : jsstring) :
  Pushes (fun m => JS.startsWith m prefix = true) (validateActions actions prefix).
Proof. unfold validateActions, validateAction. pushes. Qed.

Lemma Pushes_validateResources (resources : json) (prefix : jsstring) :
  Pushes (fun m => JS.startsWith m prefix = true) (validateResources resources prefix).
Proof. unfold validateResources, validateResource. pushes. Qed.

Lemma Pushes_validateCondition (condition : json) (prefix : jsstring) :
  Pushes (fun m => JS.startsWith m prefix = true) (validateCondition condition prefix).
Proof. unfold validateCondition, validateOperator. pushes. Qed.

Lemma Pushes_sub (prefix suffix : jsstring) (c : Check) :
  Pushes (fun m => JS.startsWith m (prefix ++ suffix) = true) c ->
  Pushes (fun m => JS.startsWith m prefix = true) c.
Proof.
  apply Pushes_weaken. intros m. apply startsWith_longer.
Qed.

Lemma Pushes_validateStatement (stmt : json) (idx : nat) :
  Pushes (fun m => JS.startsWith m (statementPrefix idx) = true)
    (validateStatement stmt idx).
Proof.
  unfold validateStatement. fold (statementPrefix idx).
  generalize (statementPrefix idx) as prefix. intros prefix.
  destruct (negb _ || _).
  { apply Pushes_error, startsWith_app. }
  apply Pushes_seq; [unfold checkSid; pushes|].
  apply Pushes_seq; [unfold checkEffect; pushes|].
  apply Pushes_seq; [unfold checkPrincipal, msg_principal_ignored; pushes|].
  apply Pushes_seq; [unfold checkNotPrincipal, msg_notprincipal_ignored; pushes|].
  apply Pushes_seq.
  { unfold checkActions. pushes; eapply Pushes_sub; apply Pushes_validateActions. }
  apply Pushes_seq.
  { unfold checkResources. pushes; eapply Pushes_sub; apply Pushes_validateResources. }
  apply Pushes_seq.
  { unfold checkCondition. pushes; eapply Pushes_sub; apply Pushes_validateCondition. }
  unfold checkUnknownFields, checkUnknownField. pushes.
Qed.

(** X7.  Every error and warning that [validateStatement] pushes for the
    statement at index [idx] starts with [Statement[idx]], and the messages
    already in the arrays are left in place before them. *)
Theorem validateStatement_messages_prefixed (stmt : json) (idx : nat) (l l' : Log) :
  validateStatement stmt idx l = Some l' ->
  exists added,
    l' = prependLog l added
    /\ Forall (fun m => JS.startsWith m (statementPrefix idx) = true) (log_errors added)
    /\ Forall (fun m => JS.startsWith m (statementPrefix idx) = true) (log_warnings added).
Proof.
  intros E. destruct (Pushes_validateStatement stmt idx l l' E) as [added H].
  exists added. exact H.
Qed.

Lemma validateStatement_messages_prefixed_witness :
  exists added,
    mkLog [ lit "earlier";
            lit "Statement[2]: Missing required field " ++ dq ++ lit "Effect" ++ dq;
            lit "Statement[2]: Missing " ++ dq ++ lit "Action" ++ dq ++ lit " or "
              ++ dq ++ lit "NotAction" ++ dq;
            lit "Statement[2]: Missing " ++ dq ++ lit "Resource" ++ dq ++ lit " or "
              ++ dq ++ lit "NotResource" ++ dq ]
          [ lit "Statement[2]: Unknown field " ++ dq ++ lit "Extra" ++ dq ]
    = prependLog (mkLog [lit "earlier"] []) added
    /\ Forall (fun m => JS.startsWith m (statementPrefix 2) = true) (log_errors added)
    /\ Forall (fun m => JS.startsWith m (statementPrefix 2) = true) (log_warnings added).
Proof.
  apply (validateStatement_messages_prefixed
           (JObject [(lit "Extra", JNull)]) 2 (mkLog [lit "earlier"] [])).
  vm_compute. reflexivity.
Defined.


(** ** Statements are reported one by one *)

Lemma Appends_checkSid stmt prefix : Appends (checkSid stmt prefix).
Proof. unfold checkSid. appends. Qed.

Lemma Appends_checkEffect stmt prefix : Appends (checkEffect stmt prefix).
Proof. unfold checkEffect. appends. Qed.

Lemma Appends_validateStatement (stmt : json) (idx : nat) :
  Appends (validateStatement stmt idx).
Proof.
  unfold validateStatement. destruct (negb _ || _); [apply Appends_error|].
  apply Appends_seq; [apply Appends_checkSid|].
  apply Appends_seq; [apply Appends_checkEffect|].
  apply Appends_seq; [apply Appends_checkPrincipal|].
  apply Appends_seq; [apply Appends_checkNotPrincipal|].
  apply Appends_seq; [apply Appends_checkActions|].
  apply Appends_seq; [apply Appends_checkResources|].
  apply Appends_seq; [apply Appends_checkCondition|].
  apply Appends_checkUnknownFields.
Qed.

Lemma fold_joinLogs_None (reports : list (option Log)) :
  fold_left joinLogs reports None = None.
Proof. induction reports as [|r reports IH]; simpl; auto. Qed.

Lemma forEachFrom_reports (statements : list json) (idx : nat) (l : Log) :
  forEachFrom idx validateStatement statements l
  = fold_left joinLogs
      (List.map (fun '(i, stmt) => validateStatement stmt i emptyLog)
         (combine (seq idx (length statements)) statements))
      (Some l).
Proof.
  revert idx l. induction statements as [|stmt statements IH]; intros idx l.
  - reflexivity.
  - cbn [forEachFrom length seq combine List.map fold_left]. unfold seqCheck.
    rewrite (Appends_run _ l (Appends_validateStatement stmt idx)).
    destruct (validateStatement stmt idx emptyLog) as [a|]; cbn [option_map joinLogs].
    + apply IH.
    + symmetry. apply fold_joinLogs_None.
Qed.

(** X8.  The statements of a policy are validated one by one: what
    [policy.Statement.forEach] leaves in the arrays is, in order, what
    [validateStatement] reports for each statement taken alone at its
    index, up to the first statement on which it throws. *)
Theorem validateStatements_independent (statements : list json) :
  forEach validateStatement statements emptyLog
  = fold_left joinLogs (statementReports statements) (Some emptyLog).
Proof.
  unfold forEach, statementReports. apply forEachFrom_reports.
Qed.

(** ** When the validator throws *)

Lemma Completes_done : Completes done.
Proof. intros l; discriminate. Qed.

Lemma Completes_error (m : jsstring) : Completes (error m).
Proof. intros l; discriminate. Qed.

Lemma Completes_warning (m : jsstring) : Completes (warning m).
Proof. intros l; discriminate. Qed.

Lemma Completes_seq (c1 c2 : Check) : Completes c1 -> Completes c2 -> Completes (c1 ;; c2).
Proof.
  intros H1 H2 l. unfold seqCheck. specialize (H1 l).
  destruct (c1 l); [apply H2 | congruence].
Qed.

Lemma Completes_when (b : bool) (c : Check) : Completes c -> Completes (when b c).
Proof. destruct b; simpl; [auto | intros _; apply Completes_done]. Qed.

Lemma Completes_forEachFrom {A} (body : A -> nat -> Check) (items : list A) :
  (forall x i, Completes (body x i)) -> forall i, Completes (forEachFrom i body items).
Proof.
  intros H. induction items as [|x items IH]; intros i; simpl.
  - apply Completes_done.
  - apply Completes_seq; auto.
Qed.

Lemma Completes_forEach {A} (body : A -> nat -> Check) (items : list A) :
  (forall x i, Completes (body x i)) -> Completes (forEach body items).
Proof. intros H. apply Completes_forEachFrom; assumption. Qed.

Lemma Completes_whenPresent (x : option json) (validate : json -> Check) :
  (forall v, Completes (validate v)) -> Completes (whenPresent x validate).
Proof.
  intros H. destruct x; simpl; [apply Completes_when; auto | apply Completes_done].
Qed.

Ltac completes :=
  repeat first
    [ apply Completes_done | apply Completes_error | apply Completes_warning
    | apply Completes_seq | apply Completes_when
    | apply Completes_whenPresent; intros
    | apply Completes_forEach; intros
    | match goal with
      | |- Completes (if ?b then _ else _) => destruct b
      | |- Completes (match ?x with _ => _ end) => destruct x
      end ].

Lemma Completes_validateActions actions prefix : Completes (validateActions actions prefix).
Proof. unfold validateActions, validateAction. completes. Qed.

Lemma Completes_validateResources resources prefix :
  Completes (validateResources resources prefix).
Proof. unfold validateResources, validateResource. completes. Qed.

Lemma Completes_validateCondition condition prefix :
  Completes (validateCondition condition prefix).
Proof. unfold validateCondition, validateOperator. completes. Qed.

Lemma Completes_checkSid stmt prefix : Completes (checkSid stmt prefix).
Proof. unfold checkSid. completes. Qed.

Lemma Completes_checkPrincipal stmt prefix : Completes (checkPrincipal stmt prefix).
Proof. unfold checkPrincipal. completes. Qed.

Lemma Completes_checkNotPrincipal stmt prefix : Completes (checkNotPrincipal stmt prefix).
Proof. unfold checkNotPrincipal. completes. Qed.

Lemma Completes_checkActions stmt prefix : Completes (checkActions stmt prefix).
Proof. unfold checkActions. completes; apply Completes_validateActions. Qed.

Lemma Completes_checkResources stmt prefix : Completes (checkResources stmt prefix).
Proof. unfold checkResources. completes; apply Completes_validateResources. Qed.

Lemma Completes_checkCondition stmt prefix : Completes (checkCondition stmt prefix).
Proof. unfold checkCondition. completes; apply Completes_validateCondition. Qed.

Lemma Completes_checkUnknownFields stmt prefix :
  Completes (checkUnknownFields stmt prefix).
Proof. unfold checkUnknownFields, checkUnknownField. completes. Qed.

Lemma seq_throws_left (c1 c2 : Check) (l : Log) :
  Completes c2 -> ((c1 ;; c2) l = None <-> c1 l = None).
Proof.
  intros H2. unfold seqCheck. destruct (c1 l) as [l1|]; [|tauto].
  split; [intros E; destruct (H2 l1 E) | discriminate].
Qed.

Lemma seq_throws_right (c1 c2 : Check) (l : Log) :
  Completes c1 -> Appends c2 -> ((c1 ;; c2) l = None <-> c2 emptyLog = None).
Proof.
  intros H1 H2. unfold seqCheck. specialize (H1 l).
  destruct (c1 l) as [l1|]; [|congruence].
  rewrite (Appends_run c2 l1 H2). destruct (c2 emptyLog); simpl; split; congruence.
Qed.

Lemma hides_is_object (x : json) :
  hidesToString x = true ->
  Val.truthy (Some x) = true /\ forall s, Val.strictEq (Some x) s = false.
Proof. destruct x; simpl; try discriminate; auto. Qed.

Lemma checkEffect_throws (stmt : json) (prefix : jsstring) (l : Log) :
  checkEffect stmt prefix l = None <-> EffectThrows stmt.
Proof.
  unfold checkEffect, EffectThrows.
  destruct (Val.get stmt (lit "Effect")) as [effect|].
  - split.
    + intros H. exists effect. split; [reflexivity|]. apply toString_hides.
      destruct (negb (Val.truthy (Some effect))); [discriminate|].
      destruct (negb _ && negb _); [|discriminate].
      destruct (Val.toString effect); [discriminate | reflexivity].
    + intros [e [E He]]. injection E as <-.
      destruct (hides_is_object _ He) as [Ht Hs].
      rewrite Ht, !Hs. cbn [negb andb].
      apply toString_hides in He. rewrite He. reflexivity.
  - split; [discriminate | intros [e [E _]]; discriminate].
Qed.

(** [validateStatement] throws exactly on a statement whose Effect cannot
    be shown. *)
Lemma validateStatement_throws (stmt : json) (idx : nat) (l : Log) :
  validateStatement stmt idx l = None <-> EffectThrows stmt.
Proof.
  unfold validateStatement.
  destruct (negb (Val.jstype_eqb (Val.typeOf (Some stmt)) TObject)
            || Val.isNull (Some stmt)) eqn:E.
  - split; [discriminate|]. intros [e [He _]].
    destruct stmt; simpl in He; discriminate.
  - set (prefix := lit "Statement[" ++ showIndex idx ++ lit "]").
    rewrite seq_throws_right.
    + rewrite seq_throws_left; [apply checkEffect_throws|].
      apply Completes_seq; [apply Completes_checkPrincipal|].
      apply Completes_seq; [apply Completes_checkNotPrincipal|].
      apply Completes_seq; [apply Completes_checkActions|].
      apply Completes_seq; [apply Completes_checkResources|].
      apply Completes_seq; [apply Completes_checkCondition|].
      apply Completes_checkUnknownFields.
    + apply Completes_checkSid.
    + apply Appends_seq; [apply Appends_checkEffect|].
      apply Appends_seq; [apply Appends_checkPrincipal|].
      apply Appends_seq; [apply Appends_checkNotPrincipal|].
      apply Appends_seq; [apply Appends_checkActions|].
      apply Appends_seq; [apply Appends_checkResources|].
      apply Appends_seq; [apply Appends_checkCondition|].
      apply Appends_checkUnknownFields.
Qed.

Lemma forEachFrom_throws (statements : list json) (idx : nat) (l : Log) :
  forEachFrom idx validateStatement statements l = None
  <-> Exists EffectThrows statements.
Proof.
  revert idx l. induction statements as [|stmt statements IH]; intros idx l.
  - split; [discriminate | intros H; inversion H].
  - cbn [forEachFrom]. unfold seqCheck. rewrite Exists_cons.
    destruct (validateStatement stmt idx l) as [l1|] eqn:E.
    + rewrite IH. split; [auto|]. intros [H | H]; [|assumption].
      apply (validateStatement_throws stmt idx l) in H. congruence.
    + split; [|reflexivity]. intros _. left.
      apply (validateStatement_throws stmt idx l). assumption.
Qed.

(** X9.  [validatePolicy] ends with an uncaught TypeError exactly when the
    parsed text is [null], or the Statement array holds a statement whose
    Effect is an object with an own [toString] property or an array that
    holds one (at any depth); on every other value it runs to its
    notification. *)
Theorem validatePolicy_throws (policy : json) :
  validatePolicy policy = None
  <-> policy = JNull
      \/ exists statements,
           Val.get policy (lit "Statement") = Some (JArray statements)
           /\ Exists EffectThrows statements.
Proof.
  unfold validatePolicy.
  rewrite seq_throws_right;
    [ | completes
      | apply Appends_seq; [appends|]; apply Appends_seq; [appends|];
        apply Appends_seq;
          [ destruct (Val.get policy (lit "Statement")) as [[]|]; appends;
            apply Appends_validateStatement
          | appends ] ].
  destruct policy as [| b | r | s | items | props];
    try (cbn [Val.isNull when]; unfold seqCheck, throwTypeError; tauto).
  all: cbn [Val.isNull when]; unfold seqCheck at 1; cbn [done].
  all: rewrite seq_throws_right; [ | completes | ].
  all: try (apply Appends_seq;
            [ match goal with
              | |- Appends (match ?x with _ => _ end) =>
                  destruct x as [[]|]; appends; apply Appends_validateStatement
              end
            | appends ]).
  all: rewrite seq_throws_left by completes.
  all: cbn [Val.get].
  1-4: split; [discriminate|];
       intros [H | [statements [H _]]]; discriminate.
  destruct (Val.assoc (lit "Statement") props) as [[| | | | statements |]|];
    try (split; [match goal with
                 | |- context [if ?b then _ else _] => destruct b
                 end; discriminate
                | intros [H | [statements [H _]]]; discriminate]).
  destruct (length statements =? 0) eqn:El.
  - apply length_zero in El. subst. split; [discriminate|].
    intros [H | [statements [H Hex]]]; [discriminate|].
    injection H as <-. inversion Hex.
  - unfold forEach. rewrite forEachFrom_throws. split.
    + intros H. right. exists statements. auto.
    + intros [H | [statements' [H Hex]]]; [discriminate|].
      injection H as <-. assumption.
Qed.

(* ================================================================== *)
(** * Bucket names and resource ARNs agree *)
(* ================================================================== *)

Lemma Silent_done : Silent done.
Proof. intros l; reflexivity. Qed.

Lemma Silent_seq (c1 c2 : Check) : Silent c1 -> Silent c2 -> Silent (c1 ;; c2).
Proof. intros H1 H2 l. unfold seqCheck. rewrite H1. apply H2. Qed.

Lemma Silent_when (b : bool) (c : Check) : (b = true -> Silent c) -> Silent (when b c).
Proof. destruct b; simpl; [auto | intros _; apply Silent_done]. Qed.

Lemma Silent_forEachFrom {A} (body : A -> nat -> Check) (items : list A) :
  (forall x i, In x items -> Silent (body x i)) ->
  forall i, Silent (forEachFrom i body items).
Proof.
  induction items as [|x items IH]; intros H i; simpl.
  - apply Silent_done.
  - apply Silent_seq; [apply H; left; reflexivity|].
    apply IH. intros y j Hy. apply H. right; assumption.
Qed.

Lemma Silent_forEach {A} (body : A -> nat -> Check) (items : list A) :
  (forall x i, In x items -> Silent (body x i)) -> Silent (forEach body items).
Proof. intros H. apply Silent_forEachFrom; assumption. Qed.

(** What an accepted name looks like. *)
Lemma valid_bucket_shape (bucket : jsstring) :
  bucket_isValid (validateBucketName bucket) = true ->
  3 <= length bucket <= 63
  /\ forallb bucketChar bucket = true
  /\ (exists c, hd_error bucket = Some c /\ lowerAlnum c = true)
  /\ (exists c, hd_error (rev bucket) = Some c /\ lowerAlnum c = true).
Proof.
  rewrite isValid_errors, validateBucketName_stages, !stage_eq_nil.
  rewrite !negb_false_iff, !Nat.ltb_ge, charset_spec, first_spec, last_spec.
  intros [_ [_ [_ [_ [_ [_ [_ [Hlast [Hfirst [[_ Hcs] [Hmax [Hmin _]]]]]]]]]]]].
  auto.
Qed.

Lemma resource_bucket_pattern (bucket : jsstring) :
  bucket_isValid (validateBucketName bucket) = true ->
  test re_resource_bucket bucket = true.
Proof.
  intros H. apply valid_bucket_shape in H as [[Hmin _] [Hchars [[c [Hc Lc]] [d [Hd Ld]]]]].
  apply test_anchored.
  destruct bucket as [|c' t]; [discriminate|]. injection Hc as ->.
  destruct (@exists_last _ t) as [mid [d' E]].
  { intros ->. simpl in Hmin. lia. }
  subst t. change (c :: mid ++ [d']) with ([c] ++ mid ++ [d']) in *.
  rewrite !rev_app_distr in Hd. injection Hd as ->.
  rewrite !forallb_app in Hchars.
  apply andb_true_iff in Hchars as [_ Hchars].
  apply andb_true_iff in Hchars as [Hmid _].
  constructor; [constructor; assumption|].
  constructor; [apply Matches_Star_Class; assumption | constructor; assumption].
Qed.

Lemma Silent_bucket_resource (bucket prefix : jsstring) (idx : nat) :
  bucket_isValid (validateBucketName bucket) = true ->
  Silent (validateResource prefix (JString (lit "arn:aws:s3:::" ++ bucket)) idx).
Proof.
  intros Hvalid. unfold validateResource.
  change (JS.startsWith (lit "arn:aws:s3:::" ++ bucket) (lit "arn:aws:s3:::")) with true.
  cbn [negb andb].
  change (JS.substring 13 (lit "arn:aws:s3:::" ++ bucket)) with bucket.
  cbv zeta.
  rewrite (proj2 (eqb_neq bucket (lit "")) (bucket_not_empty _ Hvalid)).
  rewrite (bucket_no_double_slash _ Hvalid), (bucket_no_slash _ Hvalid),
          (bucket_short _ Hvalid), (resource_bucket_pattern _ Hvalid).
  cbn [negb andb when].
  repeat apply Silent_seq; apply Silent_done.
Qed.

Lemma Silent_object_resource (bucket path prefix : jsstring) (idx : nat) :
  bucket_isValid (validateBucketName bucket) = true ->
  JS.includes (lit "/" ++ path) (lit "//") = false ->
  Silent (validateResource prefix
            (JString (lit "arn:aws:s3:::" ++ bucket ++ lit "/" ++ path)) idx).
Proof.
  intros Hvalid Hpath. unfold validateResource.
  change (JS.startsWith (lit "arn:aws:s3:::" ++ bucket ++ lit "/" ++ path)
            (lit "arn:aws:s3:::")) with true.
  cbn [negb andb].
  change (JS.substring 13 (lit "arn:aws:s3:::" ++ bucket ++ lit "/" ++ path))
    with (bucket ++ lit "/" ++ path).
  cbv zeta.
  assert (Hne : bucket ++ lit "/" ++ path <> [])
    by (intros E; apply app_eq_nil in E as [E _]; exact (bucket_not_empty _ Hvalid E)).
  rewrite (proj2 (eqb_neq _ (lit "")) Hne).
  assert (Hdouble : JS.includes (bucket ++ lit "/" ++ path) (lit "//") = false).
  { change (lit "//") with (ch "/" :: lit "/").
    rewrite (includes_skip_prefix bucketChar _ _ _ _
               (bucket_chars _ Hvalid) bucketChar_not_slash).
    exact Hpath. }
  assert (Hslash : JS.includes (bucket ++ lit "/" ++ path) (lit "/") = true)
    by (apply includes_spec; exists bucket, path; reflexivity).
  rewrite Hdouble, Hslash. cbn [negb andb when].
  repeat apply Silent_seq; apply Silent_done.
Qed.

(** X10.  The two validators agree on bucket names: for every name
    [validateBucketName] accepts, [validateResources] reports nothing on
    the ARN of the bucket, nor on the ARN of the objects under a path that
    neither starts with a slash nor contains two in a row. *)
Theorem validateResources_accepts_valid_bucket
    (bucket path prefix : jsstring) (l : Log) :
  bucket_isValid (validateBucketName bucket) = true ->
  JS.includes (lit "/" ++ path) (lit "//") = false ->
  validateResources (JString (lit "arn:aws:s3:::" ++ bucket)) prefix l = Some l
  /\ validateResources
       (JString (lit "arn:aws:s3:::" ++ bucket ++ lit "/" ++ path)) prefix l = Some l.
Proof.
  intros Hvalid Hpath. unfold validateResources.
  cbn [asList length Nat.eqb]. unfold forEach. cbn [forEachFrom]. split.
  - apply Silent_seq; [apply Silent_bucket_resource; assumption | apply Silent_done].
  - apply Silent_seq; [apply Silent_object_resource; assumption | apply Silent_done].
Qed.

Lemma validateResources_accepts_valid_bucket_witness :
  validateResources (JString (lit "arn:aws:s3:::my.bucket-1")) (lit "Resource") emptyLog
  = Some emptyLog
  /\ validateResources (JString (lit "arn:aws:s3:::my.bucket-1/logs/*")) (lit "Resource")
       emptyLog
     = Some emptyLog.
Proof.
  apply (validateResources_accepts_valid_bucket
           (lit "my.bucket-1") (lit "logs/*") (lit "Resource") emptyLog);
    reflexivity.
Defined.

(* ================================================================== *)
(** * Policy assembly: the text inputs *)
(* ================================================================== *)

Lemma collectActions_fold (parts acc : list jsstring) :
  fold_left
    (fun actions action =>
       if truthyString (JS.trim action) then push actions (JS.trim action) else actions)
    parts acc
  = acc ++ filter truthyString (List.map JS.trim parts).
Proof.
  revert acc. induction parts as [|p parts IH]; intros acc; simpl.
  - rewrite app_nil_r. reflexivity.
  - rewrite IH. destruct (truthyString (JS.trim p)); [|reflexivity].
    unfold push. rewrite <- app_assoc. reflexivity.
Qed.

Lemma collectActions_spec (checked : list jsstring) (customActions : jsstring) :
  collectActions checked customActions
  = checked ++ filter truthyString (List.map JS.trim (JS.split 10%N customActions)).
Proof.
  unfold collectActions. destruct customActions as [|c s]; cbn [truthyString].
  - simpl. rewrite app_nil_r. reflexivity.
  - apply collectActions_fold.
Qed.

Lemma In_trimStart (x : char) (s : jsstring) : In x (JS.trimStart s) -> In x s.
Proof.
  destruct (trimStart_split s) as [w [E _]]. intros H. rewrite E.
  apply in_or_app. right. assumption.
Qed.

Lemma In_trim (x : char) (s : jsstring) : In x (JS.trim s) -> In x s.
Proof.
  unfold JS.trim, JS.trimEnd. intros H.
  apply In_trimStart. apply in_rev in H. apply In_trimStart in H.
  apply in_rev. assumption.
Qed.

(** X11.  The action list of [generatePolicy] is the checked actions, as
    they are and in page order, followed by the actions of the text area;
    each of those is non-empty, has no white space at either end and holds
    no line feed. *)
Theorem generatePolicy_custom_actions (form : Form) :
  mergedActions form = checkedActions form ++ customActionsOf form
  /\ Forall (fun a => a <> [] /\ JS.trim a = a /\ ~ In 10%N a) (customActionsOf form).
Proof.
  split; [apply collectActions_spec|].
  unfold customActionsOf. apply Forall_forall. intros a Ha.
  apply filter_In in Ha as [Ha Hne]. apply in_map_iff in Ha as [p [<- Hp]].
  split; [apply truthyString_true; assumption|].
  split; [apply trim_idem|].
  intros Hin. apply In_trim in Hin.
  pose proof (split_pieces 10%N (JS.trim (customActionsInput form))) as Hpieces.
  rewrite Forall_forall in Hpieces. specialize (Hpieces p Hp).
  rewrite forallb_forall in Hpieces. specialize (Hpieces 10%N Hin).
  discriminate.
Qed.

(** X12.  White space before and after the bucket name, the resource
    path, the custom actions and the condition text does not change what
    [generatePolicy] does. *)
Theorem generatePolicy_ignores_padding
    (form : Form) (now : N) (b1 b2 p1 p2 c1 c2 k1 k2 : jsstring) :
  forallb JS.isWhiteSpace (b1 ++ b2 ++ p1 ++ p2 ++ c1 ++ c2 ++ k1 ++ k2) = true ->
  generatePolicy (paddedForm form b1 b2 p1 p2 c1 c2 k1 k2) now
  = generatePolicy form now.
Proof.
  rewrite !forallb_app, !andb_true_iff.
  intros [B1 [B2 [P1 [P2 [C1 [C2 [K1 K2]]]]]]].
  rewrite !generatePolicy_cases.
  unfold trimmedBucket, mergedActions, conditionText, baseStatement, pathOf,
    trimmedBucket, mergedActions, paddedForm.
  cbn [bucketNameInput policyEffect resourcePathInput checkedActions
       customActionsInput conditionInput].
  rewrite !trim_padding by assumption. reflexivity.
Qed.

Lemma generatePolicy_ignores_padding_witness :
  generatePolicy
    (paddedForm (sampleForm "test-bucket" ["s3:GetObject"%string] (lit ""))
       (lit "  ") [10%N] [] (lit " ") [9%N] [] [13%N; 10%N] [160%N]) 7
  = generatePolicy (sampleForm "test-bucket" ["s3:GetObject"%string] (lit "")) 7.
Proof.
  apply (generatePolicy_ignores_padding
           (sampleForm "test-bucket" ["s3:GetObject"%string] (lit "")) 7).
  reflexivity.
Defined.

(* ================================================================== *)
(** * Round trip: documents that validate without a warning *)
(* ================================================================== *)

Lemma known_actions_s3 : forallb s3Action validS3Actions = true.
Proof. vm_compute. reflexivity. Qed.

Lemma Silent_known_action (prefix a : jsstring) (idx : nat) :
  In a validS3Actions -> Silent (validateAction prefix (JString a) idx).
Proof.
  intros Hin. pose proof known_actions_s3 as H.
  rewrite forallb_forall in H. specialize (H a Hin).
  unfold s3Action in H. apply andb_true_iff in H as [Hcolon Hs3].
  unfold validateAction. rewrite Hcolon. cbn [negb]. cbv zeta.
  rewrite Hs3, (proj2 (arrayIncludes_In validS3Actions a) Hin).
  cbn [negb andb]. rewrite andb_false_r. cbn [andb]. apply Silent_done.
Qed.

Lemma Silent_validateActions (actions : list jsstring) (prefix : jsstring) :
  actions <> [] ->
  Forall (fun a => In a validS3Actions) actions ->
  Silent (validateActions (collapse actions) prefix).
Proof.
  intros Hne Hall. unfold validateActions. rewrite asList_collapse, length_map.
  destruct (length actions =? 0) eqn:E;
    [apply length_zero in E; congruence|].
  apply Silent_forEach. intros x i Hin.
  apply in_map_iff in Hin as [a [<- Hin]].
  rewrite Forall_forall in Hall. apply Silent_known_action. auto.
Qed.

Lemma Silent_validateResources (form : Form) (prefix : jsstring) :
  bucketAccepted form = true ->
  JS.includes (lit "/" ++ pathOf form) (lit "//") = false ->
  Silent (validateResources
            (collapse (buildResources (trimmedBucket form) (pathOf form)
                         (mergedActions form))) prefix).
Proof.
  intros Hb Hpath. unfold bucketAccepted in Hb.
  apply andb_true_iff in Hb as [_ Hvalid].
  unfold validateResources. rewrite asList_collapse, length_map.
  rewrite buildResources_cases.
  pose proof (fun i => Silent_bucket_resource _ prefix i Hvalid) as Hbucket.
  pose proof (fun i => Silent_object_resource _ _ prefix i Hvalid Hpath) as Hobject.
  pose proof (fun i => Silent_object_resource _ (lit "*") prefix i Hvalid eq_refl)
    as Hfallback.
  destruct (needsBucketResource _), (needsObjectResource _);
    cbn [length Nat.eqb List.map]; apply Silent_forEach; intros x i Hin;
    repeat match type of Hin with
           | In _ (_ :: _) => destruct Hin as [<- | Hin]
           | In _ [] => destruct Hin
           end;
    first [apply Hbucket | apply Hobject | apply Hfallback].
Qed.

Lemma Silent_validateCondition (condition : json) (prefix : jsstring) :
  conditionAccepted condition = true -> Silent (validateCondition condition prefix).
Proof.
  unfold conditionAccepted, validateCondition. intros H.
  apply andb_true_iff in H as [Hobj Hkeys]. apply negb_true_iff in Hobj.
  rewrite Hobj. apply Silent_forEach. intros operator i Hin.
  rewrite forallb_forall in Hkeys. specialize (Hkeys operator Hin).
  apply andb_true_iff in Hkeys as [Hop Hblock]. apply negb_true_iff in Hblock.
  unfold validateOperator. rewrite Hop, Hblock. cbn [negb when].
  apply Silent_seq; apply Silent_done.
Qed.

Lemma known_actions_colon (actions : list jsstring) :
  Forall (fun a => In a validS3Actions) actions ->
  Forall (fun a => JS.includes a (lit ":") = true) actions.
Proof.
  apply Forall_impl. intros a Hin. pose proof known_actions_s3 as H.
  rewrite forallb_forall in H. specialize (H a Hin).
  unfold s3Action in H. apply andb_true_iff in H as [H _]. exact H.
Qed.

Section SilentStatement.

Variable form : Form.
Variable now : N.
Variable extra : list (jsstring * json).

Hypothesis Hbucket : bucketAccepted form = true.
Hypothesis Heffect : policyEffect form = lit "Allow" \/ policyEffect form = lit "Deny".
Hypothesis Hactions : mergedActions form <> [].
Hypothesis Hknown : Forall (fun a => In a validS3Actions) (mergedActions form).
Hypothesis Hpath : JS.includes (lit "/" ++ pathOf form) (lit "//") = false.
Hypothesis Hextra :
  extra = []
  \/ exists condition,
       extra = [(lit "Condition", condition)]
       /\ (Val.truthy (Some condition) = false \/ conditionAccepted condition = true).

Let stmt := JObject (baseStatement form now ++ extra).
Let prefix := statementPrefix 0.

Lemma extra_assoc (name : jsstring) :
  JS.eqb (lit "Condition") name = false -> Val.assoc name extra = None.
Proof.
  intros H. destruct Hextra as [-> | [condition [-> _]]]; cbn [Val.assoc];
    [reflexivity|].
  rewrite H. reflexivity.
Qed.

Lemma known_not_blank : Forall (fun a : jsstring => a <> []) (mergedActions form).
Proof.
  apply Forall_impl with (2 := known_actions_colon _ Hknown). intros a Ha ->.
  discriminate.
Qed.

Lemma Silent_generated_statement : Silent (validateStatement stmt 0).
Proof.
  unfold stmt. rewrite validateStatement_object.
  destruct (get_base form now extra)
    as (Esid & Eeffect & Eaction & Eresource & Eprincipal & Enotprincipal
        & Enotaction & Enotresource & Econdition).
  apply Silent_seq.
  { unfold checkSid. rewrite Esid, sid_accepted. apply Silent_done. }
  apply Silent_seq.
  { unfold checkEffect. rewrite Eeffect.
    destruct Heffect as [-> | ->]; apply Silent_done. }
  apply Silent_seq.
  { unfold checkPrincipal. rewrite Eprincipal, extra_assoc by reflexivity.
    apply Silent_done. }
  apply Silent_seq.
  { unfold checkNotPrincipal. rewrite Enotprincipal, extra_assoc by reflexivity.
    apply Silent_done. }
  apply Silent_seq.
  { unfold checkActions. rewrite Eaction, Enotaction, extra_assoc by reflexivity.
    change (Val.truthy None) with false. cbn [whenPresent].
    rewrite !(truthy_collapse _ known_not_blank Hactions).
    cbn [negb andb when].
    apply Silent_seq; [apply Silent_done|].
    apply Silent_seq; [apply Silent_done|].
    apply Silent_seq; [|apply Silent_done].
    apply Silent_validateActions; assumption. }
  apply Silent_seq.
  { unfold checkResources. rewrite Eresource, Enotresource, extra_assoc by reflexivity.
    change (Val.truthy None) with false. cbn [whenPresent].
    rewrite !resources_truthy. cbn [negb andb when].
    apply Silent_seq; [apply Silent_done|].
    apply Silent_seq; [apply Silent_done|].
    apply Silent_seq; [|apply Silent_done].
    apply Silent_validateResources; assumption. }
  apply Silent_seq.
  { unfold checkCondition. rewrite Econdition.
    destruct Hextra as [-> | [condition [-> Hc]]]; simpl Val.assoc.
    - apply Silent_done.
    - cbn [whenPresent]. apply Silent_when. intros Ht.
      destruct Hc as [Hc | Hc]; [congruence|].
      apply Silent_validateCondition. assumption. }
  unfold checkUnknownFields. apply Silent_forEach. intros key i Hin.
  unfold checkUnknownField. apply Silent_when. intros Hunknown.
  apply negb_true_iff in Hunknown.
  cbn [Val.keys] in Hin. rewrite map_app in Hin. apply in_app_iff in Hin.
  destruct Hin as [Hin | Hin].
  - simpl in Hin.
    repeat match type of Hin with
           | _ \/ _ => destruct Hin as [<- | Hin]
           end; try discriminate. destruct Hin.
  - destruct Hextra as [-> | [condition [-> _]]]; simpl in Hin.
    + destruct Hin.
    + destruct Hin as [<- | []]. discriminate.
Qed.

End SilentStatement.

(** X13.  A document [generatePolicy] produced from a valid form passes
    [validatePolicy] without any error or warning when the effect is Allow
    or Deny, every action is one of the S3 actions the validator knows, the
    resource path neither starts with a slash nor contains two in a row,
    and the condition text is blank or parses to a falsy value or to an
    object of recognised operators over objects. *)
Theorem generated_policy_silent (form : Form) (now : N) (policy : json) :
  generatePolicy form now = Generated policy ->
  (policyEffect form = lit "Allow" \/ policyEffect form = lit "Deny") ->
  Forall (fun a => In a validS3Actions) (mergedActions form) ->
  JS.includes (lit "/" ++ pathOf form) (lit "//") = false ->
  (forall condition,
      conditionText form <> [] ->
      JSON.parse (conditionText form) = Some condition ->
      Val.truthy (Some condition) = false \/ conditionAccepted condition = true) ->
  validatePolicy policy = Some emptyLog.
Proof.
  intros Hgen Heffect Hknown Hpath Hcond.
  destruct (generated_inv form now policy Hgen) as [Hbucket [Hactions H]].
  assert (Hextra : exists extra,
             policy = policyDocument (baseStatement form now ++ extra)
             /\ (extra = []
                 \/ exists condition,
                      extra = [(lit "Condition", condition)]
                      /\ (Val.truthy (Some condition) = false
                          \/ conditionAccepted condition = true))).
  { destruct H as [[_ ->] | [condition [Hne [Hparse ->]]]].
    - exists []. rewrite app_nil_r. auto.
    - exists [(lit "Condition", condition)]. split; [reflexivity|].
      right. exists condition. auto. }
  destruct Hextra as [extra [-> Hextra]].
  rewrite validatePolicy_document.
  apply (Silent_generated_statement form now extra
           Hbucket Heffect Hactions Hknown Hpath Hextra).
Qed.

Lemma generated_policy_silent_witness :
  validatePolicy
    (policyDocument
       (baseStatement stringLikeConditionForm 42
        ++ [(lit "Condition",
             JObject [(lit "StringLike",
                       JObject [(lit "s3:prefix", JArray [JString (lit "a/*")])])])]))
  = Some emptyLog.
Proof.
  apply (generated_policy_silent stringLikeConditionForm 42).
  - vm_compute. reflexivity.
  - left; reflexivity.
  - constructor; [right; left; reflexivity | constructor].
  - reflexivity.
  - intros condition _ H. right.
    assert (E : condition
                = JObject [(lit "StringLike",
                            JObject [(lit "s3:prefix", JArray [JString (lit "a/*")])])]).
    { vm_compute in H. injection H as <-. reflexivity. }
    rewrite E. vm_compute. reflexivity.
Defined.

(* ================================================================== *)
(** * Live validation of the two fields *)
(* ================================================================== *)

(** X14.  [updateBucketNameValidation] marks the input [valid] exactly
    when the verdict it returns is valid, and [invalid] exactly when the
    trimmed name is not blank and the verdict is not valid; the verdict is
    that of [validateBucketName] on the trimmed name, or the single error
    "Bucket name is required" for a blank one; what the view held before
    the call does not show in the marks, the class or the content. *)
Theorem updateBucketNameValidation_marks (value : jsstring) (v : FieldView) :
  let (verdict, view) := updateBucketNameValidation value v in
  classValid view = bucket_isValid verdict
  /\ classInvalid view = negb (bucket_isValid verdict) && truthyString (JS.trim value)
  /\ verdict = (if truthyString (JS.trim value)
                then validateBucketName (JS.trim value)
                else mkBucketVerdict false [lit "Bucket name is required"])
  /\ (bucket_isValid verdict = true <-> bucket_errors verdict = [])
  /\ messageContent view
     = (if truthyString (JS.trim value) then
          if bucket_isValid verdict
          then TextContent (checkMark ++ lit " Valid bucket name")
          else InnerHTML (crossMark ++ lit " "
                          ++ JS.join (lit "<br>" ++ crossMark ++ lit " ")
                               (bucket_errors verdict))
        else TextContent (lit "")).
Proof.
  unfold updateBucketNameValidation.
  destruct (truthyString (JS.trim value)) eqn:Hblank; cbn [negb].
  - pose proof (isValid_errors (JS.trim value)) as Hc.
    destruct (bucket_isValid (validateBucketName (JS.trim value))) eqn:Hvalid;
      cbn [classValid classInvalid messageContent setContent setClass addValid
           addInvalid clearView negb andb];
      rewrite ?Hvalid; repeat split; auto; try apply Hc; try (intros E; apply Hc; exact E).
  - cbn [classValid classInvalid messageContent clearView bucket_isValid bucket_errors
         negb andb].
    repeat split; try discriminate.
Qed.

Lemma validatePrincipalARN_consistent (principal : jsstring) :
  Consistent (validatePrincipalARN principal).
Proof.
  unfold validatePrincipalARN.
  assert (H : StepConsistent
                (Continue emptyLog
                 >>> wildcardBlock principal
                 >>> emptyBlock principal
                 >>> canonicalIdBlock principal
                 >>> servicePrincipalBlock principal
                 >>> arnOrAccountBlock principal)).
  { repeat apply andThen_consistent; try exact I; intros l.
    - apply wildcardBlock_consistent.
    - apply emptyBlock_consistent.
    - apply canonicalIdBlock_consistent.
    - apply servicePrincipalBlock_consistent.
    - apply arnOrAccountBlock_consistent. }
  destruct (Continue emptyLog >>> _ >>> _ >>> _ >>> _ >>> _) as [v | l]; simpl.
  - exact H.
  - apply returnLog_consistent.
Qed.

(** X15.  [updatePrincipalValidation] marks the input [invalid] exactly
    when the verdict it returns lists an error, and marks it [valid] only
    when that verdict is valid with no error; a valid verdict never lists
    an error, but a verdict without error need not be valid (a hint is
    neither); the inline style of the message is set to the warning look or
    left as it was, never cleared. *)
Theorem updatePrincipalValidation_marks (value : jsstring) (v : FieldView) :
  let (verdict, view) := updatePrincipalValidation value v in
  (classInvalid view = true <-> errors verdict <> [])
  /\ (classValid view = true -> isValid verdict = true /\ errors verdict = [])
  /\ (isValid verdict = true -> errors verdict = [])
  /\ (classValid view && classInvalid view = false)
  /\ (messageStyle view = warningStyle \/ messageStyle view = messageStyle v).
Proof.
  unfold updatePrincipalValidation.
  destruct (negb (truthyString (JS.trim value))).
  { cbn. repeat split; auto; try discriminate; try (intros H; congruence). }
  destruct (getARNSuggestion (JS.trim value)) as [[[] message]|].
  - cbn. repeat split; auto; try discriminate; try (intros H; congruence).
  - cbn. repeat split; auto; try discriminate; try (intros H; congruence).
  - cbn. repeat split; auto; try discriminate; try (intros H; congruence).
  - cbn. repeat split; auto; try discriminate; try (intros H; congruence).
  - pose proof (validatePrincipalARN_consistent (JS.trim value)) as Hc.
    unfold Consistent in Hc.
    destruct (isValid (validatePrincipalARN (JS.trim value))) eqn:Hvalid.
    + assert (He : errors (validatePrincipalARN (JS.trim value)) = [])
        by (apply Hc; reflexivity).
      cbn [andb].
      destruct (length (warnings (validatePrincipalARN (JS.trim value))) =? 0) eqn:Hw.
      * cbn. rewrite He. repeat split; auto; try discriminate; try (intros H; congruence).
      * assert (Hpos : (0 <? length (warnings (validatePrincipalARN (JS.trim value))))
                       = true).
        { apply Nat.ltb_lt. apply Nat.eqb_neq in Hw. lia. }
        rewrite Hpos. cbn. rewrite He. repeat split; auto; try discriminate;
          try (intros H; congruence).
    + cbn [andb]. cbn.
      assert (He : errors (validatePrincipalARN (JS.trim value)) <> []).
      { intros E. apply Hc in E. congruence. }
      repeat split; auto; try discriminate; try (intros H; congruence).
Qed.

Lemma digits_Trimmed (s : jsstring) : forallb digit s = true -> JS.trim s = s.
Proof.
  intros H. apply Trimmed_trim. split.
  - intros c t ->. simpl in H. apply andb_true_iff in H as [H _].
    revert H. unfold digit, range, ch, JS.isWhiteSpace. simpl N_of_ascii.
    rewrite andb_true_iff, !N.leb_le. intros [H1 H2].
    repeat (apply orb_false_iff; split);
      try apply andb_false_iff; rewrite ?N.eqb_neq, ?N.leb_gt; lia.
  - intros t c ->. rewrite forallb_app in H. apply andb_true_iff in H as [_ H].
    simpl in H. rewrite andb_true_r in H.
    revert H. unfold digit, range, ch, JS.isWhiteSpace. simpl N_of_ascii.
    rewrite andb_true_iff, !N.leb_le. intros [H1 H2].
    repeat (apply orb_false_iff; split);
      try apply andb_false_iff; rewrite ?N.eqb_neq, ?N.leb_gt; lia.
Qed.

Lemma getARNSuggestion_of_digits (principal : jsstring) :
  principal <> [] -> forallb digit principal = true ->
  getARNSuggestion principal = stageDigits principal
  /\ test re_digits principal = true.
Proof.
  intros Hne Hd.
  assert (Hre : test re_digits principal = true)
    by (apply test_anchored, Matches_plus_Class; auto).
  split; [|assumption].
  unfold getARNSuggestion.
  destruct principal as [|c t]; [congruence|].
  cbn [truthyString negb length Nat.eqb orb].
  unfold arnStages, stageServicePrincipal, stageWildcard.
  rewrite !(startsWith_false_by_class digit _ _ Hd) by reflexivity.
  rewrite !(includes_false_by_class digit _ _ Hd) by reflexivity.
  assert (Hw : JS.eqb (c :: t) (lit "*") = false).
  { apply eqb_neq. intros E. rewrite E in Hd. discriminate. }
  rewrite Hw. reflexivity.
Qed.

(** X16.  For a principal made of digits [getARNSuggestion] counts them:
    fewer than twelve give a hint that says how many are typed and how many
    are missing, twelve give a warning that proposes the ARN of the
    account's root, more give an error; so [updatePrincipalValidation]
    returns a valid verdict for such a principal exactly at twelve digits. *)
Theorem getARNSuggestion_digits (principal : jsstring) (v : FieldView) :
  principal <> [] -> forallb digit principal = true ->
  getARNSuggestion principal
  = (if length principal <? 12 then hintOf (msg_digits_so_far (length principal))
     else if length principal =? 12 then
       warningOf (warningSign
                  ++ lit " Valid account ID. Consider using full ARN: <code>arn:aws:iam::"
                  ++ principal ++ lit ":root</code>")
     else errorOf (crossMark ++ lit " Account ID must be exactly 12 digits"))
  /\ isValid (fst (updatePrincipalValidation principal v)) = (length principal =? 12).
Proof.
  intros Hne Hd.
  destruct (getARNSuggestion_of_digits principal Hne Hd) as [E Hre].
  unfold updatePrincipalValidation. rewrite (digits_Trimmed _ Hd), E.
  unfold stageDigits. rewrite Hre. cbn [guard].
  assert (Ht : truthyString principal = true)
    by (destruct principal; [congruence | reflexivity]).
  rewrite Ht. cbn [negb].
  destruct (length principal <? 12) eqn:Hlt.
  - split; [reflexivity|]. cbn.
    apply Nat.ltb_lt in Hlt. symmetry. apply Nat.eqb_neq. lia.
  - destruct (length principal =? 12); split; reflexivity.
Qed.

Lemma getARNSuggestion_digits_witness :
  getARNSuggestion (lit "12345")
  = hintOf (msg_digits_so_far 5)
  /\ isValid (fst (updatePrincipalValidation (lit "12345")
                     (mkFieldView false false [] (TextContent [])
                        (mkInlineStyle None None None None)))) = false.
Proof.
  apply (getARNSuggestion_digits (lit "12345")); [discriminate | reflexivity].
Defined.

Lemma endsWith_last (s : jsstring) (d c : char) :
  N.eqb d c = false -> JS.endsWith (s ++ [d]) [c] = false.
Proof.
  intros H. unfold JS.endsWith. rewrite rev_app_distr. simpl. rewrite H. reflexivity.
Qed.

Lemma noColon_app (a b : jsstring) :
  noColon (a ++ b) = noColon a && noColon b.
Proof. apply forallb_app. Qed.

(** The suggestion for an IAM ARN whose resource is typed in full. *)
Lemma getARNSuggestion_typed_iam
    (partition region account type name : jsstring) (c : char) (rest : jsstring) :
  noColon partition = true -> noColon region = true -> noColon account = true ->
  noColon name = true ->
  partition <> lit "ipcld" ->
  In type [lit "user"; lit "role"; lit "group"] ->
  name = c :: rest -> c <> ch "/" ->
  getARNSuggestion (arnOf partition (lit "iam") region account (type ++ lit "/" ++ name))
  = successOf (checkMark ++ lit " Valid IAM " ++ type ++ lit " ARN").
Proof.
  intros Np Nr Na Nn Hp Htype Ename Hc.
  assert (Ntype : noColon type = true).
  { simpl in Htype.
    repeat match type of Htype with _ \/ _ => destruct Htype as [<- | Htype] end;
      try reflexivity. destruct Htype. }
  assert (Nres : noColon (type ++ lit "/" ++ name) = true)
    by (rewrite !noColon_app, Ntype, Nn; reflexivity).
  assert (Hparts : JS.split (ch ":")
                     (arnOf partition (lit "iam") region account (type ++ lit "/" ++ name))
                   = [lit "arn"; partition; lit "iam"; region; account;
                      type ++ lit "/" ++ name]).
  { rewrite split_arnOf by (assumption || reflexivity).
    rewrite (split_no_sep (ch ":") _ Nres). reflexivity. }
  assert (Hend : JS.endsWith
                   (arnOf partition (lit "iam") region account (type ++ lit "/" ++ name))
                   (lit ":") = false).
  { destruct (@exists_last _ name) as [name' [d Ed]]; [rewrite Ename; discriminate|].
    assert (Hd : N.eqb d (ch ":") = false).
    { rewrite Ed in Nn. rewrite noColon_app in Nn.
      apply andb_true_iff in Nn as [_ Nn]. simpl in Nn.
      rewrite andb_true_r in Nn. apply negb_true_iff in Nn. exact Nn. }
    unfold arnOf. rewrite Ed. rewrite !app_assoc. apply endsWith_last. exact Hd. }
  unfold getARNSuggestion.
  change (truthyString (arnOf partition (lit "iam") region account
                          (type ++ lit "/" ++ name))) with true.
  change (length (arnOf partition (lit "iam") region account
                    (type ++ lit "/" ++ name)) =? 0) with false.
  cbn [negb orb]. unfold arnStages.
  change (JS.startsWith (arnOf partition (lit "iam") region account
                           (type ++ lit "/" ++ name)) (lit "arn:")) with true.
  cbn [orb guard]. cbv zeta. rewrite Hparts.
  unfold stageArnPrefix, stageArnTyped, stagePartition, stageNeedService, stageService,
    stageNeedRegion, stageRegion, stageNeedAccount, stageAccount, stageNeedResource.
  cbn [length Nat.eqb andb guard orElse]. rewrite Hend. cbn [andb guard orElse].
  unfold stageResource. cbn [length Nat.leb guard nth_error JS.slice skipn JS.join].
  cbv zeta.
  assert (Hipcld : Opt.strictEq (Some partition) (lit "ipcld") = false)
    by (apply strictEq_false; congruence).
  rewrite Hipcld.
  change (Opt.strictEq (Some (lit "iam")) (lit "iam")) with true. cbv iota.
  assert (Hroot : JS.eqb (type ++ lit "/" ++ name) (lit "root") = false).
  { simpl in Htype.
    repeat match type of Htype with _ \/ _ => destruct Htype as [<- | Htype] end;
      try reflexivity. destruct Htype. }
  rewrite Hroot.
  assert (Hslash : JS.includes (type ++ lit "/" ++ name) (lit "/") = true)
    by (apply includes_spec; exists type, name; reflexivity).
  rewrite Hslash.
  assert (Hsplit : JS.split (ch "/") (type ++ lit "/" ++ name)
                   = type :: JS.split (ch "/") name).
  { apply (split_app (ch "/") type name). simpl in Htype.
    repeat match type of Htype with _ \/ _ => destruct Htype as [<- | Htype] end;
      try reflexivity. destruct Htype. }
  rewrite Hsplit. cbn [nth_error].
  assert (Hmember : Opt.memberOf [lit "user"; lit "role"; lit "group"] (Some type) = true)
    by (apply arrayIncludes_In; assumption).
  rewrite Hmember.
  assert (Hname : hasName (nth_error (JS.split (ch "/") name) 0) = true).
  { rewrite Ename.
    destruct (split_cons_other (ch "/") c rest) as [p [ps [_ E]]].
    { apply N.eqb_neq. assumption. }
    rewrite E. reflexivity. }
  change (match JS.split (ch "/") name with [] => None | x :: _ => Some x end)
    with (nth_error (JS.split (ch "/") name) 0).
  rewrite Hname. reflexivity.
Qed.

Lemma arnOf_fields (p1 s1 r1 a1 res1 p2 s2 r2 a2 res2 : jsstring) :
  noColon p1 = true -> noColon s1 = true -> noColon r1 = true -> noColon a1 = true ->
  noColon p2 = true -> noColon s2 = true -> noColon r2 = true -> noColon a2 = true ->
  arnOf p1 s1 r1 a1 res1 = arnOf p2 s2 r2 a2 res2 ->
  p1 = p2 /\ s1 = s2 /\ r1 = r2 /\ a1 = a2 /\ res1 = res2.
Proof.
  intros P1 S1 R1 A1 P2 S2 R2 A2 E.
  pose proof (f_equal (JS.split (ch ":")) E) as Hs.
  rewrite !split_arnOf in Hs by assumption.
  injection Hs as -> -> -> -> Hres.
  repeat split; try reflexivity.
  transitivity (JS.join [ch ":"] (JS.split (ch ":") res1));
    [symmetry; apply join_split|].
  transitivity (JS.join [ch ":"] (JS.split (ch ":") res2)); [|apply join_split].
  f_equal. exact Hres.
Qed.

(** X17.  For an IAM ARN whose resource is typed in full,
    [arn:partition:iam:region:account:type/name] with a type among user,
    role and group, fields and name free of colons, and a name that is not
    empty and does not begin with a slash, [updatePrincipalValidation]
    answers from the suggestion alone: it returns a valid verdict with no
    error and marks the input valid whatever the partition (but ipcld), the
    region and the account id are, also where [validatePrincipalARN]
    rejects the same string, as it does whenever the account id is not
    twelve characters long. *)
Theorem updatePrincipalValidation_typed_iam_resource
    (value partition region account type name : jsstring) (c : char) (rest : jsstring)
    (v : FieldView) :
  noColon partition = true -> noColon region = true -> noColon account = true ->
  noColon name = true ->
  partition <> lit "ipcld" ->
  In type [lit "user"; lit "role"; lit "group"] ->
  name = c :: rest -> c <> ch "/" ->
  JS.trim value
  = arnOf partition (lit "iam") region account (type ++ lit "/" ++ name) ->
  fst (updatePrincipalValidation value v) = mkVerdict true [] []
  /\ classValid (snd (updatePrincipalValidation value v)) = true
  /\ (length account <> 12 -> isValid (validatePrincipalARN (JS.trim value)) = false).
Proof.
  intros Np Nr Na Nn Hp Htype Ename Hc Etrim.
  pose proof (getARNSuggestion_typed_iam _ _ _ _ _ _ _ Np Nr Na Nn Hp Htype Ename Hc)
    as Hs.
  unfold updatePrincipalValidation. rewrite Etrim, Hs.
  change (truthyString (arnOf partition (lit "iam") region account
                          (type ++ lit "/" ++ name))) with true.
  cbn [negb successOf suggestionType suggestionMessage fst snd classValid
       setContent setClass addValid].
  split; [reflexivity|]. split; [reflexivity|].
  intros Hlen. rewrite validatePrincipalARN_arn by reflexivity.
  destruct (looksLikeServicePrincipal _).
  { rewrite service_principal_not_arn by reflexivity.
    destruct (arnBlock_after_error
                (arnOf partition (lit "iam") region account (type ++ lit "/" ++ name))
                msg_service_format) as [_ [_ ->]].
    reflexivity. }
  unfold arnBlock.
  replace (nth_error
             (JS.split (ch ":")
                (arnOf partition (lit "iam") region account (type ++ lit "/" ++ name))) 1)
    with (Some partition)
    by (rewrite split_arnOf by (assumption || reflexivity); reflexivity).
  assert (Hipcld : Opt.strictEq (Some partition) (lit "ipcld") = false)
    by (apply strictEq_false; congruence).
  rewrite Hipcld. cbn [finish].
  destruct (isValid (returnLog _)) eqn:Hvalid; [exfalso | reflexivity].
  apply isValid_returnLog in Hvalid.
  destruct (test arnRegex
              (arnOf partition (lit "iam") region account (type ++ lit "/" ++ name)))
    eqn:Ere.
  - apply arnRegex_spec in Ere as [P [S [R [A [Res [E Hshape]]]]]].
    destruct (ArnShape_noColon _ _ _ _ _ Hshape) as [NP [NS [NR NA]]].
    destruct (arnOf_fields partition (lit "iam") region account
                (type ++ lit "/" ++ name) P S R A Res
                Np eq_refl Nr Na NP NS NR NA E)
      as [<- [<- [<- [<- <-]]]].
    apply (proj1 (awsBlock_fields_errors _ _ _ _ _ Hshape)) in Hvalid.
    + destruct Hvalid as [Hl _]. congruence.
    + reflexivity.
  - unfold awsBlock in Hvalid. rewrite Ere in Hvalid. discriminate.
Qed.

Lemma updatePrincipalValidation_typed_iam_resource_witness :
  fst (updatePrincipalValidation (lit " arn:aws:iam::12345:user/alice ")
         (mkFieldView false false [] (TextContent []) (mkInlineStyle None None None None)))
  = mkVerdict true [] []
  /\ classValid
       (snd (updatePrincipalValidation (lit " arn:aws:iam::12345:user/alice ")
               (mkFieldView false false [] (TextContent [])
                  (mkInlineStyle None None None None)))) = true
  /\ (length (lit "12345") <> 12 ->
      isValid (validatePrincipalARN (JS.trim (lit " arn:aws:iam::12345:user/alice ")))
      = false).
Proof.
  apply (updatePrincipalValidation_typed_iam_resource
           (lit " arn:aws:iam::12345:user/alice ") (lit "aws") (lit "") (lit "12345")
           (lit "user") (lit "alice") (ch "a") (lit "lice"));
    try reflexivity.
  - discriminate.
  - left; reflexivity.
  - discriminate.
Defined.

(** A name that begins with a slash: [resource.split('/')[1]] is empty, and
    the answer is a hint with an invalid verdict. *)
Example typed_iam_resource_empty_name :
  fst (updatePrincipalValidation (lit "arn:aws:iam::123456789012:user//x") sampleView)
  = mkVerdict false [] []
  /\ classValid
       (snd (updatePrincipalValidation (lit "arn:aws:iam::123456789012:user//x")
               sampleView))
     = false.
Proof. split; vm_compute; reflexivity. Qed.



(* ================================================================== *)
(** * [debounce] *)
(* ================================================================== *)

Section DebounceFacts.

Variable Args : Type.
Variable wait : nat.

Lemma Settled_initial : Settled Args wait (initialWorld Args).
Proof.
  split; cbn; auto using NoDup_nil.
Qed.

Lemma clearTimeout_one (id : nat) (t : Timer Args) :
  timerId t = id -> clearTimeout (Some id) [t] = [].
Proof.
  intros <-. cbn. rewrite Nat.eqb_refl. reflexivity.
Qed.

Lemma nth_error_snoc_lt (A : Type) (l : list A) (x : A) (j : nat) :
  j < length l -> nth_error (l ++ [x]) j = nth_error l j.
Proof.
  intros H. apply nth_error_app1. exact H.
Qed.

Lemma nth_error_snoc_ge (A : Type) (l : list A) (x c : A) (j : nat) :
  length l <= j -> nth_error (l ++ [x]) j = Some c -> c = x.
Proof.
  intros H E. rewrite nth_error_app2 in E by exact H.
  destruct (j - length l) as [|k]; cbn in E.
  - congruence.
  - destruct k; discriminate.
Qed.

Lemma Settled_call (args : Args) (w : World Args) :
  Settled Args wait w -> Settled Args wait (executedFunction wait args w).
Proof.
  intros [Ht Hc Hr Ho].
  assert (Hclear : clearTimeout (timeout w) (timers w) = []).
  { destruct Ht as [E | (id & t & a & before & E & Eid & _)].
    - rewrite E. destruct (timeout w); reflexivity.
    - rewrite E, Eid. apply clearTimeout_one. reflexivity. }
  split; unfold executedFunction; cbn; rewrite ?Hclear; cbn.
  - right. exists (freshId w), (clock w), args, (calls w).
    repeat split.
    rewrite length_app. cbn.
    eapply Forall_impl; [| exact Hr]. cbn. intros r (_ & H & _). lia.
  - apply Forall_app. split.
    + exact Hc.
    + constructor; [cbn; lia | constructor].
  - rewrite Forall_forall in Hr, Hc. apply Forall_forall. intros r Hin.
    destruct (Hr r Hin) as (H1 & H2 & (t & H3 & H4 & H5) & H6).
    rewrite length_app. cbn.
    split; [exact H1 |]. split; [lia |]. split.
    + exists t. split; [| split; assumption].
      rewrite nth_error_snoc_lt by lia. exact H3.
    + intros j c Hj E.
      destruct (Nat.lt_ge_cases j (length (calls w))) as [Hlt | Hge].
      * rewrite nth_error_snoc_lt in E by exact Hlt. eauto.
      * apply nth_error_snoc_ge in E; [| exact Hge]. subst c. cbn. exact H1.
  - exact Ho.
Qed.

Lemma Settled_tick (ms : nat) (w : World Args) :
  Settled Args wait w ->
  Settled Args wait (mkWorld (clock w + ms) (timers w) (freshId w) (timeout w) (calls w) (runs w)).
Proof.
  intros [Ht Hc Hr Ho]. split; cbn.
  - exact Ht.
  - eapply Forall_impl; [| exact Hc]. cbn. intros c H. lia.
  - eapply Forall_impl; [| exact Hr]. cbn. intros r (H1 & H2 & H3 & H4).
    split; [lia | split; [| split]; assumption].
  - exact Ho.
Qed.

Lemma Settled_fire (id : nat) (w w' : World Args) :
  Settled Args wait w -> step wait w (Fire id) = Some w' -> Settled Args wait w'.
Proof.
  intros [Ht Hc Hr Ho] E. cbn in E.
  destruct Ht as [Et | (id0 & t & a & before & Et & Eid & Ecalls & Hnot)].
  - rewrite Et in E. discriminate.
  - rewrite Et in E. cbn in E.
    destruct (id0 =? id) eqn:Hid; [| discriminate].
    apply Nat.eqb_eq in Hid. subst id0.
    cbn [timerDue timerId negb] in E.
    destruct (t + wait <=? clock w) eqn:Hdue; [| discriminate].
    apply Nat.leb_le in Hdue.
    injection E as <-. unfold later. cbn.
    rewrite Eid. cbn.
    split; cbn.
    + left. reflexivity.
    + exact Hc.
    + apply Forall_app. split; [exact Hr |].
      constructor; [| constructor]. cbn.
      split; [lia |]. split; [lia |]. split.
      * exists t. split; [| split].
        -- rewrite Ecalls, length_app. cbn.
           replace (pred (length before + 1)) with (length before) by lia.
           rewrite nth_error_app2 by lia.
           rewrite Nat.sub_diag. reflexivity.
        -- rewrite Ecalls, length_app. cbn. lia.
        -- exact Hdue.
      * intros j c Hj Ej.
        assert (nth_error (calls w) j <> None) as Hn by congruence.
        apply nth_error_Some in Hn. lia.
    + rewrite map_app. cbn.
      apply NoDup_app; repeat split.
      * exact Ho.
      * constructor; [intros [] | constructor].
      * intros n Hin [<- | []].
        apply in_map_iff in Hin. destruct Hin as (r & Er & Hin).
        rewrite Forall_forall in Hnot. specialize (Hnot r Hin). lia.
Qed.

Lemma Settled_step (e : Event Args) (w w' : World Args) :
  Settled Args wait w -> step wait w e = Some w' -> Settled Args wait w'.
Proof.
  intros H E. destruct e as [args | id | ms].
  - injection E as <-. apply Settled_call. exact H.
  - eapply Settled_fire; eassumption.
  - injection E as <-. apply Settled_tick. exact H.
Qed.

Lemma Settled_run (events : list (Event Args)) (w w' : World Args) :
  Settled Args wait w -> run wait events w = Some w' -> Settled Args wait w'.
Proof.
  revert w. induction events as [| e rest IH]; intros w H E; cbn in E.
  - injection E as <-. exact H.
  - destruct (step wait w e) as [w1 |] eqn:E1; [| discriminate].
    eapply IH; [| exact E]. eapply Settled_step; eassumption.
Qed.

End DebounceFacts.

(** X18 ([debounce]).  Whatever sequence of calls, timer firings and
    passing time leads from the start to a world [w]: at most one timer is
    waiting; every run of [func] received the arguments of the call of the
    debounced function that was the most recent one at that moment, at
    least [wait] milliseconds after that call, and every later call was
    made no earlier than that run; and no call of the debounced function
    made [func] run twice. *)
Theorem debounce_runs_last_call (Args : Type) (wait : nat)
    (events : list (Event Args)) (w : World Args) :
  run wait events (initialWorld Args) = Some w ->
  length (timers w) <= 1 /\
  Forall (fun r =>
    (exists t, nth_error (calls w) (pred (runAfter r)) = Some (t, runArgs r) /\
               1 <= runAfter r /\ t + wait <= runTime r) /\
    (forall j c, runAfter r <= j -> nth_error (calls w) j = Some c ->
                 runTime r <= fst c)) (runs w) /\
  NoDup (map (@runAfter Args) (runs w)).
Proof.
  intros E.
  destruct (Settled_run Args wait events _ _ (Settled_initial Args wait) E)
    as [Ht _ Hr Ho].
  repeat split.
  - destruct Ht as [-> | (id & t & a & before & -> & _)]; cbn; lia.
  - eapply Forall_impl; [| exact Hr]. cbn. intros r (_ & _ & H3 & H4).
    split; assumption.
  - exact Ho.
Qed.

Lemma debounce_runs_last_call_witness :
  exists w,
    run 300 [Call 1; Tick 100; Call 2; Tick 300; Fire 2;
             Call 3; Tick 300; Fire 3] (initialWorld nat) = Some w /\
    map (@runArgs nat) (runs w) = [2; 3] /\
    length (timers w) <= 1 /\
    Forall (fun r =>
      (exists t, nth_error (calls w) (pred (runAfter r)) = Some (t, runArgs r) /\
                 1 <= runAfter r /\ t + 300 <= runTime r) /\
      (forall j c, runAfter r <= j -> nth_error (calls w) j = Some c ->
                   runTime r <= fst c)) (runs w) /\
    NoDup (map (@runAfter nat) (runs w)).
Proof.
  eexists. split; [vm_compute; reflexivity |]. split; [reflexivity |].
  apply (debounce_runs_last_call nat 300
           [Call 1; Tick 100; Call 2; Tick 300; Fire 2; Call 3; Tick 300; Fire 3]).
  reflexivity.
Defined.


Lemma Settled_clear (Args : Type) (wait : nat) (w : World Args) :
  Settled Args wait w -> clearTimeout (timeout w) (timers w) = [].
Proof.
  intros [Ht _ _ _].
  destruct Ht as [E | (id & t & a & before & E & Eid & _)].
  - rewrite E. destruct (timeout w); reflexivity.
  - rewrite E, Eid. apply clearTimeout_one. reflexivity.
Qed.

(** X19 ([debounce]).  A call is not lost: from any world reached from the
    start, when the debounced function is called and at least [wait]
    milliseconds pass without another call, the timer of that call fires,
    and [func] runs once with the arguments of that call; no timer is left
    waiting. *)
Theorem debounce_quiet_call_runs (Args : Type) (wait : nat)
    (events : list (Event Args)) (w : World Args) (args : Args) (ms : nat) :
  run wait events (initialWorld Args) = Some w ->
  wait <= ms ->
  exists w',
    run wait [Call args; Tick ms; Fire (freshId w)] w = Some w' /\
    runs w' = runs w ++ [mkRun (clock w + ms) args (S (length (calls w)))] /\
    timers w' = [].
Proof.
  intros E Hms.
  pose proof (Settled_run Args wait events _ _ (Settled_initial Args wait) E) as Hs.
  apply Settled_clear in Hs.
  cbn [run step]. unfold executedFunction. rewrite Hs.
  cbn [app timers clock freshId timeout calls runs find timerId timerDue].
  rewrite Nat.eqb_refl. cbn [timerDue].
  rewrite (proj2 (Nat.leb_le (clock w + wait) (clock w + ms))) by lia.
  eexists. split; [reflexivity |].
  unfold later.
  cbn [app timers clock freshId timeout calls runs filter timerId timerArgs
       clearTimeout negb].
  rewrite Nat.eqb_refl. cbn [negb filter].
  rewrite length_app, Nat.add_1_r. split; reflexivity.
Qed.

Lemma debounce_quiet_call_runs_witness :
  exists w',
    run 300 [Call 7; Tick 300; Fire 2]
      (mkWorld 50 [mkTimer 1 350 5] 2 (Some 1) [(50, 5)] []) = Some w' /\
    runs w' = [mkRun 350 7 2] /\
    timers w' = [].
Proof.
  apply (debounce_quiet_call_runs nat 300 [Tick 50; Call 5]
           (mkWorld 50 [mkTimer 1 350 5] 2 (Some 1) [(50, 5)] []) 7 300).
  - reflexivity.
  - lia.
Defined.

(* ================================================================== *)
(** * [JSON.stringify] and [JSON.parse] *)
(* ================================================================== *)

Import Stringify.

Lemma hexValue_hexDigit (n : N) :
  (n < 16)%N -> JSON.hexValue (hexDigit n) = Some n.
Proof.
  intros H.
  assert (Hn : n = 0%N \/ n = 1%N \/ n = 2%N \/ n = 3%N \/ n = 4%N \/ n = 5%N
               \/ n = 6%N \/ n = 7%N \/ n = 8%N \/ n = 9%N \/ n = 10%N \/ n = 11%N
               \/ n = 12%N \/ n = 13%N \/ n = 14%N \/ n = 15%N) by lia.
  repeat (destruct Hn as [-> | Hn]; [reflexivity |]). subst. reflexivity.
Qed.

Lemma hex4_digits (c : char) :
  (c < 65536)%N ->
  JSON.hex4 (hexDigit (c / 4096)) (hexDigit ((c / 256) mod 16))
            (hexDigit ((c / 16) mod 16)) (hexDigit (c mod 16)) = Some c.
Proof.
  intros H. unfold JSON.hex4.
  rewrite !hexValue_hexDigit.
  - f_equal.
    pose proof (N.div_mod c 16 ltac:(lia)) as H0.
    pose proof (N.div_mod (c / 16) 16 ltac:(lia)) as H1.
    pose proof (N.div_mod (c / 256) 16 ltac:(lia)) as H2.
    replace (c / 16 / 16)%N with (c / 256)%N in H1
      by (rewrite N.Div0.div_div; reflexivity).
    replace (c / 256 / 16)%N with (c / 4096)%N in H2
      by (rewrite N.Div0.div_div; reflexivity).
    pose proof (N.mod_upper_bound (c / 256) 16 ltac:(lia)).
    assert (c / 4096 < 16)%N by (apply N.Div0.div_lt_upper_bound; lia).
    lia.
  - apply N.mod_upper_bound. lia.
  - apply N.mod_upper_bound. lia.
  - apply N.mod_upper_bound. lia.
  - apply N.Div0.div_lt_upper_bound. lia.
Qed.

Lemma parseChars_unicodeEscape (c : char) (s : jsstring) :
  (c < 65536)%N ->
  JSON.parseChars (unicodeEscape c ++ s) = JSON.consChar c (JSON.parseChars s).
Proof.
  intros H. unfold unicodeEscape.
  cbn -[JSON.hex4 N.div N.modulo hexDigit].
  rewrite hex4_digits by exact H. reflexivity.
Qed.

Lemma parseChars_plain (c : char) (s : jsstring) :
  (c =? 34)%N = false -> (c =? 92)%N = false -> (c <? 32)%N = false ->
  JSON.parseChars (c :: s) = JSON.consChar c (JSON.parseChars s).
Proof.
  intros H1 H2 H3. cbn [JSON.parseChars]. rewrite H1, H2, H3. reflexivity.
Qed.

Lemma parseChars_shortEscape (c e : char) (s : jsstring) :
  shortEscape c = Some e ->
  JSON.parseChars (92%N :: e :: s) = JSON.consChar c (JSON.parseChars s).
Proof.
  unfold shortEscape. intros H.
  repeat match type of H with
         | (if ?b then _ else _) = _ => destruct b eqn:?
         end; inv H;
    repeat match goal with
           | E : (_ =? _)%N = true |- _ => apply N.eqb_eq in E; subst
           end; reflexivity.
Qed.

Lemma shortEscape_None (c : char) :
  shortEscape c = None -> (c =? 34)%N = false /\ (c =? 92)%N = false.
Proof.
  unfold shortEscape. intros H.
  repeat match type of H with
         | (if ?b then _ else _) = _ => destruct b eqn:?
         end; try discriminate.
  split; reflexivity.
Qed.

Lemma parseChars_quoteChars_upto (n : nat) :
  forall s rest, length s <= n ->
    JSON.parseChars (quoteChars s ++ dq ++ rest) = Some (s, rest).
Proof.
  induction n as [| n IH]; intros s rest Hlen.
  - destruct s; [reflexivity | cbn in Hlen; lia].
  - destruct s as [| c s']; [reflexivity |].
    cbn [length] in Hlen.
    cbn [quoteChars].
    destruct (shortEscape c) as [e |] eqn:He.
    + cbn [app]. rewrite (parseChars_shortEscape c e _ He).
      rewrite IH by lia. reflexivity.
    + destruct (shortEscape_None c He) as [H34 H92].
      destruct (c <? 32)%N eqn:H32.
      * rewrite <- app_assoc, parseChars_unicodeEscape
          by (apply N.ltb_lt in H32; lia).
        rewrite IH by lia. reflexivity.
      * destruct (isLeadingSurrogate c) eqn:Hlead.
        { assert (Hc : (c < 65536)%N).
          { unfold isLeadingSurrogate in Hlead.
            apply andb_true_iff in Hlead. destruct Hlead as [_ H].
            apply N.leb_le in H. lia. }
          destruct s' as [| d s''].
          - rewrite parseChars_unicodeEscape by exact Hc.
            reflexivity.
          - destruct (isTrailingSurrogate d) eqn:Htrail.
            + cbn [app]. rewrite parseChars_plain by assumption.
              unfold isTrailingSurrogate in Htrail.
              apply andb_true_iff in Htrail. destruct Htrail as [Hd _].
              apply N.leb_le in Hd.
              rewrite parseChars_plain
                by (try apply N.eqb_neq; try apply N.ltb_ge; lia).
              cbn [length] in Hlen. rewrite IH by lia. reflexivity.
            + rewrite <- app_assoc, parseChars_unicodeEscape by exact Hc.
              rewrite IH by lia. reflexivity. }
        destruct (isTrailingSurrogate c) eqn:Htrail.
        { assert (Hc : (c < 65536)%N).
          { unfold isTrailingSurrogate in Htrail.
            apply andb_true_iff in Htrail. destruct Htrail as [_ H].
            apply N.leb_le in H. lia. }
          rewrite <- app_assoc, parseChars_unicodeEscape by exact Hc.
          rewrite IH by lia. reflexivity. }
        cbn [app]. rewrite parseChars_plain by assumption.
        rewrite IH by lia. reflexivity.
Qed.

Lemma parseChars_quoteChars (s rest : jsstring) :
  JSON.parseChars (quoteChars s ++ dq ++ rest) = Some (s, rest).
Proof.
  apply (parseChars_quoteChars_upto (length s)). lia.
Qed.

Lemma parseNumber_parts (s : jsstring) :
  JSON.parseNumber s
  = let '(negative, s) :=
      match s with
      | c :: s' => if one "-" c then (true, s') else (false, s)
      | [] => (false, s)
      end in
    let '(int, s) := JSON.spanDigits s in
    afterInteger negative int s.
Proof. reflexivity. Qed.

Lemma spanDigits_app (s rest : jsstring) :
  delimited rest = true ->
  JSON.spanDigits (s ++ rest)
  = (fst (JSON.spanDigits s), snd (JSON.spanDigits s) ++ rest).
Proof.
  intros Hd. induction s as [| c s IH].
  - cbn [app]. destruct rest as [| d rest]; [reflexivity |].
    cbn in Hd. cbn [JSON.spanDigits].
    destruct (digit d); [discriminate | reflexivity].
  - cbn [app JSON.spanDigits]. destruct (digit c); [| reflexivity].
    rewrite IH. destruct (JSON.spanDigits s). reflexivity.
Qed.

Lemma delimited_head (c : char) (rest : jsstring) :
  delimited (c :: rest) = true ->
  digit c = false /\ one "." c = false /\ one "e" c = false /\ one "E" c = false.
Proof.
  cbn. intros H. apply negb_true_iff in H.
  repeat (apply orb_false_iff in H; destruct H as [H ?]). auto.
Qed.

Lemma exponentPart_app (s rest r : jsstring) (e : Z) :
  exponentPart s = Some (e, r) -> delimited rest = true ->
  exponentPart (s ++ rest) = Some (e, r ++ rest).
Proof.
  intros H Hd. destruct s as [| c s'].
  - cbn in H. inv H. cbn [app]. destruct rest as [| d rest]; [reflexivity |].
    destruct (delimited_head _ _ Hd) as (_ & _ & He & HE).
    cbn [exponentPart]. rewrite He, HE. reflexivity.
  - cbn [app exponentPart] in *.
    destruct (one "e" c || one "E" c).
    + assert (Hsign :
        (match s' ++ rest with
         | g :: t => if one "-" g then (true, t)
                     else if one "+" g then (false, t) else (false, s' ++ rest)
         | [] => (false, s' ++ rest)
         end)
        = (let '(n, t) :=
             match s' with
             | g :: t => if one "-" g then (true, t)
                         else if one "+" g then (false, t) else (false, s')
             | [] => (false, s')
             end in (n, t ++ rest))
        \/ s' = []).
      { destruct s' as [| g t]; [right; reflexivity | left].
        cbn [app]. destruct (one "-" g); [reflexivity |].
        destruct (one "+" g); reflexivity. }
      destruct Hsign as [Hsign | ->].
      * rewrite Hsign.
        destruct (match s' with
                  | g :: t => if one "-" g then (true, t)
                              else if one "+" g then (false, t) else (false, s')
                  | [] => (false, s')
                  end) as [n t].
        rewrite spanDigits_app by exact Hd.
        destruct (JSON.spanDigits t) as [ds rest1]. cbn [fst snd].
        destruct ds; [discriminate |]. inv H. reflexivity.
      * cbn in H. discriminate.
    + inv H. reflexivity.
Qed.

Lemma fractionPart_app (s rest r frac : jsstring) :
  fractionPart s = Some (frac, r) -> delimited rest = true ->
  (fractionPart (s ++ rest) = Some (frac, r ++ rest)).
Proof.
  intros H Hd. destruct s as [| c s'].
  - cbn in H. inv H. cbn [app]. destruct rest as [| d rest]; [reflexivity |].
    destruct (delimited_head _ _ Hd) as (_ & Hdot & _).
    cbn [fractionPart]. rewrite Hdot. reflexivity.
  - cbn [app fractionPart] in *. destruct (one "." c).
    + rewrite spanDigits_app by exact Hd.
      destruct (JSON.spanDigits s') as [ds rest1]. cbn [fst snd].
      destruct ds; [discriminate |]. inv H. reflexivity.
    + inv H. reflexivity.
Qed.

Lemma afterInteger_app (negative : bool) (int s rest r : jsstring) (v : json) :
  afterInteger negative int s = Some (v, r) -> delimited rest = true ->
  afterInteger negative int (s ++ rest) = Some (v, r ++ rest).
Proof.
  unfold afterInteger. intros H Hd.
  destruct int as [| lead more]; [discriminate |].
  destruct (one "0" lead && negb (length more =? 0)); [discriminate |].
  destruct (fractionPart s) as [[frac s1] |] eqn:Hf; [| discriminate].
  rewrite (fractionPart_app _ _ _ _ Hf Hd).
  destruct (exponentPart s1) as [[e r1] |] eqn:He; [| discriminate].
  rewrite (exponentPart_app _ _ _ _ He Hd).
  inv H. reflexivity.
Qed.

(** A number literal reads the same before a comma, a line feed or the
    end of the text. *)
Lemma parseNumber_app (s rest r : jsstring) (v : json) :
  JSON.parseNumber s = Some (v, r) -> delimited rest = true ->
  JSON.parseNumber (s ++ rest) = Some (v, r ++ rest).
Proof.
  rewrite !parseNumber_parts. intros H Hd.
  destruct s as [| c s'].
  - cbn in H. discriminate.
  - cbn [app]. destruct (one "-" c).
    + rewrite spanDigits_app by exact Hd.
      destruct (JSON.spanDigits s') as [int s2]. cbn [fst snd].
      apply afterInteger_app; assumption.
    + change (c :: s' ++ rest) with ((c :: s') ++ rest).
      rewrite spanDigits_app by exact Hd.
      destruct (JSON.spanDigits (c :: s')) as [int s2]. cbn [fst snd].
      apply afterInteger_app; assumption.
Qed.

Lemma parseNumber_head (s r : jsstring) (v : json) :
  JSON.parseNumber s = Some (v, r) ->
  exists c s', s = c :: s' /\ (digit c = true \/ c = ch "-").
Proof.
  rewrite parseNumber_parts. intros H.
  destruct s as [| c s']; [cbn in H; discriminate |].
  exists c, s'. split; [reflexivity |].
  destruct (one "-" c) eqn:Hm.
  - right. apply N.eqb_eq in Hm. exact Hm.
  - left. cbn [JSON.spanDigits] in H.
    destruct (digit c); [reflexivity |]. cbn in H. discriminate.
Qed.

Lemma stableNumber_reads (repr : jsstring) :
  stableNumber repr = true -> JSON.parseNumber repr = Some (JNumber repr, []).
Proof.
  unfold stableNumber. intros H.
  destruct (JSON.parseNumber repr) as [[v r] |]; [| discriminate].
  destruct v; try discriminate. destruct r; [| discriminate].
  apply eqb_spec in H. subst. reflexivity.
Qed.

Lemma stableNumber_finite (repr : jsstring) :
  stableNumber repr = true -> isFinite repr = true.
Proof.
  intros H. apply stableNumber_reads in H.
  destruct (parseNumber_head _ _ _ H) as (c & s' & -> & Hc).
  unfold isFinite.
  destruct (JS.eqb (c :: s') (lit "Infinity")) eqn:E1;
    [apply eqb_spec in E1; rewrite E1 in H; vm_compute in H; discriminate |].
  destruct (JS.eqb (c :: s') (lit "-Infinity")) eqn:E2;
    [apply eqb_spec in E2; rewrite E2 in H; vm_compute in H; discriminate |].
  destruct (JS.eqb (c :: s') (lit "NaN")) eqn:E3;
    [apply eqb_spec in E3; rewrite E3 in H; vm_compute in H; discriminate |].
  reflexivity.
Qed.

Lemma skipWs_app (ws s : jsstring) :
  forallb JSON.isWs ws = true -> JSON.skipWs (ws ++ s) = JSON.skipWs s.
Proof.
  induction ws as [| c ws IH]; [reflexivity |].
  cbn [forallb app JSON.skipWs]. intros H.
  apply andb_true_iff in H. destruct H as [-> H]. apply IH. exact H.
Qed.

Lemma skipWs_head (c : char) (s : jsstring) :
  JSON.isWs c = false -> JSON.skipWs (c :: s) = c :: s.
Proof. intros H. cbn [JSON.skipWs]. rewrite H. reflexivity. Qed.

Lemma parseValue_ws (fuel : nat) (ws s : jsstring) :
  forallb JSON.isWs ws = true ->
  JSON.parseValue fuel (ws ++ s) = JSON.parseValue fuel s.
Proof.
  intros H. destruct fuel; [reflexivity |].
  cbn [JSON.parseValue]. rewrite skipWs_app by exact H. reflexivity.
Qed.

Lemma digit_cases (c : char) :
  digit c = true ->
  c = 48%N \/ c = 49%N \/ c = 50%N \/ c = 51%N \/ c = 52%N \/ c = 53%N
  \/ c = 54%N \/ c = 55%N \/ c = 56%N \/ c = 57%N.
Proof.
  unfold digit, range, ch. simpl N_of_ascii.
  rewrite andb_true_iff, !N.leb_le. unfold char in *. lia.
Qed.

Lemma parseValue_number (fuel : nat) (c : char) (s : jsstring) :
  digit c = true \/ c = ch "-" ->
  JSON.parseValue (S fuel) (c :: s) = JSON.parseNumber (c :: s).
Proof.
  intros [H | ->]; [| reflexivity].
  apply digit_cases in H.
  repeat (destruct H as [-> | H]; [reflexivity |]). subst. reflexivity.
Qed.

Lemma parseValue_string (fuel : nat) (t : jsstring) :
  JSON.parseValue (S fuel) (dq ++ t)
  = match JSON.parseChars t with
    | Some (s, rest) => Some (JString s, rest)
    | None => None
    end.
Proof. reflexivity. Qed.

Lemma parseValue_array (fuel : nat) (s d : jsstring) (c : char) :
  JSON.skipWs s = c :: d -> one "]" c = false ->
  JSON.parseValue (S fuel) (lit "[" ++ s) = JSON.parseElements fuel [] s.
Proof.
  intros Hs Hc. change (lit "[" ++ s) with (91%N :: s).
  cbn [JSON.parseValue]. rewrite skipWs_head by reflexivity.
  cbn -[JSON.skipWs JSON.parseElements]. rewrite Hs, Hc. reflexivity.
Qed.

Lemma parseValue_object (fuel : nat) (s d : jsstring) (c : char) :
  JSON.skipWs s = c :: d -> one "}" c = false ->
  JSON.parseValue (S fuel) (lit "{" ++ s) = JSON.parseMembers fuel [] s.
Proof.
  intros Hs Hc. change (lit "{" ++ s) with (123%N :: s).
  cbn [JSON.parseValue]. rewrite skipWs_head by reflexivity.
  cbn -[JSON.skipWs JSON.parseMembers]. rewrite Hs, Hc. reflexivity.
Qed.

Lemma parseElements_step (fuel : nat) (acc : list json) (s rest d : jsstring)
    (v : json) (c : char) :
  JSON.parseValue fuel s = Some (v, rest) -> JSON.skipWs rest = c :: d ->
  JSON.parseElements (S fuel) acc s
  = if one "," c then JSON.parseElements fuel (acc ++ [v]) d
    else if one "]" c then Some (JArray (acc ++ [v]), d)
    else None.
Proof.
  intros Hv Hs. cbn [JSON.parseElements].
  rewrite Hv, Hs. reflexivity.
Qed.

Lemma parseMembers_step (fuel : nat) (acc : list (jsstring * json))
    (s rest d : jsstring) (k : jsstring) (v : json) (c : char) :
  JSON.parseValue fuel s = Some (v, rest) -> JSON.skipWs rest = c :: d ->
  JSON.parseMembers (S fuel) acc (quote k ++ lit ":" ++ s)
  = if one "," c then JSON.parseMembers fuel (JSON.define k v acc) d
    else if one "}" c then Some (JObject (JSON.define k v acc), d)
    else None.
Proof.
  intros Hv Hs. unfold quote.
  change ((dq ++ quoteChars k ++ dq) ++ lit ":" ++ s)
    with (34%N :: (quoteChars k ++ dq) ++ lit ":" ++ s).
  rewrite <- app_assoc.
  cbn [JSON.parseMembers]. rewrite skipWs_head by reflexivity.
  change (34 =? 34)%N with true. cbv iota.
  rewrite parseChars_quoteChars.
  change (lit ":" ++ s) with (58%N :: s).
  rewrite skipWs_head by reflexivity.
  change (one ":" 58%N) with true. cbv iota.
  rewrite Hv, Hs. reflexivity.
Qed.

Lemma parseMembers_ws (fuel : nat) (acc : list (jsstring * json)) (ws s : jsstring) :
  forallb JSON.isWs ws = true ->
  JSON.parseMembers fuel acc (ws ++ s) = JSON.parseMembers fuel acc s.
Proof.
  intros H. destruct fuel; [reflexivity |].
  cbn [JSON.parseMembers]. rewrite skipWs_app by exact H. reflexivity.
Qed.

Lemma keysOrdered_app_l (l1 l2 : list jsstring) :
  keysOrdered (l1 ++ l2) = true -> keysOrdered l1 = true.
Proof.
  induction l1 as [| k l1 IH]; [reflexivity |].
  cbn [app keysOrdered]. intros H.
  apply andb_true_iff in H. destruct H as [H H3].
  apply andb_true_iff in H. destruct H as [H1 H2].
  rewrite IH by exact H3.
  rewrite existsb_app, negb_orb in H1.
  apply andb_true_iff in H1. destruct H1 as [-> _].
  destruct (JSON.arrayIndex k);
    rewrite forallb_app in H2; apply andb_true_iff in H2;
    destruct H2 as [-> _]; reflexivity.
Qed.

(** A key that comes last in [Object.keys] order is defined at the end. *)
Lemma define_last (k : jsstring) (v : json) (acc : list (jsstring * json)) :
  keysOrdered (List.map fst acc ++ [k]) = true ->
  JSON.define k v acc = acc ++ [(k, v)].
Proof.
  induction acc as [| [k' v'] acc IH]; [reflexivity |].
  cbn [List.map fst app keysOrdered JSON.define]. intros H.
  apply andb_true_iff in H. destruct H as [H H3].
  apply andb_true_iff in H. destruct H as [H1 H2].
  rewrite existsb_app, negb_orb in H1.
  apply andb_true_iff in H1. destruct H1 as [_ H1].
  cbn [existsb] in H1. rewrite orb_false_r in H1.
  apply negb_true_iff in H1. rewrite H1.
  rewrite IH by exact H3.
  destruct (JSON.arrayIndex k') as [i' |];
    rewrite forallb_app in H2; apply andb_true_iff in H2;
    destruct H2 as [_ H2]; cbn [forallb] in H2; rewrite andb_true_r in H2;
    destruct (JSON.arrayIndex k) as [i |]; try discriminate; try reflexivity.
  apply N.ltb_lt in H2.
  destruct (i <? i')%N eqn:E; [apply N.ltb_lt in E; lia | reflexivity].
Qed.

Lemma serialize_head (indent : jsstring) (v : json) :
  numbersStable v = true ->
  exists c s, serialize indent v = c :: s
              /\ JSON.isWs c = false /\ one "]" c = false /\ one "}" c = false.
Proof.
  intros Hn. destruct v as [| [|] | repr | s | items | props].
  - eexists _, _. repeat split; reflexivity.
  - eexists _, _. repeat split; reflexivity.
  - eexists _, _. repeat split; reflexivity.
  - cbn [numbersStable] in Hn. cbn [serialize].
    rewrite (stableNumber_finite _ Hn).
    apply stableNumber_reads in Hn.
    destruct (parseNumber_head _ _ _ Hn) as (c & s' & -> & [Hc | ->]).
    + exists c, s'. apply digit_cases in Hc.
      repeat (destruct Hc as [-> | Hc]; [repeat split; reflexivity |]).
      subst. repeat split; reflexivity.
    + eexists _, _. repeat split; reflexivity.
  - eexists _, _. repeat split; reflexivity.
  - destruct items; eexists _, _; repeat split; reflexivity.
  - destruct props as [| [k x] props]; eexists _, _; repeat split; reflexivity.
Qed.

Lemma elementsCost_cons (x : json) (items : list json) :
  elementsCost (x :: items) = S (parseCost x + elementsCost items).
Proof. reflexivity. Qed.

Lemma membersCost_cons (k : jsstring) (x : json) (props : list (jsstring * json)) :
  membersCost ((k, x) :: props) = S (parseCost x + membersCost props).
Proof. reflexivity. Qed.

Section ReadBack.

Variables inner stepback rest : jsstring.
Hypothesis inner_ws : forallb JSON.isWs inner = true.
Hypothesis stepback_ws : forallb JSON.isWs stepback = true.


Lemma skipWs_closing (bracket : char) :
  JSON.isWs bracket = false ->
  JSON.skipWs (closing stepback rest [bracket]) = bracket :: rest.
Proof.
  intros H. unfold closing.
  rewrite (app_assoc lineFeed stepback).
  rewrite skipWs_app.
  - apply skipWs_head. exact H.
  - rewrite forallb_app, stepback_ws. reflexivity.
Qed.

Lemma elements_read (items : list json) :
  Forall (fun x => keysInOrder x = true -> numbersStable x = true -> Reads x) items ->
  forallb keysInOrder items = true -> forallb numbersStable items = true ->
  items <> [] ->
  forall acc fuel ws,
    forallb JSON.isWs ws = true -> elementsCost items <= fuel ->
    JSON.parseElements fuel acc
      (ws ++ JS.join (separator inner) (List.map (serialize inner) items) ++ closing stepback rest (lit "]"))
    = Some (JArray (acc ++ items), rest).
Proof.
  induction 1 as [| x items Hx _ IH]; [congruence |].
  cbn [forallb]. intros Hk Hn _ acc fuel ws Hws Hcost.
  apply andb_true_iff in Hk. destruct Hk as [Hkx Hk].
  apply andb_true_iff in Hn. destruct Hn as [Hnx Hn].
  rewrite elementsCost_cons in Hcost.
  destruct fuel as [| fuel]; [lia |].
  specialize (Hx Hkx Hnx).
  cbn [List.map].
  destruct items as [| y items].
  - cbn [List.map JS.join].
    rewrite (parseElements_step fuel acc _ (closing stepback rest (lit "]")) rest x (ch "]")).
    + reflexivity.
    + rewrite parseValue_ws by exact Hws.
      apply Hx; [exact inner_ws | reflexivity | lia].
    + apply skipWs_closing. reflexivity.
  - rewrite join_cons by discriminate.
    rewrite <- !app_assoc.
    rewrite (parseElements_step fuel acc _
               (separator inner ++ JS.join (separator inner) (List.map (serialize inner) (y :: items))
                ++ closing stepback rest (lit "]"))
               ((lineFeed ++ inner)
                ++ JS.join (separator inner) (List.map (serialize inner) (y :: items))
                ++ closing stepback rest (lit "]")) x (ch ",")).
    + change (one "," (ch ",")) with true. cbv iota.
      rewrite IH.
      * rewrite <- app_assoc. reflexivity.
      * exact Hk.
      * exact Hn.
      * discriminate.
      * rewrite forallb_app, inner_ws. reflexivity.
      * lia.
    + rewrite parseValue_ws by exact Hws.
      apply Hx; [exact inner_ws | reflexivity | lia].
    + unfold separator. rewrite <- !app_assoc. reflexivity.
Qed.

Lemma members_read (props : list (jsstring * json)) :
  Forall (fun kv => keysInOrder (snd kv) = true -> numbersStable (snd kv) = true ->
                    Reads (snd kv)) props ->
  forallb (fun kv => keysInOrder (snd kv)) props = true ->
  forallb (fun kv => numbersStable (snd kv)) props = true ->
  props <> [] ->
  forall acc fuel ws,
    keysOrdered (List.map fst (acc ++ props)) = true ->
    forallb JSON.isWs ws = true -> membersCost props <= fuel ->
    JSON.parseMembers fuel acc
      (ws ++ JS.join (separator inner)
               (List.map (fun kv => let '(k, x) := kv in
                                    quote k ++ lit ": " ++ serialize inner x) props)
          ++ closing stepback rest (lit "}"))
    = Some (JObject (acc ++ props), rest).
Proof.
  induction 1 as [| [k x] props Hx _ IH]; [congruence |].
  cbn [forallb snd]. intros Hk Hn _ acc fuel ws Hord Hws Hcost.
  apply andb_true_iff in Hk. destruct Hk as [Hkx Hk].
  apply andb_true_iff in Hn. destruct Hn as [Hnx Hn].
  rewrite membersCost_cons in Hcost.
  destruct fuel as [| fuel]; [lia |].
  cbn [snd] in Hx. specialize (Hx Hkx Hnx).
  assert (Hdef : JSON.define k x acc = acc ++ [(k, x)]).
  { apply define_last.
    change (List.map fst acc ++ [k]) with (List.map fst acc ++ List.map fst [(k, x)]).
    rewrite <- map_app.
    apply keysOrdered_app_l with (l2 := List.map fst props).
    rewrite <- map_app, <- app_assoc. exact Hord. }
  rewrite parseMembers_ws by exact Hws.
  cbn [List.map].
  destruct props as [| [k' y] props].
  - cbn [List.map JS.join].
    change (lit ": " ++ serialize inner x) with (lit ":" ++ lit " " ++ serialize inner x).
    rewrite <- !app_assoc.
    rewrite (parseMembers_step fuel acc _ (closing stepback rest (lit "}")) rest k x (ch "}")).
    + change (one "," (ch "}")) with false. change (one "}" (ch "}")) with true.
      cbv iota. rewrite Hdef. reflexivity.
    + rewrite parseValue_ws by reflexivity.
      apply Hx; [exact inner_ws | reflexivity | lia].
    + apply skipWs_closing. reflexivity.
  - rewrite join_cons by discriminate.
    change (lit ": " ++ serialize inner x) with (lit ":" ++ lit " " ++ serialize inner x).
    rewrite <- !app_assoc.
    match goal with
    | |- JSON.parseMembers _ _ (quote k ++ lit ":" ++ lit " " ++ serialize inner x
                                ++ separator inner ++ ?tail) = _ =>
        rewrite (parseMembers_step fuel acc
                   (lit " " ++ serialize inner x ++ separator inner ++ tail)
                   (separator inner ++ tail) ((lineFeed ++ inner) ++ tail) k x (ch ","))
    end.
    + change (one "," (ch ",")) with true. cbv iota.
      rewrite Hdef.
      match goal with
      | |- JSON.parseMembers _ _ (_ ++ ?j ++ ?c) = _ =>
          change c with (closing stepback rest (lit "}"))
      end.
      rewrite IH.
      * rewrite <- app_assoc. reflexivity.
      * exact Hk.
      * exact Hn.
      * discriminate.
      * rewrite <- app_assoc. exact Hord.
      * rewrite forallb_app, inner_ws. reflexivity.
      * lia.
    + rewrite parseValue_ws by reflexivity.
      apply Hx; [exact inner_ws | reflexivity | lia].
    + unfold separator. rewrite <- !app_assoc. reflexivity.
Qed.

End ReadBack.

Lemma parseCost_positive (v : json) : 1 <= parseCost v.
Proof. destruct v; cbn; lia. Qed.

Lemma join_head (sep a : jsstring) (l : list jsstring) :
  exists tail, JS.join sep (a :: l) = a ++ tail.
Proof.
  destruct l as [| b l].
  - exists []. cbn. rewrite app_nil_r. reflexivity.
  - eexists. reflexivity.
Qed.

Lemma join_head_char (sep t : jsstring) (c : char) (l : list jsstring) :
  exists tail, JS.join sep ((c :: t) :: l) = c :: tail.
Proof.
  destruct l as [| b l]; eexists; reflexivity.
Qed.

Lemma serialize_reads (v : json) :
  keysInOrder v = true -> numbersStable v = true -> Reads v.
Proof.
  induction v as [| b | repr | s | items IH | props IH] using json_nested_ind;
    intros Hk Hn indent rest fuel Hws Hd Hcost;
    (destruct fuel as [| fuel];
     [pose proof (parseCost_positive JNull); cbn in Hcost; lia |]).
  - reflexivity.
  - destruct b; reflexivity.
  - cbn [numbersStable] in Hn. cbn [serialize].
    rewrite (stableNumber_finite _ Hn).
    apply stableNumber_reads in Hn.
    destruct (parseNumber_head _ _ _ Hn) as (c & s' & E & Hc).
    pose proof (parseNumber_app _ _ _ _ Hn Hd) as Hp.
    replace (repr ++ rest) with (c :: s' ++ rest) in * by (rewrite E; reflexivity).
    rewrite parseValue_number by exact Hc. exact Hp.
  - cbn [serialize]. unfold quote. rewrite <- !app_assoc.
    rewrite parseValue_string, parseChars_quoteChars. reflexivity.
  - destruct items as [| x items]; [reflexivity |].
    cbn [keysInOrder numbersStable] in Hk, Hn.
    cbn [parseCost] in Hcost. apply le_S_n in Hcost.
    assert (Hinner : forallb JSON.isWs (indent ++ gap) = true)
      by (rewrite forallb_app, Hws; reflexivity).
    destruct (serialize_head (indent ++ gap) x) as (c & t & Ehead & Hc1 & Hc2 & _).
    { cbn [forallb] in Hn. apply andb_true_iff in Hn. apply Hn. }
    cbn [serialize].
    change (List.map (serialize (indent ++ gap)) (x :: items))
      with (serialize (indent ++ gap) x :: List.map (serialize (indent ++ gap)) items).
    cbv iota.
    change (serialize (indent ++ gap) x :: List.map (serialize (indent ++ gap)) items)
      with (List.map (serialize (indent ++ gap)) (x :: items)).
    rewrite <- !app_assoc.
    change (lit "," ++ lineFeed ++ indent ++ gap) with (separator (indent ++ gap)).
    change (lineFeed ++ indent ++ lit "]" ++ rest) with (closing indent rest (lit "]")).
    rewrite (app_assoc indent gap), (app_assoc lineFeed (indent ++ gap)).
    match goal with
    | |- JSON.parseValue _ (_ ++ ?text) = _ =>
        assert (Hskip : exists d, JSON.skipWs text = c :: d)
    end.
    { rewrite skipWs_app by (rewrite forallb_app, Hinner; reflexivity).
      cbn [List.map].
      destruct (join_head (separator (indent ++ gap)) (serialize (indent ++ gap) x)
                  (List.map (serialize (indent ++ gap)) items)) as [tail ->].
      rewrite Ehead. eexists. cbn [app]. apply skipWs_head. exact Hc1. }
    destruct Hskip as [d Hskip].
    rewrite (parseValue_array fuel _ d c Hskip Hc2).
    apply (elements_read (indent ++ gap) indent rest Hinner Hws (x :: items) IH Hk Hn).
    + discriminate.
    + rewrite forallb_app, Hinner. reflexivity.
    + exact Hcost.
  - destruct props as [| [k x] props]; [reflexivity |].
    cbn [keysInOrder numbersStable] in Hk, Hn.
    apply andb_true_iff in Hk. destruct Hk as [Hord Hk].
    cbn [parseCost] in Hcost. apply le_S_n in Hcost.
    assert (Hinner : forallb JSON.isWs (indent ++ gap) = true)
      by (rewrite forallb_app, Hws; reflexivity).
    cbn [serialize].
    match goal with
    | |- context [List.map ?f ((k, x) :: props)] =>
        change (List.map f ((k, x) :: props))
          with (f (k, x) :: List.map f props);
        cbv iota;
        change (f (k, x) :: List.map f props)
          with (List.map f ((k, x) :: props))
    end.
    rewrite <- !app_assoc.
    change (lit "," ++ lineFeed ++ indent ++ gap) with (separator (indent ++ gap)).
    change (lineFeed ++ indent ++ lit "}" ++ rest) with (closing indent rest (lit "}")).
    rewrite (app_assoc indent gap), (app_assoc lineFeed (indent ++ gap)).
    match goal with
    | |- JSON.parseValue _ (_ ++ ?text) = _ =>
        assert (Hskip : exists d, JSON.skipWs text = 34%N :: d)
    end.
    { rewrite skipWs_app by (rewrite forallb_app, Hinner; reflexivity).
      cbn [List.map]. cbv beta iota.
      match goal with
      | |- context [JS.join ?sep ?l] =>
          assert (E : exists tail, JS.join sep l = 34%N :: tail)
            by (unfold quote; cbn [app dq]; apply join_head_char);
          set (J := JS.join sep l) in *; clearbody J
      end.
      destruct E as [tail ->].
      eexists. cbn [app]. apply skipWs_head. reflexivity. }
    destruct Hskip as [d Hskip].
    rewrite (parseValue_object fuel _ d 34%N Hskip eq_refl).
    apply (members_read (indent ++ gap) indent rest Hinner Hws ((k, x) :: props)
             IH Hk Hn).
    + discriminate.
    + exact Hord.
    + rewrite forallb_app, Hinner. reflexivity.
    + exact Hcost.
Qed.

Lemma join_length (sep : jsstring) (parts : list jsstring) :
  length sep <> 0 ->
  list_sum (List.map (fun p => S (length p)) parts) <= length (JS.join sep parts) + 1.
Proof.
  intros Hsep. induction parts as [| p parts IH]; [cbn; lia |].
  destruct parts as [| q parts].
  - cbn. lia.
  - rewrite join_cons by discriminate.
    cbn [List.map list_sum fold_right] in *. rewrite !length_app. lia.
Qed.

Lemma serialize_length (v : json) :
  numbersStable v = true ->
  forall indent, parseCost v <= length (serialize indent v).
Proof.
  induction v as [| b | repr | s | items IH | props IH] using json_nested_ind;
    intros Hn indent.
  - cbn. lia.
  - destruct b; cbn; lia.
  - cbn [numbersStable] in Hn. cbn [serialize parseCost].
    rewrite (stableNumber_finite _ Hn).
    apply stableNumber_reads in Hn.
    destruct (parseNumber_head _ _ _ Hn) as (c & s' & -> & _). cbn. lia.
  - cbn [serialize parseCost]. unfold quote. rewrite !length_app. cbn. lia.
  - destruct items as [| x items]; [cbn; lia |].
    cbn [numbersStable] in Hn.
    assert (Hsum : elementsCost (x :: items)
                   <= list_sum (List.map (fun p => S (length p))
                                  (List.map (serialize (indent ++ gap)) (x :: items)))).
    { clear - IH Hn. induction IH as [| y l Hy _ IHl]; [cbn; lia |].
      cbn [forallb] in Hn. apply andb_true_iff in Hn. destruct Hn as [Hny Hn].
      rewrite elementsCost_cons.
      specialize (Hy Hny (indent ++ gap)). specialize (IHl Hn).
      unfold list_sum in *. cbn [List.map fold_right]. lia. }
    pose proof (join_length (lit "," ++ lineFeed ++ indent ++ gap)
                  (List.map (serialize (indent ++ gap)) (x :: items))
                  ltac:(cbn; lia)) as Hjoin.
    change (parseCost (JArray (x :: items))) with (S (elementsCost (x :: items))).
    cbn [serialize].
    change (List.map (serialize (indent ++ gap)) (x :: items))
      with (serialize (indent ++ gap) x :: List.map (serialize (indent ++ gap)) items)
      in *.
    cbv iota. rewrite !length_app.
    change (length lineFeed) with 1. lia.
  - destruct props as [| [k x] props]; [cbn; lia |].
    cbn [numbersStable] in Hn.
    set (member := fun kv : jsstring * json =>
                     let '(k, x) := kv in
                     quote k ++ lit ": " ++ serialize (indent ++ gap) x).
    assert (Hsum : membersCost ((k, x) :: props)
                   <= list_sum (List.map (fun p => S (length p))
                                  (List.map member ((k, x) :: props)))).
    { clear - IH Hn. induction IH as [| [k' y] l Hy _ IHl]; [cbn; lia |].
      cbn [forallb snd] in Hn. apply andb_true_iff in Hn. destruct Hn as [Hny Hn].
      rewrite membersCost_cons.
      cbn [snd] in Hy. specialize (Hy Hny (indent ++ gap)). specialize (IHl Hn).
      unfold list_sum in *. cbn [List.map fold_right].
      unfold member at 1. rewrite !length_app. lia. }
    pose proof (join_length (lit "," ++ lineFeed ++ indent ++ gap)
                  (List.map member ((k, x) :: props))
                  ltac:(cbn; lia)) as Hjoin.
    change (parseCost (JObject ((k, x) :: props)))
      with (S (membersCost ((k, x) :: props))).
    cbn [serialize]. fold member.
    change (List.map member ((k, x) :: props))
      with (member (k, x) :: List.map member props) in *.
    cbv iota. rewrite !length_app.
    change (length lineFeed) with 1. lia.
Qed.

(** X20.  What [JSON.stringify(value, null, 2)] writes, [JSON.parse] reads
    back as the same value, for every value whose objects have their keys
    in [Object.keys] order and whose numbers are written the way they are
    read. *)
Theorem stringify_parse (v : json) :
  keysInOrder v = true -> numbersStable v = true ->
  JSON.parse (stringify v) = Some v.
Proof.
  intros Hk Hn. unfold JSON.parse, stringify.
  pose proof (serialize_length v Hn []) as Hlen.
  pose proof (serialize_reads v Hk Hn [] [] (2 * length (serialize [] v) + 2)
                eq_refl eq_refl ltac:(lia)) as Hread.
  rewrite app_nil_r in Hread. rewrite Hread. reflexivity.
Qed.

Lemma stringify_parse_witness :
  JSON.parse (stringify sampleValue) = Some sampleValue.
Proof.
  apply (stringify_parse sampleValue); vm_compute; reflexivity.
Defined.

(** The text of a small value, as [JSON.stringify(value, null, 2)] lays it
    out. *)
Example stringify_layout :
  stringify (JObject [(lit "a", JArray [JNumber (lit "1"); JNull]);
                      (lit "b", JObject []);
                      (lit "c", JString (lit "x" ++ [10%N; 55357%N] ++ dq))])
  = lit "{" ++ [10%N]
    ++ lit "  " ++ dq ++ lit "a" ++ dq ++ lit ": [" ++ [10%N]
    ++ lit "    1," ++ [10%N]
    ++ lit "    null" ++ [10%N]
    ++ lit "  ]," ++ [10%N]
    ++ lit "  " ++ dq ++ lit "b" ++ dq ++ lit ": {}," ++ [10%N]
    ++ lit "  " ++ dq ++ lit "c" ++ dq ++ lit ": " ++ dq
    ++ lit "x" ++ [92%N] ++ lit "n" ++ [92%N] ++ lit "ud83d" ++ [92%N] ++ dq ++ dq
    ++ [10%N]
    ++ lit "}".
Proof. vm_compute. reflexivity. Qed.

(* ================================================================== *)
(** * [JSON.parse] returns objects with their keys in order *)
(* ================================================================== *)

Lemma digitsValue_from (ds : jsstring) (a : N) :
  fold_left (fun acc c => (acc * 10 + (c - 48))%N) ds a
  = (a * 10 ^ N.of_nat (length ds) + JSON.digitsValue ds)%N.
Proof.
  unfold JSON.digitsValue. revert a.
  induction ds as [| c ds IH]; intros a.
  - cbn. lia.
  - cbn [fold_left length]. rewrite IH, (IH (0 * 10 + (c - 48))%N).
    rewrite Nat2N.inj_succ, N.pow_succ_r'. lia.
Qed.

Lemma digitsValue_cons (c : char) (ds : jsstring) :
  JSON.digitsValue (c :: ds)
  = ((c - 48) * 10 ^ N.of_nat (length ds) + JSON.digitsValue ds)%N.
Proof.
  unfold JSON.digitsValue at 1. cbn [fold_left].
  rewrite digitsValue_from. lia.
Qed.

Lemma digit_value (c : char) : digit c = true -> (48 <= c <= 57)%N.
Proof.
  unfold digit, range, ch. simpl N_of_ascii.
  rewrite andb_true_iff, !N.leb_le. tauto.
Qed.

Lemma digitsValue_bound (ds : jsstring) :
  forallb digit ds = true -> (JSON.digitsValue ds < 10 ^ N.of_nat (length ds))%N.
Proof.
  induction ds as [| c ds IH]; intros H.
  - cbn. lia.
  - cbn [forallb] in H. apply andb_true_iff in H. destruct H as [Hc H].
    apply digit_value in Hc. specialize (IH H).
    rewrite digitsValue_cons. cbn [length].
    rewrite Nat2N.inj_succ, N.pow_succ_r'. unfold char in *. nia.
Qed.

Lemma digitsValue_inj_length (k k' : jsstring) :
  length k = length k' ->
  forallb digit k = true -> forallb digit k' = true ->
  JSON.digitsValue k = JSON.digitsValue k' -> k = k'.
Proof.
  revert k'. induction k as [| c k IH]; intros [| c' k'] Hlen Hk Hk' Hv;
    try discriminate; [reflexivity |].
  cbn [length forallb] in *. injection Hlen as Hlen.
  apply andb_true_iff in Hk, Hk'. destruct Hk as [Hc Hk], Hk' as [Hc' Hk'].
  rewrite !digitsValue_cons, <- Hlen in Hv.
  pose proof (digitsValue_bound k Hk) as Hb.
  pose proof (digitsValue_bound k' Hk') as Hb'. rewrite <- Hlen in Hb'.
  apply digit_value in Hc, Hc'. unfold char in *.
  assert (Hd : (c - 48 = c' - 48)%N) by nia.
  assert (c = c') by lia. subst c'.
  f_equal. apply IH; try assumption. lia.
Qed.

Lemma digitsValue_lower (c : char) (ds : jsstring) :
  digit c = true -> one "0" c = false ->
  (10 ^ N.of_nat (length ds) <= JSON.digitsValue (c :: ds))%N.
Proof.
  intros Hc H0. rewrite digitsValue_cons.
  apply digit_value in Hc. apply N.eqb_neq in H0.
  change (ch "0") with 48%N in H0. unfold char in *. nia.
Qed.

Lemma arrayIndex_digits (k : jsstring) (i : N) :
  JSON.arrayIndex k = Some i ->
  i = JSON.digitsValue k /\ forallb digit k = true
  /\ (exists c ds, k = c :: ds /\ (one "0" c = false \/ ds = [])).
Proof.
  unfold JSON.arrayIndex. destruct k as [| c ds]; [discriminate |].
  destruct (forallb digit (c :: ds)) eqn:Hd; [| discriminate].
  destruct (one "0" c && negb (length ds =? 0)) eqn:Hz; [discriminate |].
  cbn [andb negb].
  destruct ((length (c :: ds) <=? 10) && (JSON.digitsValue (c :: ds) <=? 4294967294)%N);
    [| discriminate].
  intros H. inv H. split; [reflexivity |]. split; [reflexivity |].
  exists c, ds. split; [reflexivity |].
  apply andb_false_iff in Hz. destruct Hz as [Hz | Hz]; [left; exact Hz | right].
  apply negb_false_iff, Nat.eqb_eq in Hz. destruct ds; [reflexivity | discriminate].
Qed.

Lemma canonical_length (c c' : char) (ds ds' : jsstring) :
  forallb digit (c :: ds) = true -> forallb digit (c' :: ds') = true ->
  (one "0" c' = false \/ ds' = []) ->
  JSON.digitsValue (c :: ds) = JSON.digitsValue (c' :: ds') ->
  length ds' <= length ds.
Proof.
  intros Hd Hd' Hz Hv.
  destruct (Nat.le_gt_cases (length ds') (length ds)) as [H | H]; [exact H |].
  exfalso. destruct Hz as [Hz | ->]; [| cbn in H; lia].
  pose proof (digitsValue_bound _ Hd) as Hb.
  cbn [forallb] in Hd'. apply andb_true_iff in Hd'. destruct Hd' as [Hc' _].
  pose proof (digitsValue_lower c' ds' Hc' Hz) as Hl.
  rewrite Hv in Hb. cbn [length] in Hb.
  assert (Hpow : (10 ^ N.of_nat (S (length ds)) <= 10 ^ N.of_nat (length ds'))%N)
    by (apply N.pow_le_mono_r; lia).
  lia.
Qed.

(** Two keys that are the same array index are the same key. *)
Lemma arrayIndex_inj (k k' : jsstring) (i : N) :
  JSON.arrayIndex k = Some i -> JSON.arrayIndex k' = Some i -> k = k'.
Proof.
  intros H H'.
  destruct (arrayIndex_digits _ _ H) as (E & Hd & c & ds & -> & Hz).
  destruct (arrayIndex_digits _ _ H') as (E' & Hd' & c' & ds' & -> & Hz').
  assert (Hv : JSON.digitsValue (c :: ds) = JSON.digitsValue (c' :: ds')) by congruence.
  apply digitsValue_inj_length; try assumption.
  pose proof (canonical_length _ _ _ _ Hd Hd' Hz' Hv).
  pose proof (canonical_length _ _ _ _ Hd' Hd Hz (eq_sym Hv)).
  cbn [length]. lia.
Qed.

Lemma define_keys (k : jsstring) (v : json) (acc : list (jsstring * json))
    (k'' : jsstring) :
  In k'' (List.map fst (JSON.define k v acc)) ->
  k'' = k \/ In k'' (List.map fst acc).
Proof.
  induction acc as [| [k' v'] acc IH]; cbn [JSON.define List.map fst].
  - cbn. intuition (subst; auto).
  - destruct (JS.eqb k' k).
    + cbn. intuition (subst; auto).
    + destruct (JSON.arrayIndex k) as [i |], (JSON.arrayIndex k') as [i' |];
        try destruct (i <? i')%N; cbn [List.map fst In] in *; intuition (subst; auto).
Qed.

Lemma define_values (P : json -> bool) (k : jsstring) (v : json)
    (acc : list (jsstring * json)) :
  forallb (fun kv => P (snd kv)) acc = true -> P v = true ->
  forallb (fun kv => P (snd kv)) (JSON.define k v acc) = true.
Proof.
  intros Hacc Hv. induction acc as [| [k' v'] acc IH]; cbn [JSON.define].
  - cbn. rewrite Hv. reflexivity.
  - cbn [forallb snd] in Hacc. apply andb_true_iff in Hacc.
    destruct Hacc as [Hv' Hacc]. specialize (IH Hacc).
    destruct (JS.eqb k' k).
    + cbn [forallb snd]. rewrite Hv, Hacc. reflexivity.
    + destruct (JSON.arrayIndex k) as [i |], (JSON.arrayIndex k') as [i' |];
        try destruct (i <? i')%N; cbn [forallb snd];
        rewrite ?Hv, ?Hv', ?Hacc, ?IH; reflexivity.
Qed.

(** [keysOrdered], one key at a time. *)
Lemma keysOrdered_cons (k : jsstring) (rest : list jsstring) :
  keysOrdered (k :: rest) = true
  <-> (forall k', In k' rest -> k' <> k)
      /\ (forall k', In k' rest ->
            match JSON.arrayIndex k, JSON.arrayIndex k' with
            | Some i, Some i' => (i < i')%N
            | Some _, None => True
            | None, Some _ => False
            | None, None => True
            end)
      /\ keysOrdered rest = true.
Proof.
  cbn [keysOrdered]. rewrite !andb_true_iff, negb_true_iff.
  split.
  - intros [[H1 H2] H3]. repeat split; [| | exact H3].
    + intros k' Hin ->.
      assert (existsb (JS.eqb k) rest = true); [| congruence].
      apply existsb_exists. exists k. split; [exact Hin | apply eqb_refl].
    + intros k' Hin. destruct (JSON.arrayIndex k) as [i |];
        rewrite forallb_forall in H2; specialize (H2 k' Hin);
        destruct (JSON.arrayIndex k'); try exact I; try discriminate.
      apply N.ltb_lt. exact H2.
  - intros (H1 & H2 & H3). repeat split; [| | exact H3].
    + destruct (existsb (JS.eqb k) rest) eqn:E; [| reflexivity].
      apply existsb_exists in E. destruct E as (k' & Hin & E).
      apply eqb_spec in E. subst k'. destruct (H1 k Hin eq_refl).
    + destruct (JSON.arrayIndex k) as [i |] eqn:Ei;
        apply forallb_forall; intros k' Hin; specialize (H2 k' Hin);
        destruct (JSON.arrayIndex k'); try reflexivity; try contradiction.
      apply N.ltb_lt. exact H2.
Qed.

Lemma define_ordered (k : jsstring) (v : json) (acc : list (jsstring * json)) :
  keysOrdered (List.map fst acc) = true ->
  keysOrdered (List.map fst (JSON.define k v acc)) = true.
Proof.
  induction acc as [| [k' v'] acc IH]; cbn [JSON.define List.map fst].
  - intros _. apply keysOrdered_cons. repeat split; try (intros ? []).
  - intros H. pose proof H as H0.
    apply keysOrdered_cons in H. destruct H as (H1 & H2 & H3).
    specialize (IH H3).
    destruct (JS.eqb k' k) eqn:E; [exact H0 |].
    apply eqb_neq in E.
    assert (Hrec : match JSON.arrayIndex k', JSON.arrayIndex k with
                   | Some i', Some i => (i' < i)%N
                   | Some _, None => True
                   | None, Some _ => False
                   | None, None => True
                   end ->
                   keysOrdered (k' :: List.map fst (JSON.define k v acc)) = true).
    { rewrite keysOrdered_cons.
      intros Hk. repeat split; [| | exact IH].
      - intros k'' Hin. apply define_keys in Hin.
        destruct Hin as [-> | Hin]; [congruence | apply H1, Hin].
      - intros k'' Hin. apply define_keys in Hin.
        destruct Hin as [-> | Hin]; [exact Hk | apply H2, Hin]. }
    assert (Hfront : match JSON.arrayIndex k, JSON.arrayIndex k' with
                     | Some i, Some i' => (i < i')%N
                     | Some _, None => True
                     | None, _ => False
                     end ->
                     keysOrdered (k :: k' :: List.map fst acc) = true).
    { rewrite keysOrdered_cons.
      intros Hk. repeat split; [| | exact H0].
      - intros k'' [<- | Hin]; [congruence |].
        intros ->. specialize (H2 k Hin).
        destruct (JSON.arrayIndex k) as [i |], (JSON.arrayIndex k') as [i' |];
          try contradiction; lia.
      - intros k'' [<- | Hin].
        + destruct (JSON.arrayIndex k), (JSON.arrayIndex k'); tauto.
        + specialize (H2 k'' Hin).
          destruct (JSON.arrayIndex k) as [i |], (JSON.arrayIndex k') as [i' |],
                   (JSON.arrayIndex k'') as [i'' |]; try tauto; lia. }
    destruct (JSON.arrayIndex k) as [i |] eqn:Ei,
             (JSON.arrayIndex k') as [i' |] eqn:Ei'.
    + destruct (i <? i')%N eqn:Lt.
      * apply Hfront. apply N.ltb_lt. exact Lt.
      * apply Hrec. apply N.ltb_ge in Lt.
        assert (i <> i').
        { intros ->. apply E. symmetry. eapply arrayIndex_inj; eassumption. }
        lia.
    + apply Hfront. exact I.
    + apply Hrec. exact I.
    + apply Hrec. exact I.
Qed.

Lemma parseNumber_number (s r : jsstring) (v : json) :
  JSON.parseNumber s = Some (v, r) -> exists repr, v = JNumber repr.
Proof.
  rewrite parseNumber_parts. intros H.
  destruct (match s with
            | c :: s' => if one "-" c then (true, s') else (false, s)
            | [] => (false, s)
            end) as [negative s1].
  destruct (JSON.spanDigits s1) as [int s2].
  unfold afterInteger in H.
  destruct int as [| lead more]; [discriminate |].
  destruct (one "0" lead && negb (length more =? 0)); [discriminate |].
  destruct (fractionPart s2) as [[frac s3] |]; [| discriminate].
  destruct (exponentPart s3) as [[e s4] |]; [| discriminate].
  inv H. eexists. reflexivity.
Qed.

Lemma parse_keysInOrder_fuel (fuel : nat) :
  (forall s v r, JSON.parseValue fuel s = Some (v, r) -> keysInOrder v = true)
  /\ (forall acc s v r,
        forallb keysInOrder acc = true ->
        JSON.parseElements fuel acc s = Some (v, r) -> keysInOrder v = true)
  /\ (forall acc s v r,
        keysOrdered (List.map fst acc) = true ->
        forallb (fun kv => keysInOrder (snd kv)) acc = true ->
        JSON.parseMembers fuel acc s = Some (v, r) -> keysInOrder v = true).
Proof.
  induction fuel as [| fuel (IHv & IHe & IHm)].
  - repeat split; intros; discriminate.
  - split; [| split].
    + intros s v r H. cbn [JSON.parseValue] in H.
      destruct (JSON.skipWs s) as [| c s']; [discriminate |].
      destruct (one "{" c).
      { destruct (JSON.skipWs s') as [| d s'']; [discriminate |].
        destruct (one "}" d); [inv H; reflexivity |].
        eapply (IHm []); [reflexivity | reflexivity | exact H]. }
      destruct (one "[" c).
      { destruct (JSON.skipWs s') as [| d s'']; [discriminate |].
        destruct (one "]" d); [inv H; reflexivity |].
        eapply (IHe []); [reflexivity | exact H]. }
      destruct (c =? 34)%N.
      { destruct (JSON.parseChars s') as [[t rest] |]; [| discriminate].
        inv H. reflexivity. }
      destruct (JS.startsWith (c :: s') (lit "true")); [inv H; reflexivity |].
      destruct (JS.startsWith (c :: s') (lit "false")); [inv H; reflexivity |].
      destruct (JS.startsWith (c :: s') (lit "null")); [inv H; reflexivity |].
      apply parseNumber_number in H. destruct H as [repr ->]. reflexivity.
    + intros acc s v r Hacc H. cbn [JSON.parseElements] in H.
      destruct (JSON.parseValue fuel s) as [[x rest] |] eqn:Hx; [| discriminate].
      apply IHv in Hx.
      assert (Hnext : forallb keysInOrder (acc ++ [x]) = true).
      { rewrite forallb_app, Hacc. cbn. rewrite Hx. reflexivity. }
      destruct (JSON.skipWs rest) as [| c rest']; [discriminate |].
      destruct (one "," c); [eapply IHe; eassumption |].
      destruct (one "]" c); [| discriminate].
      inv H. exact Hnext.
    + intros acc s v r Hord Hacc H. cbn [JSON.parseMembers] in H.
      destruct (JSON.skipWs s) as [| q s1]; [discriminate |].
      destruct (q =? 34)%N; [| discriminate].
      destruct (JSON.parseChars s1) as [[k rest] |]; [| discriminate].
      destruct (JSON.skipWs rest) as [| c rest1]; [discriminate |].
      destruct (one ":" c); [| discriminate].
      destruct (JSON.parseValue fuel rest1) as [[x rest2] |] eqn:Hx; [| discriminate].
      apply IHv in Hx.
      pose proof (define_ordered k x acc Hord) as Hord'.
      pose proof (define_values keysInOrder k x acc Hacc Hx) as Hacc'.
      destruct (JSON.skipWs rest2) as [| d rest3]; [discriminate |].
      destruct (one "," d); [eapply IHm; eassumption |].
      destruct (one "}" d); [| discriminate].
      inv H. cbn [keysInOrder]. rewrite Hord', Hacc'. reflexivity.
Qed.

(** Every object [JSON.parse] returns has its keys in order. *)
Lemma parse_keysInOrder (text : jsstring) (v : json) :
  JSON.parse text = Some v -> keysInOrder v = true.
Proof.
  unfold JSON.parse. intros H.
  destruct (JSON.parseValue (2 * length text + 2) text) as [[x rest] |] eqn:Hx;
    [| discriminate].
  destruct (JSON.skipWs rest); [| discriminate]. inv H.
  eapply (proj1 (parse_keysInOrder_fuel _)). exact Hx.
Qed.

(* ================================================================== *)
(** * From [generatePolicy] to the Validate button *)
(* ================================================================== *)

Lemma collapse_plain (l : list jsstring) :
  keysInOrder (collapse l) = true /\ numbersStable (collapse l) = true.
Proof.
  assert (H : forall l, forallb keysInOrder (List.map JString l) = true
                        /\ forallb numbersStable (List.map JString l) = true).
  { clear. induction l as [| x l [IH1 IH2]]; [split; reflexivity |].
    cbn. rewrite IH1, IH2. split; reflexivity. }
  destruct l as [| x [| y l]]; try (split; reflexivity).
  unfold collapse. cbn [keysInOrder numbersStable]. apply H.
Qed.

Lemma generated_document_plain (form : Form) (now : N) (extra : list (jsstring * json)) :
  (extra = []
   \/ exists condition,
        extra = [(lit "Condition", condition)]
        /\ keysInOrder condition = true /\ numbersStable condition = true) ->
  keysInOrder (policyDocument (baseStatement form now ++ extra)) = true
  /\ numbersStable (policyDocument (baseStatement form now ++ extra)) = true.
Proof.
  intros Hextra.
  destruct (collapse_plain (mergedActions form)) as [Ha1 Ha2].
  destruct (collapse_plain
              (buildResources (trimmedBucket form) (pathOf form) (mergedActions form)))
    as [Hr1 Hr2].
  unfold policyDocument, baseStatement.
  destruct Hextra as [-> | (condition & -> & Hc1 & Hc2)]; split;
    cbn [app keysInOrder numbersStable forallb snd List.map fst];
    rewrite ?Ha1, ?Ha2, ?Hr1, ?Hr2, ?Hc1, ?Hc2; reflexivity.
Qed.

Lemma generated_text_parses (form : Form) (now : N) (policy : json) :
  generatePolicy form now = Generated policy ->
  (forall condition,
      conditionText form <> [] ->
      JSON.parse (conditionText form) = Some condition ->
      numbersStable condition = true) ->
  JSON.parse (stringify policy) = Some policy.
Proof.
  intros Hgen Hnum.
  destruct (generated_inv form now policy Hgen) as (_ & _ & H).
  assert (Hplain : keysInOrder policy = true /\ numbersStable policy = true).
  { destruct H as [[_ ->] | (condition & Hne & Hparse & ->)].
    - rewrite <- (app_nil_r (baseStatement form now)).
      apply generated_document_plain. left. reflexivity.
    - apply generated_document_plain. right. exists condition.
      split; [reflexivity |]. split.
      + eapply parse_keysInOrder. exact Hparse.
      + apply Hnum; assumption. }
  destruct Hplain as [Hk Hn]. unfold JSON.parse, stringify.
  pose proof (serialize_length policy Hn []) as Hlen.
  pose proof (serialize_reads policy Hk Hn [] [] (2 * length (serialize [] policy) + 2)
                eq_refl eq_refl ltac:(lia)) as Hread.
  rewrite app_nil_r in Hread. rewrite Hread. reflexivity.
Qed.

(** X21.  The text [generatePolicy] writes to [policyOutput] is read back
    by [JSON.parse] as the document that was built, so the Validate button
    reports on that text what [validatePolicy]'s checks find in the
    document; this holds when every number of the parsed condition is
    written the way it is read (a number beyond the range of a double is
    written [null]). *)
Theorem generatePolicy_text_reads_back
    (form : Form) (now : N) (policy : json) (before syntaxMessage : jsstring) :
  generatePolicy form now = Generated policy ->
  (forall condition,
      conditionText form <> [] ->
      JSON.parse (conditionText form) = Some condition ->
      numbersStable condition = true) ->
  JSON.parse (policyOutput before (generatePolicy form now)) = Some policy
  /\ validatePolicyText syntaxMessage (policyOutput before (generatePolicy form now))
     = option_map displayResults (validatePolicy policy).
Proof.
  intros Hgen Hnum.
  pose proof (generated_text_parses form now policy Hgen Hnum) as Hparse.
  rewrite Hgen. cbn [policyOutput]. split; [exact Hparse |].
  unfold validatePolicyText. rewrite Hparse.
  destruct (validatePolicy policy); reflexivity.
Qed.

Lemma generatePolicy_text_reads_back_witness :
  JSON.parse (policyOutput (lit "{}") (generatePolicy numericConditionForm 42))
  = Some (policyDocument
            (baseStatement numericConditionForm 42
             ++ [(lit "Condition",
                  JObject [(lit "NumericLessThan",
                            JObject [(lit "s3:max-keys", JNumber (lit "10"))])])]))
  /\ validatePolicyText (lit "Unexpected token")
       (policyOutput (lit "{}") (generatePolicy numericConditionForm 42))
     = option_map displayResults
         (validatePolicy
            (policyDocument
               (baseStatement numericConditionForm 42
                ++ [(lit "Condition",
                     JObject [(lit "NumericLessThan",
                               JObject [(lit "s3:max-keys", JNumber (lit "10"))])])]))).
Proof.
  apply (generatePolicy_text_reads_back numericConditionForm 42).
  - vm_compute. reflexivity.
  - intros condition _ H.
    assert (E : condition
                = JObject [(lit "NumericLessThan",
                            JObject [(lit "s3:max-keys", JNumber (lit "10"))])]).
    { vm_compute in H. injection H as <-. reflexivity. }
    rewrite E. vm_compute. reflexivity.
Defined.

(** X22.  Generate, then Validate: for a form with a valid bucket name, the
    effect Allow or Deny, actions the validator knows, a resource path that
    neither starts with a slash nor holds two in a row, and a condition
    that is blank or parses to a falsy value or to an object of recognised
    operators over objects, with numbers written the way they are read,
    [validatePolicy] on the text of [policyOutput] calls [showNotification]
    with the message that the policy is valid: the banner gets that text
    and the green background, and a timer of 3000 ms is set to hide it.
    How long the banner stays is another matter: the timer of an earlier
    notification may hide it sooner. *)
Theorem generate_then_validate
    (form : Form) (now : N) (policy : json) (before syntaxMessage : jsstring) :
  generatePolicy form now = Generated policy ->
  (policyEffect form = lit "Allow" \/ policyEffect form = lit "Deny") ->
  Forall (fun a => In a validS3Actions) (mergedActions form) ->
  JS.includes (lit "/" ++ pathOf form) (lit "//") = false ->
  (forall condition,
      conditionText form <> [] ->
      JSON.parse (conditionText form) = Some condition ->
      (Val.truthy (Some condition) = false \/ conditionAccepted condition = true)
      /\ numbersStable condition = true) ->
  validatePolicyText syntaxMessage (policyOutput before (generatePolicy form now))
  = Some (mkNotification
            (checkBox ++ lit " Policy is valid and follows AWS best practices!")
            (lit "#28a745") 3000%N).
Proof.
  intros Hgen Heffect Hknown Hpath Hcond.
  assert (Hparse : JSON.parse (stringify policy) = Some policy).
  { apply (generated_text_parses form now policy Hgen).
    intros condition Hne Hp. apply (Hcond condition Hne Hp). }
  destruct (generated_inv form now policy Hgen) as [Hbucket [Hactions H]].
  assert (Hextra : exists extra,
             policy = policyDocument (baseStatement form now ++ extra)
             /\ (extra = []
                 \/ exists condition,
                      extra = [(lit "Condition", condition)]
                      /\ (Val.truthy (Some condition) = false
                          \/ conditionAccepted condition = true))).
  { destruct H as [[_ ->] | [condition [Hne [Hp ->]]]].
    - exists []. rewrite app_nil_r. auto.
    - exists [(lit "Condition", condition)]. split; [reflexivity |].
      right. exists condition. split; [reflexivity |].
      apply (Hcond condition Hne Hp). }
  destruct Hextra as [extra [E Hextra]].
  assert (Hsilent : validatePolicy policy = Some emptyLog).
  { rewrite E, validatePolicy_document.
    apply (Silent_generated_statement form now extra
             Hbucket Heffect Hactions Hknown Hpath Hextra). }
  rewrite Hgen. cbn [policyOutput].
  unfold validatePolicyText. rewrite Hparse, Hsilent. reflexivity.
Qed.

Lemma generate_then_validate_witness :
  validatePolicyText (lit "Unexpected token")
    (policyOutput (lit "{}") (generatePolicy stringLikeConditionForm 42))
  = Some (mkNotification
            (checkBox ++ lit " Policy is valid and follows AWS best practices!")
            (lit "#28a745") 3000%N).
Proof.
  apply (generate_then_validate stringLikeConditionForm 42
           (policyDocument
              (baseStatement stringLikeConditionForm 42
               ++ [(lit "Condition",
                    JObject [(lit "StringLike",
                              JObject [(lit "s3:prefix",
                                        JArray [JString (lit "a/*")])])])]))).
  - vm_compute. reflexivity.
  - left; reflexivity.
  - constructor; [right; left; reflexivity | constructor].
  - reflexivity.
  - intros condition _ H.
    assert (E : condition
                = JObject [(lit "StringLike",
                            JObject [(lit "s3:prefix", JArray [JString (lit "a/*")])])]).
    { vm_compute in H. injection H as <-. reflexivity. }
    rewrite E. split; [right |]; vm_compute; reflexivity.
Defined.

(* ================================================================== *)
(** * Templates *)
(* ================================================================== *)

Lemma shape_uncheckAll (l : list Input) :
  List.map shape (uncheckAll l) = List.map shape l.
Proof.
  unfold uncheckAll. rewrite map_map. apply map_ext.
  intros i. destruct (isCheckbox i) eqn:E; [| reflexivity].
  unfold shape. cbn. rewrite E. reflexivity.
Qed.

Lemma shape_checkFirst (a : jsstring) (l : list Input) :
  List.map shape (checkFirst a l) = List.map shape l.
Proof.
  induction l as [| i l IH]; [reflexivity |].
  cbn [checkFirst]. destruct (Opt.strictEq (valueAttribute i) a).
  - reflexivity.
  - cbn [List.map]. rewrite IH. reflexivity.
Qed.

Lemma shape_fold (actions : list jsstring) (l : list Input) :
  List.map shape (fold_left (fun inputs action => checkFirst action inputs) actions l)
  = List.map shape l.
Proof.
  revert l. induction actions as [| a actions IH]; intros l; [reflexivity |].
  cbn [fold_left]. rewrite IH. apply shape_checkFirst.
Qed.

Lemma hasCheckbox_shape (a : jsstring) (l l' : list Input) :
  List.map shape l = List.map shape l' -> hasCheckbox l a -> hasCheckbox l' a.
Proof.
  unfold hasCheckbox, firstWithValue.
  revert l'. induction l as [| i l IH]; intros [| i' l'] E; try discriminate.
  - intros H. exact H.
  - cbn [List.map] in E. injection E as Ec Ev E.
    cbn [find]. rewrite <- Ev.
    destruct (Opt.strictEq (valueAttribute i) a).
    + intros (j & Hj & Hc). inv Hj. exists i'. split; [reflexivity | congruence].
    + apply IH. exact E.
Qed.

Lemma strictEq_Some (x : option jsstring) (s : jsstring) :
  Opt.strictEq x s = true <-> x = Some s.
Proof.
  unfold Opt.strictEq. destruct x as [t |]; [| split; discriminate].
  rewrite eqb_spec. split; congruence.
Qed.

(** After [checkFirst], the first input with that value is checked. *)
Lemma checkFirst_checks (a : jsstring) (l : list Input) :
  hasCheckbox l a -> Exists (fun i => checkedBox i = true) (checkFirst a l).
Proof.
  unfold hasCheckbox, firstWithValue.
  induction l as [| i l IH]; intros (j & Hj & Hc); [discriminate |].
  cbn [find checkFirst] in *.
  destruct (Opt.strictEq (valueAttribute i) a).
  - inv Hj. left. unfold checkedBox. cbn. rewrite Hc. reflexivity.
  - right. apply IH. exists j. auto.
Qed.

(** [checkFirst] unchecks nothing. *)
Lemma checkFirst_keeps (a : jsstring) (l : list Input) :
  Exists (fun i => checkedBox i = true) l ->
  Exists (fun i => checkedBox i = true) (checkFirst a l).
Proof.
  induction 1 as [i l H | i l H IH]; cbn [checkFirst];
    destruct (Opt.strictEq (valueAttribute i) a).
  - left. unfold checkedBox in *. cbn.
    apply andb_true_iff in H. destruct H as [-> _]. reflexivity.
  - left. exact H.
  - right. exact H.
  - right. exact IH.
Qed.

Lemma fold_keeps (actions : list jsstring) (l : list Input) :
  Exists (fun i => checkedBox i = true) l ->
  Exists (fun i => checkedBox i = true)
    (fold_left (fun inputs action => checkFirst action inputs) actions l).
Proof.
  revert l. induction actions as [| a actions IH]; intros l H; [exact H |].
  cbn [fold_left]. apply IH, checkFirst_keeps, H.
Qed.

Lemma fold_checks (actions : list jsstring) (l : list Input) (a : jsstring) :
  In a actions -> hasCheckbox l a ->
  Exists (fun i => checkedBox i = true)
    (fold_left (fun inputs action => checkFirst action inputs) actions l).
Proof.
  revert l. induction actions as [| b actions IH]; intros l Hin Hbox; [destruct Hin |].
  cbn [fold_left]. destruct Hin as [-> | Hin].
  - apply fold_keeps, checkFirst_checks, Hbox.
  - apply IH; [exact Hin |].
    apply hasCheckbox_shape with (l := l); [| exact Hbox].
    symmetry. apply shape_checkFirst.
Qed.

(** Every checked checkbox carries the value of an action processed. *)
Lemma checkFirst_values (P : jsstring -> Prop) (a : jsstring) (l : list Input) :
  P a ->
  Forall (fun i => checkedBox i = true -> exists v, valueAttribute i = Some v /\ P v) l ->
  Forall (fun i => checkedBox i = true -> exists v, valueAttribute i = Some v /\ P v)
    (checkFirst a l).
Proof.
  intros Ha. induction 1 as [| i l Hi Hl IH]; [constructor |].
  cbn [checkFirst]. destruct (Opt.strictEq (valueAttribute i) a) eqn:E.
  - constructor; [| exact Hl].
    intros _. exists a. split; [| exact Ha]. cbn. apply strictEq_Some. exact E.
  - constructor; assumption.
Qed.

Lemma fold_values (P : jsstring -> Prop) (actions : list jsstring) (l : list Input) :
  Forall P actions ->
  Forall (fun i => checkedBox i = true -> exists v, valueAttribute i = Some v /\ P v) l ->
  Forall (fun i => checkedBox i = true -> exists v, valueAttribute i = Some v /\ P v)
    (fold_left (fun inputs action => checkFirst action inputs) actions l).
Proof.
  intros Hall. revert l. induction Hall as [| a actions Ha _ IH]; intros l H; [exact H |].
  cbn [fold_left]. apply IH, checkFirst_values; assumption.
Qed.

Lemma uncheckAll_values (P : jsstring -> Prop) (l : list Input) :
  Forall (fun i => checkedBox i = true -> exists v, valueAttribute i = Some v /\ P v)
    (uncheckAll l).
Proof.
  unfold uncheckAll. apply Forall_forall. intros i Hin.
  apply in_map_iff in Hin. destruct Hin as (j & <- & _).
  unfold checkedBox. destruct (isCheckbox j) eqn:E; cbn; rewrite E; discriminate.
Qed.

Lemma checked_values (P : jsstring -> Prop) (l : list Input) :
  Forall (fun i => checkedBox i = true -> exists v, valueAttribute i = Some v /\ P v) l ->
  Forall P (List.map inputValue (filter (fun i => isCheckbox i && inputChecked i) l)).
Proof.
  induction 1 as [| i l Hi _ IH]; [constructor |].
  cbn [filter]. fold (checkedBox i). destruct (checkedBox i) eqn:E; [| exact IH].
  cbn [List.map]. constructor; [| exact IH].
  destruct (Hi eq_refl) as (v & Ev & Hv). unfold inputValue. rewrite Ev. exact Hv.
Qed.

Lemma checked_some (l : list Input) :
  Exists (fun i => checkedBox i = true) l ->
  List.map inputValue (filter (fun i => isCheckbox i && inputChecked i) l) <> [].
Proof.
  induction 1 as [i l H | i l _ IH]; cbn [filter]; fold (checkedBox i).
  - rewrite H. discriminate.
  - destruct (checkedBox i); [discriminate | exact IH].
Qed.

(** The four templates: Allow, every object, actions the validator knows. *)
Lemma templates_known (name : jsstring) (template : Template) :
  ownTemplate name templates = Some template ->
  templateEffect template = lit "Allow"
  /\ templateResourcePath template = lit "*"
  /\ Forall (fun a => In a validS3Actions) (templateActions template).
Proof.
  unfold templates. cbn [ownTemplate].
  intros H.
  repeat match type of H with
         | (if ?b then _ else _) = _ => destruct b
         end; try discriminate; inv H;
    (split; [reflexivity |]); (split; [reflexivity |]);
    apply Forall_forall; intros a Hin; apply arrayIncludes_In;
    cbn [templateActions In] in Hin;
    repeat (destruct Hin as [<- | Hin]; [vm_compute; reflexivity |]);
    destruct Hin.
Qed.

Lemma lookupTemplate_own (name : jsstring) (template : Template) :
  ownTemplate name templates = Some template ->
  lookupTemplate name = OwnTemplate template.
Proof. unfold lookupTemplate. intros ->. reflexivity. Qed.

Lemma selectValue_option (options : list jsstring) (v : jsstring) :
  In v options -> selectValue options v = v.
Proof.
  intros H. unfold selectValue.
  rewrite (proj2 (arrayIncludes_In options v) H). reflexivity.
Qed.

(** X23.  A template gives a valid policy.  On any page whose effect select
    has the option Allow and which has, for at least one action of the
    template, a checkbox as the first input with that value: with a valid
    bucket name typed and nothing in the custom actions and the condition,
    [loadTemplate] followed by [generatePolicy] sets [currentPolicy] and
    writes its text to [policyOutput]; the checked actions are actions of
    the template; the document passes [validatePolicy] without error or
    warning, and [validatePolicy] on the page shows the green notification
    that the policy is valid. *)
Theorem loadTemplate_then_generate
    (name : jsstring) (template : Template) (page : Page) (now : N)
    (syntaxMessage : jsstring) :
  ownTemplate name templates = Some template ->
  In (lit "Allow") (effectOptions page) ->
  bucket_isValid (validateBucketName (JS.trim (pageBucketName page))) = true ->
  JS.trim (pageCustomActions page) = [] ->
  JS.trim (pageCondition page) = [] ->
  Exists (hasCheckbox (pageInputs page)) (templateActions template) ->
  exists loaded policy validated,
    loadTemplate name page = Returned loaded
    /\ Forall (fun a => In a (templateActions template)) (checkedActions (formOf loaded))
    /\ currentPolicy (generatePolicyOn now loaded) = Some policy
    /\ pagePolicyOutput (generatePolicyOn now loaded) = Stringify.stringify policy
    /\ validatePolicy policy = Some emptyLog
    /\ validatePolicyOn syntaxMessage (generatePolicyOn now loaded) = Returned validated
    /\ pageNotification validated
       = Some (mkNotification
                 (checkBox ++ lit " Policy is valid and follows AWS best practices!")
                 (lit "#28a745") 3000%N).
Proof.
  intros Hown Hallow Hbucket Hcustom Hcondition Hbox.
  destruct (templates_known name template Hown) as (Heffect & Hpath & Hknown).
  unfold loadTemplate. rewrite (lookupTemplate_own name template Hown).
  cbv zeta.
  set (inputs := fold_left (fun inputs action => checkFirst action inputs)
                   (templateActions template) (uncheckAll (pageInputs page))).
  match goal with
  | |- exists loaded policy validated, Returned ?p = Returned loaded /\ _ =>
      set (loaded := p)
  end.
  set (form := formOf loaded).
  assert (Echecked : checkedActions form
                     = List.map inputValue
                         (filter (fun i => isCheckbox i && inputChecked i) inputs))
    by reflexivity.
  assert (Hin : Forall (fun a => In a (templateActions template)) (checkedActions form)).
  { rewrite Echecked. apply checked_values. unfold inputs.
    apply fold_values; [| apply uncheckAll_values].
    apply Forall_forall. auto. }
  assert (Hsome : checkedActions form <> []).
  { rewrite Echecked. apply checked_some. unfold inputs.
    apply Exists_exists in Hbox. destruct Hbox as (a & Ha & Hbox).
    apply (fold_checks _ _ a Ha).
    apply hasCheckbox_shape with (l := pageInputs page); [| exact Hbox].
    symmetry. apply shape_uncheckAll. }
  assert (Emerged : mergedActions form = checkedActions form).
  { unfold mergedActions, collectActions.
    change (customActionsInput form) with (pageCustomActions page).
    rewrite Hcustom. reflexivity. }
  assert (Eeffect : policyEffect form = lit "Allow").
  { change (policyEffect form)
      with (selectValue (effectOptions page) (templateEffect template)).
    rewrite Heffect. apply selectValue_option. exact Hallow. }
  assert (Epath : pathOf form = lit "*").
  { unfold pathOf. change (resourcePathInput form) with (templateResourcePath template).
    rewrite Hpath. reflexivity. }
  assert (Htrimmed : trimmedBucket form = JS.trim (pageBucketName page)) by reflexivity.
  assert (Haccepted : bucketAccepted form = true).
  { unfold bucketAccepted. rewrite Htrimmed, Hbucket, andb_true_r.
    apply truthyString_true. apply (bucket_not_empty _ Hbucket). }
  assert (Econdition : conditionText form = []) by exact Hcondition.
  assert (Hgen : generatePolicy form now
                 = Generated (policyDocument (baseStatement form now))).
  { rewrite generatePolicy_cases.
    apply andb_true_iff in Haccepted. destruct Haccepted as [-> ->].
    cbn [negb]. rewrite Emerged, Econdition.
    destruct (length (checkedActions form) =? 0) eqn:E; [| reflexivity].
    apply length_zero in E. contradiction. }
  assert (Hsilent : validatePolicy (policyDocument (baseStatement form now))
                    = Some emptyLog).
  { rewrite <- (app_nil_r (baseStatement form now)), validatePolicy_document.
    apply (Silent_generated_statement form now []).
    - exact Haccepted.
    - left. exact Eeffect.
    - rewrite Emerged. exact Hsome.
    - rewrite Emerged. eapply Forall_impl; [| exact Hin].
      intros a Ha. rewrite Forall_forall in Hknown. apply Hknown, Ha.
    - rewrite Epath. reflexivity.
    - left. reflexivity. }
  assert (Hparse : JSON.parse (Stringify.stringify (policyDocument (baseStatement form now)))
                   = Some (policyDocument (baseStatement form now))).
  { apply (generated_text_parses form now _ Hgen).
    intros condition Hne. rewrite Econdition in Hne. contradiction. }
  assert (Egenerated :
            generatePolicyOn now loaded
            = notify (lit "Policy generated successfully!") (lit "success")
                (withPolicy
                   (Stringify.stringify (policyDocument (baseStatement form now)))
                   (Some (policyDocument (baseStatement form now))) loaded)).
  { unfold generatePolicyOn.
    change (JS.trim (pageBucketName loaded)) with (JS.trim (pageBucketName page)).
    rewrite Hbucket.
    rewrite (proj2 (truthyString_true _) (bucket_not_empty _ Hbucket)).
    cbn [negb]. fold form. rewrite Hgen. reflexivity. }
  exists loaded, (policyDocument (baseStatement form now)).
  eexists.
  split; [reflexivity |]. split; [exact Hin |].
  rewrite Egenerated.
  split; [reflexivity |]. split; [reflexivity |]. split; [exact Hsilent |].
  unfold validatePolicyOn.
  change (pagePolicyOutput _)
    with (Stringify.stringify (policyDocument (baseStatement form now))).
  unfold validatePolicyText. rewrite Hparse, Hsilent.
  split; reflexivity.
Qed.

Lemma loadTemplate_then_generate_witness :
  exists loaded policy validated,
    loadTemplate (lit "crossAccount") samplePage = Returned loaded
    /\ Forall (fun a => In a [lit "s3:GetObject"; lit "s3:ListBucket"])
         (checkedActions (formOf loaded))
    /\ currentPolicy (generatePolicyOn 42 loaded) = Some policy
    /\ pagePolicyOutput (generatePolicyOn 42 loaded) = Stringify.stringify policy
    /\ validatePolicy policy = Some emptyLog
    /\ validatePolicyOn (lit "Unexpected token") (generatePolicyOn 42 loaded)
       = Returned validated
    /\ pageNotification validated
       = Some (mkNotification
                 (checkBox ++ lit " Policy is valid and follows AWS best practices!")
                 (lit "#28a745") 3000%N).
Proof.
  apply (loadTemplate_then_generate (lit "crossAccount")
           (mkTemplate (lit "Allow") [lit "s3:GetObject"; lit "s3:ListBucket"] (lit "*")
              (lit "Cross-account access"))
           samplePage 42 (lit "Unexpected token")).
  - reflexivity.
  - left. reflexivity.
  - vm_compute. reflexivity.
  - reflexivity.
  - reflexivity.
  - left. eexists. split; reflexivity.
Defined.

(* ================================================================== *)
(** * The categories after a template *)
(* ================================================================== *)

Lemma nth_error_setNth (A : Type) (l : list A) (n m : nat) (x : A) :
  nth_error (setNth n x l) m
  = if n =? m then option_map (fun _ => x) (nth_error l m) else nth_error l m.
Proof.
  revert n m. induction l as [| y l IH]; intros n m.
  - destruct n, m; cbn; try reflexivity. destruct (n =? m); reflexivity.
  - destruct n as [| n], m as [| m]; cbn [setNth nth_error Nat.eqb option_map];
      try reflexivity.
    apply IH.
Qed.

Lemma expandAll_nth (categories : list nat) (collapsed : list bool) (c : nat) :
  nth_error (expandAll categories collapsed) c
  = if existsb (Nat.eqb c) categories
    then option_map (fun _ => false) (nth_error collapsed c)
    else nth_error collapsed c.
Proof.
  unfold expandAll. revert collapsed.
  induction categories as [| d categories IH]; intros collapsed; [reflexivity |].
  cbn [fold_left existsb]. rewrite IH, nth_error_setNth.
  rewrite (Nat.eqb_sym c d).
  destruct (d =? c), (existsb (Nat.eqb c) categories);
    cbn [orb]; destruct (nth_error collapsed c); reflexivity.
Qed.

Lemma categoriesToExpand_In (inputs : list Input) (collapsed : list bool) (c : nat) :
  In c (categoriesToExpand inputs collapsed)
  <-> nth_error collapsed c = Some true
      /\ exists i, In i inputs /\ checkedBox i = true /\ isS3Action i = true
                   /\ actionCategory i = Some c.
Proof.
  unfold categoriesToExpand. rewrite in_flat_map. split.
  - intros (i & Hin & H). fold (checkedBox i) in H.
    destruct (checkedBox i) eqn:Hc; [| destruct H].
    destruct (isS3Action i) eqn:Hs; [| destruct H]. cbn [andb] in H.
    destruct (actionCategory i) as [d |] eqn:Hd; [| destruct H].
    destruct (nth_error collapsed d) as [[|] |] eqn:Hn; cbn in H; try contradiction.
    destruct H as [<- | []].
    split; [exact Hn |]. exists i. auto.
  - intros (Hn & i & Hin & Hc & Hs & Hd). exists i. split; [exact Hin |].
    fold (checkedBox i). rewrite Hc, Hs, Hd, Hn. left. reflexivity.
Qed.

(** X24.  After [loadTemplate] has loaded a template, no checked
    [s3-action] checkbox is left inside a collapsed category, and a
    category is changed only by being expanded for such a checkbox. *)
Theorem loadTemplate_expands_categories
    (name : jsstring) (template : Template) (page loaded : Page) :
  ownTemplate name templates = Some template ->
  loadTemplate name page = Returned loaded ->
  (forall i c,
      In i (pageInputs loaded) -> checkedBox i = true -> isS3Action i = true ->
      actionCategory i = Some c ->
      nth_error (pageCollapsed loaded) c <> Some true)
  /\ (forall c,
        nth_error (pageCollapsed loaded) c = nth_error (pageCollapsed page) c
        \/ (nth_error (pageCollapsed page) c = Some true
            /\ nth_error (pageCollapsed loaded) c = Some false
            /\ exists i, In i (pageInputs loaded) /\ checkedBox i = true
                         /\ isS3Action i = true /\ actionCategory i = Some c)).
Proof.
  intros Hown. unfold loadTemplate. rewrite (lookupTemplate_own name template Hown).
  cbv zeta. intros H. inv H.
  set (inputs := fold_left (fun inputs action => checkFirst action inputs)
                   (templateActions template) (uncheckAll (pageInputs page))).
  change ((forall i c,
             In i inputs -> checkedBox i = true -> isS3Action i = true ->
             actionCategory i = Some c ->
             nth_error (expandAll (categoriesToExpand inputs (pageCollapsed page))
                          (pageCollapsed page)) c <> Some true)
         /\ (forall c,
               nth_error (expandAll (categoriesToExpand inputs (pageCollapsed page))
                            (pageCollapsed page)) c
               = nth_error (pageCollapsed page) c
               \/ (nth_error (pageCollapsed page) c = Some true
                   /\ nth_error (expandAll (categoriesToExpand inputs (pageCollapsed page))
                                   (pageCollapsed page)) c = Some false
                   /\ exists i, In i inputs /\ checkedBox i = true
                                /\ isS3Action i = true /\ actionCategory i = Some c))).
  split.
  - intros i c Hin Hc Hs Hd. rewrite expandAll_nth.
    destruct (existsb (Nat.eqb c) (categoriesToExpand inputs (pageCollapsed page)))
      eqn:E.
    + destruct (nth_error (pageCollapsed page) c); discriminate.
    + intros Hn.
      assert (In c (categoriesToExpand inputs (pageCollapsed page))).
      { apply categoriesToExpand_In. split; [exact Hn |]. exists i. auto. }
      assert (existsb (Nat.eqb c) (categoriesToExpand inputs (pageCollapsed page)) = true).
      { apply existsb_exists. exists c. split; [assumption | apply Nat.eqb_refl]. }
      congruence.
  - intros c. rewrite expandAll_nth.
    destruct (existsb (Nat.eqb c) (categoriesToExpand inputs (pageCollapsed page)))
      eqn:E; [| left; reflexivity].
    apply existsb_exists in E. destruct E as (d & Hd & E).
    apply Nat.eqb_eq in E. subst d.
    apply categoriesToExpand_In in Hd. destruct Hd as (Hn & Hi).
    right. rewrite Hn. auto.
Qed.

Lemma loadTemplate_expands_categories_witness :
  (forall i c,
      In i (pageInputs (pageAfter (loadTemplate (lit "crossAccount") samplePage))) ->
      checkedBox i = true -> isS3Action i = true ->
      actionCategory i = Some c ->
      nth_error (pageCollapsed (pageAfter (loadTemplate (lit "crossAccount") samplePage))) c
      <> Some true)
  /\ (forall c,
        nth_error (pageCollapsed (pageAfter (loadTemplate (lit "crossAccount") samplePage))) c
        = nth_error (pageCollapsed samplePage) c
        \/ (nth_error (pageCollapsed samplePage) c = Some true
            /\ nth_error
                 (pageCollapsed (pageAfter (loadTemplate (lit "crossAccount") samplePage))) c
               = Some false
            /\ exists i,
                 In i (pageInputs (pageAfter (loadTemplate (lit "crossAccount") samplePage)))
                 /\ checkedBox i = true
                 /\ isS3Action i = true /\ actionCategory i = Some c)).
Proof.
  apply (loadTemplate_expands_categories (lit "crossAccount")
           (mkTemplate (lit "Allow") [lit "s3:GetObject"; lit "s3:ListBucket"] (lit "*")
              (lit "Cross-account access"))
           samplePage (pageAfter (loadTemplate (lit "crossAccount") samplePage))).
  - reflexivity.
  - reflexivity.
Defined.

(* ================================================================== *)
(** * The policy shown and the keyboard shortcuts *)
(* ================================================================== *)

(** A key press runs one shortcut at most. *)
Lemma onKeyDown_cases (event : KeyEvent) (now : N) (confirmed : bool)
    (syntaxMessage : jsstring) (page : Page) :
  onKeyDown event now confirmed syntaxMessage page
  = if shortcut event "s" then
      match currentPolicy page with
      | Some _ =>
          Returned (notify (lit "Policy downloaded! (Ctrl/Cmd+S)") (lit "success")
                      (downloadPolicy page))
      | None =>
          Returned (notify (lit "Generate a policy first before downloading (Ctrl/Cmd+S)")
                      (lit "warning") page)
      end
    else if shortcut event "v" then
      match currentPolicy page with
      | Some _ => validatePolicyOn syntaxMessage page
      | None =>
          Returned (notify (lit "Generate a policy first before validating (Ctrl/Cmd+V)")
                      (lit "warning") page)
      end
    else if shortcut event "c"
            && negb (JS.arrayIncludes [lit "INPUT"; lit "TEXTAREA"] (targetTagName event))
    then
      match currentPolicy page with
      | Some _ => Returned (copyPolicy page)
      | None => Returned page
      end
    else if shortcut event "g" then Returned (generatePolicyOn now page)
    else if shortcut event "k" then Returned (clearForm confirmed page)
    else if shortcut event "/" then Returned (notify shortcutsHelp (lit "success") page)
    else Returned page.
Proof.
  unfold onKeyDown, shortcut.
  destruct (ctrlKey event || metaKey event); cbn [andb thenRun]; [| reflexivity].
  destruct (JS.eqb (eventKey event) (lit "s")) eqn:Es.
  { apply eqb_spec in Es. rewrite Es.
    destruct (currentPolicy page); reflexivity. }
  cbn [thenRun].
  destruct (JS.eqb (eventKey event) (lit "v")) eqn:Ev.
  { apply eqb_spec in Ev. rewrite Ev.
    destruct (currentPolicy page); [| reflexivity].
    destruct (validatePolicyOn syntaxMessage page); reflexivity. }
  cbn [thenRun].
  destruct (JS.eqb (eventKey event) (lit "c")) eqn:Ec.
  { apply eqb_spec in Ec. rewrite Ec. cbn [andb].
    destruct (negb (JS.arrayIncludes [lit "INPUT"; lit "TEXTAREA"] (targetTagName event)));
      [| reflexivity].
    destruct (currentPolicy page); reflexivity. }
  cbn [andb thenRun].
  destruct (JS.eqb (eventKey event) (lit "g")) eqn:Eg.
  { apply eqb_spec in Eg. rewrite Eg. reflexivity. }
  cbn [thenRun].
  destruct (JS.eqb (eventKey event) (lit "k")) eqn:Ek.
  { apply eqb_spec in Ek. rewrite Ek. reflexivity. }
  reflexivity.
Qed.

Lemma shows_same (page page' : Page) :
  currentPolicy page' = currentPolicy page ->
  pagePolicyOutput page' = pagePolicyOutput page ->
  ShowsCurrentPolicy page -> ShowsCurrentPolicy page'.
Proof.
  unfold ShowsCurrentPolicy. intros -> ->. auto.
Qed.

Lemma shows_none (page : Page) :
  currentPolicy page = None -> ShowsCurrentPolicy page.
Proof. unfold ShowsCurrentPolicy. intros ->. discriminate. Qed.

Lemma shows_generate (now : N) (page : Page) :
  ShowsCurrentPolicy page -> ShowsCurrentPolicy (generatePolicyOn now page).
Proof.
  intros H. unfold generatePolicyOn.
  destruct (negb (truthyString (JS.trim (pageBucketName page))));
    [apply (shows_same page); [reflexivity | reflexivity | exact H] |].
  destruct (negb (bucket_isValid (validateBucketName (JS.trim (pageBucketName page)))));
    [apply (shows_same page); [reflexivity | reflexivity | exact H] |].
  destruct (generatePolicy (formOf page) now) as [message | policy] eqn:E;
    [apply (shows_same page); [reflexivity | reflexivity | exact H] |].
  intros p Hp. cbn in Hp. inv Hp. split; [reflexivity |].
  exists (formOf page), now. exact E.
Qed.

Lemma shows_clear (confirmed : bool) (page : Page) :
  ShowsCurrentPolicy page -> ShowsCurrentPolicy (clearForm confirmed page).
Proof.
  intros H. destruct confirmed; [| exact H]. apply shows_none. reflexivity.
Qed.

Lemma shows_loadTemplate (name : jsstring) (page : Page) :
  ShowsCurrentPolicy page -> ShowsCurrentPolicy (pageAfter (loadTemplate name page)).
Proof.
  intros H. unfold loadTemplate.
  destruct (lookupTemplate name);
    (apply (shows_same page); [reflexivity | reflexivity | exact H]).
Qed.

Lemma shows_validate (syntaxMessage : jsstring) (page : Page) :
  ShowsCurrentPolicy page ->
  ShowsCurrentPolicy (pageAfter (validatePolicyOn syntaxMessage page)).
Proof.
  intros H. unfold validatePolicyOn.
  destruct (validatePolicyText syntaxMessage (pagePolicyOutput page));
    (apply (shows_same page); [reflexivity | reflexivity | exact H]).
Qed.

Lemma shows_keyDown (event : KeyEvent) (now : N) (confirmed : bool)
    (syntaxMessage : jsstring) (page : Page) :
  ShowsCurrentPolicy page ->
  ShowsCurrentPolicy (pageAfter (onKeyDown event now confirmed syntaxMessage page)).
Proof.
  intros H. rewrite onKeyDown_cases.
  repeat match goal with
         | |- context [if ?b then _ else _] => destruct b
         end;
    try (destruct (currentPolicy page) eqn:E);
    try (apply shows_validate; exact H);
    try (apply shows_generate; exact H);
    try (apply shows_clear; exact H);
    try (apply (shows_same page); [try reflexivity; exact E | reflexivity | exact H]);
    try exact H.
Qed.

Lemma shows_happen (page : Page) (h : Happening) :
  editsOutput h = false ->
  ShowsCurrentPolicy page -> ShowsCurrentPolicy (happen page h).
Proof.
  intros Hh H. destruct h; cbn [happen].
  - apply (shows_same page); [reflexivity | reflexivity | exact H].
  - discriminate Hh.
  - unfold toggleCategory. destruct category as [c |]; [| exact H].
    destruct (nth_error (pageCollapsed page) c); [| exact H].
    apply (shows_same page); [reflexivity | reflexivity | exact H].
  - apply shows_loadTemplate, H.
  - apply shows_generate, H.
  - apply shows_validate, H.
  - apply shows_clear, H.
  - apply (shows_same page); [reflexivity | reflexivity | exact H].
  - destruct fulfilled; (apply (shows_same page); [reflexivity | reflexivity | exact H]).
  - apply (shows_same page); [reflexivity | reflexivity | exact H].
  - apply (shows_same page); [reflexivity | reflexivity | exact H].
  - apply (shows_same page); [reflexivity | reflexivity | exact H].
  - apply shows_keyDown, H.
Qed.

Lemma shows_all (happenings : list Happening) (page : Page) :
  forallb (fun h => negb (editsOutput h)) happenings = true ->
  ShowsCurrentPolicy page -> ShowsCurrentPolicy (fold_left happen happenings page).
Proof.
  revert page.
  induction happenings as [| h happenings IH]; intros page Hall H; [exact H |].
  cbn [forallb] in Hall. apply andb_true_iff in Hall. destruct Hall as [Hh Hall].
  apply negb_true_iff in Hh.
  cbn [fold_left]. apply IH; [exact Hall |]. apply shows_happen; assumption.
Qed.

(** X25.  Whatever the user and the script do (typing and ticking, editing
    the output by hand, templates, generating, validating, clearing,
    copying, downloading, key presses), a key press saves no file or one
    file, and hands no text or one text to [clipboard.writeText]; it does
    so only while [currentPolicy] is set, and the text is the present text
    of [policyOutput].  From a page that shows its current policy, and as
    long as the output is not edited by hand, [currentPolicy], when set, is
    a document [generatePolicy] built and [policyOutput] shows its
    [JSON.stringify] text: the text saved or copied is then the text of
    that document. *)
Theorem shortcuts_take_the_current_policy
    (happenings : list Happening) (page : Page)
    (event : KeyEvent) (now : N) (confirmed : bool) (syntaxMessage : jsstring) :
  (pageDownloads
     (pageAfter (onKeyDown event now confirmed syntaxMessage
                   (fold_left happen happenings page)))
   = pageDownloads (fold_left happen happenings page)
   \/ exists policy name,
        currentPolicy (fold_left happen happenings page) = Some policy
        /\ pageDownloads
             (pageAfter (onKeyDown event now confirmed syntaxMessage
                           (fold_left happen happenings page)))
           = pageDownloads (fold_left happen happenings page)
             ++ [(name, pagePolicyOutput (fold_left happen happenings page))])
  /\ (pageClipboard
        (pageAfter (onKeyDown event now confirmed syntaxMessage
                      (fold_left happen happenings page)))
      = pageClipboard (fold_left happen happenings page)
      \/ exists policy,
           currentPolicy (fold_left happen happenings page) = Some policy
           /\ pageClipboard
                (pageAfter (onKeyDown event now confirmed syntaxMessage
                              (fold_left happen happenings page)))
              = pageClipboard (fold_left happen happenings page)
                ++ [pagePolicyOutput (fold_left happen happenings page)])
  /\ (ShowsCurrentPolicy page ->
      forallb (fun h => negb (editsOutput h)) happenings = true ->
      ShowsCurrentPolicy (fold_left happen happenings page)).
Proof.
  set (reached := fold_left happen happenings page) in *.
  assert (Hkey :
    (pageDownloads (pageAfter (onKeyDown event now confirmed syntaxMessage reached))
     = pageDownloads reached
     \/ exists policy name,
          currentPolicy reached = Some policy
          /\ pageDownloads
               (pageAfter (onKeyDown event now confirmed syntaxMessage reached))
             = pageDownloads reached ++ [(name, pagePolicyOutput reached)])
    /\ (pageClipboard (pageAfter (onKeyDown event now confirmed syntaxMessage reached))
        = pageClipboard reached
        \/ exists policy,
             currentPolicy reached = Some policy
             /\ pageClipboard
                  (pageAfter (onKeyDown event now confirmed syntaxMessage reached))
                = pageClipboard reached ++ [pagePolicyOutput reached])).
  { rewrite onKeyDown_cases.
    assert (Hgen : forall now, pageDownloads (generatePolicyOn now reached)
                               = pageDownloads reached
                               /\ pageClipboard (generatePolicyOn now reached)
                                  = pageClipboard reached).
    { intros n. unfold generatePolicyOn.
      repeat match goal with
             | |- context [if ?b then _ else _] => destruct b
             end; try (split; reflexivity).
      destruct (generatePolicy (formOf reached) n); split; reflexivity. }
    assert (Hclear : pageDownloads (clearForm confirmed reached) = pageDownloads reached
                     /\ pageClipboard (clearForm confirmed reached)
                        = pageClipboard reached).
    { destruct confirmed; split; reflexivity. }
    assert (Hval : pageDownloads (pageAfter (validatePolicyOn syntaxMessage reached))
                   = pageDownloads reached
                   /\ pageClipboard (pageAfter (validatePolicyOn syntaxMessage reached))
                      = pageClipboard reached).
    { unfold validatePolicyOn.
      destruct (validatePolicyText syntaxMessage (pagePolicyOutput reached));
        split; reflexivity. }
    destruct (shortcut event "s").
    { destruct (currentPolicy reached) as [policy |] eqn:E.
      - split; [right | left; reflexivity].
        exists policy. eexists. split; reflexivity.
      - split; left; reflexivity. }
    destruct (shortcut event "v").
    { destruct (currentPolicy reached) as [policy |] eqn:E.
      - split; left; apply Hval.
      - split; left; reflexivity. }
    destruct (shortcut event "c"
              && negb (JS.arrayIncludes [lit "INPUT"; lit "TEXTAREA"]
                         (targetTagName event))).
    { destruct (currentPolicy reached) as [policy |] eqn:E.
      - split; [left; reflexivity | right].
        exists policy. split; reflexivity.
      - split; left; reflexivity. }
    destruct (shortcut event "g"); [split; left; apply Hgen |].
    destruct (shortcut event "k"); [split; left; apply Hclear |].
    destruct (shortcut event "/"); split; left; reflexivity. }
  destruct Hkey as [Hsave Hcopy].
  split; [exact Hsave |]. split; [exact Hcopy |].
  intros Hshows Hall. apply shows_all; assumption.
Qed.

Lemma shortcuts_take_the_current_policy_witness :
  ShowsCurrentPolicy (fold_left happen sampleSession samplePage)
  /\ (pageDownloads
        (pageAfter (onKeyDown (mkKeyEvent true false (lit "s") (lit "BODY")) 43 true
                      (lit "Unexpected token")
                      (fold_left happen sampleSession samplePage)))
      = pageDownloads (fold_left happen sampleSession samplePage)
      \/ exists policy name,
           currentPolicy (fold_left happen sampleSession samplePage) = Some policy
           /\ pageDownloads
                (pageAfter (onKeyDown (mkKeyEvent true false (lit "s") (lit "BODY")) 43
                              true (lit "Unexpected token")
                              (fold_left happen sampleSession samplePage)))
              = pageDownloads (fold_left happen sampleSession samplePage)
                ++ [(name, Stringify.stringify policy)]).
Proof.
  assert (H0 : ShowsCurrentPolicy samplePage) by (intros policy H; discriminate H).
  destruct (shortcuts_take_the_current_policy sampleSession samplePage
              (mkKeyEvent true false (lit "s") (lit "BODY")) 43 true
              (lit "Unexpected token"))
    as (Hsave & _ & Hshown).
  specialize (Hshown H0 eq_refl).
  split; [exact Hshown |].
  destruct Hsave as [Hsame | (policy & name & E & Hsaved)]; [left; exact Hsame |].
  right. exists policy, name. split; [exact E |].
  rewrite Hsaved. destruct (Hshown policy E) as [-> _]. reflexivity.
Defined.

(** The output edited by hand after a policy has been generated:
    Ctrl/Cmd+S saves the edited text under the bucket's name, while
    [currentPolicy] is still the generated document, whose text is another. *)
Example edited_output_is_what_is_saved :
  pageDownloads
    (pageAfter (onKeyDown (mkKeyEvent true false (lit "s") (lit "BODY")) 43 true
                  (lit "Unexpected token")
                  (fold_left happen editedSession samplePage)))
  = [(lit "my-bucket-policy.json", lit "{}")]
  /\ exists policy,
       currentPolicy (fold_left happen editedSession samplePage) = Some policy
       /\ Stringify.stringify policy <> lit "{}".
Proof.
  split; [vm_compute; reflexivity |].
  eexists. split; [vm_compute; reflexivity |].
  vm_compute. discriminate.
Qed.

(* ================================================================== *)
(** * Live validation against [validatePrincipalARN] *)
(* ================================================================== *)

Ltac no_error :=
  let H := fresh "H" in
  intros H; cbv zeta in H; unfold guard in H;
  repeat match type of H with
         | (if ?c then _ else _) = Some _ => destruct c
         end;
  try discriminate H;
  unfold hintOf, successOf, warningOf in H; inv H; discriminate.

Lemma stageArnPrefix_no_error (p : jsstring) (parts : list jsstring) (s : Suggestion) :
  stageArnPrefix p parts = Some s -> suggestionType s <> AsError.
Proof. unfold stageArnPrefix. no_error. Qed.

Lemma stageArnTyped_no_error (p : jsstring) (parts : list jsstring) (s : Suggestion) :
  stageArnTyped p parts = Some s -> suggestionType s <> AsError.
Proof. unfold stageArnTyped. no_error. Qed.

Lemma stagePartition_no_error (p : jsstring) (parts : list jsstring) (s : Suggestion) :
  stagePartition p parts = Some s -> suggestionType s <> AsError.
Proof. unfold stagePartition. no_error. Qed.

Lemma stageNeedService_no_error (p : jsstring) (parts : list jsstring) (s : Suggestion) :
  stageNeedService p parts = Some s -> suggestionType s <> AsError.
Proof. unfold stageNeedService. no_error. Qed.

Lemma stageService_no_error (p : jsstring) (parts : list jsstring) (s : Suggestion) :
  stageService p parts = Some s -> suggestionType s <> AsError.
Proof. unfold stageService. no_error. Qed.

Lemma stageNeedRegion_no_error (p : jsstring) (parts : list jsstring) (s : Suggestion) :
  stageNeedRegion p parts = Some s -> suggestionType s <> AsError.
Proof. unfold stageNeedRegion. no_error. Qed.

Lemma stageRegion_no_error (p : jsstring) (parts : list jsstring) (s : Suggestion) :
  stageRegion p parts = Some s -> suggestionType s <> AsError.
Proof. unfold stageRegion. no_error. Qed.

Lemma stageNeedAccount_no_error (p : jsstring) (parts : list jsstring) (s : Suggestion) :
  stageNeedAccount p parts = Some s -> suggestionType s <> AsError.
Proof. unfold stageNeedAccount. no_error. Qed.

Lemma stageNeedResource_no_error (p : jsstring) (parts : list jsstring) (s : Suggestion) :
  stageNeedResource p parts = Some s -> suggestionType s <> AsError.
Proof. unfold stageNeedResource. no_error. Qed.

Lemma stageResource_no_error (p : jsstring) (parts : list jsstring) (s : Suggestion) :
  stageResource p parts = Some s -> suggestionType s <> AsError.
Proof. unfold stageResource. no_error. Qed.

Lemma stageServicePrincipal_no_error (p : jsstring) (s : Suggestion) :
  stageServicePrincipal p = Some s -> suggestionType s <> AsError.
Proof. unfold stageServicePrincipal. no_error. Qed.

Lemma stageWildcard_no_error (p : jsstring) (s : Suggestion) :
  stageWildcard p = Some s -> suggestionType s <> AsError.
Proof. unfold stageWildcard. no_error. Qed.

Lemma stageAccount_parts (p : jsstring) (parts : list jsstring) (s : Suggestion) :
  stageAccount p parts = Some s -> length parts = 5.
Proof.
  unfold stageAccount, guard.
  destruct (length parts =? 5) eqn:E; [| discriminate].
  intros _. apply Nat.eqb_eq. exact E.
Qed.

Lemma stageDigits_error (p : jsstring) (s : Suggestion) :
  stageDigits p = Some s -> suggestionType s = AsError ->
  forallb digit p = true /\ 12 < length p.
Proof.
  unfold stageDigits, guard.
  destruct (test re_digits p) eqn:E; [| discriminate].
  apply test_anchored, Matches_plus_Class in E. destruct E as [_ Hd].
  destruct (length p <? 12) eqn:E1; [intros H; inv H; discriminate |].
  destruct (length p =? 12) eqn:E2; [intros H; inv H; discriminate |].
  intros _ _. split; [exact Hd |].
  apply Nat.ltb_ge in E1. apply Nat.eqb_neq in E2. lia.
Qed.

Lemma orElse_Some (A : Type) (a b : option A) (x : A) :
  (a <|> b) = Some x -> a = Some x \/ b = Some x.
Proof. destruct a; cbn; auto. Qed.

(** Where an error of [getARNSuggestion] comes from: the account id of a
    string of five fields, or a string of more than twelve digits. *)
Lemma getARNSuggestion_error (p : jsstring) (s : Suggestion) :
  getARNSuggestion p = Some s -> suggestionType s = AsError ->
  length (JS.split (ch ":") p) = 5 \/ (forallb digit p = true /\ 12 < length p).
Proof.
  unfold getARNSuggestion.
  destruct (negb (truthyString p) || (length p =? 0));
    [intros H; inv H; discriminate |].
  intros H Herr.
  apply orElse_Some in H. destruct H as [H | H].
  - left. unfold arnStages, guard in H.
    destruct (JS.startsWith p (lit "arn:") || JS.startsWith p (lit "arn")
              || JS.startsWith p (lit "ar") || JS.startsWith p (lit "a"));
      [| discriminate].
    cbv zeta in H.
    repeat (apply orElse_Some in H; destruct H as [H | H]);
      try (eapply stageAccount_parts; exact H); exfalso.
    + eapply stageArnPrefix_no_error; eassumption.
    + eapply stageArnTyped_no_error; eassumption.
    + eapply stagePartition_no_error; eassumption.
    + eapply stageNeedService_no_error; eassumption.
    + eapply stageService_no_error; eassumption.
    + eapply stageNeedRegion_no_error; eassumption.
    + eapply stageRegion_no_error; eassumption.
    + eapply stageNeedAccount_no_error; eassumption.
    + eapply stageNeedResource_no_error; eassumption.
    + eapply stageResource_no_error; eassumption.
  - apply orElse_Some in H. destruct H as [H | H];
      [exfalso; eapply stageServicePrincipal_no_error; eassumption |].
    apply orElse_Some in H. destruct H as [H | H];
      [exfalso; eapply stageWildcard_no_error; eassumption |].
    right. eapply stageDigits_error; eassumption.
Qed.

Lemma ipcldBlock_accepts (parts : list jsstring) :
  isValid (finish (ipcldBlock parts emptyLog)) = true -> 6 <= length parts.
Proof.
  unfold ipcldBlock. cbv zeta. cbn [finish]. rewrite isValid_returnLog.
  destruct (Nat.le_gt_cases 6 (length parts)) as [H | H]; [intros _; exact H |].
  assert (E : JS.slice 5 parts = []).
  { unfold JS.slice. apply skipn_all2. lia. }
  rewrite E. cbn [JS.join truthyString negb orb].
  intros Herr. apply (f_equal (@length jsstring)) in Herr.
  rewrite log_errors_pushError, length_app in Herr. cbn in Herr. lia.
Qed.

Lemma awsBlock_accepts (principal : jsstring) (partition : option jsstring) :
  log_errors (awsBlock principal (JS.split (ch ":") principal) partition emptyLog) = [] ->
  6 <= length (JS.split (ch ":") principal).
Proof.
  unfold awsBlock.
  destruct (test arnRegex principal) eqn:E; cbn [negb]; [| discriminate].
  intros _. apply arnRegex_spec in E.
  destruct E as (p & s & r & a & res & -> & Hshape).
  destruct (ArnShape_noColon _ _ _ _ _ Hshape) as (Hp & Hs & Hr & Ha).
  rewrite split_arnOf by assumption. rewrite length_app. cbn [length].
  pose proof (split_not_nil (ch ":") res).
  destruct (JS.split (ch ":") res); [congruence | cbn; lia].
Qed.

(** An ARN [validatePrincipalARN] accepts has six fields or more. *)
Lemma accepted_arn_parts (principal : jsstring) :
  JS.startsWith principal (lit "arn:") = true ->
  isValid (validatePrincipalARN principal) = true ->
  6 <= length (JS.split (ch ":") principal).
Proof.
  intros Harn. rewrite (validatePrincipalARN_arn principal Harn).
  rewrite (service_principal_not_arn principal Harn).
  destruct (looksLikeServicePrincipal principal).
  - destruct (arnBlock_after_error principal msg_service_format) as (_ & _ & ->).
    discriminate.
  - unfold arnBlock. cbv zeta.
    destruct (Opt.strictEq (nth_error (JS.split (ch ":") principal) 1) (lit "ipcld")).
    + apply ipcldBlock_accepts.
    + cbn [finish]. rewrite isValid_returnLog. apply awsBlock_accepts.
Qed.

Lemma no_colon_parts (principal : jsstring) :
  JS.includes principal (lit ":") = false -> JS.split (ch ":") principal = [principal].
Proof.
  intros H. apply split_no_sep. apply forallb_forall. intros c Hin.
  apply negb_true_iff, N.eqb_neq. intros ->.
  assert (JS.includes principal [ch ":"] = true) by (apply includes_char; exact Hin).
  change (lit ":") with [ch ":"] in H. congruence.
Qed.

(** X26.  Live validation does not turn away what the validator accepts:
    for a principal that [validatePrincipalARN] accepts and that is an ARN
    (it starts with [arn:]) or holds no colon, [updatePrincipalValidation]
    returns no error and does not mark the input invalid, a string of more
    than twelve digits excepted (such a string of 64 digits is a canonical
    id for the validator and an over-long account id for the live
    validation). *)
Theorem updatePrincipalValidation_no_false_error (value : jsstring) (v : FieldView) :
  isValid (validatePrincipalARN (JS.trim value)) = true ->
  (JS.startsWith (JS.trim value) (lit "arn:") = true
   \/ JS.includes (JS.trim value) (lit ":") = false) ->
  (forallb digit (JS.trim value) = true -> length (JS.trim value) <= 12) ->
  errors (fst (updatePrincipalValidation value v)) = []
  /\ classInvalid (snd (updatePrincipalValidation value v)) = false.
Proof.
  intros Hvalid Hform Hdigits. unfold updatePrincipalValidation. cbv zeta.
  destruct (negb (truthyString (JS.trim value))); [split; reflexivity |].
  destruct (getARNSuggestion (JS.trim value)) as [s |] eqn:Es.
  - destruct (suggestionType s) eqn:Et; try (split; reflexivity).
    exfalso.
    destruct (getARNSuggestion_error _ _ Es Et) as [Hparts | [Hd Hlen]].
    + destruct Hform as [Harn | Hnone].
      * pose proof (accepted_arn_parts _ Harn Hvalid). lia.
      * rewrite (no_colon_parts _ Hnone) in Hparts. discriminate.
    + specialize (Hdigits Hd). lia.
  - cbn [fst snd]. rewrite Hvalid. cbn [andb].
    split; [apply (validatePrincipalARN_consistent (JS.trim value)); exact Hvalid |].
    destruct (length (warnings (validatePrincipalARN (JS.trim value)))) eqn:E;
      reflexivity.
Qed.

Lemma updatePrincipalValidation_no_false_error_witness :
  errors (fst (updatePrincipalValidation
                 (lit " arn:aws:iam::123456789012:instance-profile/web ") sampleView))
  = []
  /\ classInvalid
       (snd (updatePrincipalValidation
               (lit " arn:aws:iam::123456789012:instance-profile/web ") sampleView))
     = false.
Proof.
  apply (updatePrincipalValidation_no_false_error
           (lit " arn:aws:iam::123456789012:instance-profile/web ") sampleView).
  - vm_compute. reflexivity.
  - left. vm_compute. reflexivity.
  - vm_compute. discriminate.
Defined.

(** The two exceptions: a canonical id of 64 digits, and a dotted string of
    five fields that starts with [a]; the validator accepts both, the live
    validation marks both invalid. *)
Example live_validation_rejects_digit_canonical_id :
  let id := repeat (ch "7") 64 in
  isValid (validatePrincipalARN id) = true
  /\ classInvalid (snd (updatePrincipalValidation id sampleView)) = true.
Proof. vm_compute. split; reflexivity. Qed.

Example live_validation_rejects_dotted_fields :
  isValid (validatePrincipalARN (lit "a:b:c:d:1.x")) = true
  /\ classInvalid (snd (updatePrincipalValidation (lit "a:b:c:d:1.x") sampleView)) = true.
Proof. vm_compute. split; reflexivity. Qed.

(* ================================================================== *)
(** * Notifications *)
(* ================================================================== *)

Lemma timer_removed (A : Type) (k : nat) (timers : list A) :
  k < length timers -> S (length (removeNth k timers)) = length timers.
Proof.
  revert k. induction timers as [| x timers IH]; intros k H; [cbn in H; lia |].
  destruct k as [| k]; [reflexivity |].
  cbn [removeNth length] in *. rewrite IH by lia. reflexivity.
Qed.

Lemma removeNth_keeps (A : Type) (k : nat) (timers : list A) (x : A) :
  k < length timers -> In x (removeNth k (timers ++ [x])).
Proof.
  revert k. induction timers as [| y timers IH]; intros k H; [cbn in H; lia |].
  destruct k as [| k]; cbn [removeNth app].
  - apply in_or_app. right. left. reflexivity.
  - right. apply IH. cbn in H. lia.
Qed.

Lemma bannerRun_timers (events : list BannerEvent) (b b' : Banner) :
  bannerRun events b = Some b' ->
  length (hideTimers b') + firedIn events = length (hideTimers b) + showsIn events.
Proof.
  revert b. induction events as [| e events IH]; intros b H.
  - inv H. cbn. lia.
  - cbn [bannerRun] in H.
    destruct (bannerStep b e) as [b1 |] eqn:E; [| discriminate].
    specialize (IH b1 H).
    destruct e as [message type | k | ms]; cbn [bannerStep] in E.
    + inv E. unfold showsIn, firedIn in *. cbn [filter length hideTimers showNotificationAt] in *.
      rewrite length_app in IH. cbn [length] in IH. lia.
    + unfold hideTimerFires in E.
      destruct (nth_error (hideTimers b) k) as [due |] eqn:En; [| discriminate].
      destruct (due <=? bannerClock b)%N; [| discriminate].
      injection E as <-.
      assert (Hk : k < length (hideTimers b)).
      { apply nth_error_Some. congruence. }
      pose proof (timer_removed N k (hideTimers b) Hk) as Hrem.
      unfold showsIn, firedIn in *. cbn [filter length hideTimers] in *. lia.
    + inv E. unfold showsIn, firedIn in *. cbn [filter length hideTimers timePasses] in *.
      exact IH.
Qed.

(** X27.  [showNotification] never cancels a timer: after any history the
    timers still waiting are the calls made less the timers fired; and a
    notification shown while an earlier timer waits is hidden when that
    timer fires, which is sooner than its own delay whenever that timer is
    due sooner, its own timer being left to wait. *)
Theorem showNotification_keeps_earlier_timers
    (events : list BannerEvent) (b : Banner) (k : nat) (due : N)
    (message type : jsstring) :
  bannerRun events initialBanner = Some b ->
  nth_error (hideTimers b) k = Some due ->
  (bannerClock b <= due)%N ->
  length (hideTimers b) + firedIn events = showsIn events
  /\ exists b',
       bannerRun [Shows message type; Passes (due - bannerClock b); HideTimer k] b
       = Some b'
       /\ bannerContent b' = Some (showNotification message type)
       /\ bannerShown b' = false
       /\ bannerClock b' = due
       /\ In (bannerClock b + notificationTimeout (showNotification message type))%N
            (hideTimers b').
Proof.
  intros Hrun Hk Hdue.
  split; [apply (bannerRun_timers events initialBanner b Hrun) |].
  assert (Hlt : k < length (hideTimers b)) by (apply nth_error_Some; congruence).
  cbn [bannerRun bannerStep]. unfold hideTimerFires.
  cbn [hideTimers timePasses showNotificationAt bannerClock].
  rewrite nth_error_app1 by exact Hlt. rewrite Hk.
  replace (due <=? bannerClock b + (due - bannerClock b))%N with true
    by (symmetry; apply N.leb_le; lia).
  eexists. split; [reflexivity |].
  cbn [bannerContent bannerShown bannerClock hideTimers].
  repeat split.
  - lia.
  - apply removeNth_keeps. exact Hlt.
Qed.

Lemma showNotification_keeps_earlier_timers_witness :
  length (hideTimers (mkBanner 1000 (Some (showNotification (lit "Policy generated successfully!")
                                             (lit "success")))
                        true [3000%N]))
  + firedIn [Shows (lit "Policy generated successfully!") (lit "success"); Passes 1000]
  = showsIn [Shows (lit "Policy generated successfully!") (lit "success"); Passes 1000]
  /\ exists b',
       bannerRun [Shows (lit "Invalid JSON in Condition field") (lit "error");
                  Passes (3000 - 1000); HideTimer 0]
         (mkBanner 1000 (Some (showNotification (lit "Policy generated successfully!")
                                 (lit "success")))
            true [3000%N])
       = Some b'
       /\ bannerContent b'
          = Some (showNotification (lit "Invalid JSON in Condition field") (lit "error"))
       /\ bannerShown b' = false
       /\ bannerClock b' = 3000%N
       /\ In (1000 + notificationTimeout
                       (showNotification (lit "Invalid JSON in Condition field")
                          (lit "error")))%N
            (hideTimers b').
Proof.
  apply (showNotification_keeps_earlier_timers
           [Shows (lit "Policy generated successfully!") (lit "success"); Passes 1000]
           (mkBanner 1000 (Some (showNotification (lit "Policy generated successfully!")
                                   (lit "success")))
              true [3000%N])
           0 3000%N
           (lit "Invalid JSON in Condition field") (lit "error")).
  - reflexivity.
  - reflexivity.
  - vm_compute. discriminate.
Defined.

(* ================================================================== *)
(** * The marks of the two text fields *)
(* ================================================================== *)

(** Both functions clear the marks first: what they leave depends on the
    marks before through the inline style alone. *)
Lemma updateBucketNameValidation_style (value : jsstring) (v1 v2 : FieldView) :
  messageStyle v1 = messageStyle v2 ->
  updateBucketNameValidation value v1 = updateBucketNameValidation value v2.
Proof.
  intros H. unfold updateBucketNameValidation, clearView. rewrite H. reflexivity.
Qed.

Lemma updateBucketNameValidation_again (value : jsstring) (v : FieldView) :
  snd (updateBucketNameValidation value (snd (updateBucketNameValidation value v)))
  = snd (updateBucketNameValidation value v).
Proof.
  f_equal. apply updateBucketNameValidation_style.
  unfold updateBucketNameValidation.
  destruct (negb (truthyString (JS.trim value))); [reflexivity |].
  destruct (bucket_isValid (validateBucketName (JS.trim value))); reflexivity.
Qed.

Lemma updatePrincipalValidation_again (value : jsstring) (v : FieldView) :
  snd (updatePrincipalValidation value (snd (updatePrincipalValidation value v)))
  = snd (updatePrincipalValidation value v).
Proof.
  unfold updatePrincipalValidation.
  destruct (negb (truthyString (JS.trim value))); [reflexivity |].
  destruct (getARNSuggestion (JS.trim value)) as [s |].
  - destruct (suggestionType s); reflexivity.
  - destruct (isValid (validatePrincipalARN (JS.trim value))
              && (length (warnings (validatePrincipalARN (JS.trim value))) =? 0));
      [reflexivity |].
    destruct (isValid (validatePrincipalARN (JS.trim value))
              && (0 <? length (warnings (validatePrincipalARN (JS.trim value)))));
      reflexivity.
Qed.

Lemma blank_trim (value : jsstring) :
  (0 <? length (JS.trim value)) = false -> JS.trim value = [].
Proof.
  intros H. apply Nat.ltb_ge in H. destruct (JS.trim value); [reflexivity | cbn in H; lia].
Qed.

Lemma updateBucketNameValidation_blank (value : jsstring) (v : FieldView) :
  JS.trim value = [] ->
  snd (updateBucketNameValidation value (clearView v)) = clearView v.
Proof.
  intros H. unfold updateBucketNameValidation. rewrite H. reflexivity.
Qed.

(** ** What keeps the marks of a field current *)

Lemma bucketName_same (page page' : Page) :
  pageBucketName page' = pageBucketName page ->
  bucketNameValidation page' = bucketNameValidation page ->
  BucketNameChecked page -> BucketNameChecked page'.
Proof.
  unfold BucketNameChecked. intros -> ->. trivial.
Qed.

Lemma bucketName_refreshed (page page' : Page) :
  pageBucketName page' = pageBucketName page ->
  bucketNameValidation page'
  = snd (updateBucketNameValidation (pageBucketName page) (bucketNameValidation page)) ->
  BucketNameChecked page'.
Proof.
  unfold BucketNameChecked. intros -> ->.
  symmetry. apply updateBucketNameValidation_again.
Qed.

Lemma bucketName_cleared (page page' : Page) :
  JS.trim (pageBucketName page') = [] ->
  bucketNameValidation page' = clearView (bucketNameValidation page) ->
  BucketNameChecked page'.
Proof.
  unfold BucketNameChecked. intros H ->.
  symmetry. apply updateBucketNameValidation_blank, H.
Qed.

Lemma principal_same (page page' : Page) :
  pagePrincipal page' = pagePrincipal page ->
  principalValidation page' = principalValidation page ->
  PrincipalChecked page -> PrincipalChecked page'.
Proof.
  unfold PrincipalChecked. intros -> ->. trivial.
Qed.

Lemma principal_refreshed (page page' : Page) :
  pagePrincipal page' = pagePrincipal page ->
  principalValidation page'
  = snd (updatePrincipalValidation (pagePrincipal page) (principalValidation page)) ->
  PrincipalChecked page'.
Proof.
  unfold PrincipalChecked. intros -> ->. left.
  symmetry. apply updatePrincipalValidation_again.
Qed.

Lemma principal_cleared (page page' : Page) :
  JS.trim (pagePrincipal page') = [] ->
  principalValidation page' = clearView (principalValidation page) ->
  PrincipalChecked page'.
Proof.
  unfold PrincipalChecked. intros H ->. right. split; [exact H | reflexivity].
Qed.

Lemma checked_generate (now : N) (page : Page) :
  (BucketNameChecked page -> BucketNameChecked (generatePolicyOn now page))
  /\ (PrincipalChecked page -> PrincipalChecked (generatePolicyOn now page)).
Proof.
  unfold generatePolicyOn.
  destruct (negb (truthyString (JS.trim (pageBucketName page)))).
  { split; intros H;
      [apply (bucketName_same page) | apply (principal_same page)];
      (reflexivity || exact H). }
  destruct (negb (bucket_isValid (validateBucketName (JS.trim (pageBucketName page))))).
  { split; intros H.
    - apply (bucketName_refreshed page); reflexivity.
    - apply (principal_same page); (reflexivity || exact H). }
  destruct (generatePolicy (formOf page) now);
    (split; intros H;
      [apply (bucketName_same page) | apply (principal_same page)];
      (reflexivity || exact H)).
Qed.

Lemma checked_clear (confirmed : bool) (page : Page) :
  (BucketNameChecked page -> BucketNameChecked (clearForm confirmed page))
  /\ (PrincipalChecked page -> PrincipalChecked (clearForm confirmed page)).
Proof.
  destruct confirmed; cbn [clearForm]; [| tauto].
  split; intros _.
  - apply (bucketName_cleared page); reflexivity.
  - apply (principal_cleared page); reflexivity.
Qed.

Lemma checked_loadTemplate (name : jsstring) (page : Page) :
  (BucketNameChecked page -> BucketNameChecked (pageAfter (loadTemplate name page)))
  /\ (PrincipalChecked page -> PrincipalChecked (pageAfter (loadTemplate name page))).
Proof.
  unfold loadTemplate.
  destruct (lookupTemplate name); cbn [pageAfter].
  - split; intros _.
    + apply (bucketName_refreshed page); reflexivity.
    + apply (principal_refreshed page); reflexivity.
  - split; intros H;
      [apply (bucketName_same page) | apply (principal_same page)];
      (reflexivity || exact H).
  - tauto.
Qed.

Lemma checked_validate (syntaxMessage : jsstring) (page : Page) :
  (BucketNameChecked page
   -> BucketNameChecked (pageAfter (validatePolicyOn syntaxMessage page)))
  /\ (PrincipalChecked page
      -> PrincipalChecked (pageAfter (validatePolicyOn syntaxMessage page))).
Proof.
  unfold validatePolicyOn.
  destruct (validatePolicyText syntaxMessage (pagePolicyOutput page)); cbn [pageAfter];
    [| tauto].
  split; intros H;
    [apply (bucketName_same page) | apply (principal_same page)];
    (reflexivity || exact H).
Qed.

Lemma checked_keyDown (event : KeyEvent) (now : N) (confirmed : bool)
    (syntaxMessage : jsstring) (page : Page) :
  (BucketNameChecked page
   -> BucketNameChecked (pageAfter (onKeyDown event now confirmed syntaxMessage page)))
  /\ (PrincipalChecked page
      -> PrincipalChecked (pageAfter (onKeyDown event now confirmed syntaxMessage page))).
Proof.
  rewrite onKeyDown_cases.
  repeat match goal with
         | |- context [if ?b then _ else _] => destruct b
         end;
    try (destruct (currentPolicy page));
    try apply checked_validate;
    try apply checked_generate;
    try apply checked_clear;
    try tauto;
    (split; intros H;
      [apply (bucketName_same page) | apply (principal_same page)];
      (reflexivity || exact H)).
Qed.

Lemma checked_happen (page : Page) (h : Happening) :
  (BucketNameChecked page -> BucketNameChecked (happen page (elsewhere page h)))
  /\ (PrincipalChecked page -> PrincipalChecked (happen page (elsewhere page h))).
Proof.
  destruct h; cbn [elsewhere happen];
    try apply checked_loadTemplate;
    try apply checked_generate;
    try apply checked_validate;
    try apply checked_clear;
    try apply checked_keyDown.
  - split; intros H;
      [apply (bucketName_same page) | apply (principal_same page)];
      (reflexivity || exact H).
  - split; intros H;
      [apply (bucketName_same page) | apply (principal_same page)];
      (reflexivity || exact H).
  - unfold toggleCategory. destruct category as [c |]; [| tauto].
    destruct (nth_error (pageCollapsed page) c); [| tauto].
    split; intros H;
      [apply (bucketName_same page) | apply (principal_same page)];
      (reflexivity || exact H).
  - split; intros H;
      [apply (bucketName_same page) | apply (principal_same page)];
      (reflexivity || exact H).
  - destruct fulfilled;
      (split; intros H;
        [apply (bucketName_same page) | apply (principal_same page)];
        (reflexivity || exact H)).
  - split; intros H;
      [apply (bucketName_same page) | apply (principal_same page)];
      (reflexivity || exact H).
  - split; intros H.
    + apply (bucketName_refreshed page); reflexivity.
    + apply (principal_same page); (reflexivity || exact H).
  - split; intros H.
    + apply (bucketName_same page); (reflexivity || exact H).
    + apply (principal_refreshed page); reflexivity.
Qed.

(** ** The timers *)

Lemma call_leaves_one (Args : Type) (wait : nat) (args : Args) (w : World Args) :
  timers (executedFunction wait args w) <> [].
Proof.
  unfold executedFunction. cbn. intros H. apply app_eq_nil in H.
  destruct H as [_ H]. discriminate.
Qed.

Lemma marks_settled (events : list AppEvent) (app app' : App) :
  Settled unit validationDelay (bucketNameTimers app) ->
  Settled unit validationDelay (principalTimers app) ->
  (timers (bucketNameTimers app) = [] -> BucketNameChecked (appPage app)) ->
  (timers (principalTimers app) = [] -> PrincipalChecked (appPage app)) ->
  appRun events app = Some app' ->
  Settled unit validationDelay (bucketNameTimers app')
  /\ Settled unit validationDelay (principalTimers app')
  /\ (timers (bucketNameTimers app') = [] -> BucketNameChecked (appPage app'))
  /\ (timers (principalTimers app') = [] -> PrincipalChecked (appPage app')).
Proof.
  revert app. induction events as [| e rest IH]; intros app Sb Sp Hb Hp E; cbn in E.
  { injection E as <-. split; [| split; [| split]]; assumption. }
  destruct (appStep app e) as [app1 |] eqn:E1; [| discriminate].
  destruct app as [page wb wp]. cbn [appPage bucketNameTimers principalTimers] in *.
  destruct e; cbn [appStep appPage bucketNameTimers principalTimers] in E1.
  - injection E1 as <-.
    refine (IH _ _ _ _ _ E); cbn [appPage bucketNameTimers principalTimers].
    + apply Settled_call, Sb.
    + exact Sp.
    + intros H. destruct (call_leaves_one _ _ _ _ H).
    + intros H. apply (principal_same page); auto.
  - injection E1 as <-.
    refine (IH _ _ _ _ _ E); cbn [appPage bucketNameTimers principalTimers].
    + exact Sb.
    + exact Sp.
    + intros H. unfold bucketNameBlur.
      destruct (0 <? length (JS.trim (pageBucketName page))); [| auto].
      apply (bucketName_refreshed page); reflexivity.
    + intros H. apply (principal_same page); auto;
        unfold bucketNameBlur; destruct (0 <? _); reflexivity.
  - destruct (step validationDelay wb (Fire id)) as [w |] eqn:Ef; [| discriminate].
    injection E1 as <-.
    refine (IH _ _ _ _ _ E); cbn [appPage bucketNameTimers principalTimers].
    + exact (Settled_fire unit validationDelay id wb w Sb Ef).
    + exact Sp.
    + intros _. unfold bucketNameTimerRuns.
      destruct (0 <? length (JS.trim (pageBucketName page))) eqn:Eb.
      * apply (bucketName_refreshed page); reflexivity.
      * apply (bucketName_cleared page); [apply blank_trim, Eb | reflexivity].
    + intros H. apply (principal_same page); auto;
        unfold bucketNameTimerRuns; destruct (0 <? _); reflexivity.
  - injection E1 as <-.
    refine (IH _ _ _ _ _ E); cbn [appPage bucketNameTimers principalTimers].
    + exact Sb.
    + apply Settled_call, Sp.
    + intros H. apply (bucketName_same page); auto.
    + intros H. destruct (call_leaves_one _ _ _ _ H).
  - injection E1 as <-.
    refine (IH _ _ _ _ _ E); cbn [appPage bucketNameTimers principalTimers].
    + exact Sb.
    + exact Sp.
    + intros H. apply (bucketName_same page); auto;
        unfold principalBlur; destruct (0 <? _); reflexivity.
    + intros H. unfold principalBlur.
      destruct (0 <? length (JS.trim (pagePrincipal page))); [| auto].
      apply (principal_refreshed page); reflexivity.
  - destruct (step validationDelay wp (Fire id)) as [w |] eqn:Ef; [| discriminate].
    injection E1 as <-.
    refine (IH _ _ _ _ _ E); cbn [appPage bucketNameTimers principalTimers].
    + exact Sb.
    + exact (Settled_fire unit validationDelay id wp w Sp Ef).
    + intros H. apply (bucketName_same page); auto;
        unfold principalTimerRuns; destruct (0 <? _); reflexivity.
    + intros _. unfold principalTimerRuns.
      destruct (0 <? length (JS.trim (pagePrincipal page))) eqn:Eb.
      * apply (principal_refreshed page); reflexivity.
      * apply (principal_cleared page); [apply blank_trim, Eb | reflexivity].
  - cbn in E1. injection E1 as <-.
    refine (IH _ _ _ _ _ E); cbn [appPage bucketNameTimers principalTimers].
    + apply Settled_tick, Sb.
    + apply Settled_tick, Sp.
    + exact Hb.
    + exact Hp.
  - injection E1 as <-.
    refine (IH _ _ _ _ _ E); cbn [appPage bucketNameTimers principalTimers].
    + exact Sb.
    + exact Sp.
    + intros H. apply checked_happen, Hb, H.
    + intros H. apply checked_happen, Hp, H.
Qed.

Lemma settled_waiting (w : World unit) :
  Settled unit validationDelay w -> length (timers w) <= 1.
Proof.
  intros [[E | (id & t & a & before & E & _)] _ _ _]; rewrite E; cbn; lia.
Qed.

(** X28. With the listeners of [window.onload] in place, whatever the user
    types, leaves, loads, generates, validates, clears, copies, downloads
    or presses, and whenever the timers fire: each of the two fields has at
    most one validation waiting; as soon as none is waiting for the bucket
    name, the marks of the bucket name are the ones
    [updateBucketNameValidation] gives for the value the field has now; and
    as soon as none is waiting for the principal, the marks of the
    principal are the ones [updatePrincipalValidation] gives for its value
    now, or the field is blank and carries no marks.  The page starts with
    marks that are current. *)
Theorem marks_follow_the_fields (events : list AppEvent) (page : Page) (app : App) :
  BucketNameChecked page ->
  PrincipalChecked page ->
  appRun events (mkApp page (initialWorld unit) (initialWorld unit)) = Some app ->
  length (timers (bucketNameTimers app)) <= 1
  /\ length (timers (principalTimers app)) <= 1
  /\ (timers (bucketNameTimers app) = [] -> BucketNameChecked (appPage app))
  /\ (timers (principalTimers app) = [] -> PrincipalChecked (appPage app)).
Proof.
  intros Hb Hp E.
  destruct (marks_settled events (mkApp page (initialWorld unit) (initialWorld unit)) app)
    as (Sb & Sp & H1 & H2);
    cbn [appPage bucketNameTimers principalTimers]; auto using Settled_initial.
  split; [apply settled_waiting, Sb |].
  split; [apply settled_waiting, Sp |].
  split; assumption.
Qed.

Lemma marks_follow_the_fields_witness :
  exists app,
    appRun sampleTyping (mkApp loadedPage (initialWorld unit) (initialWorld unit))
    = Some app
    /\ timers (bucketNameTimers app) = []
    /\ timers (principalTimers app) = []
    /\ BucketNameChecked (appPage app)
    /\ PrincipalChecked (appPage app).
Proof.
  assert (E : exists app,
             appRun sampleTyping (mkApp loadedPage (initialWorld unit) (initialWorld unit))
             = Some app
             /\ timers (bucketNameTimers app) = []
             /\ timers (principalTimers app) = []).
  { eexists. split; [vm_compute; reflexivity | split; reflexivity]. }
  destruct E as (app & E & Tb & Tp).
  assert (Hb : BucketNameChecked loadedPage) by reflexivity.
  assert (Hp : PrincipalChecked loadedPage) by (right; split; reflexivity).
  destruct (marks_follow_the_fields sampleTyping loadedPage app Hb Hp E)
    as (_ & _ & H1 & H2).
  exists app. split; [exact E |]. split; [exact Tb |]. split; [exact Tp |].
  split; [exact (H1 Tb) | exact (H2 Tp)].
Defined.

(* ================================================================== *)
(** * Statements: what a field outside the vocabulary contributes *)
(* ================================================================== *)

Lemma forEachFrom_app {A} (body : A -> nat -> Check) (xs ys : list A) (i : nat)
    (l : Log) :
  forEachFrom i body (xs ++ ys) l
  = (forEachFrom i body xs ;; forEachFrom (i + length xs) body ys) l.
Proof.
  revert i l. induction xs as [| x xs IH]; intros i l; cbn [app forEachFrom length].
  - rewrite Nat.add_0_r. reflexivity.
  - rewrite <- seq_assoc. apply seq_ext; [reflexivity |]. intros l1.
    rewrite IH. replace (S i + length xs) with (i + S (length xs)) by lia.
    reflexivity.
Qed.

Lemma keys_remove (field : jsstring) (props : list (jsstring * json)) :
  List.map fst (Val.remove field props)
  = filter (fun k => negb (JS.eqb k field)) (List.map fst props).
Proof.
  unfold Val.remove. induction props as [| [k v] props IH]; cbn; [reflexivity |].
  destruct (JS.eqb k field); cbn; rewrite IH; reflexivity.
Qed.

Lemma filter_absent (field : jsstring) (keys : list jsstring) :
  ~ In field keys -> filter (fun k => negb (JS.eqb k field)) keys = keys.
Proof.
  induction keys as [| k keys IH]; intros H; cbn; [reflexivity |].
  destruct (JS.eqb k field) eqn:E.
  - apply eqb_spec in E. subst k. destruct H. left. reflexivity.
  - cbn. rewrite IH; [reflexivity |]. intros Hin. apply H. right. exact Hin.
Qed.

Lemma keys_without (field : jsstring) (props : list (jsstring * json)) :
  NoDup (List.map fst props) -> In field (List.map fst props) ->
  exists before after,
    List.map fst props = before ++ field :: after
    /\ List.map fst (Val.remove field props) = before ++ after.
Proof.
  intros Hnodup Hin. apply in_split in Hin. destruct Hin as (before & after & E).
  exists before, after. split; [exact E |].
  rewrite keys_remove, E. rewrite E in Hnodup.
  apply NoDup_remove_2 in Hnodup.
  rewrite filter_app. cbn [filter]. rewrite eqb_refl. cbn [negb].
  rewrite !filter_absent; [reflexivity | |];
    intros H; apply Hnodup, in_or_app; auto.
Qed.

Lemma not_in_vocabulary (field name : jsstring) :
  JS.arrayIncludes validStmtFields field = false ->
  In name validStmtFields -> JS.eqb name field = false.
Proof.
  intros H Hin. destruct (JS.eqb name field) eqn:E; [| reflexivity].
  apply eqb_spec in E. subst name.
  apply arrayIncludes_In in Hin. congruence.
Qed.

(** X29. A field of a statement whose name is none of the nine the
    validator knows changes the report on the statement by one warning,
    [Statement[idx]: Unknown field "name"], put where the statement's keys
    place it among the warnings about unknown fields, and by nothing else:
    the errors and every other warning are those of the statement without
    the field, and a validation that throws with the field throws without
    it.  The keys of an object are distinct. *)
Theorem unknown_field_only_warns (props : list (jsstring * json)) (idx : nat)
    (field : jsstring) :
  NoDup (List.map fst props) ->
  In field (List.map fst props) ->
  JS.arrayIncludes validStmtFields field = false ->
  Contributes
    (validateStatement (JObject (Val.remove field props)) idx emptyLog)
    (validateStatement (JObject props) idx emptyLog)
    [statementPrefix idx ++ lit ": Unknown field " ++ dq ++ field ++ dq].
Proof.
  intros Hnodup Hin Hnew.
  destruct (keys_without field props Hnodup Hin) as (before & after & Ekeys & Ekeys').
  rewrite !validateStatement_object.
  set (p := statementPrefix idx). set (stmt := JObject props).
  set (A := checkSid stmt p ;; checkEffect stmt p ;; checkPrincipal stmt p ;;
            checkNotPrincipal stmt p ;; checkActions stmt p ;; checkResources stmt p ;;
            checkCondition stmt p ;; forEachFrom 0 (checkUnknownField p) before).
  set (B := forEachFrom 0 (checkUnknownField p) after).
  set (m := p ++ lit ": Unknown field " ++ dq ++ field ++ dq).
  assert (HB : Appends B).
  { unfold B. apply Appends_forEachFrom. intros x i. unfold checkUnknownField.
    apply Appends_when, Appends_warning. }
  assert (Hname : forall name, In name validStmtFields -> JS.eqb name field = false).
  { intros name H. apply not_in_vocabulary; assumption. }
  assert (Ewith : forall l,
            checkUnknownFields stmt p l = (forEachFrom 0 (checkUnknownField p) before ;;
                                           warnAll [m] ;; B) l).
  { intros l. unfold checkUnknownFields, forEach, stmt. cbn [Val.keys].
    rewrite Ekeys, forEachFrom_app. apply seq_ext; [reflexivity |]. intros l1.
    cbn [forEachFrom]. apply seq_ext.
    - intros l2. unfold checkUnknownField. rewrite Hnew. apply (when_warning true).
    - intros l2. apply forEachFrom_shift. reflexivity. }
  assert (Ewithout : forall l,
            checkUnknownFields (JObject (Val.remove field props)) p l
            = (forEachFrom 0 (checkUnknownField p) before ;; B) l).
  { intros l. unfold checkUnknownFields, forEach. cbn [Val.keys].
    rewrite Ekeys', forEachFrom_app. apply seq_ext; [reflexivity |]. intros l1.
    apply forEachFrom_shift. reflexivity. }
  rewrite checkSid_remove, checkEffect_remove, checkPrincipal_remove,
    checkNotPrincipal_remove, checkActions_remove, checkResources_remove,
    checkCondition_remove
    by (apply Hname; cbn; tauto).
  fold stmt.
  assert (E1 : (checkSid stmt p ;; checkEffect stmt p ;; checkPrincipal stmt p ;;
                checkNotPrincipal stmt p ;; checkActions stmt p ;;
                checkResources stmt p ;; checkCondition stmt p ;;
                checkUnknownFields stmt p) emptyLog
               = (A ;; warnAll [m] ;; B) emptyLog).
  { unfold A.
    do 7 (rewrite <- seq_assoc; apply seq_ext; [reflexivity |]; intros ?).
    apply Ewith. }
  assert (E0 : (checkSid stmt p ;; checkEffect stmt p ;; checkPrincipal stmt p ;;
                checkNotPrincipal stmt p ;; checkActions stmt p ;;
                checkResources stmt p ;; checkCondition stmt p ;;
                checkUnknownFields (JObject (Val.remove field props)) p) emptyLog
               = (A ;; B) emptyLog).
  { unfold A.
    do 7 (rewrite <- seq_assoc; apply seq_ext; [reflexivity |]; intros ?).
    apply Ewithout. }
  rewrite E1, E0. apply insert_contributes. exact HB.
Qed.

Lemma unknown_field_only_warns_witness :
  Contributes
    (validateStatement
       (JObject (Val.remove (lit "Acton")
                   (sampleStatement [(lit "Acton", JString (lit "s3:PutObject"));
                                     (lit "Note", JNull)]))) 3 emptyLog)
    (validateStatement
       (JObject (sampleStatement [(lit "Acton", JString (lit "s3:PutObject"));
                                  (lit "Note", JNull)])) 3 emptyLog)
    [statementPrefix 3 ++ lit ": Unknown field " ++ dq ++ lit "Acton" ++ dq].
Proof.
  apply unknown_field_only_warns.
  - repeat (constructor; [cbn; intuition discriminate |]). constructor.
  - cbn. tauto.
  - reflexivity.
Defined.
